(* ===== verification/_CoqProject ===== *)
-Q . S2P
Prelude.v
GoFloat.v
Config.v
Blocks.v
BTCCache.v
CkptCache.v
CkptCacheProps.v
Retry.v
BTCClient.v
Window.v
Reporter.v
ReporterProps.v
ReporterCkpt.v
ReporterBootstrap.v
ReporterBootstrapProps.v
Stores.v
EpochInfo.v
Scanner.v
ScannerProps.v
Monitor.v
MonitorProps.v
Relayer.v
RelayerProps.v
Submitter.v
Instances.v
SubmitterInstances.v
TypesTheorems.v
SubmitterTheorems.v
ReporterTheorems.v
MonitorTheorems.v
Interference.v
TrackedDelegations.v
StakingTypes.v
BabylonAdapter.v
Watcher.v
WatcherProps.v
WatcherGuarantee.v
WatcherInstances.v
WatcherTheorems.v
Slasher.v
SlasherProps.v
SlasherTheorems.v
DelegationIndex.v
AtomicSlasher.v
AtomicSlasherProps.v
AtomicSlasherTheorems.v
StakingTracker.v
TrackerTheorems.v
ConfigAll.v
GenesisInfo.v
ClientWallet.v
StartupTheorems.v
Lifecycle.v
LifecycleTheorems.v
MonitorPipeline.v
MonitorPipelineProps.v
MonitorPipelineTheorems.v
Metrics.v
MetricsTheorems.v
Interrupts.v
Commands.v
CommandsTheorems.v
ConfigDump.v
ConfigDumpTheorems.v
ChangeAddress.v
SlasherShutdown.v
SlasherShutdownTheorems.v
AtomicShutdown.v
AtomicShutdownTheorems.v
WatcherShutdown.v
WatcherShutdownTheorems.v
ReporterStart.v
ReporterStartTheorems.v
Datagen.v
DatagenTheorems.v
CommandLine.v
