(* ===== verification/Prelude.v ===== *)
(** * A verification of the vigilante programs

    The vigilante suite keeps Babylon and Bitcoin consistent.  The _submitter_
    writes Babylon's checkpoints to Bitcoin, the _reporter_ relays Bitcoin
    headers and the checkpoints found in Bitcoin blocks to Babylon, the
    _monitor_ checks the checkpoints on Bitcoin against Babylon and raises
    alarms, and the _BTC staking tracker_ watches and slashes delegations.
    This development models the four programs with the types they share and
    proves what makes them correct.

    ** How the code is modelled

    A Go function is a state transformer [M S A] (this file): it returns a
    value, returns an error, panics, or exhausts the fuel of a loop, and what
    it wrote before an exit stays written.  A pointer compared with [nil] is an
    [option]; a w-bit integer is a [Z] wrapped where it may leave its range
    ([u32], [u64], [i64]); [float64] is IEEE binary64 (GoFloat).  Errors are
    trees that [errors.Is] and [errors.As] search.  A Go map ranges in an
    unspecified order, so a function that ranges over one takes the order as an
    argument and its theorems hold for every order.  Metrics are a trace of
    updates; log statements are left out.

    Code outside the repository is a type class: operations on a world [W] that
    every call may change, or pure functions.  What the programs rely on from
    it is a second class of laws: [BTCLib] (hashes and wire formats of btcd),
    [BabylonFormatter] (Babylon's checkpoint format), [BLSLib] (signatures and
    validator sets), [Retry] (retry-go, as an inductive account of the
    attempts), [KVDB]/[KVLaws] (the key-value backend), [BTCClient]/
    [BTCClientLaws] (the node, implemented by [Client] and discharged there from
    the node's own promises), [BabylonClient], [BabylonQueryClient],
    [RelayerLib], [BTCWallet]/[WalletLaws], and for the staking tracker
    [StakingLib], [StakingBTCClient], [BabylonNodeAdapter] (implemented by
    [BabylonClientAdapter] over Babylon's client), [SpendChecker] (implemented by
    [HTTPIndexerClient] over an HTTP transport), [ChainNotifier], [SlashingKeys],
    [SlashingLib], [SlasherQuery], [AtomicLib], [AtomicBabylon] and
    [AtomicEvents], and for start-up [ConfigLib], [ConfigFiles], [WalletLib],
    [NodeRPC]/[NodeLaws], [ChainNotifiers], [GenesisLib], [Prometheus]/
    [PrometheusLaws], [BabylonClients] and [FileSystem]/[FileSystemLaws].  Instances.v,
    SubmitterInstances.v, WatcherInstances.v, the beginnings of SlasherTheorems.v
    and AtomicSlasherTheorems.v, StartupTheorems.v, MetricsTheorems.v,
    CommandsTheorems.v and ConfigDumpTheorems.v give a concrete model of each, on
    which the theorems are evaluated.

    Goroutines that share state (Interference.v) are computations whose atomic
    operations each start after the others took any number of steps of a
    relation; the calls whose order matters are a trace in the state.  A
    component's step relation carries the conditions the code establishes before
    it acts; each goroutine is proved to make only such steps if the others do,
    and the invariants of the steps are the properties of every interleaving.

    ** Files and the code they model

    - GoFloat.v: [float64] arithmetic and conversions.
    - Config.v: [config/bitcoin.go], [config/submitter.go] and the record of
      [config/dbconfig.go]; ConfigAll.v: the rest of [config/] and
      [netparams/bitcoin.go].
    - ClientWallet.v: [btcclient/client.go], [btcclient/client_wallet.go],
      [btcclient/notifier.go], [types/utxo.go], [submitter/relayer/estimator.go].
    - GenesisInfo.v: [types/genesis_info.go], [types/pop.go].
    - Blocks.v: [types/indexed_block.go], [types/utils.go],
      [types/btclightclient.go].
    - BTCCache.v: [types/btccache.go], the bounded cache with its binary search, and
      the slice [GetAllBlocks] hands out, to which the cache goes on writing.
    - CkptCache.v, CkptCacheProps.v: [types/ckpt.go], [types/ckpt_segment.go],
      [types/ckpt_cache.go], [types/btccheckpoint.go].
    - EpochInfo.v: [types/epoch_info.go], [types/ckpt_record.go],
      [types/ckpt_bookkeeper.go].
    - Retry.v: [retrywrap/retry.go].
    - BTCClient.v: [btcclient/interface.go], [btcclient/query.go]; Window.v: the
      invariant of a cache that holds a window of one chain.
    - Reporter.v, ReporterProps.v, ReporterCkpt.v: [reporter/utils.go].
    - ReporterBootstrap.v, ReporterBootstrapProps.v: [reporter/bootstrapping.go],
      [reporter/block_handler.go] and the construction in [reporter/reporter.go].
      The goroutine that processes checkpoints is a pending task of the state
      that may run at any later step, on the slice it was given as it is then.
    - Stores.v: [monitor/store], [submitter/store],
      [btcstaking-tracker/btcslasher/store], [utils/serialize.go].
    - Scanner.v, ScannerProps.v: [monitor/btcscanner].
    - Monitor.v, MonitorProps.v: [monitor/monitor.go], [monitor/query.go],
      [monitor/liveness_checker.go].
    - MonitorPipeline.v, MonitorPipelineProps.v: [Start] and [Stop] of the monitor
      and of its scanner, the goroutines with their bounded channels, flags and wait
      group.
    - Relayer.v, RelayerProps.v: [submitter/relayer]; ChangeAddress.v:
      [submitter/relayer/change_address.go] and [version/version.go].
    - Submitter.v: [submitter/submitter.go], [submitter/poller], as a relation
      on the interleavings of the two goroutines.
    - Lifecycle.v: [Start], [Stop], [quitChan] and [WaitForShutdown] of the
      submitter and the reporter, with the program counters of all their goroutines:
      the poller with its blocking send, the processor, the block handler, the
      contexts of the bootstraps and the cleanup of the checkpoint cache.
    - TrackedDelegations.v: [stakingeventwatcher/tracked_delegations.go], with
      the chunked iterator; StakingTypes.v: what the tracker's parts share and
      [indexer/indexer.go]; BabylonAdapter.v:
      [stakingeventwatcher/expected_babylon_client.go]; all files of this and the
      following items are under [btcstaking-tracker].
    - Watcher.v, WatcherProps.v, WatcherGuarantee.v:
      [stakingeventwatcher/stakingeventwatcher.go], every goroutine, its steps
      and the proof that it makes only those.
    - Slasher.v, SlasherProps.v: [btcslasher/slasher.go], [slasher_utils.go],
      [bootstrapping.go], [btc_utils.go]; slashing a delegation takes a schedule of
      the steps of its two attempts, of the attempts left by earlier rounds and of the
      [select].  SlasherShutdown.v: the goroutines, the semaphore, the wait group, the
      attempts no wait group counts and [Stop] as a step relation.
    - DelegationIndex.v, AtomicSlasher.v, AtomicSlasherProps.v: [atomicslasher],
      the index with the set it refines, the witness, the adapter and the three
      routines; AtomicShutdown.v: their wait group and bounded channels and [Stop] of
      the tracker as a step relation.
    - StakingTracker.v: [tracker.go], the composition of the two slashers: the
      routines of the atomic slasher run with the others interfering before each of
      their operations, the handlers of the BTC slasher are atomic.
    - WatcherShutdown.v: the goroutines of the staking event watcher, their wait
      group, channels and activation limiter as a step relation.
    - ReporterStart.v: [reporter.go], [Start] with the notifier, the goroutines and the
      restarts, with the tickers of the metrics.
    - Metrics.v: [metrics/], every metric and the constructors on a registry.
    - Datagen.v: [testutil/datagen/reporter.go], the random chains of the tests.
    - Interrupts.v: [cmd/vigilante/cmd/utils.go], the interrupt handlers; Commands.v:
      [Run] of the four commands in [cmd/vigilante/cmd], [submitter.New] and
      [NewBTCStakingTracker]; ConfigDump.v: [SaveToYAML] and the command that dumps
      the default configuration; CommandLine.v: the commands and their flags.
    - TypesTheorems.v, ReporterTheorems.v, MonitorTheorems.v,
      SubmitterTheorems.v, WatcherTheorems.v, SlasherTheorems.v,
      AtomicSlasherTheorems.v, TrackerTheorems.v, StartupTheorems.v,
      LifecycleTheorems.v, MonitorPipelineTheorems.v, MetricsTheorems.v,
      CommandsTheorems.v, ConfigDumpTheorems.v, SlasherShutdownTheorems.v,
      AtomicShutdownTheorems.v, WatcherShutdownTheorems.v,
      ReporterStartTheorems.v, DatagenTheorems.v: the properties, each with a concrete
      instance.

    ** What the theorems show

    Types: the binary search of the block cache is correct, the cache stays
    within its bound and its operations panic in exactly the listed cases; the pairing of checkpoint halves is sound, complete and
    conserving for every map order; multi-signatures are accepted exactly for a
    supermajority; the bookkeeper refines a simple specification; the retry
    wrapper reports its last attempt; the client implements its interface; the
    stores read back what they wrote.

    Reporter: header messages cover exactly the headers Babylon lacks and are all
    sent, checkpoint processing is total, sends one message for every checkpoint the
    cache matches and drains it, the block cache is always a window of one accepted chain, and a
    bootstrap is not refused after the previous one finished.

    Monitor: the confirmed blocks form one chain, at the confirmation depth; a
    checkpoint is accepted only if it is properly signed and has the block hash of
    Babylon's; a
    conflicting one is kept for the liveness checker; epochs advance one at a
    time and survive a restart; the liveness rule is the documented one.  In every
    interleaving of its goroutines a confirmed block is received by one of two loops,
    the scanner's or the monitor's, the scanner's loop is finished with no more blocks
    than its header channel holds, and [Start] returns only after the others.

    Submitter: a checkpoint becomes two chained transactions that carry its
    data and are stored; a stored epoch is never paid twice, also after a
    restart; fee rates respect the configured limits; a replacement obeys the
    rules the code checks; checkpoints reach the relayer in order.

    Staking event watcher: in every interleaving, delegations are activated and
    unbondings reported only with the evidence the protocol asks for, the
    trackers are well typed and their counters right, no Babylon block is
    skipped, and the iterator terminates and visits each delegation once.

    Slashers: the evidence height advances only past slashed evidences and
    survives a restart; the slashed delegations are exactly the slashable ones; a
    slashing transaction is broadcast only after its output was found unspent, however
    the attempts interleave; a selective
    slasher's key is reported only when it was extracted from a slashing
    transaction on Bitcoin; the delegation index refines a set; and, for the
    composed tracker, only delegations of proved offenders are slashed.  The BTC
    slasher limits the slashings of a provider and its [Stop] cannot get stuck, though
    attempts may outlive it; the tracker's can, at a send whose reader was stopped.  [Stop] of the staking event
    watcher cannot get stuck either, but it can panic or return too early.

    Start-up: a configuration that loads gives a logger, a client and a notifier
    on known network parameters and every validated value in its range; the client's
    answers never make the slasher dereference missing details; the genesis
    information is that of a file with valid keys in one of two formats.  In
    every interleaving of starts and stops the goroutines are counted exactly and,
    but for a poller that sends, end when the channel they listen on is closed.

    Test chains: the generated chains are linked, valid and carry the checkpoints they
    are said to carry.

    Commands: a command that comes up has a valid configuration with its database;
    its metrics are registered under distinct, well-formed names; it returns only
    after every interrupt handler ran once, the last registered first; what is saved
    of a configuration determines its fields.

    Some theorems state behaviour that looks unintended: a nil dereference at
    the first confirmation, a panic of a bootstrap at the tip, an unbounded
    retry of headers, error values that are swallowed or unreachable, a first
    transaction sent again after the second failed, a refused replacement
    that still reduces the remembered change, stake expansions that become
    pending, timelock withdrawals reported as unbondings, an unchanged tip taken
    for an error, a spend handled twice, delegations counted as slashed, a depth
    that wraps, covenant signatures attributed in the wrong order, a panic at
    shutdown, a default configuration without the slasher's database, a restart that
    deadlocks, checkpoints missed because two loops share a channel, a channel of
    headers nobody reads that blocks the scanner, a monitor that cannot be stopped, a
    tracker that panics when it is interrupted, a signal that blocks a command, gauges of
    seconds that run too fast after a restart, a watcher that reports after it was
    stopped, a bootstrap's goroutine that reads blocks the cache has set to nil, a
    poller whose send blocks a restart, attempts that broadcast after the slasher was
    stopped and a dumped configuration that cannot be written into a new directory.

    ** Fuel

    Only loops without a bound in the code take fuel: the search loop of
    [FindBlock] (its fuel, the number of blocks, is proved to be enough),
    [chunkBy] (the number of items, proved to be enough for a positive chunk
    size), the re-submission loop of [ProcessHeaders] (enough when Babylon
    accepts; for a Babylon that keeps refusing, no fuel is), the wait for
    Bitcoin to catch up in [waitUntilBTCSync] and the retries of a bootstrap,
    the chunks of [DelegationsIter] (one more than the entries is proved to be
    enough), the pages of the listings of delegations and evidences (Babylon
    decides when they end), and the goroutines that run until shutdown, whose
    properties hold for every fuel.  A theorem about a result states that it is
    reached.

    ** Not modelled

    Latency observations and logging; the parsing of the command line, which is
    cobra's; YAML text, which is a tree; the one-line RPC forwards and the empty hint
    cache of [btcclient], which are its interface; accessors; generated code, mocks and
    the set-up of the end-to-end tests, which start containers and drive other
    programs. *)

From Stdlib Require Export Lia ZArith.
From stdpp Require Export strings gmap sorting prelude.

#[global] Open Scope Z_scope.
#[export] Set Default Goal Selector "!".

(** ** Go machine integers

    An unsigned or signed w-bit Go integer is a [Z] in range; every arithmetic
    operation of the source that may leave the range is wrapped explicitly. *)
Definition u8 (z : Z) : Z := z mod 2 ^ 8.
Definition u32 (z : Z) : Z := z mod 2 ^ 32.
Definition u64 (z : Z) : Z := z mod 2 ^ 64.
Definition i64 (z : Z) : Z := (z + 2 ^ 63) mod 2 ^ 64 - 2 ^ 63.

Definition is_u32 (z : Z) : Prop := 0 ≤ z < 2 ^ 32.
Definition is_u64 (z : Z) : Prop := 0 ≤ z < 2 ^ 64.
Definition is_i64 (z : Z) : Prop := - 2 ^ 63 ≤ z < 2 ^ 63.

Definition MaxInt32 : Z := 2 ^ 31 - 1.
Definition MaxUint32 : Z := 2 ^ 32 - 1.

Lemma u32_range z : is_u32 (u32 z).
Proof. unfold is_u32, u32. apply Z.mod_pos_bound. lia. Qed.

Lemma u64_range z : is_u64 (u64 z).
Proof. unfold is_u64, u64. apply Z.mod_pos_bound. lia. Qed.

Lemma u32_id z : is_u32 z → u32 z = z.
Proof. unfold is_u32, u32. apply Z.mod_small. Qed.

Lemma u64_id z : is_u64 z → u64 z = z.
Proof. unfold is_u64, u64. apply Z.mod_small. Qed.

Lemma i64_id z : is_i64 z → i64 z = z.
Proof. unfold is_i64, i64. intros H. rewrite Z.mod_small; lia. Qed.

(** Unfolds the range predicates and calls [lia]. *)
Ltac zrange := unfold is_u32, is_u64, is_i64, MaxInt32, MaxUint32 in *; lia.

(** ** Go errors

    An error value is a sentinel (a package-level error variable, compared by
    identity), a fresh error, an error answered by the Bitcoin node
    ([*btcjson.RPCError] with its code), or an error that wraps others ([%w],
    [errors.Wrapf], [errors.Join], [multierror.Append]). *)
Inductive gerror :=
| ESentinel (name : string)
| ENew (msg : string)
| ERpc (code : Z) (msg : string)
| EWrap (msg : string) (e : gerror)
| EJoin (e1 e2 : gerror).

#[global] Instance gerror_eq_dec : EqDecision gerror.
Proof. solve_decision. Defined.

(** [errors.Is(err, target)] for a sentinel target. *)
Fixpoint errors_Is (e : gerror) (target : string) : bool :=
  match e with
  | ESentinel n => bool_decide (n = target)
  | ENew _ | ERpc _ _ => false
  | EWrap _ e => errors_Is e target
  | EJoin e1 e2 => errors_Is e1 target || errors_Is e2 target
  end.

(** [errors.As(err, &rpcErr)] followed by [rpcErr.Code]: the first
    [*btcjson.RPCError] of the tree, in depth-first order. *)
Fixpoint errors_As_RPCError (e : gerror) : option Z :=
  match e with
  | ERpc code _ => Some code
  | ESentinel _ | ENew _ => None
  | EWrap _ e => errors_As_RPCError e
  | EJoin e1 e2 =>
      match errors_As_RPCError e1 with Some c => Some c | None => errors_As_RPCError e2 end
  end.

(** A Go [(value, error)] pair of which exactly one part is meaningful. *)
Inductive result (A : Type) :=
| Ok (a : A)
| Err (e : gerror).
Arguments Ok {A} a.
Arguments Err {A} e.

#[global] Instance result_eq_dec `{EqDecision A} : EqDecision (result A).
Proof. solve_decision. Defined.

Definition result_map {A B} (f : A → B) (r : result A) : result B :=
  match r with Ok a => Ok (f a) | Err e => Err e end.

(** ** Effects

    A Go function body is a state transformer that returns a value, returns an
    error, panics, or exhausts the fuel given to one of its loops ([Diverge]).
    The state is kept on every exit: what was written before an error or a
    panic stays written. *)
Inductive outcome (A : Type) :=
| Val (a : A)
| Error (e : gerror)
| Panic (msg : string)
| Diverge.
Arguments Val {A} a.
Arguments Error {A} e.
Arguments Panic {A} msg.
Arguments Diverge {A}.

Definition M (S A : Type) : Type := S → outcome A * S.

#[global] Instance M_ret S : MRet (M S) := λ A a s, (Val a, s).
#[global] Instance M_bind S : MBind (M S) := λ A B k m s,
  match m s with
  | (Val a, s1) => k a s1
  | (Error e, s1) => (Error e, s1)
  | (Panic p, s1) => (Panic p, s1)
  | (Diverge, s1) => (Diverge, s1)
  end.

Definition fail {S A} (e : gerror) : M S A := λ s, (Error e, s).
Definition panic {S A} (msg : string) : M S A := λ s, (Panic msg, s).
Definition diverge {S A} : M S A := λ s, (Diverge, s).
Definition gets {S A} (f : S → A) : M S A := λ s, (Val (f s), s).
Definition modify {S} (f : S → S) : M S unit := λ s, (Val tt, f s).

(** [err := m(); if err != nil ...]: an error becomes a value. *)
Definition try {S A} (m : M S A) : M S (result A) := λ s,
  match m s with
  | (Val a, s1) => (Val (Ok a), s1)
  | (Error e, s1) => (Val (Err e), s1)
  | (Panic p, s1) => (Panic p, s1)
  | (Diverge, s1) => (Diverge, s1)
  end.

(** [if err != nil { return fmt.Errorf("msg: %w", err) }] *)
Definition wrap_err {S A} (msg : string) (m : M S A) : M S A := λ s,
  match m s with
  | (Error e, s1) => (Error (EWrap msg e), s1)
  | r => r
  end.

(** [if err != nil { panic(err) }] *)
Definition must {S A} (msg : string) (m : M S A) : M S A := λ s,
  match m s with
  | (Error _, s1) => (Panic msg, s1)
  | r => r
  end.

Definition of_result {S A} (r : result A) : M S A :=
  match r with Ok a => mret a | Err e => fail e end.

(** A deferred function that cleans up unless the body returned normally. *)
Definition on_failure {S A} (cleanup : S → S) (m : M S A) : M S A := λ s,
  match m s with
  | (Val a, s1) => (Val a, s1)
  | (o, s1) => (o, cleanup s1)
  end.

Definition of_outcome {S A} (o : outcome A) : M S A := λ s, (o, s).

(** The same for code without state. *)
Definition obind {A B} (o : outcome A) (k : A → outcome B) : outcome B :=
  match o with Val a => k a | Error e => Error e | Panic p => Panic p | Diverge => Diverge end.
Definition oresult {A} (r : result A) : outcome A :=
  match r with Ok a => Val a | Err e => Error e end.
Definition owrap {A} (msg : string) (o : outcome A) : outcome A :=
  match o with Error e => Error (EWrap msg e) | o => o end.
(** [*p]: the dereference of a pointer *)
Definition oderef {A} (p : option A) : outcome A :=
  match p with Some a => Val a | None => Panic "nil pointer dereference" end.

(** Running a computation on a part of the state. *)
Definition zoom {S T A} (get : S → T) (put : T → S → S) (m : M T A) : M S A := λ s,
  let '(o, t) := m (get s) in (o, put t s).

(** [for _, x := range xs { body }], the body returning normally or failing. *)
Fixpoint for_each {S A} (xs : list A) (body : A → M S unit) : M S unit :=
  match xs with
  | [] => mret tt
  | x :: xs => body x ;; for_each xs body
  end.

(** [for _, x := range xs { body }] whose body may leave the loop with a value
    ([Some]), by [break] or [return]. *)
Fixpoint for_until {S A R} (xs : list A) (body : A → M S (option R)) : M S (option R) :=
  match xs with
  | [] => mret None
  | x :: xs => r ← body x; match r with Some v => mret (Some v) | None => for_until xs body end
  end.

(** [acc] threaded through a loop. *)
Fixpoint for_fold {S A B} (xs : list A) (acc : B) (body : B → A → M S B) : M S B :=
  match xs with
  | [] => mret acc
  | x :: xs => acc' ← body acc x; for_fold xs acc' body
  end.

(** ** Running computations *)
Section run.
Context {S A B : Type}.
Implicit Types (m : M S A) (k : A → M S B) (s : S).

Lemma bind_unfold m k s :
  (m ≫= k) s =
  match m s with
  | (Val a, s1) => k a s1
  | (Error e, s1) => (Error e, s1)
  | (Panic p, s1) => (Panic p, s1)
  | (Diverge, s1) => (Diverge, s1)
  end.
Proof. reflexivity. Qed.

Lemma bind_val m k s a s1 : m s = (Val a, s1) → (m ≫= k) s = k a s1.
Proof. intros H. by rewrite bind_unfold, H. Qed.

Lemma bind_error m k s e s1 : m s = (Error e, s1) → (m ≫= k) s = (Error e, s1).
Proof. intros H. by rewrite bind_unfold, H. Qed.

Lemma bind_panic m k s p s1 : m s = (Panic p, s1) → (m ≫= k) s = (Panic p, s1).
Proof. intros H. by rewrite bind_unfold, H. Qed.

Lemma bind_Val_inv m k s b s' :
  (m ≫= k) s = (Val b, s') → ∃ a s1, m s = (Val a, s1) ∧ k a s1 = (Val b, s').
Proof.
  rewrite bind_unfold. destruct (m s) as [[a|e|p|] s1]; intros ?; simplify_eq; eauto.
Qed.

Lemma try_val m s a s1 : m s = (Val a, s1) → try m s = (Val (Ok a), s1).
Proof. intros H. unfold try. by rewrite H. Qed.

Lemma try_error m s e s1 : m s = (Error e, s1) → try m s = (Val (Err e), s1).
Proof. intros H. unfold try. by rewrite H. Qed.
End run.

Lemma wrap_err_Val {S A} msg (m : M S A) s a s' :
  wrap_err msg m s = (Val a, s') → m s = (Val a, s').
Proof. unfold wrap_err. repeat case_match; naive_solver. Qed.

Lemma obind_Val {A B} (o : outcome A) (k : A → outcome B) b :
  obind o k = Val b ↔ ∃ a, o = Val a ∧ k a = Val b.
Proof. destruct o; cbn; naive_solver. Qed.
Lemma oresult_Val {A} (r : result A) a : oresult r = Val a ↔ r = Ok a.
Proof. destruct r; naive_solver. Qed.
Lemma owrap_Val {A} msg (o : outcome A) a : owrap msg o = Val a ↔ o = Val a.
Proof. destruct o; naive_solver. Qed.
Lemma oderef_Val {A} (p : option A) a : oderef p = Val a ↔ p = Some a.
Proof. destruct p; cbn; naive_solver. Qed.

Lemma ret_run {S A} (a : A) (s : S) : (mret a : M S A) s = (Val a, s).
Proof. reflexivity. Qed.

Lemma for_each_cons {S A} (x : A) xs (body : A → M S unit) s :
  for_each (x :: xs) body s = (body x ;; for_each xs body) s.
Proof. reflexivity. Qed.

Lemma for_each_app {S A} (xs ys : list A) (body : A → M S unit) s :
  for_each (xs ++ ys) body s = (for_each xs body ;; for_each ys body) s.
Proof.
  revert s. induction xs as [|x xs IH]; intros s; [done|].
  rewrite <-app_comm_cons, for_each_cons. cbn [for_each].
  rewrite !bind_unfold. destruct (body x s) as [[[]|?|?|] s1]; [|done..].
  rewrite IH. reflexivity.
Qed.

(** A loop whose body preserves an invariant and never leaves normally except
    with the invariant intact preserves it on every exit. *)
Lemma for_each_inv {S A} (I : S → Prop) (xs : list A) (body : A → M S unit) s :
  (∀ x s, x ∈ xs → I s → I (snd (body x s))) → I s → I (snd (for_each xs body s)).
Proof.
  revert s. induction xs as [|x xs IH]; intros s Hb Hs; [done|].
  rewrite for_each_cons, bind_unfold.
  pose proof (Hb x s ltac:(left) Hs) as H1.
  destruct (body x s) as [[[]|?|?|] s1]; cbn in *; [|done..].
  apply IH; [|done]. intros y t Hy. apply Hb. by right.
Qed.

(** A loop whose every iteration returns normally from a state satisfying the
    invariant returns normally, with the invariant. *)
Lemma for_each_total {S A} (I : S → Prop) (xs : list A) (body : A → M S unit) s :
  (∀ x s, x ∈ xs → I s → ∃ s', body x s = (Val tt, s') ∧ I s') → I s →
  ∃ s', for_each xs body s = (Val tt, s') ∧ I s'.
Proof.
  revert s. induction xs as [|x xs IH]; intros s Hb Hs; [by eexists|].
  destruct (Hb x s ltac:(left) Hs) as (s1 & H1 & I1).
  rewrite for_each_cons, bind_unfold, H1.
  apply IH; [|done]. intros y t Hy. apply Hb. by right.
Qed.

(** ** Invariants of computations

    [preserves I m]: [m] keeps [I] on every exit. *)
Definition preserves {S A} (I : S → Prop) (m : M S A) : Prop := ∀ s, I s → I (snd (m s)).

Section preserves.
Context {S : Type} (I : S → Prop).

Lemma preserves_bind {A B} (m : M S A) (k : A → M S B) :
  preserves I m → (∀ a, preserves I (k a)) → preserves I (m ≫= k).
Proof.
  intros Hm Hk s Hs. rewrite bind_unfold. specialize (Hm s Hs).
  destruct (m s) as [[a|e|p|] s1]; cbn in *; [by apply Hk|done..].
Qed.

(** The same, using what is known of the value returned. *)
Lemma preserves_bind_post {A B} (P : A → Prop) (m : M S A) (k : A → M S B) :
  preserves I m → (∀ s a s', m s = (Val a, s') → P a) → (∀ a, P a → preserves I (k a)) →
  preserves I (m ≫= k).
Proof.
  intros Hm HP Hk s Hs. rewrite bind_unfold. specialize (Hm s Hs). specialize (HP s).
  destruct (m s) as [[a|e|p|] s1]; cbn in *; [|done..]. apply Hk; [|done]. by eapply HP.
Qed.

Lemma preserves_ret {A} (a : A) : preserves I (mret a : M S A).
Proof. intros s Hs. done. Qed.

Lemma preserves_fail {A} e : preserves I (fail e : M S A).
Proof. intros s Hs. done. Qed.

Lemma preserves_panic {A} p : preserves I (panic p : M S A).
Proof. intros s Hs. done. Qed.

Lemma preserves_diverge {A} : preserves I (diverge : M S A).
Proof. intros s Hs. done. Qed.

Lemma preserves_gets {A} (f : S → A) : preserves I (gets f).
Proof. intros s Hs. done. Qed.

Lemma preserves_modify (f : S → S) : (∀ s, I s → I (f s)) → preserves I (modify f).
Proof. intros Hf s Hs. by apply Hf. Qed.

Lemma preserves_of_outcome {A} (o : outcome A) : preserves I (of_outcome o : M S A).
Proof. intros s Hs. done. Qed.

Lemma preserves_of_result {A} (o : result A) : preserves I (of_result o : M S A).
Proof. intros s Hs. by destruct o. Qed.

Lemma preserves_try {A} (m : M S A) : preserves I m → preserves I (try m).
Proof. intros Hm s Hs. unfold try. specialize (Hm s Hs). by destruct (m s) as [[]]. Qed.

Lemma preserves_wrap_err {A} msg (m : M S A) : preserves I m → preserves I (wrap_err msg m).
Proof. intros Hm s Hs. unfold wrap_err. specialize (Hm s Hs). by destruct (m s) as [[]]. Qed.

Lemma preserves_must {A} msg (m : M S A) : preserves I m → preserves I (must msg m).
Proof. intros Hm s Hs. unfold must. specialize (Hm s Hs). by destruct (m s) as [[]]. Qed.

Lemma preserves_for_each {A} (xs : list A) (body : A → M S unit) :
  (∀ x, preserves I (body x)) → preserves I (for_each xs body).
Proof.
  intros Hb. induction xs as [|x xs IH]; [apply preserves_ret|].
  by apply preserves_bind.
Qed.

Lemma preserves_for_fold {A B} (xs : list A) (acc : B) (body : B → A → M S B) :
  (∀ b x, preserves I (body b x)) → preserves I (for_fold xs acc body).
Proof.
  intros Hb. revert acc. induction xs as [|x xs IH]; intros acc; [apply preserves_ret|].
  by apply preserves_bind.
Qed.

Lemma preserves_for_until {A R} (xs : list A) (body : A → M S (option R)) :
  (∀ x, preserves I (body x)) → preserves I (for_until xs body).
Proof.
  intros Hb. induction xs as [|x xs IH]; [apply preserves_ret|].
  apply preserves_bind; [done|]. intros [v|]; [apply preserves_ret|done].
Qed.
End preserves.

Create HintDb preserves discriminated.
#[export] Hint Resolve preserves_ret preserves_fail preserves_panic preserves_diverge
  preserves_gets preserves_of_outcome preserves_of_result : preserves.

(** Proves that a body keeps an invariant, leaving the calls it does not know. *)
Ltac preserve :=
  repeat first
    [ solve [eauto with preserves]
    | apply preserves_bind; [|intros ?]
    | apply preserves_try | apply preserves_wrap_err | apply preserves_must
    | apply preserves_for_each; intros ?
    | apply preserves_for_fold; intros ? ?
    | apply preserves_for_until; intros ?
    | match goal with
      | |- preserves _ (match ?x with _ => _ end) => destruct x
      | |- preserves _ (let '(_, _) := ?x in _) => destruct x
      | |- preserves _ (let _ := _ in _) => cbv zeta
      end ].

(** Inverts every hypothesis that a sequence of calls returned normally. *)
Ltac inv_bind :=
  repeat match goal with
  | H : (_ ≫= _) _ = (Val _, _) |- _ =>
      apply bind_Val_inv in H as (? & ? & ? & ?)
  | H : (Val _, _) = (Val _, _) |- _ => simplify_eq
  | H : mret _ _ = (_, _) |- _ => unfold mret, M_ret in H; simplify_eq
  | H : gets _ _ = (_, _) |- _ => unfold gets in H; simplify_eq
  | H : modify _ _ = (_, _) |- _ => unfold modify in H; simplify_eq
  end.

(** Executes the primitive steps at the head of a body. *)
Ltac mrun :=
  repeat (progress (rewrite ?bind_unfold;
    unfold gets, modify, fail, panic, diverge, of_outcome, mret, M_ret; cbn [id fst snd])).

(** Case analysis on the calls of a body, one at a time. *)
Ltac run_cases :=
  repeat first
    [ progress cbn [fst snd] in *
    | match goal with
      | |- context [match ?x with _ => _ end] => destruct x eqn:?
      end ].

(** ** Go slices *)

(** Go's [len]. *)
Definition len {A} (xs : list A) : Z := Z.of_nat (length xs).

(** [xs[i]] with a bounds check. *)
Definition slice_index {A} (xs : list A) (i : Z) : outcome A :=
  if bool_decide (0 ≤ i) then
    match xs !! Z.to_nat i with
    | Some x => Val x
    | None => Panic "index out of range"
    end
  else Panic "index out of range".

(** [xs[lo:]] with a bounds check. *)
Definition slice_from {A} (xs : list A) (lo : Z) : outcome (list A) :=
  if bool_decide (0 ≤ lo ≤ len xs) then Val (drop (Z.to_nat lo) xs)
  else Panic "slice bounds out of range".

Lemma slice_index_lookup {A} (xs : list A) (i : nat) x :
  xs !! i = Some x → slice_index xs (Z.of_nat i) = Val x.
Proof.
  intros H. unfold slice_index.
  rewrite bool_decide_eq_true_2 by lia. by rewrite Nat2Z.id, H.
Qed.

Lemma slice_from_ok {A} (xs : list A) (i : nat) :
  (i ≤ length xs)%nat → slice_from xs (Z.of_nat i) = Val (drop i xs).
Proof.
  intros H. unfold slice_from, len. rewrite bool_decide_eq_true_2 by lia.
  by rewrite Nat2Z.id.
Qed.

(** The suffix from the first element that fails [p]. *)
Fixpoint drop_while {A} (p : A → bool) (xs : list A) : list A :=
  match xs with
  | [] => []
  | x :: xs' => if p x then drop_while p xs' else xs
  end.

Lemma drop_while_suffix {A} (p : A → bool) xs :
  ∃ pre, xs = pre ++ drop_while p xs ∧ Forall (λ x, p x = true) pre.
Proof.
  induction xs as [|x xs (pre & He & Hp)]; cbn; [by exists []|].
  destruct (p x) eqn:E; [|by exists []]. exists (x :: pre). cbn. by rewrite <-He, Forall_cons.
Qed.

(** ** Lists sorted by a key *)
Definition sorted_on {A} (key : A → Z) (xs : list A) : Prop :=
  ∀ i j x y, (i ≤ j)%nat → xs !! i = Some x → xs !! j = Some y → key x ≤ key y.

(** [sort.SliceIsSorted] with [less i j := key xs[i] < key xs[j]]: the library
    function scans from the end and rejects when [less i (i-1)]. *)
Fixpoint is_sorted_on {A} (key : A → Z) (xs : list A) : bool :=
  match xs with
  | [] => true
  | x :: xs' =>
      match xs' with
      | [] => true
      | y :: _ => negb (key y <? key x) && is_sorted_on key xs'
      end
  end.

Lemma sorted_on_nil {A} (key : A → Z) : sorted_on key [].
Proof. intros i j x y _ H. by rewrite lookup_nil in H. Qed.

Lemma sorted_on_cons {A} (key : A → Z) x xs :
  sorted_on key (x :: xs) ↔ Forall (λ y, key x ≤ key y) xs ∧ sorted_on key xs.
Proof.
  split.
  - intros H. split.
    + apply Forall_lookup. intros i y Hy.
      apply (H 0%nat (S i)); [lia|done|done].
    + intros i j a b Hij Ha Hb. apply (H (S i) (S j)); [lia|done|done].
  - intros [H1 H2] [|i] [|j] a b Hij Ha Hb; simplify_eq/=; try lia.
    + rewrite Forall_lookup in H1. eauto.
    + apply (H2 i j); [lia|done|done].
Qed.

Lemma is_sorted_on_spec {A} (key : A → Z) xs :
  is_sorted_on key xs = true ↔ sorted_on key xs.
Proof.
  induction xs as [|x [|y xs] IH].
  - split; [intros _; apply sorted_on_nil | done].
  - rewrite sorted_on_cons. split; [|done]. intros _.
    split; [constructor | apply sorted_on_nil].
  - cbn [is_sorted_on] in *. rewrite andb_true_iff, IH, negb_true_iff, Z.ltb_ge.
    rewrite !sorted_on_cons, !Forall_cons. split.
    + intros (H1 & H2 & H3). split_and!; [done| |done|done].
      eapply Forall_impl; [exact H2|]. cbn. lia.
    + naive_solver.
Qed.

Lemma sorted_on_app {A} (key : A → Z) xs ys :
  sorted_on key (xs ++ ys) ↔
  sorted_on key xs ∧ sorted_on key ys ∧ ∀ x y, x ∈ xs → y ∈ ys → key x ≤ key y.
Proof.
  induction xs as [|x xs IH]; cbn.
  - split; [intros H; split_and!; [apply sorted_on_nil|done|set_solver] | tauto].
  - rewrite !sorted_on_cons, IH, Forall_app, !Forall_forall. set_solver.
Qed.

Lemma sorted_on_drop {A} (key : A → Z) n xs :
  sorted_on key xs → sorted_on key (drop n xs).
Proof.
  rewrite <-(take_drop n xs) at 1. rewrite sorted_on_app. tauto.
Qed.

(** [sort.Slice]: the order of elements with equal keys is unspecified, so the
    routine is an interface; any implementation returns a sorted permutation. *)
Class GoSort := {
  sort_Slice : ∀ {A}, (A → Z) → list A → list A;
  sort_Slice_perm : ∀ {A} (key : A → Z) xs, sort_Slice key xs ≡ₚ xs;
  sort_Slice_sorted : ∀ {A} (key : A → Z) xs, sorted_on key (sort_Slice key xs);
}.

(** Insertion sort, an implementation of the interface. *)
Fixpoint insert_on {A} (key : A → Z) (x : A) (xs : list A) : list A :=
  match xs with
  | [] => [x]
  | y :: ys => if key x <=? key y then x :: y :: ys else y :: insert_on key x ys
  end.
Definition isort_on {A} (key : A → Z) (xs : list A) : list A :=
  foldr (insert_on key) [] xs.

Lemma insert_on_perm {A} (key : A → Z) x xs : insert_on key x xs ≡ₚ x :: xs.
Proof.
  induction xs as [|y ys IH]; cbn; [done|]. case_match; [done|].
  rewrite IH. constructor.
Qed.

Lemma insert_on_sorted {A} (key : A → Z) x xs :
  sorted_on key xs → sorted_on key (insert_on key x xs).
Proof.
  induction xs as [|y ys IH]; cbn; intros H.
  - apply sorted_on_cons. split; [constructor | apply sorted_on_nil].
  - apply sorted_on_cons in H as [H1 H2]. case_match eqn:E.
    + apply Z.leb_le in E. apply sorted_on_cons. split.
      * constructor; [done|]. eapply Forall_impl; [exact H1|]. cbn. lia.
      * by apply sorted_on_cons.
    + apply Z.leb_gt in E. apply sorted_on_cons. split; [|by apply IH].
      rewrite insert_on_perm. constructor; [lia|done].
Qed.

#[global] Instance insertion_sort : GoSort.
Proof.
  refine {| sort_Slice := @isort_on |}.
  - intros A key xs. induction xs as [|x xs IH]; cbn; [done|].
    by rewrite insert_on_perm, IH.
  - intros A key xs. induction xs as [|x xs IH]; cbn.
    + apply sorted_on_nil.
    + by apply insert_on_sorted.
Defined.

(** ** [encoding/hex] *)
Definition fromHexChar (c : Ascii.ascii) : option Z :=
  let n := Z.of_N (Ascii.N_of_ascii c) in
  if (48 <=? n) && (n <=? 57) then Some (n - 48)
  else if (97 <=? n) && (n <=? 102) then Some (n - 97 + 10)
  else if (65 <=? n) && (n <=? 70) then Some (n - 65 + 10)
  else None.

(** [hex.DecodeString] *)
Fixpoint hex_DecodeString (src : string) : result (list Z) :=
  match src with
  | EmptyString => Ok []
  | String a (String b rest) =>
      match fromHexChar a, fromHexChar b with
      | Some hi, Some lo => result_map (cons (hi * 16 + lo)) (hex_DecodeString rest)
      | _, _ => Err (ENew "encoding/hex: invalid byte")
      end
  | String a EmptyString =>
      match fromHexChar a with
      | Some _ => Err (ENew "encoding/hex: odd length hex string")
      | None => Err (ENew "encoding/hex: invalid byte")
      end
  end.

(** Every decoded byte is a byte, and a string of odd length is refused. *)
Lemma fromHexChar_range c n : fromHexChar c = Some n → 0 ≤ n < 16.
Proof. unfold fromHexChar. repeat case_match; intros; simplify_eq; lia. Qed.

Lemma hex_DecodeString_bytes src b :
  hex_DecodeString src = Ok b →
  Forall (λ x, 0 ≤ x < 256) b ∧ String.length src = (2 * length b)%nat.
Proof.
  revert b. induction src as [src IH] using (induction_ltof1 _ String.length).
  unfold ltof in IH. intros b Hb. destruct src as [|a [|c rest]]; cbn in Hb.
  - simplify_eq. by cbn.
  - by destruct (fromHexChar a).
  - destruct (fromHexChar a) as [hi|] eqn:E1; [|done].
    destruct (fromHexChar c) as [lo|] eqn:E2; [|done].
    apply fromHexChar_range in E1, E2.
    destruct (hex_DecodeString rest) as [b'|] eqn:Er; cbn in Hb; [|done]. simplify_eq.
    destruct (IH rest) with (b := b') as [Hall Hlen]; [cbn; lia|done|].
    split; [constructor; [lia|done]|]. cbn. lia.
Qed.

(** ** Iterating over a Go map: every entry exactly once, in any order *)
Definition is_range {K V} `{Countable K} (m : gmap K V) (order : list (K * V)) : Prop :=
  order ≡ₚ map_to_list m.

Lemma is_range_refl {K V} `{Countable K} (m : gmap K V) : is_range m (map_to_list m).
Proof. unfold is_range. reflexivity. Qed.

Lemma is_range_elem {K V} `{Countable K} (m : gmap K V) order k v :
  is_range m order → (k, v) ∈ order ↔ m !! k = Some v.
Proof. intros Hr. unfold is_range in Hr. rewrite Hr. apply elem_of_map_to_list. Qed.

(** ** Sums over lists, such as the goroutines of a program *)
Definition total {A} (f : A → Z) (l : list A) : Z := foldr (λ x n, f x + n) 0 l.
#[global] Arguments total : simpl never.
Lemma b2z_nonneg b : 0 ≤ Z.b2z b.
Proof. by destruct b. Qed.
Lemma total_cons {A} (f : A → Z) g gs : total f (g :: gs) = f g + total f gs.
Proof. done. Qed.
Lemma total_app {A} (f : A → Z) gs gs' : total f (gs ++ gs') = total f gs + total f gs'.
Proof. induction gs as [|g gs IH]; [done|]. cbn [app]. rewrite !total_cons. lia. Qed.
Lemma total_insert {A} (f : A → Z) gs i g g' :
  gs !! i = Some g → total f (<[i := g']> gs) = total f gs - f g + f g'.
Proof.
  revert i. induction gs as [|x gs IH]; intros [|i] Hi; cbn in Hi; simplify_eq.
  - change (<[0%nat := g']> (g :: gs)) with (g' :: gs). rewrite !total_cons. lia.
  - change (<[S i := g']> (x :: gs)) with (x :: <[i := g']> gs). rewrite !total_cons, (IH i Hi). lia.
Qed.
Lemma total_nonneg {A} (f : A → Z) gs : (∀ g, 0 ≤ f g) → 0 ≤ total f gs.
Proof. intros Hf. induction gs as [|g gs IH]; [done|]. rewrite total_cons. specialize (Hf g). lia. Qed.
Lemma total_elem {A} (f : A → Z) gs i g : (∀ g, 0 ≤ f g) → gs !! i = Some g → f g ≤ total f gs.
Proof.
  intros Hf. revert i. induction gs as [|x gs IH]; intros [|i] Hi; cbn in Hi; simplify_eq; rewrite total_cons.
  - pose proof (total_nonneg f gs Hf). lia.
  - specialize (IH i Hi). specialize (Hf x). lia.
Qed.
Lemma total_pos {A} (f : A → Z) gs : 0 < total f gs → ∃ i g, gs !! i = Some g ∧ 0 < f g.
Proof.
  induction gs as [|x gs IH]; [done|]. rewrite total_cons. intros H.
  destruct (decide (0 < f x)); [by exists 0%nat, x|]. destruct IH as (i & g & ? & ?); [lia|]. by exists (S i), g.
Qed.

Create HintDb vigilante discriminated.
#[export] Hint Resolve u32_range u64_range sorted_on_nil sorted_on_drop
  is_range_refl : vigilante.
#[export] Hint Rewrite @bind_unfold @ret_run : vigilante.
