(* ===== verification/GoFloat.v ===== *)
(** * Go's [float64]

    The arithmetic of [float64] is IEEE-754 binary64, which the Standard
    Library defines on [spec_float].  The conversions are those of the Go
    compiler on amd64: a value that does not fit an [int64] converts to the
    smallest one. *)

From Stdlib Require Import SpecFloat.
From S2P Require Import Prelude.

Definition float64 : Type := spec_float.

Definition f64_of_int (z : Z) : float64 := binary_normalize 53 1024 z 0 false.
Definition f64_add (x y : float64) : float64 := SFadd 53 1024 x y.
Definition f64_mul (x y : float64) : float64 := SFmul 53 1024 x y.
Definition f64_div (x y : float64) : float64 := SFdiv 53 1024 x y.
Definition f64_ltb (x y : float64) : bool := SFltb x y.
Definition f64_leb (x y : float64) : bool := SFleb x y.
Definition f64_eqb (x y : float64) : bool := SFeqb x y.

(** The integer part of [m * 2^e]. *)
Definition int_part (m e : Z) : Z := if 0 <=? e then m * 2 ^ e else m / 2 ^ (- e).

(** [int64(x)] *)
Definition f64_to_i64 (x : float64) : Z :=
  match x with
  | S754_zero _ => 0
  | S754_finite s m e =>
      let z := if s then - int_part (Z.pos m) e else int_part (Z.pos m) e in
      if (- 2 ^ 63 <=? z) && (z <? 2 ^ 63) then z else - 2 ^ 63
  | S754_infinity _ | S754_nan => - 2 ^ 63
  end.

(** [math.Round]: to the nearest integer, halves away from zero. *)
Definition f64_round (x : float64) : float64 :=
  match x with
  | S754_finite s m e =>
      if 0 <=? e then x
      else
        let n := (2 * Z.pos m + 2 ^ (- e)) / 2 ^ (1 - e) in
        binary_normalize 53 1024 (if s then - n else n) 0 s
  | _ => x
  end.

(** A decimal constant [n / 10^k] of the source, correctly rounded. *)
Definition f64_dec (n : Z) (k : Z) : float64 := f64_div (f64_of_int n) (f64_of_int (10 ^ k)).

(** [time.Duration.Seconds] of a duration in nanoseconds. *)
Definition Seconds (d : Z) : float64 :=
  f64_add (f64_of_int (Z.quot d 1000000000))
    (f64_div (f64_of_int (Z.rem d 1000000000)) (f64_of_int 1000000000)).

(** The order is transitive; a NaN compares with nothing. *)
Lemma f64_ltb_trans x y z : f64_ltb x y = true → f64_ltb y z = true → f64_ltb x z = true.
Proof.
  unfold f64_ltb, SFltb.
  destruct x as [?|[]|?|[] mx ex], y as [?|[]|?|[] my ey], z as [?|[]|?|[] mz ez]; cbn; try done.
  all: destruct (Z.compare_spec ex ey), (Z.compare_spec ey ez), (Z.compare_spec ex ez); try done; try lia.
  all: unfold CompOpp; repeat match goal with
    | |- context [Pos.compare_cont Eq ?a ?b] =>
        change (Pos.compare_cont Eq a b) with (Pos.compare a b); destruct (Pos.compare_spec a b)
    end; try done; lia.
Qed.
Lemma f64_ltb_irrefl x : f64_ltb x x = false.
Proof.
  unfold f64_ltb, SFltb. destruct x as [?|[]|?|[] m e]; cbn; try done;
    rewrite Z.compare_refl; change (Pos.compare_cont Eq m m) with (Pos.compare m m);
    by rewrite Pos.compare_refl.
Qed.
Lemma f64_ltb_cotrans x y z :
  y ≠ S754_nan → f64_ltb x z = true → f64_ltb x y = true ∨ f64_ltb y z = true.
Proof.
  unfold f64_ltb, SFltb. intros Hy.
  destruct x as [?|[]|?|[] mx ex], y as [?|[]|?|[] my ey], z as [?|[]|?|[] mz ez]; cbn; try done; auto.
  all: destruct (Z.compare_spec ex ey), (Z.compare_spec ey ez), (Z.compare_spec ex ez); auto; try lia.
  all: unfold CompOpp; repeat match goal with
    | |- context [Pos.compare_cont Eq ?a ?b] =>
        change (Pos.compare_cont Eq a b) with (Pos.compare a b); destruct (Pos.compare_spec a b)
    end; auto; lia.
Qed.
