(* ===== verification/Config.v ===== *)
(** * Configuration checks ([config/bitcoin.go], [config/submitter.go], [config/dbconfig.go])

    The two configurations the submitter runs on, with the conditions their
    [Validate] methods enforce at start-up. *)

From S2P Require Import Prelude GoFloat.

(** [types/utils.go] *)
Definition GetValidNetParams : list string :=
  ["mainnet"; "testnet"; "simnet"; "regtest"; "signet"].

Record BTCConfig := mkBTCConfig {
  Endpoint : string;
  WalletPassword : string;
  WalletName : string;
  WalletLockTime : Z;
  TxFeeMin : Z;
  TxFeeMax : Z;
  DefaultFee : Z;
  EstimateMode : string;
  TargetBlockNum : Z;
  btc_NetParams : string;
  Username : string;
  Password : string;
  ReconnectAttempts : Z;
  ZmqSeqEndpoint : string;
  ZmqBlockEndpoint : string;
  ZmqTxEndpoint : string;
  DisableTLS : bool;
}.

Definition BTCConfig_Validate (cfg : BTCConfig) : result unit :=
  if ReconnectAttempts cfg <? 0 then Err (ENew "reconnect-attempts must be non-negative")
  else if bool_decide (btc_NetParams cfg ∉ GetValidNetParams) then Err (ENew "invalid net params")
  else if bool_decide (ZmqBlockEndpoint cfg = "") then
    Err (ENew "zmq block endpoint cannot be empty")
  else if bool_decide (ZmqTxEndpoint cfg = "") then
    Err (ENew "zmq tx endpoint cannot be empty")
  else if bool_decide (ZmqSeqEndpoint cfg = "") then
    Err (ENew "zmq seq endpoint cannot be empty")
  else if negb (bool_decide (EstimateMode cfg = "ECONOMICAL")) &&
          negb (bool_decide (EstimateMode cfg = "CONSERVATIVE")) then
    Err (ENew "estimate-mode must be either ECONOMICAL or CONSERVATIVE")
  else if TargetBlockNum cfg <=? 0 then Err (ENew "target-block-num should be positive")
  else if TxFeeMax cfg <=? 0 then Err (ENew "tx-fee-max must be positive")
  else if TxFeeMin cfg <=? 0 then Err (ENew "tx-fee-min must be positive")
  else if TxFeeMax cfg <? TxFeeMin cfg then Err (ENew "tx-fee-min is larger than tx-fee-max")
  else if DefaultFee cfg <=? 0 then Err (ENew "default-fee must be positive")
  else if (DefaultFee cfg <? TxFeeMin cfg) || (TxFeeMax cfg <? DefaultFee cfg) then
    Err (ENew "default-fee should be in the range of [tx-fee-min, tx-fee-max]")
  else Ok tt.

(** ** [dbconfig.go] *)
Record DBConfig := mkDBConfig {
  DBPath : string;
  DBFileName : string;
  NoFreelistSync : bool;
  AutoCompact : bool;
  AutoCompactMinAge : Z;
  DBTimeout : Z;
}.
Definition DBConfig_Validate (cfg : DBConfig) : result unit :=
  if bool_decide (DBPath cfg = "") then Err (ENew "DB path cannot be empty")
  else if bool_decide (DBFileName cfg = "") then Err (ENew "DB file name cannot be empty")
  else Ok tt.

(** ** [submitter.go] *)
Record SubmitterConfig := mkSubmitterConfig {
  sub_NetParams : string;
  BufferSize : Z;
  ResubmitFeeMultiplier : float64;
  PollingIntervalSeconds : Z;
  ResendIntervalSeconds : Z;
  sub_DatabaseConfig : option DBConfig;
  InsufficientFeeMargin : float64;
  InsufficientFeerateMargin : float64;
  FeeIncrementMargin : float64;
}.

Definition SubmitterConfig_Validate (cfg : SubmitterConfig) : result unit :=
  if bool_decide (sub_NetParams cfg ∉ GetValidNetParams) then Err (ENew "invalid net params")
  else if f64_ltb (ResubmitFeeMultiplier cfg) (f64_of_int 1) then
    Err (ENew "invalid resubmit-fee-multiplier, should not be less than 1")
  else if PollingIntervalSeconds cfg <? 0 then
    Err (ENew "invalid polling-interval-seconds, should be positive")
  else if ResendIntervalSeconds cfg <=? 0 then
    Err (ENew "invalid resend-interval-seconds, should be positive")
  else if BufferSize cfg <=? 0 then Err (ENew "invalid buffer-size, should be positive")
  else if bool_decide (sub_DatabaseConfig cfg = None) then Err (ENew "invalid dbconfig")
  else if f64_ltb (InsufficientFeeMargin cfg) (f64_of_int 0) then
    Err (ENew "invalid insufficient_fee_margin, should be positive")
  else if f64_ltb (InsufficientFeerateMargin cfg) (f64_of_int 0) then
    Err (ENew "invalid insufficient_feerate_margin, should be positive")
  else if f64_ltb (FeeIncrementMargin cfg) (f64_of_int 0) then
    Err (ENew "invalid fee_increment_margin, should be positive")
  else Ok tt.

(** The default. *)
Definition DefaultBTCConfig : BTCConfig :=
  mkBTCConfig "127.0.01:18556" "walletpass" "default" 10 1000 200000 1000 "CONSERVATIVE" 1
    "simnet" "rpcuser" "rpcpass" 3
    "tcp://127.0.0.1:28333" "tcp://127.0.0.1:29001" "tcp://127.0.0.1:29002" true.

Lemma default_btc_valid :
  BTCConfig_Validate DefaultBTCConfig = Ok tt.
Proof. vm_compute. reflexivity. Qed.

(** What a configuration that passed guarantees about fees. *)
Lemma BTCConfig_valid_fees cfg :
  BTCConfig_Validate cfg = Ok tt →
  0 < TxFeeMin cfg ∧ TxFeeMin cfg ≤ DefaultFee cfg ≤ TxFeeMax cfg ∧ 0 < TargetBlockNum cfg.
Proof.
  unfold BTCConfig_Validate. repeat case_match; intros ?; simplify_eq.
  all: repeat match goal with
    | H : _ || _ = false |- _ => apply orb_false_iff in H as [? ?]
    end; lia.
Qed.

(** [btcclient/client_wallet.go] and [submitter/relayer/estimator.go]:
    the endpoint of a node that serves several wallets. *)
Definition rpcHostURL (host walletName : string) : string :=
  if 0 <? Z.of_nat (String.length walletName) then (host ++ "/wallet/" ++ walletName)%string
  else host.

Lemma SubmitterConfig_valid_buffer cfg :
  SubmitterConfig_Validate cfg = Ok tt → 1 ≤ BufferSize cfg.
Proof. unfold SubmitterConfig_Validate. repeat case_match; intros ?; simplify_eq; lia. Qed.
