(* ===== verification/Blocks.v ===== *)
(** * Bitcoin blocks as the vigilante programs see them

    [types/indexed_block.go], [types/utils.go] and [types/btclightclient.go].
    The wire formats and hash functions of btcd and Babylon are the interface
    [BTCLib]; a pointer that the code checks against [nil] is an [option]. *)

From S2P Require Import Prelude.

(** A 32-byte [chainhash.Hash], read as a number. *)
Notation Hash := Z (only parsing).
Notation bytes := (list Z) (only parsing).

Record BlockHeader := mkHeader {
  hdr_Version : Z;
  PrevBlock : Hash;
  MerkleRoot : Hash;
  hdr_Timestamp : Z;
  hdr_Bits : Z;
  hdr_Nonce : Z;
}.

Record OutPoint := mkOutPoint { op_Hash : Hash; op_Index : Z }.
Record TxInput := mkTxIn {
  PreviousOutPoint : OutPoint;
  SignatureScript : bytes;
  Witness : list bytes;
  Sequence : Z;
}.
Record TxOutput := mkTxOut { Value : Z; PkScript : bytes }.
Record MsgTx := mkMsgTx {
  tx_Version : Z;
  TxIn : list TxInput;
  TxOut : list TxOutput;
  LockTime : Z;
}.

#[global] Instance BlockHeader_eq_dec : EqDecision BlockHeader.
Proof. solve_decision. Defined.
#[global] Instance OutPoint_eq_dec : EqDecision OutPoint.
Proof. solve_decision. Defined.
#[global] Instance TxInput_eq_dec : EqDecision TxInput.
Proof. solve_decision. Defined.
#[global] Instance TxOutput_eq_dec : EqDecision TxOutput.
Proof. solve_decision. Defined.
#[global] Instance MsgTx_eq_dec : EqDecision MsgTx.
Proof. solve_decision. Defined.

Record MsgBlock := mkMsgBlock { blk_Header : BlockHeader; Transactions : list MsgTx }.

(** [btcutil.Tx]: a transaction with its index in its block. *)
Record Tx := mkTx { tx_MsgTx : MsgTx; tx_Index : Z }.

Record IndexedBlock := mkIndexedBlock {
  Height : Z;
  Header : BlockHeader;
  Txs : list (option Tx);
}.

#[global] Instance MsgBlock_eq_dec : EqDecision MsgBlock.
Proof. solve_decision. Defined.
#[global] Instance Tx_eq_dec : EqDecision Tx.
Proof. solve_decision. Defined.
#[global] Instance IndexedBlock_eq_dec : EqDecision IndexedBlock.
Proof. solve_decision. Defined.

(** The functions of btcd and Babylon that the types call. *)
Class BTCLib := {
  HeaderHash : BlockHeader → Hash;
  TxHash : MsgTx → Hash;
  NewBTCHeaderBytesFromBlockHeader : BlockHeader → bytes;
  Serialize : MsgTx → result bytes;
  BTCSpvProof : Type;
  SpvProofFromHeaderAndTransactions : bytes → list bytes → Z → result BTCSpvProof;
}.

Section blocks.
Context {BL : BTCLib}.

Definition BlockHash (ib : IndexedBlock) : Hash := HeaderHash (Header ib).

(** [types/utils.go], [GetWrappedTxs]: the loop [for i := range], from [i] on. *)
Fixpoint wrap_txs (i : Z) (txs : list MsgTx) : list (option Tx) :=
  match txs with
  | [] => []
  | t :: ts => Some (mkTx t i) :: wrap_txs (i + 1) ts
  end.
Definition GetWrappedTxs (msg : MsgBlock) : list (option Tx) :=
  wrap_txs 0 (Transactions msg).

Definition NewIndexedBlock (height : Z) (header : BlockHeader) (txs : list (option Tx))
  : IndexedBlock := mkIndexedBlock height header txs.

Definition NewIndexedBlockFromMsgBlock (height : Z) (block : MsgBlock) : IndexedBlock :=
  mkIndexedBlock height (blk_Header block) (GetWrappedTxs block).

(** A [nil] transaction pointer is dereferenced by [tx.MsgTx()]. *)
Fixpoint deref_txs (txs : list (option Tx)) : outcome (list MsgTx) :=
  match txs with
  | [] => Val []
  | None :: _ => Panic "nil pointer dereference"
  | Some t :: ts =>
      match deref_txs ts with
      | Val l => Val (tx_MsgTx t :: l)
      | o => o
      end
  end.

(** [IndexedBlock.MsgBlock] *)
Definition ToMsgBlock (ib : IndexedBlock) : outcome MsgBlock :=
  match deref_txs (Txs ib) with
  | Val msgTxs => Val (mkMsgBlock (Header ib) msgTxs)
  | Error e => Error e
  | Panic p => Panic p
  | Diverge => Diverge
  end.

(** The loop of [GenSPVProof] that serialises every transaction. *)
Fixpoint serialize_txs (txs : list (option Tx)) : outcome (list bytes) :=
  match txs with
  | [] => Val []
  | None :: _ => Panic "nil pointer dereference"
  | Some t :: ts =>
      match Serialize (tx_MsgTx t) with
      | Err e => Error e
      | Ok b =>
          match serialize_txs ts with
          | Val l => Val (b :: l)
          | o => o
          end
      end
  end.

Definition GenSPVProof (ib : IndexedBlock) (txIdx : Z) : outcome BTCSpvProof :=
  if txIdx <? 0 then Error (ENew "transaction index should not be negative")
  else if len (Txs ib) <=? txIdx then Error (ENew "transaction index is out of scope")
  else
    let headerBytes := NewBTCHeaderBytesFromBlockHeader (Header ib) in
    match serialize_txs (Txs ib) with
    | Val txsBytes =>
        match SpvProofFromHeaderAndTransactions headerBytes txsBytes txIdx with
        | Ok p => Val p
        | Err e => Error e
        end
    | Error e => Error e
    | Panic p => Panic p
    | Diverge => Diverge
    end.

(** ** [types/btclightclient.go] *)
Record MsgInsertHeaders := mkMsgInsertHeaders {
  mih_Signer : string;
  mih_Headers : list bytes;
}.

Definition NewMsgInsertHeaders (signer : string) (indexedBlocks : list IndexedBlock)
  : MsgInsertHeaders :=
  mkMsgInsertHeaders signer
    ((λ ib, NewBTCHeaderBytesFromBlockHeader (Header ib)) <$> indexedBlocks).

(** ** Chains of blocks *)

(** Heights are consecutive and every block names its predecessor. *)
Fixpoint chained (bs : list IndexedBlock) : Prop :=
  match bs with
  | [] => True
  | b :: rest =>
      match rest with
      | [] => True
      | c :: _ => Height c = Height b + 1 ∧ PrevBlock (Header c) = BlockHash b
      end ∧ chained rest
  end.

Definition links (b c : IndexedBlock) : Prop :=
  Height c = Height b + 1 ∧ PrevBlock (Header c) = BlockHash b.

Lemma wrap_txs_lookup i txs j t :
  txs !! j = Some t → wrap_txs i txs !! j = Some (Some (mkTx t (i + Z.of_nat j))).
Proof.
  revert i j. induction txs as [|u us IH]; intros i [|j] Hj; simplify_eq/=.
  - by rewrite Z.add_0_r.
  - rewrite (IH _ _ Hj). do 3 f_equal. lia.
Qed.

Lemma length_wrap_txs i txs : length (wrap_txs i txs) = length txs.
Proof. revert i. induction txs as [|t ts IH]; intros i; cbn; [done|]. by rewrite IH. Qed.

Lemma deref_wrap_txs i txs : deref_txs (wrap_txs i txs) = Val txs.
Proof. revert i. induction txs as [|t ts IH]; intros i; cbn; [done|]. by rewrite IH. Qed.

Lemma MsgBlock_roundtrip height block :
  ToMsgBlock (NewIndexedBlockFromMsgBlock height block) = Val block.
Proof. unfold ToMsgBlock. cbn. unfold GetWrappedTxs. rewrite deref_wrap_txs. by destruct block. Qed.

(** Out of the range of the block's transactions no proof is produced, and
    every request in range reaches the proof generator when the transactions
    serialise. *)
Lemma GenSPVProof_range ib txIdx p :
  GenSPVProof ib txIdx = Val p → 0 ≤ txIdx < len (Txs ib).
Proof. unfold GenSPVProof. repeat case_match; intros ?; simplify_eq; lia. Qed.

Lemma chained_app bs cs :
  chained (bs ++ cs) ↔
  chained bs ∧ chained cs ∧
  ∀ b c, last bs = Some b → head cs = Some c → links b c.
Proof.
  unfold links. induction bs as [|b bs IH]; cbn.
  - split; [intros; split_and!; [done|done|]; intros ? ? [=] | tauto].
  - rewrite IH. destruct bs as [|b' bs]; cbn in *.
    + destruct cs as [|c cs]; cbn; [naive_solver|]. naive_solver.
    + naive_solver.
Qed.

Lemma chained_drop n bs : chained bs → chained (drop n bs).
Proof. rewrite <-(take_drop n bs) at 1. rewrite chained_app. tauto. Qed.

Lemma chained_take n bs : chained bs → chained (take n bs).
Proof. rewrite <-(take_drop n bs) at 1. rewrite chained_app. tauto. Qed.

Lemma chained_snoc bs b :
  chained (bs ++ [b]) ↔ chained bs ∧ ∀ c, last bs = Some c → links c b.
Proof. rewrite chained_app. cbn. naive_solver. Qed.

(** In a chain the height determines the position. *)
Lemma chained_height bs b0 i b :
  chained (b0 :: bs) → (b0 :: bs) !! i = Some b → Height b = Height b0 + Z.of_nat i.
Proof.
  revert b0 i. induction bs as [|c bs IH]; intros b0 [|i] Hc Hi; simplify_eq/=; try lia.
  destruct Hc as [[Hh _] Hc]. rewrite (IH c i Hc Hi). lia.
Qed.

Lemma chained_sorted bs : chained bs → sorted_on Height bs.
Proof.
  destruct bs as [|b bs]; intros Hc; [apply sorted_on_nil|].
  intros i j x y Hij Hx Hy.
  rewrite (chained_height _ _ _ _ Hc Hx), (chained_height _ _ _ _ Hc Hy). lia.
Qed.

Lemma chained_NoDup bs : chained bs → NoDup bs.
Proof.
  destruct bs as [|b bs]; intros Hc; [constructor|]. apply NoDup_alt. intros i j x Hi Hj.
  pose proof (chained_height _ _ _ _ Hc Hi). pose proof (chained_height _ _ _ _ Hc Hj). lia.
Qed.
End blocks.

#[export] Hint Resolve chained_drop chained_take chained_sorted : vigilante.
