(* ===== verification/BTCCache.v ===== *)
(** * The BTC block cache ([types/btccache.go])

    A bounded window of blocks, kept in the order they were added.  The mutex
    makes every operation atomic, so an operation is one state transformer. *)

From S2P Require Import Prelude Blocks.

Record BTCCache := mkBTCCache {
  blocks : list IndexedBlock;
  maxEntries : Z;
}.

#[global] Instance BTCCache_eq_dec : EqDecision BTCCache.
Proof. solve_decision. Defined.

Definition ErrEmptyCache : gerror := ESentinel "empty cache".
Definition ErrInvalidMaxEntries : gerror := ESentinel "invalid max entries".
Definition ErrTooManyEntries : gerror := ESentinel "the number of blocks is more than maxEntries".
Definition ErrUnsortedBlocks : gerror := ESentinel "blocks are not sorted by height".

Definition with_blocks (bs : list IndexedBlock) (c : BTCCache) : BTCCache :=
  mkBTCCache bs (maxEntries c).

Definition NewBTCCache (max : Z) : result BTCCache :=
  if max =? 0 then Err ErrInvalidMaxEntries else Ok (mkBTCCache [] max).

Definition size (c : BTCCache) : Z := len (blocks c).
Definition Size (c : BTCCache) : Z := size c.

(** The thread-unsafe [add]. *)
Definition add (ib : IndexedBlock) : M BTCCache unit :=
  c ← gets id;
  if maxEntries c <? size c then panic "ErrTooManyEntries"
  else
    (if size c =? maxEntries c then
       match blocks c with
       | [] => panic "index out of range"
       | _ :: rest => modify (with_blocks rest)
       end
     else mret tt) ;;
    modify (λ c, with_blocks (blocks c ++ [ib]) c).

Definition Add (ib : IndexedBlock) : M BTCCache unit := add ib.

Definition Init (ibs : list IndexedBlock) : M BTCCache unit :=
  c ← gets id;
  if maxEntries c <? len ibs then fail ErrTooManyEntries
  else if negb (is_sorted_on Height ibs) then fail ErrUnsortedBlocks
  else for_each ibs add.

Definition First (c : BTCCache) : option IndexedBlock :=
  if size c =? 0 then None else head (blocks c).
Definition Tip (c : BTCCache) : option IndexedBlock :=
  if size c =? 0 then None else last (blocks c).

Definition RemoveLast : M BTCCache unit :=
  c ← gets id;
  if size c =? 0 then fail ErrEmptyCache
  else modify (with_blocks (take (length (blocks c) - 1) (blocks c))).

Definition RemoveAll : M BTCCache unit := modify (with_blocks []).

(** The downward loop of [GetLastBlocks]; [j] keeps its zero value when no
    block has the height. *)
Fixpoint scan_back (bs : list IndexedBlock) (stopHeight : Z) (i : nat) : nat :=
  match i with
  | O => O
  | S i' =>
      match bs !! i' with
      | Some b => if Height b =? stopHeight then i' else scan_back bs stopHeight i'
      | None => scan_back bs stopHeight i'
      end
  end.

Definition GetLastBlocks (c : BTCCache) (stopHeight : Z) : outcome (list IndexedBlock) :=
  match head (blocks c), last (blocks c) with
  | Some f, Some l =>
      if (stopHeight <? Height f) || (Height l <? stopHeight)
      then Error (ENew "the given stopHeight is out of range of BTC cache")
      else Val (drop (scan_back (blocks c) stopHeight (length (blocks c))) (blocks c))
  | _, _ => Panic "index out of range"
  end.

(** [GetAllBlocks] returns the cache's own slice.  A caller that keeps it sees
    the later writes to the array: [bs_elems] are its elements ([None] for
    [nil]), [bs_first] is the index in it of the cache's first block, and
    [bs_spare] is how many blocks the array still takes behind the cache's last
    one, [None] once the cache has moved to another array. *)
Record BlockSlice := mkBlockSlice {
  bs_elems : list (option IndexedBlock);
  bs_first : nat;
  bs_spare : option Z;
}.

Definition GetAllBlocks (spare : Z) (c : BTCCache) : BlockSlice :=
  mkBlockSlice (Some <$> blocks c) 0 (Some spare).

(** What [add] on the cache [c] does to a slice taken from it: a full cache has
    its first element set to [nil] before it is resliced, and [append] keeps the
    array as long as it has room. *)
Definition slice_after_add (c : BTCCache) (sl : BlockSlice) : BlockSlice :=
  match bs_spare sl with
  | None => sl
  | Some spare =>
      if maxEntries c <? size c then sl
      else
        let full := size c =? maxEntries c in
        mkBlockSlice
          (if full then <[bs_first sl := None]> (bs_elems sl) else bs_elems sl)
          (if full then S (bs_first sl) else bs_first sl)
          (if spare =? 0 then None else Some (spare - 1))
  end.

(** [RemoveAll] gives the cache a new array. *)
Definition slice_after_RemoveAll (sl : BlockSlice) : BlockSlice :=
  mkBlockSlice (bs_elems sl) (bs_first sl) None.

(** A [nil] slice is [None]; a negative [k] makes the final reslice panic. *)
Definition TrimConfirmedBlocks (k : Z) : M BTCCache (option (list IndexedBlock)) :=
  c ← gets id;
  let l := len (blocks c) in
  if l <=? k then mret None
  else if k <? 0 then panic "slice bounds out of range"
  else
    let n := Z.to_nat (l - k) in
    modify (with_blocks (drop n (blocks c))) ;;
    mret (Some (take n (blocks c))).

(** The binary search loop of [FindBlock]; [fuel] bounds its iterations. *)
Fixpoint find_loop (bs : list IndexedBlock) (blockHeight : Z) (fuel : nat)
    (leftBound rightBound : Z) : outcome (option IndexedBlock) :=
  match fuel with
  | O => Diverge
  | S fuel =>
      if leftBound <=? rightBound then
        let midPoint := leftBound + (rightBound - leftBound) `quot` 2 in
        match slice_index bs midPoint with
        | Val b =>
            if Height b =? blockHeight then Val (Some b)
            else if blockHeight <? Height b
            then find_loop bs blockHeight fuel leftBound (midPoint - 1)
            else find_loop bs blockHeight fuel (midPoint + 1) rightBound
        | _ => Panic "index out of range"
        end
      else Val None
  end.

Definition FindBlock (c : BTCCache) (blockHeight : Z) : outcome (option IndexedBlock) :=
  match head (blocks c), last (blocks c) with
  | Some f, Some l =>
      if (blockHeight <? Height f) || (Height l <? blockHeight) then Val None
      else find_loop (blocks c) blockHeight (S (length (blocks c))) 0 (size c - 1)
  | _, _ => Panic "index out of range"
  end.

Definition Resize (max : Z) : M BTCCache unit :=
  if max =? 0 then fail ErrInvalidMaxEntries
  else modify (λ c, mkBTCCache (blocks c) max).

Definition Trim : M BTCCache unit :=
  c ← gets id;
  if size c <? maxEntries c then mret tt
  else modify (with_blocks (drop (Z.to_nat (size c - maxEntries c)) (blocks c))).

(** ** Binary search finds exactly the block of a height *)

Section search.
Context (bs : list IndexedBlock) (h : Z) (Hs : sorted_on Height bs).

Lemma find_loop_spec fuel l r :
  0 ≤ l → r < len bs → l ≤ r + 1 → (Z.to_nat (r - l + 1) < fuel)%nat →
  (∀ i b, bs !! i = Some b → Z.of_nat i < l → Height b ≠ h) →
  (∀ i b, bs !! i = Some b → r < Z.of_nat i → Height b ≠ h) →
  ∃ o, find_loop bs h fuel l r = Val o ∧
    match o with
    | Some b => b ∈ bs ∧ Height b = h
    | None => ∀ b, b ∈ bs → Height b ≠ h
    end.
Proof.
  unfold len. revert l r. induction fuel as [|fuel IH]; intros l r Hl Hr Hlr Hf HL HR; [lia|].
  cbn. destruct (l <=? r) eqn:E.
  2:{ exists None. split; [done|]. intros b Hb.
      apply list_elem_of_lookup in Hb as [i Hi].
      destruct (decide (Z.of_nat i < l)); [by eapply HL|]. eapply HR; [done|lia]. }
  apply Z.leb_le in E.
  set (mid := l + (r - l) `quot` 2).
  assert (l ≤ mid ≤ r) as Hmid.
  { subst mid. rewrite Z.quot_div_nonneg by lia. pose proof (Z.div_pos (r - l) 2 ltac:(lia) ltac:(lia)).
    pose proof (Z.mul_div_le (r - l) 2 ltac:(lia)). lia. }
  assert (is_Some (bs !! Z.to_nat mid)) as [b Hb] by (apply lookup_lt_is_Some; lia).
  rewrite <-(Z2Nat.id mid) by lia. rewrite (slice_index_lookup _ _ _ Hb).
  rewrite Z2Nat.id by lia.
  destruct (Height b =? h) eqn:E1.
  { apply Z.eqb_eq in E1. exists (Some b). split; [done|]. split; [|done].
    by eapply list_elem_of_lookup_2. }
  apply Z.eqb_neq in E1. destruct (h <? Height b) eqn:E2.
  - apply Z.ltb_lt in E2. apply IH; [lia..|done|].
    intros i c Hi Hlt. assert (Height b ≤ Height c); [|lia].
    eapply (Hs (Z.to_nat mid) i); [lia|done|done].
  - apply Z.ltb_ge in E2. apply IH; [lia..| |done].
    intros i c Hi Hlt. assert (Height c ≤ Height b); [|lia].
    eapply (Hs i (Z.to_nat mid)); [lia|done|done].
Qed.
End search.

Lemma sorted_bounds bs f l b :
  sorted_on Height bs → head bs = Some f → last bs = Some l → b ∈ bs →
  Height f ≤ Height b ≤ Height l.
Proof.
  intros Hs Hf Hl [i Hi]%list_elem_of_lookup.
  rewrite head_lookup in Hf. rewrite last_lookup in Hl.
  pose proof (lookup_lt_Some _ _ _ Hi).
  split; [apply (Hs 0%nat i) | apply (Hs i (pred (length bs)))]; auto; lia.
Qed.

Lemma head_last_nonempty {A} (xs : list A) :
  xs ≠ [] → ∃ f l, head xs = Some f ∧ last xs = Some l.
Proof.
  destruct xs as [|x xs]; [done|]. intros _. exists x. cbn [head].
  destruct (last (x :: xs)) as [l|] eqn:E; [eauto|].
  apply last_None in E. done.
Qed.

Lemma FindBlock_total_correct c h :
  blocks c ≠ [] → sorted_on Height (blocks c) →
  ∃ o, FindBlock c h = Val o ∧
    match o with
    | Some b => b ∈ blocks c ∧ Height b = h
    | None => ∀ b, b ∈ blocks c → Height b ≠ h
    end.
Proof.
  intros Hne Hs. destruct (head_last_nonempty _ Hne) as (f & l & Hf & Hl).
  unfold FindBlock. rewrite Hf, Hl. case_match eqn:E.
  - exists None. split; [done|]. intros b Hb.
    pose proof (sorted_bounds _ _ _ _ Hs Hf Hl Hb). lia.
  - apply find_loop_spec; unfold size, len; [done|lia..| |].
    + intros; lia.
    + intros i b Hi. apply lookup_lt_Some in Hi. lia.
Qed.

(** ** The window *)

(** What every caller relies on: the bound is positive and respected. *)
Definition cache_ok (c : BTCCache) : Prop := 1 ≤ maxEntries c ∧ size c ≤ maxEntries c.

(** The last [n] elements of a list. *)
Definition lastn {A} (n : Z) (xs : list A) : list A :=
  drop (length xs - Z.to_nat n) xs.

Lemma add_spec ib c :
  cache_ok c →
  add ib c = (Val tt, with_blocks (lastn (maxEntries c) (blocks c ++ [ib])) c).
Proof.
  destruct c as [bs max]. unfold cache_ok, size, len. cbn. intros [H1 H2].
  unfold add. rewrite bind_unfold. unfold gets, size, len. cbn.
  assert (max <? Z.of_nat (length bs) = false) as -> by lia.
  rewrite bind_unfold. unfold lastn. rewrite length_app. cbn [length].
  destruct (Z.of_nat (length bs) =? max) eqn:E.
  - apply Z.eqb_eq in E. destruct bs as [|b bs]; cbn in *; [lia|].
    by replace (S (length bs + 1) - Z.to_nat max)%nat with 1%nat by lia.
  - apply Z.eqb_neq in E. cbn. by replace (length bs + 1 - Z.to_nat max)%nat with 0%nat by lia.
Qed.

Lemma lastn_length {A} n (xs : list A) :
  0 ≤ n → len (lastn n xs) = Z.min n (len xs).
Proof. intros. unfold lastn, len. rewrite length_drop. lia. Qed.

Lemma lastn_suffix {A} n (xs : list A) : ∃ p, xs = p ++ lastn n xs.
Proof. exists (take (length xs - Z.to_nat n) xs). unfold lastn. by rewrite take_drop. Qed.

(** ** Invariant and behaviour of the operations *)

Section invariant.
Context {BL : BTCLib}.

Lemma Resize_spec max c :
  max ≠ 0 → Resize max c = (Val tt, mkBTCCache (blocks c) max).
Proof. intros Hm. unfold Resize. by destruct (Z.eqb_spec max 0). Qed.

Lemma Trim_spec c :
  0 ≤ maxEntries c →
  Trim c = (Val tt, with_blocks (lastn (maxEntries c) (blocks c)) c).
Proof.
  destruct c as [bs max]. unfold Trim, size, len, lastn. cbn. intros Hm.
  unfold gets. rewrite bind_unfold. cbn. destruct (Z.ltb_spec (Z.of_nat (length bs)) max).
  - by replace (length bs - Z.to_nat max)%nat with 0%nat by lia.
  - unfold modify, with_blocks. cbn. do 3 f_equal. lia.
Qed.

Lemma TrimConfirmedBlocks_spec k c :
  0 ≤ k →
  TrimConfirmedBlocks k c =
  if size c <=? k then (Val None, c)
  else (Val (Some (take (Z.to_nat (size c - k)) (blocks c))),
        with_blocks (lastn k (blocks c)) c).
Proof.
  destruct c as [bs max]. intros Hk. unfold TrimConfirmedBlocks, size. rewrite bind_unfold.
  unfold gets. cbn [id blocks fst snd]. destruct (len bs <=? k) eqn:E; [done|].
  destruct (Z.ltb_spec k 0); [lia|]. mrun. do 2 f_equal. unfold with_blocks, lastn. cbn.
  f_equal. f_equal. unfold len in *. lia.
Qed.

Lemma Init_loop ibs c :
  1 ≤ maxEntries c → size c + len ibs ≤ maxEntries c →
  for_each ibs add c = (Val tt, with_blocks (blocks c ++ ibs) c).
Proof.
  revert c. induction ibs as [|ib ibs IH]; intros [bs max]; unfold size, len in *; cbn;
    intros H1 H2.
  - by rewrite app_nil_r.
  - rewrite bind_unfold, add_spec by (unfold cache_ok, size, len; cbn; lia).
    unfold lastn. rewrite length_app. cbn.
    replace (length bs + 1 - Z.to_nat max)%nat with 0%nat by lia. cbn.
    unfold with_blocks at 1. cbn. rewrite IH; cbn.
    + unfold with_blocks. cbn. by rewrite drop_0, <-app_assoc.
    + done.
    + rewrite drop_0, length_app. cbn. lia.
Qed.

Lemma Init_spec ibs c :
  blocks c = [] → 1 ≤ maxEntries c →
  Init ibs c =
  if maxEntries c <? len ibs then (Error ErrTooManyEntries, c)
  else if is_sorted_on Height ibs then (Val tt, with_blocks ibs c)
  else (Error ErrUnsortedBlocks, c).
Proof.
  intros Hb Hm. unfold Init, gets. rewrite bind_unfold. cbn.
  destruct (Z.ltb_spec (maxEntries c) (len ibs)); [done|].
  destruct (is_sorted_on Height ibs); cbn; [|done].
  rewrite Init_loop; [by rewrite Hb|done|]. unfold size. rewrite Hb. cbn. done.
Qed.

Definition no_panic {S A} (r : outcome A * S) : Prop :=
  match fst r with Val _ | Error _ => True | _ => False end.
Definition panics {S A} (r : outcome A * S) : Prop :=
  match fst r with Panic _ => True | _ => False end.

Lemma lastn_bound {A} n (xs : list A) : 0 ≤ n → len (lastn n xs) ≤ n.
Proof. intros. rewrite lastn_length by done. lia. Qed.

(** The exported operations of the type, their results dropped. *)
Inductive cache_op :=
| OpInit (ibs : list IndexedBlock)
| OpAdd (ib : IndexedBlock)
| OpFirst
| OpTip
| OpRemoveLast
| OpRemoveAll
| OpSize
| OpGetLastBlocks (stopHeight : Z)
| OpGetAllBlocks
| OpTrimConfirmed (k : Z)
| OpFindBlock (blockHeight : Z)
| OpResize (max : Z)
| OpTrim.

Definition run_op (op : cache_op) : M BTCCache unit :=
  let query {A} (f : BTCCache → outcome A) : M BTCCache unit :=
    c ← gets id; of_outcome (f c) ;; mret tt in
  match op with
  | OpInit ibs => Init ibs
  | OpAdd ib => Add ib
  | OpFirst => query (λ c, Val (First c))
  | OpTip => query (λ c, Val (Tip c))
  | OpRemoveLast => RemoveLast
  | OpRemoveAll => RemoveAll
  | OpSize => query (λ c, Val (Size c))
  | OpGetLastBlocks h => query (λ c, GetLastBlocks c h)
  | OpGetAllBlocks => query (λ c, Val (GetAllBlocks 0 c))
  | OpTrimConfirmed k => TrimConfirmedBlocks k ;; mret tt
  | OpFindBlock h => query (λ c, FindBlock c h)
  | OpResize max => Resize max
  | OpTrim => Trim
  end.

(** [Resize] takes a [uint32]. *)
Definition op_args_ok (op : cache_op) : Prop :=
  match op with OpResize max => 0 ≤ max | _ => True end.

(** When an operation panics: adding to a cache over its bound, searching an
    empty cache, confirming with a negative depth. *)
Definition must_panic (op : cache_op) (c : BTCCache) : bool :=
  match op with
  | OpAdd _ => maxEntries c <? size c
  | OpInit ibs => (len ibs <=? maxEntries c) && is_sorted_on Height ibs &&
                  (0 <? len ibs) && (maxEntries c <? size c)
  | OpGetLastBlocks _ | OpFindBlock _ => size c =? 0
  | OpTrimConfirmed k => k <? 0
  | _ => false
  end.

(** The search ends within the cache, sorted or not. *)
Lemma find_loop_total bs h fuel l r :
  0 ≤ l → r < len bs → l ≤ r + 1 → (Z.to_nat (r - l + 1) < fuel)%nat →
  ∃ o, find_loop bs h fuel l r = Val o.
Proof.
  unfold len. revert l r. induction fuel as [|fuel IH]; intros l r Hl Hr Hlr Hf; [lia|].
  cbn. destruct (Z.leb_spec l r) as [E|E]; [|by eexists].
  set (mid := l + (r - l) `quot` 2).
  assert (l ≤ mid ≤ r) as Hmid.
  { subst mid. rewrite Z.quot_div_nonneg by lia. pose proof (Z.div_pos (r - l) 2 ltac:(lia) ltac:(lia)).
    pose proof (Z.mul_div_le (r - l) 2 ltac:(lia)). lia. }
  assert (is_Some (bs !! Z.to_nat mid)) as [b Hb] by (apply lookup_lt_is_Some; lia).
  rewrite <-(Z2Nat.id mid) by lia. rewrite (slice_index_lookup _ _ _ Hb).
  rewrite Z2Nat.id by lia. repeat case_match; [by eexists|apply IH; lia..].
Qed.

Lemma FindBlock_panics c h :
  if size c =? 0 then ∃ p, FindBlock c h = Panic p else ∃ o, FindBlock c h = Val o.
Proof.
  unfold FindBlock, size, len. destruct (blocks c) as [|b bs] eqn:E; [by eexists|].
  cbn [length]. destruct (head_last_nonempty (b :: bs)) as (f & l & -> & ->); [done|].
  destruct (Z.eqb_spec (Z.of_nat (S (length bs))) 0); [lia|].
  case_match; [by eexists|]. apply find_loop_total; unfold len; cbn; lia.
Qed.

Lemma GetLastBlocks_panics c h :
  if size c =? 0 then ∃ p, GetLastBlocks c h = Panic p
  else (∃ o, GetLastBlocks c h = Val o) ∨ ∃ e, GetLastBlocks c h = Error e.
Proof.
  unfold GetLastBlocks, size, len. destruct (blocks c) as [|b bs] eqn:E; [by eexists|].
  cbn [length]. destruct (head_last_nonempty (b :: bs)) as (f & l & -> & ->); [done|].
  destruct (Z.eqb_spec (Z.of_nat (S (length bs))) 0); [lia|].
  case_match; [right|left]; by eexists.
Qed.

(** Adding to a cache within its bound keeps it there. *)
Lemma for_each_add_ok ibs c :
  cache_ok c → ∃ c', for_each ibs add c = (Val tt, c') ∧ cache_ok c'.
Proof.
  revert c. induction ibs as [|ib ibs IH]; intros c Hc; cbn; [by eexists|].
  rewrite bind_unfold, add_spec by done. apply IH.
  destruct Hc as [H1 H2]. split; [done|]. apply lastn_bound. cbn. lia.
Qed.

Lemma add_over ib c : maxEntries c < size c → add ib c = (Panic "ErrTooManyEntries", c).
Proof.
  intros H. unfold add. rewrite bind_unfold. unfold gets, id. cbn [fst].
  by destruct (Z.ltb_spec (maxEntries c) (size c)); [|lia].
Qed.

(** What one operation does: it keeps the bound positive, keeps the cache within
    it (except for a [Resize], which [Trim] completes) and panics exactly when
    [must_panic] says so. *)
Lemma Init_ok ibs c :
  1 ≤ maxEntries c →
  (panics (Init ibs c) ↔ must_panic (OpInit ibs) c = true) ∧ fst (Init ibs c) ≠ Diverge ∧
  1 ≤ maxEntries (snd (Init ibs c)) ∧ (cache_ok c → cache_ok (snd (Init ibs c))).
Proof.
  intros Hm. unfold Init, must_panic. rewrite bind_unfold. unfold gets, id. cbn [fst].
  destruct (Z.ltb_spec (maxEntries c) (len ibs)) as [H|H]; cbn [fst snd].
  { destruct (Z.leb_spec (len ibs) (maxEntries c)); [lia|]. done. }
  destruct (Z.leb_spec (len ibs) (maxEntries c)); [|lia].
  destruct (is_sorted_on Height ibs); cbn [negb andb]; [|done].
  destruct (Z.ltb_spec (maxEntries c) (size c)) as [Ho|Ho].
  - destruct ibs as [|ib ibs]; [done|]. cbn [for_each]. rewrite bind_unfold, add_over by done.
    assert (0 <? len (ib :: ibs) = true) as -> by (apply Z.ltb_lt; unfold len; cbn [length]; lia).
    split_and!; try done.
  - destruct (for_each_add_ok ibs c) as (c' & -> & Hc'); [by split|].
    rewrite andb_false_r. split_and!; [done|done|apply Hc'|done].
Qed.

Lemma run_op_ok op c :
  1 ≤ maxEntries c → op_args_ok op →
  (panics (run_op op c) ↔ must_panic op c = true) ∧ fst (run_op op c) ≠ Diverge ∧
  1 ≤ maxEntries (snd (run_op op c)) ∧
  ((∀ max, op ≠ OpResize max) → cache_ok c → cache_ok (snd (run_op op c))).
Proof.
  intros Hm Ha. destruct op as [ibs|ib| | | | | |h| |k|h|max|]; cbn [run_op].
  - destruct (Init_ok ibs c Hm) as (? & ? & ? & ?). split_and!; auto.
  - unfold Add, must_panic. destruct (Z.ltb_spec (maxEntries c) (size c)) as [Ho|Ho].
    + rewrite add_over by done. by split_and!.
    + rewrite add_spec by (by split). cbn. split_and!; [done..|]. intros _ _. split; [done|].
      apply lastn_bound. cbn. lia.
  - by split_and!.
  - by split_and!.
  - unfold RemoveLast, gets. rewrite bind_unfold. cbn. case_match; [by split_and!|]. cbn.
    split_and!; [done..|]. intros _ [H1 H2]. split; [done|]. unfold size, len in *. cbn.
    rewrite length_take. lia.
  - split_and!; [done..|]. intros _ _. split; [done|]. unfold size, len. cbn. lia.
  - by split_and!.
  - rewrite bind_unfold. unfold gets, id. cbn [fst]. rewrite bind_unfold. unfold of_outcome.
    pose proof (GetLastBlocks_panics c h) as Hp. unfold must_panic.
    destruct (size c =? 0); [destruct Hp as [p ->]; by split_and!|].
    destruct Hp as [[o ->]|[e ->]]; by split_and!.
  - by split_and!.
  - unfold must_panic. destruct (Z.ltb_spec k 0) as [Hk|Hk].
    + rewrite bind_unfold. unfold TrimConfirmedBlocks. rewrite bind_unfold. unfold gets, id. cbn [fst].
      destruct (Z.leb_spec (len (blocks c)) k); [unfold len in *; lia|].
      destruct (Z.ltb_spec k 0); [|lia]. by split_and!.
    + rewrite bind_unfold, TrimConfirmedBlocks_spec by done.
      destruct (Z.leb_spec (size c) k); [by split_and!|]. cbn. split_and!; [done..|].
      intros _ [H1 H2]. split; [done|]. unfold size in *. cbn. rewrite lastn_length by done. lia.
  - rewrite bind_unfold. unfold gets, id. cbn [fst]. rewrite bind_unfold. unfold of_outcome.
    pose proof (FindBlock_panics c h) as Hp. unfold must_panic.
    destruct (size c =? 0); [destruct Hp as [p ->]; by split_and!|].
    destruct Hp as [o ->]; by split_and!.
  - cbn in Ha. destruct (decide (max = 0)) as [->|Hne]; [split_and!; try done; by intros []|].
    rewrite Resize_spec by done. cbn. split_and!; [done..|lia|]. intros Hno. by destruct (Hno max).
  - rewrite Trim_spec by lia. cbn. split_and!; [done..|]. intros _ _. split; [done|].
    apply lastn_bound. cbn. lia.
Qed.

(** The state after a sequence of operations. *)
Definition run_ops (ops : list cache_op) (c : BTCCache) : BTCCache :=
  foldl (λ c op, snd (run_op op c)) c ops.

(** Every [Resize] is followed by a [Trim], as in [bootstrap]. *)
Fixpoint trimmed (ops : list cache_op) : bool :=
  match ops with
  | [] => true
  | OpResize _ :: ops => match ops with OpTrim :: ops => trimmed ops | _ => false end
  | _ :: ops => trimmed ops
  end.

Lemma run_ops_pos ops c :
  1 ≤ maxEntries c → Forall op_args_ok ops → 1 ≤ maxEntries (run_ops ops c).
Proof.
  revert c. induction ops as [|op ops IH]; intros c Hc Ho; [done|].
  apply Forall_cons in Ho as [Ho Hs]. apply IH; [|done]. by destruct (run_op_ok op c) as (_ & _ & ? & _).
Qed.

(** A resize and a trim bring the cache within the new bound. *)
Lemma Trim_restores c : 1 ≤ maxEntries c → cache_ok (snd (Trim c)).
Proof.
  intros Hm. rewrite Trim_spec by lia. split; [done|]. apply lastn_bound. cbn. lia.
Qed.

(** With trimmed resizes the cache is within its bound before every operation
    but the [Trim] that completes a resize. *)
Lemma trimmed_ok ops c :
  cache_ok c → Forall op_args_ok ops → trimmed ops = true →
  cache_ok (run_ops ops c) ∧
  ∀ pre op post, ops = pre ++ op :: post → op = OpTrim ∨ cache_ok (run_ops pre c).
Proof.
  remember (length ops) as n eqn:Hn. revert ops Hn c.
  induction n as [n IH] using lt_wf_ind. intros ops -> c Hc Ho Ht.
  destruct ops as [|op ops]; [split; [done|]; intros pre op post Heq; by destruct pre|].
  apply Forall_cons in Ho as [Ho Hs].
  assert ((∃ max, op = OpResize max) ∨ ¬ ∃ max, op = OpResize max) as [[max ->]|Hno].
  { destruct op; [right; by intros [? ?]..|left; by eexists|right; by intros [? ?]]. }
  - destruct ops as [|[] ops]; try done. apply Forall_cons in Hs as [_ Hs].
    set (c1 := snd (run_op (OpResize max) c)).
    assert (1 ≤ maxEntries c1) as H1
      by (by destruct (run_op_ok (OpResize max) c (proj1 Hc) Ho) as (_ & _ & ? & _)).
    destruct (IH (length ops) ltac:(cbn; lia) ops eq_refl (snd (Trim c1))) as [He Hp];
      [by apply Trim_restores|done|done|].
    split; [done|]. intros [|o1 [|o2 pre]] op post Heq; cbn in Heq; simplify_eq; [by right|by left|].
    by eapply (Hp pre).
  - assert (cache_ok (snd (run_op op c))) as H1.
    { destruct (run_op_ok op c (proj1 Hc) Ho) as (_ & _ & _ & Hk). apply Hk; [|done].
      intros max ->. destruct Hno. eauto. }
    destruct (IH (length ops) ltac:(cbn; lia) ops eq_refl (snd (run_op op c))) as [He Hp]; [done|done| |].
    { destruct op; try done. destruct Hno. eauto. }
    split; [done|]. intros [|o1 pre] op' post Heq; cbn in Heq; simplify_eq; [by right|].
    by eapply (Hp pre).
Qed.

(** ** Chains are kept *)
Lemma lastn_chained n bs : chained bs → chained (lastn n bs).
Proof. apply chained_drop. Qed.

Lemma lastn_last {A} n (xs : list A) x :
  1 ≤ n → last (lastn n (xs ++ [x])) = Some x.
Proof.
  intros Hn. unfold lastn. rewrite length_app. cbn.
  rewrite drop_app_le by lia. by rewrite last_snoc.
Qed.

Lemma add_chained ib c :
  cache_ok c → chained (blocks c) → (∀ t, Tip c = Some t → links t ib) →
  let c' := snd (add ib c) in
  cache_ok c' ∧ chained (blocks c') ∧ Tip c' = Some ib.
Proof.
  intros Hc Hch Ht. rewrite add_spec by done. cbn.
  pose proof Hc as [H1 H2]. split_and!.
  - split; [done|]. apply lastn_bound. cbn. lia.
  - apply lastn_chained, chained_snoc. split; [done|]. intros t Hl. apply Ht.
    unfold Tip, size. destruct (blocks c); [done|]. cbn in *. done.
  - unfold Tip, size. cbn. rewrite lastn_last by done.
    rewrite lastn_length by lia. unfold len. rewrite length_app. cbn.
    case_match eqn:E; [apply Z.eqb_eq in E; lia|done].
Qed.

Lemma scan_back_spec bs h i :
  (i ≤ length bs)%nat →
  (∃ b, bs !! scan_back bs h i = Some b ∧ Height b = h ∧ (scan_back bs h i < i)%nat) ∨
  (∀ j b, bs !! j = Some b → (j < i)%nat → Height b ≠ h).
Proof.
  induction i as [|i IH]; cbn; intros Hi; [right; lia|].
  destruct (lookup_lt_is_Some_2 bs i ltac:(lia)) as [b Hb]. rewrite Hb.
  destruct (Z.eqb_spec (Height b) h) as [E|E]; [left; eauto 10 with lia|].
  destruct (IH ltac:(lia)) as [(b' & ? & ? & ?)|Hno]; [left; eauto 10 with lia|].
  right. intros j c Hj Hlt. destruct (decide (j = i)) as [->|]; [by simplify_eq|].
  eapply Hno; [done|lia].
Qed.

(** On a chain, [GetLastBlocks] returns the blocks from the requested height
    to the tip. *)
Lemma GetLastBlocks_chain c f l h :
  chained (blocks c) → head (blocks c) = Some f → last (blocks c) = Some l →
  Height f ≤ h ≤ Height l →
  GetLastBlocks c h = Val (drop (Z.to_nat (h - Height f)) (blocks c)).
Proof.
  intros Hch Hf Hl Hh. unfold GetLastBlocks. rewrite Hf, Hl.
  case_match eqn:E; [lia|]. do 2 f_equal.
  destruct (blocks c) as [|f' bs] eqn:Eb; [done|]. cbn in Hf. simplify_eq.
  assert (Height l = Height f + Z.of_nat (length bs)) as Hlast.
  { rewrite last_lookup in Hl. rewrite (chained_height _ _ _ _ Hch Hl). cbn. lia. }
  destruct (scan_back_spec (f :: bs) h (length (f :: bs)) ltac:(done))
    as [(b & Hb & Hbh & _)|Hno].
  - pose proof (chained_height _ _ _ _ Hch Hb). lia.
  - exfalso. destruct (lookup_lt_is_Some_2 (f :: bs) (Z.to_nat (h - Height f)))
      as [b Hb]; [cbn; lia|].
    apply (Hno _ _ Hb); [cbn; lia|]. rewrite (chained_height _ _ _ _ Hch Hb). lia.
Qed.
End invariant.
