(* ===== verification/CkptCache.v ===== *)
(** * Checkpoint segments and the checkpoint cache

    [types/ckpt_segment.go], [types/ckpt.go], [types/ckpt_cache.go] and
    [types/btccheckpoint.go].  A Babylon checkpoint travels in two Bitcoin
    transactions; the cache pairs the two halves.  Go iterates a map in an
    unspecified order, so [Match] takes the orders as arguments and its
    theorems hold for every order. *)

From S2P Require Import Prelude Blocks.

(** The parts of [btctxformatter] and of [x/btccheckpoint] the cache calls. *)
Record BabylonData := mkBabylonData { Data : bytes; Index : Z }.

#[global] Instance BabylonData_eq_dec : EqDecision BabylonData.
Proof. solve_decision. Defined.

(** [type BabylonTag []byte] and [type FormatVersion uint8] *)
Notation BabylonTag := (list Z) (only parsing).
Notation FormatVersion := Z (only parsing).

Class BabylonFormatter {BL : BTCLib} := {
  CurrentVersion : FormatVersion;
  NumberOfParts : Z;
  NumberOfParts_two : NumberOfParts = 2;
  ExtractStandardOpReturnData : Tx → result bytes;
  IsBabylonCheckpointData : BabylonTag → FormatVersion → bytes → result BabylonData;
  ConnectParts : FormatVersion → bytes → bytes → result bytes;
  DecodeRawCheckpoint : FormatVersion → bytes → result Z; (* the [Epoch] field *)
  Sum256 : bytes → Hash;
}.

(** [time.Time.Sub]: nanoseconds, saturating at the range of [time.Duration]. *)
Definition time_Sub (t u : Z) : Z := Z.max (- 2 ^ 63) (Z.min (2 ^ 63 - 1) (t - u)).

Record CkptSegment := mkCkptSegment {
  seg_BabylonData : BabylonData;
  TxIdx : Z;
  AssocBlock : IndexedBlock;
  Timestamp : Z;
}.

#[global] Instance CkptSegment_eq_dec : EqDecision CkptSegment.
Proof. solve_decision. Defined.

Section ckpt.
Context {BL : BTCLib} {BF : BabylonFormatter}.

Definition seg_Data (s : CkptSegment) : bytes := Data (seg_BabylonData s).
Definition seg_Index (s : CkptSegment) : Z := Index (seg_BabylonData s).

Definition NewCkptSegment (tag : BabylonTag) (version : FormatVersion)
    (block : IndexedBlock) (tx : Tx) : option CkptSegment :=
  match ExtractStandardOpReturnData tx with
  | Err _ => None
  | Ok opReturnData =>
      match IsBabylonCheckpointData tag version opReturnData with
      | Err _ => None
      | Ok bbnData => Some (mkCkptSegment bbnData (tx_Index tx) block 0)
      end
  end.

Record Ckpt := mkCkpt { Segs : list CkptSegment; Epoch : Z }.

Definition NewCkpt (ckptSeg1 ckptSeg2 : CkptSegment) (epochNumber : Z) : Ckpt :=
  mkCkpt [ckptSeg1; ckptSeg2] epochNumber.

(** The loop of [MustGenSPVProofs]; an error of [GenSPVProof] panics. *)
Fixpoint gen_proofs (segs : list CkptSegment) : outcome (list BTCSpvProof) :=
  match segs with
  | [] => Val []
  | s :: segs =>
      match GenSPVProof (AssocBlock s) (TxIdx s) with
      | Val p => match gen_proofs segs with Val ps => Val (p :: ps) | o => o end
      | Error _ => Panic "GenSPVProof"
      | Panic m => Panic m
      | Diverge => Diverge
      end
  end.
Definition MustGenSPVProofs (ckpt : Ckpt) : outcome (list BTCSpvProof) :=
  if negb (len (Segs ckpt) =? NumberOfParts) then Panic "incorrect number of segments"
  else gen_proofs (Segs ckpt).

Record MsgInsertBTCSpvProof := mkMsgSpv { Submitter : string; Proofs : list BTCSpvProof }.
Definition MustNewMsgInsertBTCSpvProof (submitter : string) (proofs : list BTCSpvProof)
  : outcome MsgInsertBTCSpvProof :=
  if negb (len proofs =? NumberOfParts) then Panic "incorrect number of proofs"
  else Val (mkMsgSpv submitter proofs).

Record CheckpointCache := mkCheckpointCache {
  cc_Tag : BabylonTag;
  cc_Version : FormatVersion;
  Checkpoints : list Ckpt;
  Segments : gmap Z (gmap Hash CkptSegment);
}.

Definition with_Checkpoints (l : list Ckpt) (c : CheckpointCache) : CheckpointCache :=
  mkCheckpointCache (cc_Tag c) (cc_Version c) l (Segments c).
Definition with_Segments (m : gmap Z (gmap Hash CkptSegment)) (c : CheckpointCache)
  : CheckpointCache := mkCheckpointCache (cc_Tag c) (cc_Version c) (Checkpoints c) m.

(** [for i := uint8(0); i < NumberOfParts; i++] *)
Definition NewCheckpointCache (tag : BabylonTag) (version : FormatVersion) : CheckpointCache :=
  mkCheckpointCache tag version []
    (list_to_map ((λ i, (Z.of_nat i, ∅)) <$> seq 0 (Z.to_nat NumberOfParts))).

(** [c.Segments[i]], a missing entry reading as an empty map. *)
Definition segments (i : Z) (c : CheckpointCache) : gmap Hash CkptSegment :=
  default ∅ (Segments c !! i).

Definition set_Timestamp (t : Z) (s : CkptSegment) : CkptSegment :=
  mkCkptSegment (seg_BabylonData s) (TxIdx s) (AssocBlock s) t.

(** [now] is the reading of [time.Now()]; writing into a missing inner map is
    Go's assignment to an entry in a nil map. *)
Definition AddSegment (now : Z) (ckptSeg : CkptSegment) : M CheckpointCache unit :=
  if NumberOfParts <=? seg_Index ckptSeg
  then fail (ENew "the index of the ckpt segment is out of scope")
  else
    let hash := Sum256 (seg_Data ckptSeg) in
    let ckptSeg := set_Timestamp now ckptSeg in
    c ← gets id;
    match Segments c !! seg_Index ckptSeg with
    | None => panic "assignment to entry in nil map"
    | Some m =>
        modify (with_Segments (<[seg_Index ckptSeg := <[hash := ckptSeg]> m]> (Segments c)))
    end.

Definition AddCheckpoint (ckpt : Ckpt) (c : CheckpointCache) : CheckpointCache :=
  with_Checkpoints (Checkpoints c ++ [ckpt]) c.

Definition sortCheckpoints `{GoSort} (c : CheckpointCache) : CheckpointCache :=
  with_Checkpoints (sort_Slice Epoch (Checkpoints c)) c.

(** The epoch of the checkpoint two segments make up, if they do. *)
Definition connect (v : FormatVersion) (s1 s2 : CkptSegment) : option Z :=
  match ConnectParts v (seg_Data s1) (seg_Data s2) with
  | Err _ => None
  | Ok connected =>
      match DecodeRawCheckpoint v connected with
      | Err _ => None
      | Ok epoch => Some epoch
      end
  end.

Definition delete_segment (i : Z) (h : Hash) (c : CheckpointCache) : CheckpointCache :=
  with_Segments (alter (delete h) i (Segments c)) c.

(** The body of the inner loop of [Match]. *)
Definition match_pair (h1 : Hash) (s1 : CkptSegment)
    (c : CheckpointCache) (e2 : Hash * CkptSegment) : CheckpointCache :=
  match connect (cc_Version c) s1 (snd e2) with
  | None => c
  | Some epoch =>
      let c := AddCheckpoint (NewCkpt s1 (snd e2) epoch) c in
      let c := delete_segment 0 h1 c in
      delete_segment 1 (fst e2) c
  end.

Section iteration.
Context (ord0 : gmap Hash CkptSegment → list (Hash * CkptSegment)).
Context (ord1 : Hash → gmap Hash CkptSegment → list (Hash * CkptSegment)).

(** The body of the outer loop: a fresh range over [Segments[1]]. *)
Definition match_inner (c : CheckpointCache) (e1 : Hash * CkptSegment) : CheckpointCache :=
  foldl (match_pair (fst e1) (snd e1)) c (ord1 (fst e1) (segments 1 c)).

Definition match_outer (c : CheckpointCache) : CheckpointCache :=
  foldl match_inner c (ord0 (segments 0 c)).

Definition Match `{GoSort} (c : CheckpointCache) : CheckpointCache :=
  sortCheckpoints (match_outer c).
End iteration.

Definition PopEarliestCheckpoint : M CheckpointCache (option Ckpt) :=
  c ← gets id;
  match Checkpoints c with
  | ckpt :: rest => modify (with_Checkpoints rest) ;; mret (Some ckpt)
  | [] => mret None
  end.

Definition NumSegments (c : CheckpointCache) : Z :=
  map_fold (λ _ segMap n, n + Z.of_nat (base.size segMap)) 0 (Segments c).
Definition NumCheckpoints (c : CheckpointCache) : Z := len (Checkpoints c).

(** One tick of [StartCleanupRoutine]: the range over one inner map. *)
Definition cleanup_map (now segmentTTL : Z) (order : list (Hash * CkptSegment))
    (segMap : gmap Hash CkptSegment) : gmap Hash CkptSegment :=
  foldl (λ m '(h, seg), if segmentTTL <? time_Sub now (Timestamp seg) then delete h m else m)
    segMap order.
Definition cleanup_tick (now segmentTTL : Z) (c : CheckpointCache) : CheckpointCache :=
  with_Segments ((λ m, cleanup_map now segmentTTL (map_to_list m) m) <$> Segments c) c.

(** The routine as the sequence of events its [select] receives. *)
Inductive cleanup_event := Tick (now : Z) | StopChan.
Fixpoint StartCleanupRoutine (segmentTTL : Z) (evs : list cleanup_event)
    (c : CheckpointCache) : CheckpointCache :=
  match evs with
  | [] | StopChan :: _ => c
  | Tick now :: evs => StartCleanupRoutine segmentTTL evs (cleanup_tick now segmentTTL c)
  end.
End ckpt.
