(* ===== verification/CkptCacheProps.v ===== *)
(** * Correctness of the checkpoint cache

    The pairing of segments by [Match] is sound, complete, conserves segments
    and leaves the checkpoints in epoch order; popping and cleaning up keep
    that. *)

From S2P Require Import Prelude Blocks CkptCache.

Section props.
Context {BL : BTCLib} {BF : BabylonFormatter}.

(** ** One step of the inner loop *)

Lemma segments_delete_segment i j h c :
  segments i (delete_segment j h c) =
  if bool_decide (i = j) then delete h (segments i c) else segments i c.
Proof.
  unfold segments, delete_segment. cbn. case_bool_decide as E.
  - subst j. rewrite lookup_alter_eq. destruct (Segments c !! i); cbn; [done|].
    symmetry. apply delete_empty.
  - by rewrite lookup_alter_ne.
Qed.

Lemma match_pair_version h1 s1 c e : cc_Version (match_pair h1 s1 c e) = cc_Version c.
Proof. unfold match_pair. by case_match. Qed.

Lemma match_pair_ckpts h1 s1 c e :
  Checkpoints (match_pair h1 s1 c e) =
  Checkpoints c ++
    match connect (cc_Version c) s1 (snd e) with
    | Some ep => [NewCkpt s1 (snd e) ep]
    | None => []
    end.
Proof. unfold match_pair. case_match; cbn; [done|]. by rewrite app_nil_r. Qed.

Lemma match_pair_seg0 h1 s1 c e :
  segments 0 (match_pair h1 s1 c e) =
  if connect (cc_Version c) s1 (snd e) then delete h1 (segments 0 c) else segments 0 c.
Proof. unfold match_pair. case_match; [|done]. by rewrite !segments_delete_segment. Qed.

Lemma match_pair_seg1 h1 s1 c e :
  segments 1 (match_pair h1 s1 c e) =
  if connect (cc_Version c) s1 (snd e) then delete (fst e) (segments 1 c) else segments 1 c.
Proof. unfold match_pair. case_match; [|done]. by rewrite !segments_delete_segment. Qed.

Lemma match_pair_segs i h1 s1 c e :
  segments i (match_pair h1 s1 c e) ⊆ segments i c.
Proof.
  unfold match_pair. case_match; [|done]. rewrite !segments_delete_segment.
  repeat case_bool_decide; cbn; try (etrans; [apply delete_subseteq|]); try done;
    apply delete_subseteq.
Qed.

Lemma match_pair_tag h1 s1 c e : cc_Tag (match_pair h1 s1 c e) = cc_Tag c.
Proof. unfold match_pair. by case_match. Qed.

(** ** The invariant of the loops

    [made c0 c]: what the loops have done so far, starting from [c0]. *)
Definition from_pair (c0 c : CheckpointCache) (k : Ckpt) : Prop :=
  ∃ h1 s1 h2 s2 e,
    segments 0 c0 !! h1 = Some s1 ∧ segments 1 c0 !! h2 = Some s2 ∧
    connect (cc_Version c0) s1 s2 = Some e ∧ k = NewCkpt s1 s2 e ∧
    segments 0 c !! h1 = None ∧ segments 1 c !! h2 = None.

(** Every cached segment of [c0] is cached in [c] still or is the segment of
    its index of one of the [new] checkpoints. *)
Definition consumed_by (c0 c : CheckpointCache) (new : list Ckpt) : Prop :=
  ∀ i h s, segments i c0 !! h = Some s →
    segments i c !! h = Some s ∨
    ∃ k, k ∈ new ∧ 0 ≤ i ∧ Segs k !! Z.to_nat i = Some s.

Record made (c0 c : CheckpointCache) : Prop := {
  made_version : cc_Version c = cc_Version c0;
  made_tag : cc_Tag c = cc_Tag c0;
  made_segs : ∀ i, segments i c ⊆ segments i c0;
  made_seg0 : segments 0 c ⊆ segments 0 c0;
  made_seg1 : segments 1 c ⊆ segments 1 c0;
  made_ckpts : ∃ new, Checkpoints c = Checkpoints c0 ++ new ∧ Forall (from_pair c0 c) new ∧
                      consumed_by c0 c new;
  made_count : (length (Checkpoints c) + base.size (segments 1 c) =
                length (Checkpoints c0) + base.size (segments 1 c0))%nat;
}.

Lemma made_refl c : made c c.
Proof.
  split; [done..| |done]. exists []. rewrite app_nil_r. split_and!; [done..|].
  intros i h s Hs. by left.
Qed.

Lemma from_pair_mono c0 c c' k :
  segments 0 c' ⊆ segments 0 c → segments 1 c' ⊆ segments 1 c →
  from_pair c0 c k → from_pair c0 c' k.
Proof.
  intros H0 H1 (h1 & s1 & h2 & s2 & e & ? & ? & ? & ? & ? & ?).
  exists h1, s1, h2, s2, e. split_and!; [done..| |].
  - by eapply lookup_weaken_None.
  - by eapply lookup_weaken_None.
Qed.

(** A step removes two segments, those of the checkpoint it adds. *)
Lemma match_pair_consumes c0 c h1 s1 h2 s2 ep new :
  connect (cc_Version c) s1 s2 = Some ep →
  segments 0 c0 !! h1 = Some s1 → segments 1 c0 !! h2 = Some s2 →
  consumed_by c0 c new →
  consumed_by c0 (match_pair h1 s1 c (h2, s2)) (new ++ [NewCkpt s1 s2 ep]).
Proof.
  intros E Hs1 Hs2 Hnew i h s Hs.
  destruct (Hnew i h s Hs) as [Hc|(k & Hk & Hi)].
  2:{ right. exists k. split; [|done]. apply elem_of_app. by left. }
  unfold match_pair. cbn. rewrite E, !segments_delete_segment.
  assert (NewCkpt s1 s2 ep ∈ new ++ [NewCkpt s1 s2 ep]) as Hk.
  { apply elem_of_app. right. by apply list_elem_of_singleton. }
  repeat case_bool_decide; subst; try lia.
  - destruct (decide (h = h2)) as [->|]; [|left; by rewrite lookup_delete_ne].
    right. exists (NewCkpt s1 s2 ep). split_and!; [done|lia|].
    by rewrite Hs2 in Hs; simplify_eq.
  - destruct (decide (h = h1)) as [->|]; [|left; by rewrite lookup_delete_ne].
    right. exists (NewCkpt s1 s2 ep). split_and!; [done|lia|].
    by rewrite Hs1 in Hs; simplify_eq.
  - by left.
Qed.

Lemma match_pair_made c0 c h1 s1 e :
  made c0 c → segments 0 c0 !! h1 = Some s1 → segments 1 c !! fst e = Some (snd e) →
  made c0 (match_pair h1 s1 c e).
Proof.
  intros [Hv Ht Hsg H0 H1 (new & Hn & Hall & Hcon) Hc] Hs1 Hs2. destruct e as [h2 s2]. cbn in *.
  destruct (connect (cc_Version c) s1 s2) as [ep|] eqn:E.
  2:{ unfold match_pair. cbn. rewrite E. split; eauto. }
  assert (segments 0 (match_pair h1 s1 c (h2, s2)) = delete h1 (segments 0 c)) as Es0
    by (rewrite match_pair_seg0; cbn; by rewrite E).
  assert (segments 1 (match_pair h1 s1 c (h2, s2)) = delete h2 (segments 1 c)) as Es1
    by (rewrite match_pair_seg1; cbn; by rewrite E).
  assert (Checkpoints (match_pair h1 s1 c (h2, s2)) =
          Checkpoints c ++ [NewCkpt s1 s2 ep]) as Ek
    by (rewrite match_pair_ckpts; cbn; by rewrite E).
  split.
  - by rewrite match_pair_version.
  - by rewrite match_pair_tag.
  - intros i. etrans; [apply match_pair_segs|done].
  - rewrite Es0. etrans; [apply delete_subseteq|done].
  - rewrite Es1. etrans; [apply delete_subseteq|done].
  - exists (new ++ [NewCkpt s1 s2 ep]). rewrite Ek, Hn, <-app_assoc. split_and!; [done| |].
    2:{ apply match_pair_consumes; [done..| |done]. by eapply lookup_weaken. }
    apply Forall_app. split.
    + eapply Forall_impl; [done|]. intros k. apply from_pair_mono.
      * rewrite Es0. apply delete_subseteq.
      * rewrite Es1. apply delete_subseteq.
    + constructor; [|done]. exists h1, s1, h2, s2, ep. rewrite Es0, Es1, <-Hv.
      split_and!; [done| |done..| |].
      * by eapply lookup_weaken.
      * apply lookup_delete_eq.
      * apply lookup_delete_eq.
  - rewrite Ek, Es1, length_app. cbn.
    assert (base.size (segments 1 c) = S (base.size (delete h2 (segments 1 c)))) as Hd.
    { rewrite <-(insert_delete_id (segments 1 c) h2 s2) at 1 by done.
      apply map_size_insert_None, lookup_delete_eq. }
    lia.
Qed.

(** The inner loop: entries not yet visited are still in the map. *)
Lemma inner_made c0 c h1 s1 es :
  NoDup (es.*1) → (∀ e, e ∈ es → segments 1 c !! fst e = Some (snd e)) →
  segments 0 c0 !! h1 = Some s1 → made c0 c →
  made c0 (foldl (match_pair h1 s1) c es).
Proof.
  revert c. induction es as [|e es IH]; intros c Hnd Hin Hs1 Hm; cbn; [done|].
  apply NoDup_cons in Hnd as [Hni Hnd]. apply IH; [done| |done|].
  - intros e' He'. rewrite match_pair_seg1. case_match; [|apply Hin; by right].
    rewrite lookup_delete_ne.
    + apply Hin. by right.
    + intros E. apply Hni. rewrite E. apply list_elem_of_fmap. eauto.
  - apply match_pair_made; [done|done|]. apply Hin. left.
Qed.

(** After the inner loop the first segment is gone or connects to nothing. *)
Definition settled (c : CheckpointCache) (e1 : Hash * CkptSegment) : Prop :=
  segments 0 c !! fst e1 = None ∨
  ∀ h2 s2, segments 1 c !! h2 = Some s2 → connect (cc_Version c) (snd e1) s2 = None.

Lemma settled_mono c c' e1 :
  cc_Version c' = cc_Version c → segments 0 c' ⊆ segments 0 c → segments 1 c' ⊆ segments 1 c →
  settled c e1 → settled c' e1.
Proof.
  intros Hv H0 H1 [Hn|Hc]; [left; by eapply lookup_weaken_None|].
  right. intros h2 s2 Hs. rewrite Hv. eapply Hc, lookup_weaken; done.
Qed.

(** What one fold of the inner loop leaves. *)
Lemma inner_frame h1 s1 es c :
  let c' := foldl (match_pair h1 s1) c es in
  cc_Version c' = cc_Version c ∧ segments 0 c' ⊆ segments 0 c ∧ segments 1 c' ⊆ segments 1 c.
Proof.
  revert c. induction es as [|e es IH]; intros c; cbn; [done|].
  destruct (IH (match_pair h1 s1 c e)) as (Hv & H0 & H1). split_and!.
  - by rewrite Hv, match_pair_version.
  - etrans; [exact H0|]. rewrite match_pair_seg0. case_match; [apply delete_subseteq|done].
  - etrans; [exact H1|]. rewrite match_pair_seg1. case_match; [apply delete_subseteq|done].
Qed.

Lemma inner_settled h1 s1 es c :
  let c' := foldl (match_pair h1 s1) c es in
  segments 0 c' !! h1 = None ∨ ∀ e, e ∈ es → connect (cc_Version c) s1 (snd e) = None.
Proof.
  revert c. induction es as [|e es IH]; intros c; cbn; [right; set_solver|].
  destruct (connect (cc_Version c) s1 (snd e)) as [ep|] eqn:E.
  - left. destruct (inner_frame h1 s1 es (match_pair h1 s1 c e)) as (_ & H0 & _).
    eapply lookup_weaken_None; [|exact H0]. rewrite match_pair_seg0, E.
    apply lookup_delete_eq.
  - destruct (IH (match_pair h1 s1 c e)) as [Hn|Hc]; [by left|]. right.
    rewrite match_pair_version in Hc. set_solver.
Qed.

Section iteration.
Context (ord0 : gmap Hash CkptSegment → list (Hash * CkptSegment)).
Context (ord1 : Hash → gmap Hash CkptSegment → list (Hash * CkptSegment)).
Context (Hord0 : ∀ m, is_range m (ord0 m)) (Hord1 : ∀ h m, is_range m (ord1 h m)).

Lemma is_range_NoDup (m : gmap Hash CkptSegment) l : is_range m l → NoDup l.*1.
Proof. unfold is_range. intros Hr. rewrite Hr. apply NoDup_fst_map_to_list. Qed.

Lemma match_inner_step c0 c e1 :
  made c0 c → segments 0 c0 !! fst e1 = Some (snd e1) →
  let c' := match_inner ord1 c e1 in
  made c0 c' ∧ settled c' e1 ∧
  cc_Version c' = cc_Version c ∧ segments 0 c' ⊆ segments 0 c ∧ segments 1 c' ⊆ segments 1 c.
Proof.
  intros Hm Hs1. destruct e1 as [h1 s1]. cbn in *. unfold match_inner. cbn.
  pose proof (inner_frame h1 s1 (ord1 h1 (segments 1 c)) c) as (Hv & H0 & H1).
  split_and!; [| |done..].
  - apply inner_made; [eapply is_range_NoDup, Hord1| |done|done].
    intros [h2 s2] He. cbn. by apply (is_range_elem _ _ _ _ (Hord1 h1 _)).
  - destruct (inner_settled h1 s1 (ord1 h1 (segments 1 c)) c) as [Hn|Hc]; [by left|].
    right. intros h2 s2 Hs2. cbn. rewrite Hv.
    apply (Hc (h2, s2)), (is_range_elem _ _ _ _ (Hord1 h1 _)). by eapply lookup_weaken.
Qed.

Lemma match_fold_step c0 c es :
  made c0 c → (∀ e, e ∈ es → segments 0 c0 !! fst e = Some (snd e)) →
  let c' := foldl (match_inner ord1) c es in
  made c0 c' ∧ Forall (settled c') es ∧
  cc_Version c' = cc_Version c ∧ segments 0 c' ⊆ segments 0 c ∧ segments 1 c' ⊆ segments 1 c.
Proof.
  revert c. induction es as [|e es IH]; intros c Hm Hin; cbn; [done|].
  destruct (match_inner_step c0 c e Hm) as (Hm1 & Hs1 & Hv1 & H01 & H11); [apply Hin; left|].
  destruct (IH (match_inner ord1 c e)) as (Hm2 & Hs2 & Hv2 & H02 & H12); [done| |].
  { intros e' He'. apply Hin. by right. }
  split_and!; [done| |congruence|by etrans|by etrans].
  constructor; [|done]. by eapply settled_mono.
Qed.

Lemma match_outer_spec c :
  let c' := match_outer ord0 ord1 c in
  made c c' ∧
  ∀ h1 s1 h2 s2, segments 0 c' !! h1 = Some s1 → segments 1 c' !! h2 = Some s2 →
    connect (cc_Version c') s1 s2 = None.
Proof.
  unfold match_outer.
  destruct (match_fold_step c c (ord0 (segments 0 c))) as (Hm & Hall & Hv & H0 & H1).
  { apply made_refl. }
  { intros [h s] He. cbn. by apply (is_range_elem _ _ _ _ (Hord0 _)). }
  split; [done|]. intros h1 s1 h2 s2 Hs1 Hs2.
  rewrite Forall_forall in Hall. destruct (Hall (h1, s1)) as [Hn|Hc].
  - apply (is_range_elem _ _ _ _ (Hord0 _)). by eapply lookup_weaken.
  - cbn in Hn. by rewrite Hs1 in Hn.
  - by eapply Hc.
Qed.

Context {GS : GoSort}.

Lemma Match_made c :
  let c' := Match ord0 ord1 c in
  segments 0 c' ⊆ segments 0 c ∧ segments 1 c' ⊆ segments 1 c ∧
  (∃ new, Checkpoints c' ≡ₚ Checkpoints c ++ new ∧ Forall (from_pair c c') new ∧
          consumed_by c c' new) ∧
  ((∀ i, segments i c' ⊆ segments i c) ∧ cc_Version c' = cc_Version c ∧ cc_Tag c' = cc_Tag c) ∧
  sorted_on Epoch (Checkpoints c') ∧
  (length (Checkpoints c') + base.size (segments 1 c') =
   length (Checkpoints c) + base.size (segments 1 c))%nat ∧
  ∀ h1 s1 h2 s2, segments 0 c' !! h1 = Some s1 → segments 1 c' !! h2 = Some s2 →
    connect (cc_Version c) s1 s2 = None.
Proof.
  destruct (match_outer_spec c) as ([Hv Ht Hsg H0 H1 (new & Hn & Hall & Hcon) Hc] & Hcomp).
  unfold Match. cbn. split_and!; [done|done| |done..| | |].
  - exists new. rewrite sort_Slice_perm, Hn. done.
  - apply sort_Slice_sorted.
  - rewrite sort_Slice_perm. done.
  - intros. rewrite <-Hv. by eapply Hcomp.
Qed.
End iteration.

(** ** Cleaning up *)
Lemma cleanup_fold now ttl order (m : gmap Hash CkptSegment) h :
  NoDup order.*1 → (∀ e, e ∈ order → m !! fst e = Some (snd e)) →
  cleanup_map now ttl order m !! h =
  match m !! h with
  | Some s => if bool_decide ((h, s) ∈ order) && (ttl <? time_Sub now (Timestamp s))
              then None else Some s
  | None => None
  end.
Proof.
  revert m. induction order as [|[h' s'] order IH]; intros m Hnd Hin.
  { cbn. destruct (m !! h); [|done]. by rewrite bool_decide_eq_false_2 by set_solver. }
  apply NoDup_cons in Hnd as [Hni Hnd].
  assert (∀ s, (h', s) ∉ order) as Hfresh.
  { intros s Hs. apply Hni. apply list_elem_of_fmap. exists (h', s). done. }
  pose proof (Hin (h', s') ltac:(left)) as Hh'. cbn in Hh'.
  unfold cleanup_map. cbn. fold (cleanup_map now ttl order). destruct (ttl <? _) eqn:E.
  - change (foldl _ (delete h' m) order) with (cleanup_map now ttl order (delete h' m)).
    rewrite IH; [|done|].
    + destruct (decide (h = h')) as [->|Hne].
      * rewrite lookup_delete_eq, Hh'. rewrite bool_decide_eq_true_2 by left. by rewrite E.
      * rewrite lookup_delete_ne by done. destruct (m !! h) as [s|]; [|done].
        rewrite (bool_decide_ext ((h, s) ∈ order) ((h, s) ∈ (h', s') :: order)); [done|].
        set_solver.
    + intros e He. rewrite lookup_delete_ne; [apply Hin; by right|].
      intros Eq. apply Hni. apply list_elem_of_fmap. exists e. done.
  - change (foldl _ m order) with (cleanup_map now ttl order m).
    rewrite IH; [|done|intros e He; apply Hin; by right].
    destruct (m !! h) as [s|] eqn:Em; [|done].
    destruct (decide (h = h')) as [->|Hne].
    + simplify_eq. by rewrite E, !andb_false_r.
    + rewrite (bool_decide_ext ((h, s) ∈ order) ((h, s) ∈ (h', s') :: order)); [done|].
      set_solver.
Qed.

(** A tick keeps exactly the segments not older than the TTL. *)
Lemma cleanup_tick_spec now ttl c i h s :
  segments i (cleanup_tick now ttl c) !! h = Some s ↔
  segments i c !! h = Some s ∧ time_Sub now (Timestamp s) ≤ ttl.
Proof.
  unfold cleanup_tick, segments. cbn. rewrite lookup_fmap.
  destruct (Segments c !! i) as [m|]; cbn; [|rewrite lookup_empty; naive_solver].
  rewrite cleanup_fold.
  - destruct (m !! h) as [s'|] eqn:Em; [|naive_solver].
    rewrite bool_decide_eq_true_2 by (by apply elem_of_map_to_list). cbn.
    case_match eqn:E; naive_solver lia.
  - apply NoDup_fst_map_to_list.
  - intros [h' s'] He. by apply elem_of_map_to_list.
Qed.
End props.
