(* ===== verification/Retry.v ===== *)
(** * Retrying calls ([retrywrap/retry.go])

    The package [retry-go] is an interface: [Retry] states what its
    documentation promises of [retry.Do] as an inductive account of the attempts
    made.  [Do] is the wrapper of [retrywrap]. *)

From S2P Require Import Prelude.

Record retry_opts := mkRetryOpts {
  Attempts : Z;               (** 0 retries until success *)
  RetryIf : gerror → bool;
  LastErrorOnly : bool;
  WithContext : bool;         (** a context that may be cancelled is given *)
}.

Definition DefaultAttempts : Z := 10.

(** [context.Canceled] *)
Definition ErrCanceled : gerror := ESentinel "context.Canceled".

(** The error of a failed [retry.Do]: the log of all attempts, or the last. *)
Definition report (o : retry_opts) (log : list gerror) (e : gerror) : gerror :=
  if LastErrorOnly o || (Attempts o =? 0) then e else foldr EJoin e log.

(** [retried o f log s r]: after the failures [log], a run of [retry.Do] from
    state [s] ends with [r]. *)
Inductive retried {S} (o : retry_opts) (f : M S unit)
  : list gerror → S → outcome unit * S → Prop :=
| R_success log s s' :
    f s = (Val tt, s') → retried o f log s (Val tt, s')
| R_panic log s p s' :
    f s = (Panic p, s') → retried o f log s (Panic p, s')
| R_diverge log s s' :
    f s = (Diverge, s') → retried o f log s (Diverge, s')
| R_not_retryable log s e s' :
    f s = (Error e, s') → RetryIf o e = false →
    retried o f log s (Error (report o log e), s')
| R_exhausted log s e s' :
    f s = (Error e, s') → Attempts o ≠ 0 → Attempts o ≤ len log + 1 →
    retried o f log s (Error (report o log e), s')
| R_again log s e s1 r :
    f s = (Error e, s1) → RetryIf o e = true →
    Attempts o = 0 ∨ len log + 1 < Attempts o →
    retried o f (log ++ [e]) s1 r → retried o f log s r
| R_cancelled log s :
    WithContext o = true → retried o f log s (Error (report o log ErrCanceled), s).

Class Retry := {
  retry_Do : ∀ {S}, retry_opts → M S unit → M S unit;
  retry_Do_spec : ∀ {S} o (f : M S unit) s, 0 ≤ Attempts o →
    (Attempts o = 0 → WithContext o = true) →
    retried o f [] s (retry_Do o f s);
}.

(** ** [retrywrap] *)
Definition ErrHeaderParentDoesNotExist := "btclctypes.ErrHeaderParentDoesNotExist".
Definition ErrChainWithNotEnoughWork := "btclctypes.ErrChainWithNotEnoughWork".
Definition btclc_ErrInvalidHeader := "btclctypes.ErrInvalidHeader".
Definition ErrProvidedHeaderDoesNotHaveAncestor := "btcctypes.ErrProvidedHeaderDoesNotHaveAncestor".
Definition btcc_ErrInvalidHeader := "btcctypes.ErrInvalidHeader".
Definition ErrNoCheckpointsForPreviousEpoch := "btcctypes.ErrNoCheckpointsForPreviousEpoch".
Definition ErrInvalidCheckpointProof := "btcctypes.ErrInvalidCheckpointProof".
Definition ErrBlsPrivKeyDoesNotExist := "checkpointingtypes.ErrBlsPrivKeyDoesNotExist".
Definition ErrForkStartWithKnownHeader := "btclctypes.ErrForkStartWithKnownHeader".
Definition ErrDuplicatedSubmission := "btcctypes.ErrDuplicatedSubmission".

Definition unrecoverableErrors : list string :=
  [ ErrHeaderParentDoesNotExist; ErrChainWithNotEnoughWork; btclc_ErrInvalidHeader;
    ErrProvidedHeaderDoesNotHaveAncestor; btcc_ErrInvalidHeader;
    ErrNoCheckpointsForPreviousEpoch; ErrInvalidCheckpointProof;
    ErrBlsPrivKeyDoesNotExist; ErrForkStartWithKnownHeader ].

Definition expectedErrors : list string :=
  [ ErrDuplicatedSubmission; btcc_ErrInvalidHeader ].

Fixpoint containsErr (errs : list string) (err : gerror) : bool :=
  match errs with
  | [] => false
  | e :: errs => if errors_Is err e then true else containsErr errs err
  end.

Section retrywrap.
Context {RT : Retry}.

(** [Do] appends its [RetryIf] after the caller's options, so it wins. *)
Definition Do_opts (o : retry_opts) : retry_opts :=
  mkRetryOpts (Attempts o)
    (λ err, if containsErr unrecoverableErrors err || containsErr expectedErrors err
            then false else true)
    (LastErrorOnly o) (WithContext o).

Definition Do {S} (retryableFunc : M S unit) (o : retry_opts) : M S unit := λ s,
  match retry_Do (Do_opts o) retryableFunc s with
  | (Error err, s') =>
      if containsErr expectedErrors err then (Val tt, s') else (Error err, s')
  | r => r
  end.

(** The caller's variables that a retried closure assigns are part of the
    state it runs on: [capture run z f] gives [f] a variable with initial
    value [z] and returns its final value. *)
Definition capture {S A} (run : M (S * A) unit → M (S * A) unit) (z : A)
    (f : M (S * A) unit) : M S A := λ s,
  match run f (s, z) with
  | (Val _, (s', a)) => (Val a, s')
  | (Error e, (s', _)) => (Error e, s')
  | (Panic p, (s', _)) => (Panic p, s')
  | (Diverge, (s', _)) => (Diverge, s')
  end.

(** The closure [res, err = call(); return err]: [res] is [nil] on error. *)
Definition assign_both {S A} (call : M S A) : M (S * option A) unit := λ '(s, _),
  match call s with
  | (Val a, s') => (Val tt, (s', Some a))
  | (Error e, s') => (Error e, (s', None))
  | (Panic p, s') => (Panic p, (s', None))
  | (Diverge, s') => (Diverge, (s', None))
  end.

(** The closure [res, err := call(); if err != nil {return err}; x = *res]. *)
Definition assign_ok {S A} (call : M S A) : M (S * A) unit := λ '(s, x),
  match call s with
  | (Val a, s') => (Val tt, (s', a))
  | (Error e, s') => (Error e, (s', x))
  | (Panic p, s') => (Panic p, (s', x))
  | (Diverge, s') => (Diverge, (s', x))
  end.

(** ** Lemmas *)
Lemma containsErr_spec errs e :
  containsErr errs e = true ↔ ∃ t, t ∈ errs ∧ errors_Is e t = true.
Proof.
  induction errs as [|t errs IH]; cbn.
  { split; [done|]. intros (t & Ht & _). by apply not_elem_of_nil in Ht. }
  setoid_rewrite elem_of_cons. destruct (errors_Is e t) eqn:E; naive_solver congruence.
Qed.

Lemma errors_Is_foldr_EJoin log e t :
  errors_Is (foldr EJoin e log) t = errors_Is e t || existsb (λ x, errors_Is x t) log.
Proof.
  induction log as [|x log IH]; cbn; [by rewrite orb_false_r|].
  rewrite IH. by destruct (errors_Is x t), (errors_Is e t).
Qed.

(** A retried computation only passes through states its attempts reach: an
    invariant of the attempts is an invariant of the whole. *)
Lemma retried_inv {S} (I : S → Prop) o (f : M S unit) log s r :
  (∀ s, I s → I (snd (f s))) → retried o f log s r → I s → I (snd r).
Proof.
  intros Hf Hr. induction Hr as [log s s' E|log s p s' E|log s s' E|log s e s' E|log s e s' E
    |log s e s1 r E _ _ _ IH|log s]; intros Hs; cbn; try done.
  all: pose proof (Hf s Hs) as HI; rewrite E in HI; cbn in HI; auto.
Qed.

(** The final attempt of a run that ends normally succeeded. *)
Lemma retried_Val_inv {S} (I : S → Prop) o (f : M S unit) log s s' :
  (∀ s, I s → I (snd (f s))) → I s → retried o f log s (Val tt, s') →
  ∃ s1, I s1 ∧ f s1 = (Val tt, s').
Proof.
  intros Hf Hs Hr. remember (Val tt, s') as r eqn:Er.
  induction Hr as [log s s2 E| | | | |log s e s1 r E _ _ _ IH|]; simplify_eq; [eauto|].
  apply IH; [|done]. pose proof (Hf s Hs) as HI. by rewrite E in HI.
Qed.

(** A run that never panics or diverges in one attempt does not overall. *)
Lemma retried_safe {S} (I : S → Prop) o (f : M S unit) log s r :
  (∀ s, I s → I (snd (f s)) ∧ match fst (f s) with Val _ | Error _ => True | _ => False end) →
  I s → retried o f log s r → match fst r with Val _ | Error _ => True | _ => False end.
Proof.
  intros Hf Hs Hr. induction Hr as [log s s' E|log s p s' E|log s s' E|log s e s' E|log s e s' E
    |log s e s1 r E _ _ _ IH|log s]; cbn; try done.
  - destruct (Hf s Hs) as [_ Hn]. by rewrite E in Hn.
  - destruct (Hf s Hs) as [_ Hn]. by rewrite E in Hn.
  - apply IH. destruct (Hf s Hs) as [HI _]. by rewrite E in HI.
Qed.

(** Without a context the first attempt decides when it succeeds, or fails
    with an error that is not retried. *)
Lemma retried_once_Val {S} o (f : M S unit) log s s' r :
  WithContext o = false → f s = (Val tt, s') → retried o f log s r → r = (Val tt, s').
Proof. intros Hc Hf Hr. destruct Hr; congruence. Qed.

Lemma retried_once_Error {S} o (f : M S unit) log s e s' r :
  WithContext o = false → f s = (Error e, s') → RetryIf o e = false →
  retried o f log s r → r = (Error (report o log e), s').
Proof. intros Hc Hf He Hr. destruct Hr; congruence. Qed.

Lemma Do_once_Val {S} (f : M S unit) o s s' :
  0 < Attempts o → WithContext o = false → f s = (Val tt, s') → Do f o s = (Val tt, s').
Proof.
  intros Ha Hc Hf. unfold Do.
  rewrite (retried_once_Val (Do_opts o) f [] s s' (retry_Do (Do_opts o) f s)); [done..|].
  apply retry_Do_spec; cbn; lia.
Qed.

Lemma Do_once_unrecoverable {S} (f : M S unit) o s e s' :
  0 < Attempts o → WithContext o = false → f s = (Error e, s') →
  containsErr unrecoverableErrors e = true → containsErr expectedErrors e = false →
  Do f o s = (Error e, s').
Proof.
  intros Ha Hc Hf Hu He. unfold Do.
  rewrite (retried_once_Error (Do_opts o) f [] s e s' (retry_Do (Do_opts o) f s)).
  - assert (report (Do_opts o) [] e = e) as -> by (unfold report; by case_match).
    by rewrite He.
  - done.
  - done.
  - unfold Do_opts. cbn [RetryIf]. by rewrite Hu.
  - apply retry_Do_spec; cbn; lia.
Qed.

(** A computation that always fails the same way fails that way after retries. *)
Lemma retried_const {S} o (f : M S unit) e log s r :
  WithContext o = false → (∀ s, f s = (Error e, s)) → Forall (eq e) log →
  retried o f log s r →
  ∃ e', r = (Error e', s) ∧ ∀ t, errors_Is e' t = errors_Is e t.
Proof.
  intros Hc Hf Hl Hr.
  assert (∀ log, Forall (eq e) log → ∀ t, errors_Is (report o log e) t = errors_Is e t) as Hrep.
  { intros l Hall t. unfold report. case_match; [done|]. rewrite errors_Is_foldr_EJoin.
    destruct (errors_Is e t) eqn:E; [done|]. cbn.
    induction Hall as [|x l <- _ IH]; cbn; [done|]. by rewrite E. }
  induction Hr as [log s s' E|log s p s' E|log s s' E|log s e1 s' E|log s e1 s' E
    |log s e1 s1 r E _ _ _ IH|log s Hw]; try (rewrite Hf in E; simplify_eq); try congruence; eauto.
  apply IH. apply Forall_app. split; [done|]. by constructor.
Qed.

(** Without a context, a failed run ends with its last attempt, and every
    earlier error was one to retry. *)
Lemma retried_last {S} o (f : M S unit) log s e s' :
  WithContext o = false → Forall (λ x, RetryIf o x = true) log →
  retried o f log s (Error e, s') →
  ∃ log' s1 l, f s1 = (Error l, s') ∧ e = report o log' l ∧
    Forall (λ x, RetryIf o x = true) log'.
Proof.
  intros Hc Hl Hr. remember (Error e, s') as r eqn:Er.
  induction Hr as [log s s2 E|log s p s2 E|log s s2 E|log s e2 s2 E|log s e2 s2 E
    |log s e1 s1 r E Hri _ _ IH|log s Hw]; simplify_eq; [eauto 10|eauto 10| |congruence].
  apply IH; [|done]. apply Forall_app. split; [done|]. by constructor.
Qed.

(** What [Do] makes of the last attempt. *)
Lemma Do_last {S} (f : M S unit) o s :
  0 < Attempts o → WithContext o = false →
  match Do f o s with
  | (Val _, s') => ∃ s1, f s1 = (Val tt, s') ∨
                         ∃ e, f s1 = (Error e, s') ∧ containsErr expectedErrors e = true
  | (Error _, s') => ∃ s1 e, f s1 = (Error e, s') ∧ containsErr expectedErrors e = false
  | _ => True
  end.
Proof.
  intros Ha Hc. unfold Do.
  assert (retried (Do_opts o) f [] s (retry_Do (Do_opts o) f s)) as Hr.
  { apply retry_Do_spec; cbn; lia. }
  destruct (retry_Do (Do_opts o) f s) as [[[]|e|p|] s'] eqn:E; try done.
  - apply (retried_Val_inv (λ _, True)) in Hr as (s1 & _ & Hf); [|done..]. eauto.
  - apply retried_last in Hr as (log & s1 & l & Hf & -> & Hlog); [|done|constructor].
    assert (containsErr expectedErrors (report (Do_opts o) log l) = containsErr expectedErrors l)
      as Heq.
    { unfold report. case_match; [done|].
      destruct (containsErr expectedErrors l) eqn:El.
      - apply containsErr_spec in El as (t & Ht & Et). apply containsErr_spec. exists t.
        split; [done|]. by rewrite errors_Is_foldr_EJoin, Et.
      - destruct (containsErr expectedErrors (foldr EJoin l log)) eqn:Ef; [|done]. exfalso.
        apply containsErr_spec in Ef as (t & Ht & Et). rewrite errors_Is_foldr_EJoin in Et.
        apply orb_true_iff in Et as [Et|Et].
        + assert (containsErr expectedErrors l = true); [|congruence].
          apply containsErr_spec. eauto.
        + apply existsb_exists in Et as (x & Hx & Et). apply list_elem_of_In in Hx.
          rewrite Forall_forall in Hlog. specialize (Hlog x Hx). cbn -[containsErr] in Hlog.
          assert (containsErr expectedErrors x = true) as Hex by (apply containsErr_spec; eauto).
          rewrite Hex, orb_true_r in Hlog. done. }
    rewrite Heq. destruct (containsErr expectedErrors l) eqn:El; eauto 10.
Qed.

(** An expected error ends the run at once and counts as success. *)
Lemma Do_expected {S} (f : M S unit) o s e s' :
  0 < Attempts o → WithContext o = false → f s = (Error e, s') →
  containsErr expectedErrors e = true → Do f o s = (Val tt, s').
Proof.
  intros Ha Hc Hf He. unfold Do.
  rewrite (retried_once_Error (Do_opts o) f [] s e s' (retry_Do (Do_opts o) f s)).
  - assert (report (Do_opts o) [] e = e) as -> by (unfold report; by case_match). by rewrite He.
  - done.
  - done.
  - unfold Do_opts. cbn [RetryIf]. by rewrite He, orb_true_r.
  - apply retry_Do_spec; cbn; lia.
Qed.

(** The errors a failed run reports were produced by its attempts, or the
    context was cancelled. *)
Lemma retried_Error_inv {S} o (f : M S unit) log s e s' :
  retried o f log s (Error e, s') →
  ∃ log' last, e = report o (log ++ log') last ∧
    (last = ErrCanceled ∨ ∃ s1, f s1 = (Error last, s')).
Proof.
  intros Hr. remember (Error e, s') as r eqn:Er.
  induction Hr as [log s s2 E|log s p s2 E|log s s2 E|log s e2 s2 E|log s e2 s2 E
    |log s e1 s1 r E _ _ _ IH|log s]; simplify_eq.
  - exists [], e2. rewrite app_nil_r. eauto.
  - exists [], e2. rewrite app_nil_r. eauto.
  - destruct (IH eq_refl) as (log' & l & -> & Hl). exists (e1 :: log'), l.
    by rewrite <-app_assoc.
  - exists [], ErrCanceled. rewrite app_nil_r. eauto.
Qed.
End retrywrap.

(** ** An implementation of the interface

    [attempt n] makes at most [n] attempts; a run without a bound is cut by the
    cancellation of its context. *)
Fixpoint attempt {S} (o : retry_opts) (f : M S unit) (log : list gerror) (n : nat) : M S unit :=
  λ s,
    match n with
    | O => (Error (report o log ErrCanceled), s)
    | S n =>
        match f s with
        | (Error e, s') =>
            if RetryIf o e then
              if (Attempts o =? 0) || (len log + 1 <? Attempts o)
              then attempt o f (log ++ [e]) n s'
              else (Error (report o log e), s')
            else (Error (report o log e), s')
        | r => r
        end
    end.

Definition attempt_fuel (o : retry_opts) : nat :=
  if Attempts o =? 0 then 100%nat else Z.to_nat (Attempts o).

Lemma attempt_retried {S} o (f : M S unit) n log s :
  0 ≤ Attempts o →
  (Attempts o = 0 → WithContext o = true) →
  (Attempts o ≠ 0 → len log + Z.of_nat n = Attempts o ∧ n ≠ 0%nat) →
  retried o f log s (attempt o f log n s).
Proof.
  intros H0 Hc. revert log s. induction n as [|n IH]; intros log s Hn; cbn.
  { apply R_cancelled, Hc. destruct (decide (Attempts o = 0)); [done|].
    destruct (Hn ltac:(done)). done. }
  destruct (f s) as [[[]|e|p|] s'] eqn:E; [by constructor| |by constructor|by constructor].
  destruct (RetryIf o e) eqn:ER; [|by eapply R_not_retryable].
  destruct (decide (Attempts o = 0)) as [Ha|Ha].
  - rewrite Ha. cbn. eapply R_again; [done|done|by left|]. apply IH. lia.
  - assert (Attempts o =? 0 = false) as -> by lia. cbn. destruct (Hn Ha) as [Hlen _].
    unfold len in *. destruct (_ <? _) eqn:El.
    + apply Z.ltb_lt in El. eapply R_again; [done|done|by right|]. apply IH.
      intros _. rewrite length_app. cbn. lia.
    + apply Z.ltb_ge in El. by eapply R_exhausted.
Qed.

#[global] Instance retry_loop : Retry.
Proof.
  refine {| retry_Do S o f := attempt o f [] (attempt_fuel o) |}.
  intros S o f s H0 Hc. apply attempt_retried; [done|done|].
  intros Ha. unfold attempt_fuel, len. cbn. destruct (Z.eqb_spec (Attempts o) 0); lia.
Defined.
