(* ===== verification/BTCClient.v ===== *)
(** * The Bitcoin node client ([btcclient/interface.go], [btcclient/query.go])

    [BTCClient W] is the interface the programs use, as operations on a world
    [W] that any call may change.  Module [Client] is its implementation over
    the RPC calls of [rpcclient], and [BTCClientLaws] is what the callers may
    rely on, proved for the implementation from what the node promises. *)

From S2P Require Import Prelude Blocks Retry.

Class BTCClient (W : Type) := {
  GetBestBlock : M W Z;
  GetBlockByHash : Hash → M W (IndexedBlock * MsgBlock);
  GetBlockByHeight : Z → M W (IndexedBlock * MsgBlock);
  FindTailBlocksByHeight : Z → M W (list IndexedBlock);
}.

(** [known h b n]: the node has accepted block [b] with hash [h] at height [n].
    Accepted blocks are content-addressed and sit one above their parent. *)
Definition ib_known {BL : BTCLib} (known : Hash → MsgBlock → Z → Prop) (ib : IndexedBlock)
  : Prop :=
  is_u32 (Height ib) ∧ ∃ mb, known (BlockHash ib) mb (Height ib) ∧
  Header ib = blk_Header mb ∧ Txs ib = GetWrappedTxs mb.

Class BTCClientLaws {BL : BTCLib} (W : Type) {C : BTCClient W}
    (known : Hash → MsgBlock → Z → Prop) : Prop := {
  known_parent_law : ∀ h mb n mb' n',
    known h mb n → known (PrevBlock (blk_Header mb)) mb' n' → n = n' + 1;
  GetBlockByHash_law : ∀ h w ib mb w', GetBlockByHash h w = (Val (ib, mb), w') →
    BlockHash ib = h ∧ Header ib = blk_Header mb ∧ ib_known known ib;
  GetBlockByHeight_law : ∀ n w ib mb w', is_u32 n →
    GetBlockByHeight n w = (Val (ib, mb), w') → Height ib = n ∧ ib_known known ib;
  FindTailBlocksByHeight_law : ∀ base w ibs w', is_u32 base →
    FindTailBlocksByHeight base w = (Val ibs, w') →
    chained ibs ∧ (∃ b, head ibs = Some b ∧ Height b = base) ∧
    Forall (ib_known known) ibs;
}.

(** Retrying a call and keeping its result ([getBlockWithRetry] and the like). *)
Section with_retry.
Context {RT : Retry} {W A : Type}.

Definition with_retry (o : retry_opts) (call : M W A) : M W A :=
  r ← capture (retry_Do o) None (assign_both call);
  match r with
  | Some a => mret a
  | None => panic "nil pointer dereference"
  end.

Lemma with_retry_Val o (call : M W A) w a w' :
  0 < Attempts o → with_retry o call w = (Val a, w') → ∃ w1, call w1 = (Val a, w').
Proof.
  intros Ha Hr. unfold with_retry in Hr. rewrite bind_unfold in Hr.
  unfold capture in Hr.
  destruct (retry_Do o (assign_both call) (w, None)) as [[[]|e|p|] [w1 r]] eqn:E;
    [|done..].
  pose proof (retry_Do_spec o (assign_both call) (w, None) ltac:(lia) ltac:(lia)) as Hs.
  rewrite E in Hs.
  apply (retried_Val_inv (λ _, True)) in Hs as ([w2 r2] & _ & Hf); [|done..].
  unfold assign_both in Hf. destruct (call w2) as [[a2|e|p|] w3] eqn:Ec; simplify_eq.
  unfold mret, M_ret in Hr. simplify_eq. eauto.
Qed.
End with_retry.

Module Client.
(** The JSON-RPC calls of [rpcclient] the client makes. *)
Class RPC (W : Type) := {
  GetBlockCount : M W Z;
  GetBestBlockHash : M W Hash;
  GetBlockHash : Z → M W Hash;
  GetBlock : Hash → M W MsgBlock;
  GetBlockVerbose_Height : Hash → M W Z;
}.

Section client.
Context {BL : BTCLib} {RT : Retry} {W : Type} {rpc : RPC W}.
Context (maxRetryTimes : Z).

Definition opts : retry_opts := mkRetryOpts maxRetryTimes (λ _, true) false false.

Definition getBlockCountWithRetry : M W Z := with_retry opts GetBlockCount.
Definition getBestBlockHashWithRetry : M W Hash := with_retry opts GetBestBlockHash.
Definition getBlockHashWithRetry (height : Z) : M W Hash :=
  with_retry opts (GetBlockHash height).
Definition getBlockWithRetry (h : Hash) : M W MsgBlock := with_retry opts (GetBlock h).
Definition getBlockVerboseWithRetry (h : Hash) : M W Z :=
  with_retry opts (GetBlockVerbose_Height h).

Definition GetBestBlock : M W Z :=
  height ← getBlockCountWithRetry;
  if (height <? 0) || (MaxUint32 <? height) then panic "height is out of uint32 range"
  else mret (u32 height).

Definition GetBlockByHash (blockHash : Hash) : M W (IndexedBlock * MsgBlock) :=
  height ← wrap_err "failed to get block verbose by hash" (getBlockVerboseWithRetry blockHash);
  mBlock ← wrap_err "failed to get block by hash" (getBlockWithRetry blockHash);
  let btcTxs := GetWrappedTxs mBlock in
  if (height <? 0) || (MaxUint32 <? height) then panic "height is out of uint32 range"
  else mret (NewIndexedBlock (u32 height) (blk_Header mBlock) btcTxs, mBlock).

Definition GetBlockByHeight (height : Z) : M W (IndexedBlock * MsgBlock) :=
  blockHash ← wrap_err "failed to get block by height" (getBlockHashWithRetry height);
  mBlock ← wrap_err "failed to get block by hash" (getBlockWithRetry blockHash);
  let btcTxs := GetWrappedTxs mBlock in
  mret (NewIndexedBlock height (blk_Header mBlock) btcTxs, mBlock).

(** The loop of [getChainBlocks], filling [n] more positions below [acc]. *)
Fixpoint chain_loop (n : nat) (prevHash : Hash) (acc : list IndexedBlock)
  : M W (list IndexedBlock) :=
  match n with
  | O => mret acc
  | S n =>
      r ← wrap_err "failed to get block by hash" (GetBlockByHash prevHash);
      chain_loop n (PrevBlock (blk_Header (snd r))) (fst r :: acc)
  end.

Definition getChainBlocks (baseHeight : Z) (tipBlock : IndexedBlock)
  : M W (list IndexedBlock) :=
  let tipHeight := Height tipBlock in
  if tipHeight <? baseHeight
  then fail (ENew "the tip block height is less than the base height")
  else
    let n := u32 (tipHeight - baseHeight + 1) in
    if n =? 0 then panic "index out of range"
    else if tipHeight =? baseHeight then mret [tipBlock]
    else chain_loop (Z.to_nat (n - 1)) (PrevBlock (Header tipBlock)) [tipBlock].

Definition getBestIndexedBlock : M W IndexedBlock :=
  tipHash ← wrap_err "failed to get the best block" getBestBlockHashWithRetry;
  r ← wrap_err "failed to get the block by hash" (GetBlockByHash tipHash);
  mret (fst r).

Definition FindTailBlocksByHeight (baseHeight : Z) : M W (list IndexedBlock) :=
  tipIb ← getBestIndexedBlock;
  if Height tipIb <? baseHeight then fail (ENew "invalid base height")
  else getChainBlocks baseHeight tipIb.

#[global] Instance client : BTCClient W := {|
  BTCClient.GetBestBlock := GetBestBlock;
  BTCClient.GetBlockByHash := GetBlockByHash;
  BTCClient.GetBlockByHeight := GetBlockByHeight;
  BTCClient.FindTailBlocksByHeight := FindTailBlocksByHeight;
|}.

(** What a Bitcoin node promises of the blocks it returns. *)
Context (known : Hash → MsgBlock → Z → Prop).
Hypothesis node_block : ∀ h w mb w',
  GetBlock h w = (Val mb, w') → HeaderHash (blk_Header mb) = h ∧ ∃ n, known h mb n.
Hypothesis node_height : ∀ h w n w',
  GetBlockVerbose_Height h w = (Val n, w') → ∃ mb, known h mb n.
Hypothesis node_hash : ∀ n w h w',
  GetBlockHash n w = (Val h, w') → ∃ mb, known h mb n.
Hypothesis known_fun : ∀ h mb n mb' n',
  known h mb n → known h mb' n' → mb = mb' ∧ n = n'.
Hypothesis known_parent : ∀ h mb n mb' n',
  known h mb n → known (PrevBlock (blk_Header mb)) mb' n' → n = n' + 1.
Hypothesis attempts_pos : 0 < maxRetryTimes.

Lemma GetBlockByHash_known h w ib mb w' :
  GetBlockByHash h w = (Val (ib, mb), w') →
  BlockHash ib = h ∧ Header ib = blk_Header mb ∧ known h mb (Height ib) ∧ ib_known known ib.
Proof.
  intros Hr. unfold GetBlockByHash in Hr.
  apply bind_Val_inv in Hr as (n & w1 & H1 & Hr).
  apply bind_Val_inv in Hr as (mb' & w2 & H2 & Hr).
  apply wrap_err_Val, with_retry_Val in H1 as (w3 & H1); [|done].
  apply wrap_err_Val, with_retry_Val in H2 as (w4 & H2); [|done].
  destruct (_ || _) eqn:E; [done|]. unfold mret, M_ret in Hr. simplify_eq.
  apply node_height in H1 as [mb' Hk]. apply node_block in H2 as [Hh [n' Hk']].
  destruct (known_fun _ _ _ _ _ Hk Hk') as [-> ->].
  assert (is_u32 n') as Hn by zrange. unfold ib_known, NewIndexedBlock, BlockHash. cbn.
  rewrite u32_id by done. rewrite Hh. eauto 10.
Qed.

Lemma GetBlockByHeight_known n w ib mb w' :
  is_u32 n → GetBlockByHeight n w = (Val (ib, mb), w') → Height ib = n ∧ ib_known known ib.
Proof.
  intros Hn Hr. unfold GetBlockByHeight in Hr.
  apply bind_Val_inv in Hr as (h & w1 & H1 & Hr).
  apply bind_Val_inv in Hr as (mb' & w2 & H2 & Hr).
  apply wrap_err_Val, with_retry_Val in H1 as (w3 & H1); [|done].
  apply wrap_err_Val, with_retry_Val in H2 as (w4 & H2); [|done].
  unfold mret, M_ret in Hr. simplify_eq.
  apply node_hash in H1 as [mb' Hk]. apply node_block in H2 as [Hh [n' Hk']].
  destruct (known_fun _ _ _ _ _ Hk Hk') as [-> ->].
  unfold ib_known, NewIndexedBlock, BlockHash. cbn. rewrite Hh. eauto 10.
Qed.

Lemma chain_loop_chained n w prevHash t acc w' ibs :
  (∀ b, head acc = Some b → b = t ∧ prevHash = PrevBlock (Header t) ∧
                            ∃ mb, known (BlockHash t) mb (Height t) ∧ Header t = blk_Header mb) →
  head acc = Some t → chained acc → Forall (ib_known known) acc →
  chain_loop n prevHash acc w = (Val ibs, w') →
  chained ibs ∧ Forall (ib_known known) ibs ∧
  ∃ b, head ibs = Some b ∧ Height b = Height t - Z.of_nat n.
Proof.
  revert w prevHash t acc. induction n as [|n IH]; intros w prevHash t acc Hacc Ht Hc Hu Hr.
  { cbn in Hr. unfold mret, M_ret in Hr. simplify_eq. split_and!; [done..|].
    exists t. split; [done|lia]. }
  cbn in Hr. apply bind_Val_inv in Hr as ([ib mb] & w1 & H1 & Hr).
  apply wrap_err_Val, GetBlockByHash_known in H1 as (Hh & Hhd & Hk & Hr32). cbn in Hr.
  destruct (Hacc _ Ht) as (_ & -> & mbt & Hkt & Hhdt).
  assert (links ib t) as Hlink.
  { split; [|done]. rewrite Hhdt in Hk. by eapply known_parent. }
  eapply (IH _ _ ib) in Hr as (Hch & Hall & b & Hb & Hbh).
  - split_and!; [done..|]. exists b. split; [done|]. destruct Hlink. lia.
  - intros b [= <-]. rewrite Hhd. split_and!; [done..|]. exists mb. by rewrite Hh.
  - done.
  - change (ib :: acc) with ([ib] ++ acc). apply chained_app. split_and!; [done..|].
    intros b c [= <-] Hc2. by simplify_eq.
  - by constructor.
Qed.

Lemma FindTailBlocksByHeight_chain base w ibs w' :
  is_u32 base → FindTailBlocksByHeight base w = (Val ibs, w') →
  chained ibs ∧ (∃ b, head ibs = Some b ∧ Height b = base) ∧
  Forall (ib_known known) ibs.
Proof.
  intros Hbase Hr. unfold FindTailBlocksByHeight, getBestIndexedBlock in Hr.
  apply bind_Val_inv in Hr as (t & w1 & H1 & Hr).
  apply bind_Val_inv in H1 as (th & w2 & _ & H1).
  apply bind_Val_inv in H1 as ([t' mb] & w3 & H1 & H2).
  unfold mret, M_ret in H2. simplify_eq. cbn [fst] in *.
  apply wrap_err_Val, GetBlockByHash_known in H1 as (Hh & Hhd & Hk & Hu).
  pose proof Hu as [Hu32 _].
  unfold getChainBlocks in Hr.
  destruct (Z.ltb_spec (Height t) base); [done|].
  destruct (Z.eqb_spec (u32 (Height t - base + 1)) 0) as [Hz|Hz]; [done|].
  destruct (Z.eqb_spec (Height t) base) as [He|He].
  { unfold mret, M_ret in Hr. simplify_eq. split_and!; [done|eauto|by constructor]. }
  assert (is_u32 (Height t - base + 1)) as Hw.
  { unfold u32 in Hz. destruct (decide (Height t - base + 1 = 2 ^ 32)) as [E|E]; [|zrange].
    rewrite E, Z.mod_same in Hz by lia. done. }
  rewrite u32_id in Hr by done.
  eapply (chain_loop_chained _ _ _ t) in Hr as (Hch & Hall & b & Hb & Hbh).
  - split_and!; [done| |done]. exists b. split; [done|]. lia.
  - intros b [= <-]. split_and!; [done..|]. exists mb. by rewrite Hh.
  - done.
  - done.
  - by constructor.
Qed.

#[global] Instance client_laws : BTCClientLaws W known.
Proof.
  split; [exact known_parent | | exact GetBlockByHeight_known | exact FindTailBlocksByHeight_chain].
  intros h w ib mb w' Hr. apply GetBlockByHash_known in Hr. naive_solver.
Qed.
End client.
End Client.
