(* ===== verification/Window.v ===== *)
(** * Windows of one Bitcoin chain

    What the reporter and the monitor keep in a block cache: consecutive blocks
    that the node has accepted, within the bound of the cache. *)

From S2P Require Import Prelude Blocks BTCCache BTCClient.

Section window.
Context {BL : BTCLib} {W : Type} {BTC : BTCClient W}.
Context (known : Hash → MsgBlock → Z → Prop) {LAWS : BTCClientLaws W known}.

Record window_ok (c : BTCCache) : Prop := {
  window_bound : cache_ok c;
  window_chain : chained (blocks c);
  window_known : Forall (ib_known known) (blocks c);
}.

Lemma window_empty max : 1 ≤ max → window_ok (mkBTCCache [] max).
Proof. intros Hm. split; [split; [done|unfold size, len; cbn; lia]|done|constructor]. Qed.

Lemma window_lastn c n max :
  1 ≤ max → n ≤ max → window_ok c → window_ok (mkBTCCache (lastn n (blocks c)) max).
Proof.
  intros Hm Hn [_ Hc Hk]. split; cbn.
  - split; [done|]. unfold size. cbn. destruct (decide (0 ≤ n)).
    + pose proof (lastn_bound n (blocks c)). lia.
    + unfold lastn, len. rewrite length_drop. lia.
  - by apply lastn_chained.
  - apply Forall_drop, Hk.
Qed.

(** The node notifies headers of blocks it has. *)
Definition header_ok (header : BlockHeader) : Prop :=
  ∀ mb n, known (HeaderHash header) mb n → blk_Header mb = header.

(** The block that is added extends the tip. *)
Lemma new_block_links header tip w ib mb w' :
  header_ok header → ib_known known tip → PrevBlock header = BlockHash tip →
  GetBlockByHash (HeaderHash header) w = (Val (ib, mb), w') →
  links tip ib ∧ ib_known known ib.
Proof.
  intros Hh (_ & mt & Ht & Hht & _) Hp Hg.
  apply (GetBlockByHash_law (known := known)) in Hg as (Hb & Hhd & Hk).
  pose proof Hk as (_ & mb2 & Hk2 & Hhd2 & _). rewrite Hb in Hk2.
  assert (blk_Header mb2 = header) as Heq by (by eapply Hh).
  split; [|done]. split.
  - eapply known_parent_law; [exact Hk2|]. rewrite Heq, Hp. exact Ht.
  - congruence.
Qed.

Lemma window_add c tip ib :
  window_ok c → Tip c = Some tip → links tip ib → ib_known known ib →
  window_ok (snd (Add ib c)).
Proof.
  intros [Hb Hch Hk] Ht Hl Hib. unfold Add.
  destruct (add_chained ib c Hb Hch) as (H1 & H2 & _); [intros t; congruence|].
  split; [done|done|]. rewrite add_spec by done. cbn. apply Forall_drop.
  apply Forall_app. split; [done|]. by constructor.
Qed.

Lemma Tip_elem c b : Tip c = Some b → b ∈ blocks c.
Proof.
  unfold Tip. case_match; [done|]. rewrite last_lookup. apply list_elem_of_lookup_2.
Qed.

Lemma Init_window ibs max :
  1 ≤ max → chained ibs → Forall (ib_known known) ibs →
  window_ok (snd (Init ibs (mkBTCCache [] max))).
Proof.
  intros Hm Hc Hk. rewrite Init_spec by done. cbn.
  destruct (Z.ltb_spec max (len ibs)); [by apply window_empty|].
  rewrite (proj2 (is_sorted_on_spec Height ibs)) by (by apply chained_sorted).
  split; [split; [done|exact H]|done|done].
Qed.

(** A block whose parent hash is that of an accepted block sits one above it. *)
Lemma known_links tip ib :
  ib_known known tip → ib_known known ib → PrevBlock (Header ib) = BlockHash tip → links tip ib.
Proof.
  intros (_ & mt & Ht & _) (_ & mb & Hb & Hhd & _) Hp. split; [|done].
  eapply known_parent_law; [exact Hb|]. rewrite <-Hhd, Hp. exact Ht.
Qed.
End window.
