(* ===== verification/Reporter.v ===== *)
(** * The reporter: headers and checkpoints to Babylon ([reporter/utils.go])

    The reporter relays Bitcoin headers and the checkpoints found in Bitcoin
    blocks to Babylon.  The Babylon client is the interface of
    [reporter/expected_babylon_client.go]; its calls run on a world [W].
    Log statements are not modelled; metrics are a write-only event trace. *)

From S2P Require Import Prelude Blocks BTCCache CkptCache Retry.

(** ** Metrics *)
Inductive metric_event :=
| MInc (name : string)
| MDec (name : string)
| MAdd (name : string) (n : Z)
| MSet (name : string) (v : Z)
| MIncLabels (name : string) (labels : list Z)
| MTouch (name : string) (labels : list Z).   (** [SetToCurrentTime] *)

#[global] Instance metric_event_eq_dec : EqDecision metric_event.
Proof. solve_decision. Defined.

(** [time.Now()] *)
Class Clock (W : Type) := { Now : M W Z }.

(** ** The Babylon client *)
Record TipHeader := mkTipHeader { tip_Height : Z; tip_HashHex : string }.

Record CkptParams := mkCkptParams {
  BtcConfirmationDepth : Z;
  CheckpointFinalizationTimeout : Z;
  CheckpointTag : string;
}.

Section interface.
Context {BL : BTCLib} {BF : BabylonFormatter}.

Inductive BabylonMsg :=
| InsertHeadersMsg (m : MsgInsertHeaders)
| InsertSpvProofMsg (m : MsgInsertBTCSpvProof).

(** [ReliablySendMsg msg expected unrecoverable] returns no response
    ([None]) when Babylon answers with an expected error. *)
Class BabylonClient (W : Type) := {
  MustGetAddr : M W string;
  BTCCheckpointParams : M W CkptParams;
  ContainsBTCBlock : Hash → M W bool;
  BTCHeaderChainTip : M W TipHeader;
  BTCBaseHeader_Height : M W Z;
  ReliablySendMsg : BabylonMsg → list string → list string → M W (option Z);
  HeaderBytesHash : bytes → Hash;
}.
End interface.

Definition ErrTimeoutAfterWaitingForTxBroadcast :=
  "babylonclient.ErrTimeoutAfterWaitingForTxBroadcast".
Definition ErrEpochAlreadyFinalized := "btcctypes.ErrEpochAlreadyFinalized".

(** ** [chunkBy]

    The loop body is [items, chunks = items[chunkSize:], append(chunks, ...)]. *)
Fixpoint chunk_loop {T} (fuel : nat) (items : list T) (chunkSize : Z) (chunks : list (list T))
  : outcome (list (list T)) :=
  if chunkSize <? len items then
    if chunkSize <? 0 then Panic "slice bounds out of range"
    else
      match fuel with
      | O => Diverge
      | S fuel =>
          let n := Z.to_nat chunkSize in
          chunk_loop fuel (drop n items) chunkSize (chunks ++ [take n items])
      end
  else Val (chunks ++ [items]).

Definition chunkBy {T} (items : list T) (chunkSize : Z) : outcome (list (list T)) :=
  chunk_loop (length items) items chunkSize [].

Definition FilterAlreadyProcessedBlocks (ibs : list IndexedBlock) (height : Z)
  : list IndexedBlock * bool :=
  match last ibs with
  | None => ([], false)
  | Some l =>
      if Height l <=? height then ([], false)
      else
        match list_find (λ b, height < Height b) ibs with
        | Some (i, _) => (drop i ibs, true)
        | None => ([], false)
        end
  end.

(** ** The reporter *)

(** The parts of the configuration and of [Reporter] that never change. *)
Record ReporterParams := mkReporterParams {
  cfg_BTCCacheSize : Z;
  cfg_MaxHeadersInMsg : Z;
  maxRetryTimes : Z;
  btcConfirmationDepth : Z;
  checkpointFinalizationTimeout : Z;
}.

Section reporter.
Context {BL : BTCLib} {BF : BabylonFormatter} {RT : Retry} {GS : GoSort}.
Context {W : Type} {BC : BabylonClient W} {CK : Clock W}.
Context (r : ReporterParams).

Record Reporter := mkReporter {
  checkpointCache : CheckpointCache;
  btcCache : option BTCCache;       (** [nil] before the first bootstrap *)
  bootstrapInProgress : bool;
  asyncCheckpoints : option (string * BlockSlice);
  metrics : list metric_event;
}.

Definition set_checkpointCache (c : CheckpointCache) (s : Reporter) : Reporter :=
  mkReporter c (btcCache s) (bootstrapInProgress s) (asyncCheckpoints s) (metrics s).
Definition set_btcCache (c : option BTCCache) (s : Reporter) : Reporter :=
  mkReporter (checkpointCache s) c (bootstrapInProgress s) (asyncCheckpoints s) (metrics s).
Definition set_bootstrapInProgress (b : bool) (s : Reporter) : Reporter :=
  mkReporter (checkpointCache s) (btcCache s) b (asyncCheckpoints s) (metrics s).
Definition set_asyncCheckpoints (a : option (string * BlockSlice)) (s : Reporter)
  : Reporter := mkReporter (checkpointCache s) (btcCache s) (bootstrapInProgress s) a (metrics s).
Definition add_metric (m : metric_event) (s : Reporter) : Reporter :=
  mkReporter (checkpointCache s) (btcCache s) (bootstrapInProgress s) (asyncCheckpoints s)
    (metrics s ++ [m]).

(** The program runs on the reporter's state and the world. *)
Notation RM A := (M (Reporter * W) A).

Definition world {A} (m : M W A) : RM A := zoom snd (λ w s, (fst s, w)) m.
Definition self {A} (m : M Reporter A) : RM A := zoom fst (λ t s, (t, snd s)) m.
Definition emit (m : metric_event) : RM unit := self (modify (add_metric m)).
Definition with_ckptCache {A} (m : M CheckpointCache A) : RM A :=
  self (zoom checkpointCache set_checkpointCache m).

(** [res] after the retried query: [nil] if the wrapper swallowed an error. *)
Definition queryContains (blockHash : Hash) : RM (option bool) :=
  world (capture (λ f, Do f (mkRetryOpts DefaultAttempts (λ _, true) false false))
           None (assign_both (ContainsBTCBlock blockHash))).

(** The loop of [getHeaderMsgsToSubmit] that finds [startPoint], from [i] on. *)
Fixpoint find_start (i : Z) (ibs : list IndexedBlock) : RM (option Z) :=
  match ibs with
  | [] => mret None
  | header :: ibs =>
      res ← queryContains (BlockHash header);
      match res with
      | None => panic "nil pointer dereference"
      | Some true => find_start (i + 1) ibs
      | Some false => mret (Some i)
      end
  end.

Definition getHeaderMsgsToSubmit (signer : string) (ibs : list IndexedBlock)
  : RM (list MsgInsertHeaders) :=
  startPoint ← find_start 0 ibs;
  match startPoint with
  | None => mret []
  | Some startPoint =>
      ibsToSubmit ← of_outcome (slice_from ibs startPoint);
      blockChunks ← of_outcome (chunkBy ibsToSubmit (cfg_MaxHeadersInMsg r));
      mret (NewMsgInsertHeaders signer <$> blockChunks)
  end.

(** The closure retried by [submitHeaderMsgs]. *)
Definition send_headers (msg : MsgInsertHeaders) : M W unit :=
  res ← wrap_err "could not submit headers"
          (ReliablySendMsg (InsertHeadersMsg msg) [ErrForkStartWithKnownHeader] []);
  match res with
  | None => fail (ESentinel ErrForkStartWithKnownHeader)
  | Some _ => mret tt
  end.

Definition submitHeaderMsgs (msg : MsgInsertHeaders) : RM unit :=
  let n := len (mih_Headers msg) in
  err ← try (world (Do (send_headers msg)
               (mkRetryOpts (maxRetryTimes r) (λ _, true) false false)));
  match err with
  | Err err =>
      emit (MAdd "FailedHeadersCounter" n) ;;
      if errors_Is err ErrTimeoutAfterWaitingForTxBroadcast then
        emit (MInc "HeadersCensorshipGauge") ;;
        fail (EWrap "tx broadcast timeout" err)
      else if errors_Is err ErrForkStartWithKnownHeader then fail err
      else fail (EWrap "failed to submit headers" err)
  | Ok _ =>
      emit (MAdd "SuccessfulHeadersCounter" n) ;;
      emit (MSet "SecondsSinceLastHeaderGauge" 0) ;;
      for_each (mih_Headers msg) (λ header,
        emit (MTouch "NewReportedHeaderGaugeVec" [HeaderBytesHash header]))
  end.

(** The submission loop of [ProcessHeaders]: the messages still to submit and
    the number of headers submitted.  The result pairs the number with the
    returned error. *)
Fixpoint submit_loop (fuel : nat) (signer : string) (ibs : list IndexedBlock)
    (msgs : list MsgInsertHeaders) (numSubmitted : Z) : RM (Z * option gerror) :=
  match fuel with
  | O => diverge
  | S fuel =>
      match msgs with
      | [] => mret (numSubmitted, None)
      | msg :: rest =>
          err ← try (submitHeaderMsgs msg);
          match err with
          | Ok _ => submit_loop fuel signer ibs rest (numSubmitted + len (mih_Headers msg))
          | Err err =>
              if negb (errors_Is err ErrForkStartWithKnownHeader)
              then mret (numSubmitted, Some (EWrap "failed to submit headers" err))
              else
                res ← try (world BTCHeaderChainTip);
                match res with
                | Err err => mret (numSubmitted, Some (EWrap "failed to get BTC header chain tip" err))
                | Ok tip =>
                    let '(slicedBlocks, shouldRetry) :=
                      FilterAlreadyProcessedBlocks ibs (tip_Height tip) in
                    if negb shouldRetry then mret (numSubmitted, None)
                    else
                      new ← try (getHeaderMsgsToSubmit signer slicedBlocks);
                      match new with
                      | Err newErr =>
                          mret (numSubmitted, Some (EWrap "failed to find headers to submit" newErr))
                      | Ok [] => mret (numSubmitted, None)
                      | Ok newHeaderMsgs => submit_loop fuel signer ibs newHeaderMsgs numSubmitted
                      end
                end
          end
      end
  end.

Definition ProcessHeaders (fuel : nat) (signer : string) (ibs : list IndexedBlock)
  : RM (Z * option gerror) :=
  headerMsgsToSubmit ← try (getHeaderMsgsToSubmit signer ibs);
  match headerMsgsToSubmit with
  | Err err => mret (0, Some (EWrap "failed to find headers to submit" err))
  | Ok [] => mret (0, None)
  | Ok msgs => submit_loop fuel signer ibs msgs 0
  end.

(** ** Checkpoints *)

Definition extract_tx (ib : IndexedBlock) (numCkptSegs : Z) (tx : option Tx) : RM Z :=
  match tx with
  | None => mret numCkptSegs
  | Some tx =>
      c ← with_ckptCache (gets id);
      match NewCkptSegment (cc_Tag c) (cc_Version c) ib tx with
      | None => mret numCkptSegs
      | Some ckptSeg =>
          now ← world Now;
          err ← try (with_ckptCache (AddSegment now ckptSeg));
          match err with
          | Err _ => mret numCkptSegs
          | Ok _ => mret (numCkptSegs + 1)
          end
      end
  end.

Definition extractCheckpoints (ib : IndexedBlock) : RM Z :=
  for_fold (Txs ib) 0 (extract_tx ib).

(** [seg.AssocBlock.Txs[seg.TxIdx].Hash()] *)
Definition seg_tx_hash (s : CkptSegment) : outcome Hash :=
  match slice_index (Txs (AssocBlock s)) (TxIdx s) with
  | Val (Some tx) => Val (TxHash (tx_MsgTx tx))
  | _ => Panic "index out of range or nil pointer dereference"
  end.

(** The labels of a checkpoint's metrics. *)
Definition ckpt_labels (ckpt : Ckpt) : RM (list Z) :=
  s1 ← of_outcome (slice_index (Segs ckpt) 0);
  s2 ← of_outcome (slice_index (Segs ckpt) 1);
  h1 ← of_outcome (seg_tx_hash s1);
  h2 ← of_outcome (seg_tx_hash s2);
  mret [Epoch ckpt; Height (AssocBlock s1); h1; h2].

(** One iteration of the submission loop of [matchAndSubmitCheckpoints]. *)
Definition submit_checkpoint (signer : string) (ckpt : Ckpt) : RM unit :=
  proofs ← of_outcome (MustGenSPVProofs ckpt);
  msg ← of_outcome (MustNewMsgInsertBTCSpvProof signer proofs);
  res ← try (world (ReliablySendMsg (InsertSpvProofMsg msg)
                      [ErrDuplicatedSubmission; ErrEpochAlreadyFinalized] []));
  match res with
  | Err err =>
      emit (MInc "FailedCheckpointsCounter") ;;
      if errors_Is err ErrTimeoutAfterWaitingForTxBroadcast then
        labels ← ckpt_labels ckpt;
        emit (MIncLabels "CheckpointCensorshipGauge" labels)
      else mret tt
  | Ok _ =>
      emit (MInc "SuccessfulCheckpointsCounter") ;;
      emit (MSet "SecondsSinceLastCheckpointGauge" 0) ;;
      labels ← ckpt_labels ckpt;
      emit (MTouch "NewReportedCheckpointGaugeVec" labels)
  end.

(** The loop that pops checkpoints until the cache is empty. *)
Fixpoint pop_loop (fuel : nat) (signer : string) : RM unit :=
  match fuel with
  | O => diverge
  | S fuel =>
      ckpt ← with_ckptCache PopEarliestCheckpoint;
      match ckpt with
      | None => mret tt
      | Some ckpt => submit_checkpoint signer ckpt ;; pop_loop fuel signer
      end
  end.

Section iteration.
Context (ord0 : gmap Hash CkptSegment → list (Hash * CkptSegment)).
Context (ord1 : Hash → gmap Hash CkptSegment → list (Hash * CkptSegment)).

Definition matchAndSubmitCheckpoints (signer : string) : RM Z :=
  with_ckptCache (modify (Match ord0 ord1)) ;;
  numMatchedCkpts ← with_ckptCache (gets NumCheckpoints);
  if numMatchedCkpts =? 0 then mret numMatchedCkpts
  else
    pop_loop (S (Z.to_nat numMatchedCkpts)) signer ;;
    mret numMatchedCkpts.

Definition ProcessCheckpoints (signer : string) (ibs : list IndexedBlock) : RM (Z * Z) :=
  numCkptSegs ← for_fold ibs 0 (λ n ib, m ← extractCheckpoints ib; mret (n + m));
  numMatchedCkpts ← matchAndSubmitCheckpoints signer;
  mret (numCkptSegs, numMatchedCkpts).

(** The same on a slice whose elements may be [nil]. *)
Definition ProcessCheckpoints_nilable (signer : string) (ibs : list (option IndexedBlock))
  : RM (Z * Z) :=
  numCkptSegs ← for_fold ibs 0 (λ n ib,
    match ib with
    | None => panic "nil pointer dereference"
    | Some ib => m ← extractCheckpoints ib; mret (n + m)
    end);
  numMatchedCkpts ← matchAndSubmitCheckpoints signer;
  mret (numCkptSegs, numMatchedCkpts).
End iteration.
End reporter.
