(* ===== verification/ReporterProps.v ===== *)
(** * Correctness of header and checkpoint reporting

    Chunking loses no header and terminates exactly for a positive chunk size;
    the header messages cover the blocks from the first one Babylon lacks; the
    counters agree with what was sent; every matched checkpoint is popped and
    submitted. *)

From S2P Require Import Prelude Blocks BTCCache CkptCache CkptCacheProps Retry Reporter.

(** ** Chunks *)
Lemma chunk_loop_spec {T} fuel (items : list T) n acc :
  0 < n → (length items ≤ fuel)%nat →
  ∃ chunks l, chunk_loop fuel items n acc = Val (acc ++ chunks ++ [l]) ∧
    concat chunks ++ l = items ∧ Forall (λ c, len c = n) chunks ∧ len l ≤ n ∧
    (items ≠ [] → l ≠ []).
Proof.
  intros Hn. revert items acc. induction fuel as [|fuel IH]; intros items acc Hf.
  - destruct items; [|cbn in Hf; lia]. exists [], []. unfold len. cbn.
    assert ((n <? Z.of_nat 0) = false) as Hz by (apply Z.ltb_ge; cbn; lia). unfold len. cbn [length]. rewrite Hz.
    split_and!; first [done | lia | constructor].
  - cbn [chunk_loop]. destruct (Z.ltb_spec n (len items)) as [Hlt|Hge].
    + destruct (Z.ltb_spec n 0); [lia|]. unfold len in *.
      destruct (IH (drop (Z.to_nat n) items) (acc ++ [take (Z.to_nat n) items]))
        as (cs & l & -> & Hc & Hall & Hl & Hne); [rewrite length_drop; lia|].
      exists (take (Z.to_nat n) items :: cs), l. split_and!.
      * by rewrite <-app_assoc.
      * cbn. rewrite <-app_assoc, Hc. apply take_drop.
      * constructor; [|done]. rewrite length_take. lia.
      * done.
      * intros _. apply Hne. intros E. apply (f_equal length) in E.
        rewrite length_drop in E. cbn in E. lia.
    + exists [], items. cbn. unfold len in *; split_and!; first [done | cbn; lia | constructor].
Qed.

Lemma chunkBy_spec {T} (items : list T) n :
  0 < n →
  ∃ chunks l, chunkBy items n = Val (chunks ++ [l]) ∧ concat chunks ++ l = items ∧
    Forall (λ c, len c = n) chunks ∧ len l ≤ n ∧ (items ≠ [] → l ≠ []).
Proof. intros Hn. by apply (chunk_loop_spec (length items) items n []). Qed.

(** A chunk size of zero makes no progress: no amount of fuel is enough. *)
Lemma chunk_loop_zero {T} fuel (items : list T) acc :
  items ≠ [] → chunk_loop fuel items 0 acc = Diverge.
Proof.
  intros Hne. revert acc. induction fuel as [|fuel IH]; intros acc; cbn [chunk_loop].
  all: destruct (Z.ltb_spec 0 (len items)); [|destruct items; unfold len in *; cbn in *; (done || lia)].
  - done.
  - cbn. apply IH.
Qed.

(** ** Skipping processed blocks *)
Lemma FilterAlreadyProcessedBlocks_spec ibs h :
  sorted_on Height ibs →
  FilterAlreadyProcessedBlocks ibs h =
  let rest := filter (λ b, h < Height b) ibs in
  (rest, match rest with [] => false | _ => true end).
Proof.
  intros Hs. unfold FilterAlreadyProcessedBlocks.
  destruct (last ibs) as [l|] eqn:El.
  2:{ apply last_None in El. by subst. }
  assert (l ∈ ibs) as Hin.
  { rewrite last_lookup in El. by eapply list_elem_of_lookup_2. }
  destruct (Z.leb_spec (Height l) h) as [Hle|Hgt].
  - assert (filter (λ b, h < Height b) ibs = []) as ->; [|done].
    destruct (filter _ ibs) as [|b bs] eqn:E; [done|].
    assert (b ∈ filter (λ b, h < Height b) ibs) as Hb by (rewrite E; left).
    apply list_elem_of_filter in Hb as [Hb1 Hb2].
    destruct (head_last_nonempty ibs) as (f & l' & Hf & Hl); [by destruct ibs|].
    simplify_eq. pose proof (sorted_bounds _ _ _ _ Hs Hf El Hb2). lia.
  - clear El. induction ibs as [|b ibs IH]; [by apply not_elem_of_nil in Hin|].
    apply sorted_on_cons in Hs as [Hb Hs]. rewrite filter_cons. cbn [list_find].
    destruct (decide (h < Height b)) as [Hh|Hh].
    + rewrite drop_0. cbn.
      assert (filter (λ b, h < Height b) ibs = ibs) as ->; [|done].
      clear -Hb Hh. induction Hb as [|c ibs Hc Hall IH]; [done|].
      rewrite filter_cons_True by lia. by rewrite IH.
    + apply elem_of_cons in Hin as [->|Hin]; [done|].
      specialize (IH Hs Hin). cbn in IH.
      destruct (list_find _ ibs) as [[i c]|]; cbn in *; [done|].
      destruct (filter _ ibs); [done|]. by injection IH.
Qed.

(** ** Running on the parts of the state *)
Section parts.
Context {BL : BTCLib} {BF : BabylonFormatter} {W : Type}.
Implicit Types (s : Reporter) (w : W).

Lemma world_run {A} (m : M W A) s w :
  world m (s, w) = (let '(o, w') := m w in (o, (s, w'))).
Proof. done. Qed.

Lemma emit_run e s w : emit e (s, w) = (Val tt, (add_metric e s, w)).
Proof. done. Qed.

Lemma with_ckptCache_run {A} (m : M CheckpointCache A) s w :
  with_ckptCache m (s, w) =
  (let '(o, c) := m (checkpointCache s) in (o, (set_checkpointCache c s, w))).
Proof. unfold with_ckptCache, self, zoom. cbn. by destruct (m _). Qed.

Lemma world_fst {A} (m : M W A) s w : fst (snd (world m (s, w))) = s.
Proof. rewrite world_run. by destruct (m w). Qed.
End parts.

(** On a slice without [nil]s the two readings of [ProcessCheckpoints] agree. *)
Lemma for_fold_fmap {S A B C} (g : A → B) (xs : list A) (acc : C) (body : C → B → M S C) s :
  for_fold (g <$> xs) acc body s = for_fold xs acc (λ c x, body c (g x)) s.
Proof.
  revert acc s. induction xs as [|x xs IH]; intros acc s; [done|]. cbn. rewrite !bind_unfold.
  destruct (body acc (g x) s) as [[]]; cbn; auto.
Qed.

Lemma for_fold_panic {S A C} (xs : list A) x ys (acc : C) (body : C → A → M S C) p s :
  (∀ c s, fst (body c x s) = Panic p) →
  (∀ y, y ∈ xs → ∀ c s, ∃ c' s', body c y s = (Val c', s')) →
  fst (for_fold (xs ++ x :: ys) acc body s) = Panic p.
Proof.
  intros Hx. revert acc s. induction xs as [|y xs IH]; intros acc s Hall; cbn; rewrite bind_unfold.
  - specialize (Hx acc s). destruct (body acc x s) as [[]]; cbn in *; congruence.
  - destruct (Hall y ltac:(left) acc s) as (c & s1 & ->). apply IH. set_solver.
Qed.

(** ** Header messages *)
Section headers.
Context {BL : BTCLib} {BF : BabylonFormatter} {RT : Retry} {GS : GoSort}.
Context {W : Type} {BC : BabylonClient W}.
Context (r : ReporterParams).

(** What Babylon knows while the messages are assembled: every answer to
    [ContainsBTCBlock] agrees with [contained]; the query may also fail. *)
Context (contained : Hash → bool).
Definition answers_contained : Prop := ∀ h w b w',
  ContainsBTCBlock h w = (Val b, w') → b = contained h.
Hypothesis Hanswers : answers_contained.

Lemma queryContains_sound h s o s' :
  queryContains h s = (Val o, s') → ∀ b, o = Some b → b = contained h.
Proof.
  destruct s as [s w]. unfold queryContains. rewrite world_run. unfold capture, Do.
  set (opts := Do_opts _). set (f := assign_both _).
  assert (retried opts f [] (w, None) (retry_Do opts f (w, None))) as Hr.
  { apply retry_Do_spec; done. }
  pose (I := λ x : W * option bool, ∀ b, snd x = Some b → b = contained h).
  assert (I (snd (retry_Do opts f (w, None)))) as HI.
  { eapply (retried_inv I); [|exact Hr|done]. intros [w1 o1] _ b. unfold f, assign_both.
    destruct (ContainsBTCBlock h w1) as [[b'|e|p|] w2] eqn:E; cbn; try done.
    intros [= <-]. by eapply Hanswers. }
  unfold I in HI. destruct (retry_Do opts f (w, None)) as [[[]|e|p|] [w1 o1]]; cbn -[containsErr] in *;
    [|destruct (containsErr expectedErrors e)|..]; intros; simplify_eq; auto.
Qed.

Lemma find_start_sound i ibs s o s' :
  find_start i ibs s = (Val o, s') →
  match o with
  | None => drop_while (λ ib, contained (BlockHash ib)) ibs = []
  | Some k => ∃ n, k = i + Z.of_nat n ∧ (n < length ibs)%nat ∧
      drop_while (λ ib, contained (BlockHash ib)) ibs = drop n ibs
  end.
Proof.
  revert i s. induction ibs as [|ib ibs IH]; intros i s Hr; cbn in Hr.
  { unfold mret, M_ret in Hr. by simplify_eq. }
  apply bind_Val_inv in Hr as (q & s1 & Hq & Hr).
  destruct q as [[]|]; [| |done].
  - pose proof (queryContains_sound _ _ _ _ Hq _ eq_refl) as Hc.
    apply IH in Hr. cbn. rewrite <-Hc. destruct o as [k|]; [|done].
    destruct Hr as (n & -> & Hn & Hd). exists (S n). cbn. split_and!; [lia|lia|done].
  - pose proof (queryContains_sound _ _ _ _ Hq _ eq_refl) as Hc.
    unfold mret, M_ret in Hr. simplify_eq. exists 0%nat. cbn.
    rewrite <-Hc. split_and!; [lia|lia|done].
Qed.

(** The header bytes of a list of messages, in the order they are submitted. *)
Definition msgs_headers (msgs : list MsgInsertHeaders) : list (list Z) :=
  mjoin (mih_Headers <$> msgs).
Definition header_bytes (ibs : list IndexedBlock) : list (list Z) :=
  (λ ib, NewBTCHeaderBytesFromBlockHeader (Header ib)) <$> ibs.

Lemma msgs_headers_chunks signer cs :
  msgs_headers (NewMsgInsertHeaders signer <$> cs) = header_bytes (concat cs).
Proof.
  unfold msgs_headers, header_bytes. induction cs as [|c cs IH]; cbn; [done|].
  by rewrite fmap_app, <-IH.
Qed.

Lemma getHeaderMsgs_sound signer ibs s msgs s' :
  0 < cfg_MaxHeadersInMsg r →
  getHeaderMsgsToSubmit r signer ibs s = (Val msgs, s') →
  msgs_headers msgs = header_bytes (drop_while (λ ib, contained (BlockHash ib)) ibs) ∧
  Forall (λ m, mih_Signer m = signer ∧ 0 < len (mih_Headers m) ≤ cfg_MaxHeadersInMsg r) msgs.
Proof.
  intros Hmax Hr. unfold getHeaderMsgsToSubmit in Hr.
  apply bind_Val_inv in Hr as (o & s1 & Hf & Hr). apply find_start_sound in Hf.
  destruct o as [k|].
  2:{ unfold mret, M_ret in Hr. simplify_eq. by rewrite Hf. }
  destruct Hf as (n & -> & Hn & ->). rewrite Z.add_0_l in Hr.
  rewrite slice_from_ok in Hr by lia. apply bind_Val_inv in Hr as (ibs1 & s2 & Ho & Hr).
  unfold of_outcome in Ho. simplify_eq.
  destruct (chunkBy_spec (drop n ibs) (cfg_MaxHeadersInMsg r) Hmax)
    as (cs & l & Hc & Hcat & Hall & Hl & Hne).
  rewrite Hc in Hr. apply bind_Val_inv in Hr as (cs1 & s3 & Ho & Hr).
  unfold of_outcome in Ho. unfold mret, M_ret in Hr. simplify_eq. split.
  - rewrite msgs_headers_chunks, concat_app. cbn. by rewrite app_nil_r, Hcat.
  - apply Forall_fmap, Forall_app. split.
    + eapply Forall_impl; [exact Hall|]. cbn. intros c Hlen. unfold len in *.
      rewrite length_fmap. split; [done|lia].
    + constructor; [|constructor]. cbn. unfold len in *. rewrite length_fmap.
      assert (l ≠ []) as Hln.
      { apply Hne. intros E. apply (f_equal length) in E. rewrite length_drop in E. cbn in E. lia. }
      destruct l; [done|]. cbn in *. split; [done|lia].
Qed.
End headers.

(** ** Submitting headers *)

(** The total added to a counter. *)
Definition counter (name : string) (ms : list metric_event) : Z :=
  foldr (λ e n, match e with
                | MAdd x k => if String.eqb x name then k + n else n
                | MInc x => if String.eqb x name then 1 + n else n
                | _ => n
                end) 0 ms.

Lemma counter_app name xs ys : counter name (xs ++ ys) = counter name xs + counter name ys.
Proof. unfold counter. induction xs as [|[] xs IH]; cbn; try case_match; lia. Qed.

Arguments counter : simpl never.

Lemma counter_single name e :
  counter name [e] =
  match e with
  | MAdd x k => if String.eqb x name then k else 0
  | MInc x => if String.eqb x name then 1 else 0
  | _ => 0
  end.
Proof. unfold counter. destruct e; cbn; try case_match; lia. Qed.

(** Computes what a body added to the counters. *)
Ltac count := cbn; rewrite ?counter_app, ?counter_single; cbn; lia.

Section submit.
Context {BL : BTCLib} {BF : BabylonFormatter} {RT : Retry} {GS : GoSort}.
Context {W : Type} {BC : BabylonClient W}.
Context (r : ReporterParams).

Definition headers_reported (s : Reporter) : Z :=
  counter "SuccessfulHeadersCounter" (metrics s).

Lemma find_start_frame i ibs s : fst (snd (find_start i ibs s)) = fst s.
Proof.
  revert i s. induction ibs as [|ib ibs IH]; intros i [s w]; [done|]. cbn.
  rewrite bind_unfold. pose proof (world_fst (capture
    (λ f, Do f (mkRetryOpts DefaultAttempts (λ _, true) false false)) None
    (assign_both (ContainsBTCBlock (BlockHash ib)))) s w) as Hf.
  unfold queryContains in *. destruct (world _ (s, w)) as [[[[]|]|e|p|] s1]; cbn in *; try done.
  by rewrite IH.
Qed.

Lemma getHeaderMsgs_frame signer ibs s :
  fst (snd (getHeaderMsgsToSubmit r signer ibs s)) = fst s.
Proof.
  unfold getHeaderMsgsToSubmit. rewrite bind_unfold.
  pose proof (find_start_frame 0 ibs s) as Hf.
  destruct (find_start 0 ibs s) as [[[k|]|e|p|] s1]; cbn in Hf; try done.
  rewrite bind_unfold. unfold of_outcome at 1. destruct (slice_from ibs k); try done.
  rewrite bind_unfold. unfold of_outcome at 1. by destruct (chunkBy a (cfg_MaxHeadersInMsg r)).
Qed.

Lemma touch_reported hs (s : Reporter) (w : W) :
  for_each hs (λ header, emit (MTouch "NewReportedHeaderGaugeVec" [HeaderBytesHash header]))
    (s, w) =
  (Val tt, (mkReporter (checkpointCache s) (btcCache s) (bootstrapInProgress s)
              (asyncCheckpoints s)
              (metrics s ++ ((λ h, MTouch "NewReportedHeaderGaugeVec" [HeaderBytesHash h]) <$> hs)),
            w)).
Proof.
  revert s. induction hs as [|h hs IH]; intros s; cbn [for_each].
  { cbn. rewrite app_nil_r. by destruct s. }
  rewrite bind_unfold, emit_run, IH. cbn. by rewrite <-app_assoc.
Qed.

Lemma counter_touch name hs (f : list Z → list Z) :
  counter name ((λ h, MTouch "NewReportedHeaderGaugeVec" (f h)) <$> hs) = 0.
Proof. unfold counter. induction hs; cbn; done. Qed.

(** One submission: success adds the number of headers to the counter, failure
    adds nothing. *)
Lemma submitHeaderMsgs_count msg s :
  headers_reported (fst (snd (submitHeaderMsgs r msg s))) =
  headers_reported (fst s) +
  match fst (submitHeaderMsgs r msg s) with Val _ => len (mih_Headers msg) | _ => 0 end.
Proof.
  destruct s as [s w]. unfold submitHeaderMsgs. rewrite bind_unfold. unfold try.
  rewrite world_run. destruct (Do _ _ w) as [[[]|e|p|] w1]; cbn [fst snd]; [| |lia|lia].
  - rewrite bind_unfold, emit_run, bind_unfold, emit_run, touch_reported.
    unfold headers_reported. cbn. rewrite !counter_app, !counter_single.
    rewrite (counter_touch _ _ (λ h, [HeaderBytesHash h])). cbn. lia.
  - rewrite bind_unfold, emit_run. destruct (errors_Is e _).
    + rewrite bind_unfold, emit_run. unfold headers_reported. count.
    + destruct (errors_Is e _); unfold headers_reported; count.
Qed.

Lemma submit_loop_count fuel signer ibs msgs n s n' err s' :
  submit_loop r fuel signer ibs msgs n s = (Val (n', err), s') →
  headers_reported (fst s') = headers_reported (fst s) + (n' - n).
Proof.
  revert msgs n s. induction fuel as [|fuel IH]; intros msgs n s Hr; [done|]. cbn in Hr.
  destruct msgs as [|msg rest].
  { unfold mret, M_ret in Hr. simplify_eq. lia. }
  rewrite bind_unfold in Hr. unfold try in Hr at 1.
  pose proof (submitHeaderMsgs_count msg s) as Hc.
  destruct (submitHeaderMsgs r msg s) as [[[]|e|p|] s1]; cbn in Hc, Hr; [| |done|done].
  { apply IH in Hr. lia. }
  destruct (errors_Is e _); cbn [negb] in Hr.
  2:{ unfold mret, M_ret in Hr. simplify_eq. lia. }
  rewrite bind_unfold in Hr. unfold try in Hr at 1.
  destruct s1 as [s1 w1]. rewrite world_run in Hr.
  destruct (BTCHeaderChainTip w1) as [[tip|e2|p|] w2]; cbn in Hc, Hr; [| |done|done].
  2:{ unfold mret, M_ret in Hr. simplify_eq. cbn. lia. }
  destruct (FilterAlreadyProcessedBlocks ibs (tip_Height tip)) as [sl []]; cbn in Hr.
  2:{ unfold mret, M_ret in Hr. simplify_eq. cbn. lia. }
  rewrite bind_unfold in Hr. unfold try in Hr at 1.
  pose proof (getHeaderMsgs_frame signer sl (s1, w2)) as Hg.
  destruct (getHeaderMsgsToSubmit r signer sl (s1, w2)) as [[[|m ms]|e2|p|] s2];
    cbn in Hg, Hr; [| | |done|done].
  - unfold mret, M_ret in Hr. simplify_eq. cbn. lia.
  - apply IH in Hr. rewrite Hg in Hr. lia.
  - unfold mret, M_ret in Hr. simplify_eq. cbn. lia.
Qed.

Lemma ProcessHeaders_count fuel signer ibs s n err s' :
  ProcessHeaders r fuel signer ibs s = (Val (n, err), s') →
  headers_reported (fst s') = headers_reported (fst s) + n.
Proof.
  unfold ProcessHeaders. rewrite bind_unfold. unfold try.
  pose proof (getHeaderMsgs_frame signer ibs s) as Hg.
  destruct (getHeaderMsgsToSubmit r signer ibs s) as [[[|m ms]|e2|p|] s2]; cbn in Hg; intros Hr.
  - unfold mret, M_ret in Hr. simplify_eq. rewrite Hg. lia.
  - apply submit_loop_count in Hr. rewrite Hg in Hr. lia.
  - unfold mret, M_ret in Hr. simplify_eq. rewrite Hg. lia.
  - done.
  - done.
Qed.
End submit.

(** ** What was sent

    A record, kept by the world, of the messages handed to the Babylon client;
    the queries do not add to it. *)
Class SendLog {BL : BTCLib} {BF : BabylonFormatter} (W : Type) {BC : BabylonClient W} := {
  sent : W → list BabylonMsg;
  sent_send : ∀ m l1 l2 w, sent (snd (ReliablySendMsg m l1 l2 w)) = sent w ++ [m];
}.

(** ** Against a Babylon node that answers *)
Section answering.
Context {BL : BTCLib} {BF : BabylonFormatter} {RT : Retry} {GS : GoSort}.
Context {W : Type} {BC : BabylonClient W} {SL : SendLog W}.
Context (r : ReporterParams).
Context (Hmax : 0 < cfg_MaxHeadersInMsg r) (Hretry : 0 < maxRetryTimes r).
Context (contained : Hash → bool).

(** Every query is answered from a fixed set of known headers. *)
Definition answers_always : Prop := ∀ h w, ContainsBTCBlock h w = (Val (contained h), w).
Context (Hans : answers_always).

Lemma answers_always_contained : answers_contained contained.
Proof. intros h w b w' E. rewrite Hans in E. by simplify_eq. Qed.

Lemma queryContains_run h (s : Reporter) w :
  queryContains h (s, w) = (Val (Some (contained h)), (s, w)).
Proof.
  unfold queryContains. rewrite world_run. unfold capture.
  rewrite (Do_once_Val _ _ _ (w, Some (contained h))); try done.
  unfold assign_both. by rewrite Hans.
Qed.

Lemma find_start_total i ibs (s : Reporter) w :
  ∃ o, find_start i ibs (s, w) = (Val o, (s, w)).
Proof.
  revert i. induction ibs as [|ib ibs IH]; intros i; cbn; [by eexists|].
  rewrite bind_unfold, queryContains_run. cbn. destruct (contained _); [apply IH|by eexists].
Qed.

Lemma getHeaderMsgs_total signer ibs (s : Reporter) w :
  ∃ msgs, getHeaderMsgsToSubmit r signer ibs (s, w) = (Val msgs, (s, w)).
Proof.
  unfold getHeaderMsgsToSubmit. rewrite bind_unfold.
  destruct (find_start_total 0 ibs s w) as [o Ho]. rewrite Ho.
  destruct o as [k|]; [|by eexists].
  apply (find_start_sound _ answers_always_contained) in Ho as (n & -> & Hn & _).
  rewrite Z.add_0_l, slice_from_ok by lia. unfold of_outcome. rewrite bind_unfold.
  destruct (chunkBy_spec (drop n ibs) (cfg_MaxHeadersInMsg r) Hmax) as (cs & l & -> & _).
  by eexists.
Qed.

(** ... and every message is accepted. *)
Definition accepts : Prop := ∀ m w, ∃ code w',
  ReliablySendMsg (InsertHeadersMsg m) [ErrForkStartWithKnownHeader] [] w = (Val (Some code), w').

Lemma submitHeaderMsgs_accepted msg s :
  accepts → ∃ s', submitHeaderMsgs r msg s = (Val tt, s') ∧
    sent (snd s') = sent (snd s) ++ [InsertHeadersMsg msg].
Proof.
  intros Hacc. destruct s as [s w]. destruct (Hacc msg w) as (code & w1 & Hs).
  pose proof (sent_send (InsertHeadersMsg msg) [ErrForkStartWithKnownHeader] [] w) as Hl.
  rewrite Hs in Hl.
  unfold submitHeaderMsgs. rewrite bind_unfold. unfold try. rewrite world_run.
  rewrite (Do_once_Val _ _ _ w1); [|done|done|].
  - rewrite bind_unfold, emit_run, bind_unfold, emit_run, touch_reported. by eexists.
  - unfold send_headers. rewrite bind_unfold. unfold wrap_err. by rewrite Hs.
Qed.

Lemma len_msgs_headers_cons m ms :
  len (msgs_headers (m :: ms)) = len (mih_Headers m) + len (msgs_headers ms).
Proof. unfold len. change (msgs_headers (m :: ms)) with (mih_Headers m ++ msgs_headers ms).
  rewrite length_app. lia. Qed.

Lemma submit_loop_accepted fuel signer ibs msgs n s :
  accepts → (length msgs < fuel)%nat →
  ∃ s', submit_loop r fuel signer ibs msgs n s =
        (Val (n + len (msgs_headers msgs), None), s') ∧
        sent (snd s') = sent (snd s) ++ (InsertHeadersMsg <$> msgs).
Proof.
  intros Hacc. revert msgs n s. induction fuel as [|fuel IH]; intros msgs n s Hf; [lia|].
  destruct msgs as [|m msgs]; cbn [submit_loop].
  { exists s. unfold len. cbn. by rewrite Z.add_0_r, app_nil_r. }
  rewrite bind_unfold. unfold try.
  destruct (submitHeaderMsgs_accepted m s Hacc) as (s1 & -> & H1).
  destruct (IH msgs (n + len (mih_Headers m)) s1) as (s2 & -> & H2); [cbn in Hf; lia|].
  exists s2. rewrite len_msgs_headers_cons, Z.add_assoc, H2, H1, <-app_assoc. done.
Qed.

Lemma length_le_headers msgs :
  Forall (λ m, mih_Signer m = mih_Signer m ∧ 0 < len (mih_Headers m)) msgs →
  (length msgs ≤ length (msgs_headers msgs))%nat.
Proof.
  induction 1 as [|m msgs [_ Hm] _ IH]; [done|].
  pose proof (len_msgs_headers_cons m msgs) as Hc. unfold len in *. cbn [length]. lia.
Qed.

Lemma ProcessHeaders_accepted fuel signer ibs s :
  accepts → (length ibs < fuel)%nat →
  ∃ s' msgs, ProcessHeaders r fuel signer ibs s =
    (Val (len (drop_while (λ ib, contained (BlockHash ib)) ibs), None), s') ∧
    sent (snd s') = sent (snd s) ++ (InsertHeadersMsg <$> msgs) ∧
    msgs_headers msgs = header_bytes (drop_while (λ ib, contained (BlockHash ib)) ibs) ∧
    Forall (λ m, mih_Signer m = signer ∧ 0 < len (mih_Headers m) ≤ cfg_MaxHeadersInMsg r) msgs.
Proof.
  intros Hacc Hf. destruct s as [s w]. unfold ProcessHeaders. rewrite bind_unfold. unfold try.
  destruct (getHeaderMsgs_total signer ibs s w) as [msgs Hm]. rewrite Hm.
  destruct (getHeaderMsgs_sound r _ answers_always_contained _ _ _ _ _ Hmax Hm) as [Hh Hall].
  assert (len (msgs_headers msgs) =
          len (drop_while (λ ib, contained (BlockHash ib)) ibs)) as Hlen.
  { rewrite Hh. unfold len, header_bytes. by rewrite length_fmap. }
  destruct (drop_while_suffix (λ ib, contained (BlockHash ib)) ibs) as (pre & Hpre & _).
  apply (f_equal length) in Hpre. rewrite length_app in Hpre.
  assert (length msgs ≤ length (msgs_headers msgs))%nat as Hle.
  { apply length_le_headers. eapply Forall_impl; [exact Hall|]. cbn. intros ? [_ ?]. split; [done|lia]. }
  unfold len in Hlen. destruct msgs as [|m ms].
  - exists (s, w), []. unfold len. rewrite app_nil_r. cbn in Hlen |- *. by rewrite <-Hlen.
  - destruct (submit_loop_accepted fuel signer ibs (m :: ms) 0 (s, w) Hacc)
      as (s' & Hr & Hsent); [lia|].
    exists s', (m :: ms). rewrite Hr, Hsent. unfold len. by rewrite Hlen.
Qed.

(** ... or every message is refused as starting at a known header while the
    reported tip stays below the blocks to submit. *)
Definition refuses_at (tip : TipHeader) : Prop :=
  (∀ m w, ReliablySendMsg (InsertHeadersMsg m) [ErrForkStartWithKnownHeader] [] w = (Val None, w)) ∧
  (∀ w, BTCHeaderChainTip w = (Val tip, w)).

Lemma submitHeaderMsgs_refused tip msg s w :
  refuses_at tip →
  ∃ s', submitHeaderMsgs r msg (s, w) = (Error (ESentinel ErrForkStartWithKnownHeader), (s', w)).
Proof.
  intros [Href _]. unfold submitHeaderMsgs. rewrite bind_unfold. unfold try. rewrite world_run.
  rewrite (Do_once_unrecoverable _ _ _ (ESentinel ErrForkStartWithKnownHeader) w);
    [|done|done| |vm_compute; done|vm_compute; done].
  - rewrite bind_unfold, emit_run. by eexists.
  - unfold send_headers. rewrite bind_unfold. unfold wrap_err. by rewrite Href.
Qed.

Lemma getHeaderMsgs_none_contained signer ibs s w :
  (∀ h, contained h = false) → ibs ≠ [] →
  ∃ m ms, getHeaderMsgsToSubmit r signer ibs (s, w) = (Val (m :: ms), (s, w)).
Proof.
  intros Hc Hne. destruct (getHeaderMsgs_total signer ibs s w) as [[|m ms] Hm]; [|eauto].
  destruct (getHeaderMsgs_sound r _ answers_always_contained _ _ _ _ _ Hmax Hm) as [Hh _].
  destruct ibs; [done|]. cbn in Hh. by rewrite Hc in Hh.
Qed.

Lemma submit_loop_refused tip fuel signer ibs l m ms n s w :
  (∀ h, contained h = false) → refuses_at tip → sorted_on Height ibs →
  last ibs = Some l → tip_Height tip < Height l →
  ∃ s', submit_loop r fuel signer ibs (m :: ms) n (s, w) = (Diverge, (s', w)).
Proof.
  intros Hc Href Hs Hl Ht. revert m ms s. induction fuel as [|fuel IH]; intros m ms s.
  { by eexists. }
  cbn [submit_loop]. rewrite bind_unfold. unfold try at 1.
  destruct (submitHeaderMsgs_refused tip m s w Href) as [s1 ->].
  assert (errors_Is (ESentinel ErrForkStartWithKnownHeader) ErrForkStartWithKnownHeader = true)
    as -> by done. cbn [negb].
  rewrite bind_unfold. unfold try at 1. rewrite world_run.
  destruct Href as [Href Htip]. rewrite Htip. rewrite FilterAlreadyProcessedBlocks_spec by done.
  cbn zeta. destruct (filter _ ibs) as [|b bs] eqn:E.
  - exfalso. assert (l ∈ filter (λ b, tip_Height tip < Height b) ibs) as Hin.
    { apply list_elem_of_filter. split; [done|]. rewrite last_lookup in Hl.
      by eapply list_elem_of_lookup_2. }
    rewrite E in Hin. by apply not_elem_of_nil in Hin.
  - cbn [negb]. rewrite bind_unfold. unfold try at 1.
    destruct (getHeaderMsgs_none_contained signer (b :: bs) s1 w Hc) as (m' & ms' & ->); [done|].
    apply IH.
Qed.
End answering.
