(* ===== verification/ReporterCkpt.v ===== *)
(** * Checkpoint reporting is total and drains the cache

    [ProcessCheckpoints] on well-formed blocks never panics, whatever Babylon
    answers; it submits every matched checkpoint in epoch order, one message
    each, and leaves neither a matched checkpoint nor a pair of segments that
    belong together. *)

From S2P Require Import Prelude Blocks BTCCache CkptCache CkptCacheProps Retry Reporter.
From S2P Require Import ReporterProps.

Section ckpts.
Context {BL : BTCLib} {BF : BabylonFormatter} {GS : GoSort}.
Context {W : Type} {BC : BabylonClient W} {CK : Clock W} {SL : SendLog W}.

(** ** Well-formed segments and caches *)

(** A segment points at an existing transaction of a block without [nil]s. *)
Definition located (s : CkptSegment) : Prop :=
  0 ≤ TxIdx s < len (Txs (AssocBlock s)) ∧ Forall is_Some (Txs (AssocBlock s)).
Definition ckpt_wf (k : Ckpt) : Prop :=
  ∃ s1 s2, Segs k = [s1; s2] ∧ located s1 ∧ located s2.

Record cache_wf (c : CheckpointCache) : Prop := {
  wf_keys : is_Some (Segments c !! 0) ∧ is_Some (Segments c !! 1);
  wf_seg0 : map_Forall (λ _, located) (segments 0 c);
  wf_seg1 : map_Forall (λ _, located) (segments 1 c);
  wf_ckpts : Forall ckpt_wf (Checkpoints c);
}.

(** A block as [GetWrappedTxs] builds it. *)
Definition block_wf (ib : IndexedBlock) : Prop :=
  ∀ i o, Txs ib !! i = Some o → ∃ t, o = Some t ∧ tx_Index t = Z.of_nat i.

Lemma block_wf_indexed height block : block_wf (NewIndexedBlockFromMsgBlock height block).
Proof.
  intros i o Hi. cbn in Hi. unfold GetWrappedTxs in Hi.
  destruct (Transactions block !! i) as [t|] eqn:E.
  - rewrite (wrap_txs_lookup 0 _ _ _ E) in Hi. simplify_eq. eexists. split; [done|]. cbn. lia.
  - apply lookup_ge_None in E. apply lookup_lt_Some in Hi. rewrite length_wrap_txs in Hi. lia.
Qed.

(** What the libraries and the Babylon client promise. *)
Record env_ok : Prop := {
  serialize_total : ∀ tx, ∃ b, Serialize tx = Ok b;
  spv_total : ∀ hdr txs i, 0 ≤ i < len txs →
    Forall (λ b, ∃ tx, Serialize tx = Ok b) txs →
    ∃ p, SpvProofFromHeaderAndTransactions hdr txs i = Ok p;
  index_uint8 : ∀ tag v b d, IsBabylonCheckpointData tag v b = Ok d → 0 ≤ Index d;
  now_returns : ∀ w, ∃ t w', Now w = (Val t, w') ∧ sent w' = sent w;
  send_returns : ∀ m l1 l2 w, no_panic (ReliablySendMsg m l1 l2 w);
}.
Context (Henv : env_ok).

Lemma NewCheckpointCache_wf tag v : cache_wf (NewCheckpointCache tag v).
Proof.
  split; cbn; rewrite ?NumberOfParts_two; cbn; [|..|constructor].
  - split; [by eexists|by eexists].
  - unfold segments. cbn. rewrite NumberOfParts_two. intros h x Hx. by vm_compute in Hx.
  - unfold segments. cbn. rewrite NumberOfParts_two. intros h x Hx. by vm_compute in Hx.
Qed.

(** ** Extraction *)
Lemma segments_insert i j m c :
  segments i (with_Segments (<[j := m]> (Segments c)) c) =
  if bool_decide (i = j) then m else segments i c.
Proof.
  unfold segments. cbn. case_bool_decide; [subst; by rewrite lookup_insert_eq|].
  by rewrite lookup_insert_ne.
Qed.

Lemma AddSegment_total now seg c :
  cache_wf c → located seg → 0 ≤ seg_Index seg →
  no_panic (AddSegment now seg c) ∧ cache_wf (snd (AddSegment now seg c)).
Proof.
  intros Hc Hl Hi. pose proof Hc as [[[m0 H0] [m1 H1]] Hs0 Hs1 Hk]. unfold AddSegment.
  rewrite NumberOfParts_two. destruct (Z.leb_spec 2 (seg_Index seg)); [done|].
  cbn zeta. rewrite bind_unfold. unfold gets, id. cbn [fst snd].
  change (seg_Index (set_Timestamp now seg)) with (seg_Index seg).
  set (seg' := set_Timestamp now seg). set (h := Sum256 _).
  assert (located seg') as Hl' by done.
  assert (seg_Index seg = 0 ∨ seg_Index seg = 1) as [E|E] by lia; rewrite E.
  - rewrite H0. cbn. split; [done|]. split; [cbn| | |done].
    + rewrite lookup_insert_eq, lookup_insert_ne by done. eauto.
    + rewrite segments_insert. cbn. apply map_Forall_insert_2; [done|].
      unfold segments in Hs0. by rewrite H0 in Hs0.
    + rewrite segments_insert. done.
  - rewrite H1. cbn. split; [done|]. split; [cbn| | |done].
    + rewrite lookup_insert_eq, lookup_insert_ne by done. eauto.
    + rewrite segments_insert. done.
    + rewrite segments_insert. cbn. apply map_Forall_insert_2; [done|].
      unfold segments in Hs1. by rewrite H1 in Hs1.
Qed.

(** The segment of data [d] with index [i] is in the cache. *)
Definition cached (i : Z) (d : list Z) (c : CheckpointCache) : Prop :=
  is_Some (segments i c !! Sum256 d).

Lemma AddSegment_cached now seg c i d :
  cache_wf c → 0 ≤ seg_Index seg →
  (cached i d c → cached i d (snd (AddSegment now seg c))) ∧
  (seg_Index seg < NumberOfParts →
     cached (seg_Index seg) (seg_Data seg) (snd (AddSegment now seg c))).
Proof.
  intros [[[m0 H0] [m1 H1]] _ _ _] Hi. unfold AddSegment.
  destruct (Z.leb_spec NumberOfParts (seg_Index seg)); [split; [done|lia]|].
  cbn zeta. rewrite bind_unfold. unfold gets, id. cbn [fst snd].
  change (seg_Index (set_Timestamp now seg)) with (seg_Index seg).
  set (h := Sum256 _). rewrite NumberOfParts_two in *.
  assert (is_Some (Segments c !! seg_Index seg)) as [m Hm].
  { assert (seg_Index seg = 0 ∨ seg_Index seg = 1) as [-> | ->] by lia; eauto. }
  rewrite Hm. unfold modify, cached. cbn [snd]. rewrite !segments_insert. split.
  - unfold segments. case_bool_decide as E; [|done]. subst i. rewrite Hm. cbn.
    intros Hd. rewrite lookup_insert_is_Some'. by right.
  - intros _. rewrite bool_decide_eq_true_2 by done. rewrite lookup_insert_eq. eauto.
Qed.

Lemma NewCkptSegment_located tag v ib t seg i :
  block_wf ib → Txs ib !! i = Some (Some t) → NewCkptSegment tag v ib t = Some seg →
  located seg ∧ 0 ≤ seg_Index seg.
Proof.
  intros Hb Hi. unfold NewCkptSegment. destruct (ExtractStandardOpReturnData t) as [d|]; [|done].
  destruct (IsBabylonCheckpointData tag v d) as [bd|] eqn:E; [|done]. intros [= <-].
  split; [|cbn; by eapply index_uint8]. destruct (Hb _ _ Hi) as (t' & [= <-] & Ht).
  split; cbn.
  - rewrite Ht. apply lookup_lt_Some in Hi. unfold len. lia.
  - apply Forall_lookup. intros j o Ho. destruct (Hb _ _ Ho) as (t' & -> & _). eauto.
Qed.

(** What extraction keeps: the format and every cached segment. *)
Definition extract_keeps (s s' : Reporter) : Prop :=
  cc_Tag (checkpointCache s') = cc_Tag (checkpointCache s) ∧
  cc_Version (checkpointCache s') = cc_Version (checkpointCache s) ∧
  ∀ i d, cached i d (checkpointCache s) → cached i d (checkpointCache s').

(** The segment of a transaction, if it has one of a known index, is cached. *)
Definition tx_cached (ib : IndexedBlock) (o : option Tx) (s : Reporter) : Prop :=
  ∀ t seg, o = Some t →
    NewCkptSegment (cc_Tag (checkpointCache s)) (cc_Version (checkpointCache s)) ib t = Some seg →
    seg_Index seg < NumberOfParts → cached (seg_Index seg) (seg_Data seg) (checkpointCache s).

Lemma extract_keeps_refl s : extract_keeps s s.
Proof. done. Qed.
Lemma extract_keeps_trans s1 s2 s3 :
  extract_keeps s1 s2 → extract_keeps s2 s3 → extract_keeps s1 s3.
Proof. intros (H1 & H2 & H3) (H4 & H5 & H6). split_and!; [congruence|congruence|auto]. Qed.
Lemma tx_cached_mono ib o s s' : extract_keeps s s' → tx_cached ib o s → tx_cached ib o s'.
Proof. intros (H1 & H2 & H3) Ht t seg Ho. rewrite H1, H2. eauto. Qed.

Lemma AddSegment_format now seg c :
  cc_Tag (snd (AddSegment now seg c)) = cc_Tag c ∧
  cc_Version (snd (AddSegment now seg c)) = cc_Version c.
Proof.
  unfold AddSegment. case_match; [done|]. cbn zeta. rewrite bind_unfold. unfold gets, id.
  cbn [fst snd]. by destruct (Segments c !! _).
Qed.

(** The reporter's state changes only through the cache. *)
Lemma extract_tx_total ib n o i s w :
  block_wf ib → Txs ib !! i = Some o → cache_wf (checkpointCache s) →
  ∃ n' s' w', extract_tx ib n o (s, w) = (Val n', (s', w')) ∧
    cache_wf (checkpointCache s') ∧ metrics s' = metrics s ∧ sent w' = sent w ∧
    extract_keeps s s' ∧ tx_cached ib o s'.
Proof.
  intros Hb Hi Hc. unfold extract_tx. destruct o as [t|].
  2:{ exists n, s, w. split_and!; done. }
  rewrite bind_unfold, with_ckptCache_run. cbn. unfold gets, id. cbn.
  assert (set_checkpointCache (checkpointCache s) s = s) as -> by (by destruct s).
  destruct (NewCkptSegment _ _ ib t) as [seg|] eqn:Es.
  2:{ exists n, s, w. split_and!; [done..|]. intros t' seg' [= <-]. congruence. }
  destruct (NewCkptSegment_located _ _ _ _ _ _ Hb Hi Es) as [Hl Hidx].
  rewrite bind_unfold, world_run. destruct (now_returns Henv w) as (now & w1 & -> & Hw1).
  rewrite bind_unfold. unfold try. rewrite with_ckptCache_run.
  destruct (AddSegment_total now seg (checkpointCache s) Hc Hl Hidx) as [Hnp Hwf].
  destruct (AddSegment_format now seg (checkpointCache s)) as [Htag Hver].
  pose proof (λ i d, proj1 (AddSegment_cached now seg (checkpointCache s) i d Hc Hidx)) as Hkeep.
  pose proof (proj2 (AddSegment_cached now seg (checkpointCache s) 0 [] Hc Hidx)) as Hadd.
  assert (∀ c', snd (AddSegment now seg (checkpointCache s)) = c' →
    extract_keeps s (set_checkpointCache c' s) ∧
    tx_cached ib (Some t) (set_checkpointCache c' s)) as Hext.
  { intros c' <-. split; [by split_and!|]. intros t' seg' [= <-]. cbn. rewrite Htag, Hver, Es.
    by intros [= <-]. }
  destruct (AddSegment now seg (checkpointCache s)) as [[[]|e|p|] c']; try done; cbn;
    eexists _, (set_checkpointCache c' s), w1; (split_and!; [done..| |]); by apply Hext.
Qed.

(** The states reachable by extraction from a start. *)
Record extracting (s0 s : Reporter * W) : Prop := {
  ex_wf : cache_wf (checkpointCache (fst s));
  ex_metrics : metrics (fst s) = metrics (fst s0);
  ex_sent : sent (snd s) = sent (snd s0);
  ex_keeps : extract_keeps (fst s0) (fst s);
}.

Lemma extracting_trans s1 s2 s3 : extracting s1 s2 → extracting s2 s3 → extracting s1 s3.
Proof.
  intros [_ ? ? ?] [? ? ? ?]. split; [done|congruence|congruence|]. by eapply extract_keeps_trans.
Qed.

Lemma extract_txs_total ib k txs n (s : Reporter * W) :
  block_wf ib → drop k (Txs ib) = txs → cache_wf (checkpointCache (fst s)) →
  ∃ n' s', for_fold txs n (extract_tx ib) s = (Val n', s') ∧ extracting s s' ∧
    Forall (λ o, tx_cached ib o (fst s')) txs.
Proof.
  intros Hb. revert k n s. induction txs as [|o txs IH]; intros k n [s w] Hd Hwf; cbn [for_fold].
  { exists n, (s, w). split_and!; done. }
  assert (Txs ib !! k = Some o) as Hk.
  { rewrite <-(Nat.add_0_r k), <-lookup_drop, Hd. done. }
  destruct (extract_tx_total ib n o k s w Hb Hk Hwf) as (n1 & s1 & w1 & E & H1 & H2 & H3 & H4 & H5).
  rewrite bind_unfold, E.
  destruct (IH (S k) n1 (s1, w1)) as (n2 & s2 & -> & H6 & H7).
  { by rewrite (drop_S _ _ _ Hk) in Hd; simplify_eq. }
  { done. }
  exists n2, s2. split_and!; [done|by eapply extracting_trans; [|exact H6]|].
  constructor; [|done]. eapply tx_cached_mono; [exact (ex_keeps _ _ H6)|done].
Qed.

(** Every checkpoint segment of a block is in the cache. *)
Definition block_cached (ib : IndexedBlock) (s : Reporter) : Prop :=
  Forall (λ o, tx_cached ib o s) (Txs ib).

Lemma extractCheckpoints_total ib (s : Reporter * W) :
  block_wf ib → cache_wf (checkpointCache (fst s)) →
  ∃ n s', extractCheckpoints ib s = (Val n, s') ∧ extracting s s' ∧ block_cached ib (fst s').
Proof. intros Hb Hs. by apply (extract_txs_total ib 0 (Txs ib) 0). Qed.

Lemma extract_blocks_total ibs n (s : Reporter * W) :
  Forall block_wf ibs → cache_wf (checkpointCache (fst s)) →
  ∃ n' s', for_fold ibs n (λ n ib, m ← extractCheckpoints ib; mret (n + m)) s = (Val n', s') ∧
    extracting s s' ∧ Forall (λ ib, block_cached ib (fst s')) ibs.
Proof.
  intros Hb. revert n s. induction Hb as [|ib ibs Hib Hb IH]; intros n s Hwf; cbn [for_fold].
  { exists n, s. split_and!; done. }
  destruct (extractCheckpoints_total ib s Hib Hwf) as (m & s1 & E & H1 & H2).
  rewrite bind_unfold, bind_unfold, E. cbn.
  destruct (IH (n + m) s1 (ex_wf _ _ H1)) as (n2 & s2 & -> & H3 & H4).
  exists n2, s2. split_and!; [done|by eapply extracting_trans|]. constructor; [|done].
  eapply Forall_impl; [exact H2|]. intros o. apply tx_cached_mono, (ex_keeps _ _ H3).
Qed.

(** ** Submission *)
Lemma serialize_txs_total txs :
  Forall is_Some txs → ∃ l, serialize_txs txs = Val l ∧ length l = length txs ∧
    Forall (λ b, ∃ tx, Serialize tx = Ok b) l.
Proof.
  induction 1 as [|o txs [t ->] _ (l & Hl & Hlen & Hall)]; cbn; [by exists []|].
  destruct (serialize_total Henv (tx_MsgTx t)) as [b Hb]. rewrite Hb, Hl.
  exists (b :: l). cbn. rewrite Hlen. split_and!; [done..|]. constructor; eauto.
Qed.

Lemma GenSPVProof_located seg :
  located seg → ∃ p, GenSPVProof (AssocBlock seg) (TxIdx seg) = Val p.
Proof.
  intros [Hr Hall]. unfold GenSPVProof. destruct (Z.ltb_spec (TxIdx seg) 0); [lia|].
  destruct (Z.leb_spec (len (Txs (AssocBlock seg))) (TxIdx seg)); [lia|].
  destruct (serialize_txs_total _ Hall) as (l & -> & Hlen & Hser).
  destruct (spv_total Henv (NewBTCHeaderBytesFromBlockHeader (Header (AssocBlock seg))) l (TxIdx seg))
    as [p ->]; [unfold len in *; lia|done|]. eauto.
Qed.

Lemma seg_tx_hash_located seg : located seg → ∃ h, seg_tx_hash seg = Val h.
Proof.
  intros [Hr Hall]. unfold seg_tx_hash.
  destruct (lookup_lt_is_Some_2 (Txs (AssocBlock seg)) (Z.to_nat (TxIdx seg))) as [o Ho];
    [unfold len in *; lia|].
  rewrite <-(Z2Nat.id (TxIdx seg)) by lia. rewrite (slice_index_lookup _ _ _ Ho).
  rewrite Forall_lookup in Hall. destruct (Hall _ _ Ho) as [t ->]. eauto.
Qed.

Lemma ckpt_labels_total k (s : Reporter * W) :
  ckpt_wf k → ∃ l, ckpt_labels k s = (Val l, s).
Proof.
  intros (s1 & s2 & Hk & H1 & H2). unfold ckpt_labels. rewrite Hk.
  destruct (seg_tx_hash_located _ H1) as [h1 E1], (seg_tx_hash_located _ H2) as [h2 E2].
  unfold of_outcome, mbind, M_bind.
  change (slice_index [s1; s2] 0) with (Val s1). change (slice_index [s1; s2] 1) with (Val s2).
  cbn -[seg_tx_hash]. rewrite E1, E2. by eexists.
Qed.

(** Checkpoints submitted, or refused by Babylon, so far. *)
Definition ckpts_sent (s : Reporter) : Z :=
  counter "SuccessfulCheckpointsCounter" (metrics s) +
  counter "FailedCheckpointsCounter" (metrics s).

(** The message of a checkpoint: the inclusion proofs of its two segments. *)
Definition ckpt_msg (signer : string) (k : Ckpt) (m : BabylonMsg) : Prop :=
  ∃ proofs msg, MustGenSPVProofs k = Val proofs ∧
    MustNewMsgInsertBTCSpvProof signer proofs = Val msg ∧ m = InsertSpvProofMsg msg.

Lemma submit_checkpoint_total signer k s w :
  ckpt_wf k →
  ∃ s' w' m, submit_checkpoint signer k (s, w) = (Val tt, (s', w')) ∧
    checkpointCache s' = checkpointCache s ∧ ckpts_sent s' = ckpts_sent s + 1 ∧
    sent w' = sent w ++ [m] ∧ ckpt_msg signer k m.
Proof.
  intros Hk. pose proof Hk as (s1 & s2 & Hsegs & H1 & H2).
  destruct (GenSPVProof_located _ H1) as [p1 E1], (GenSPVProof_located _ H2) as [p2 E2].
  assert (MustGenSPVProofs k = Val [p1; p2]) as Ep.
  { unfold MustGenSPVProofs. rewrite Hsegs, NumberOfParts_two. cbn -[GenSPVProof].
    by rewrite E1, E2. }
  assert (MustNewMsgInsertBTCSpvProof signer [p1; p2] = Val (mkMsgSpv signer [p1; p2])) as Em.
  { unfold MustNewMsgInsertBTCSpvProof. by rewrite NumberOfParts_two. }
  assert (ckpt_msg signer k (InsertSpvProofMsg (mkMsgSpv signer [p1; p2]))) as Hmsg
    by (eexists _, _; eauto).
  unfold submit_checkpoint. rewrite bind_unfold. unfold of_outcome at 1. rewrite Ep.
  rewrite bind_unfold. unfold of_outcome at 1. rewrite Em.
  rewrite bind_unfold. unfold try. rewrite world_run.
  pose proof (send_returns Henv (InsertSpvProofMsg (mkMsgSpv signer [p1; p2]))
    [ErrDuplicatedSubmission; ErrEpochAlreadyFinalized] [] w) as Hnp.
  pose proof (sent_send (InsertSpvProofMsg (mkMsgSpv signer [p1; p2]))
    [ErrDuplicatedSubmission; ErrEpochAlreadyFinalized] [] w) as Hl.
  destruct (ReliablySendMsg _ _ _ w) as [[o|e|p|] w1]; try done; cbn [fst snd].
  - rewrite bind_unfold, emit_run, bind_unfold, emit_run, bind_unfold.
    destruct (ckpt_labels_total k (add_metric (MSet "SecondsSinceLastCheckpointGauge" 0)
      (add_metric (MInc "SuccessfulCheckpointsCounter") s), w1) Hk) as [l ->].
    rewrite emit_run. eexists _, _, _. split_and!; [done|done| |done|done]. unfold ckpts_sent. count.
  - rewrite bind_unfold, emit_run. destruct (errors_Is e _).
    + rewrite bind_unfold. destruct (ckpt_labels_total k
        (add_metric (MInc "FailedCheckpointsCounter") s, w1) Hk) as [l ->].
      rewrite emit_run. eexists _, _, _. split_and!; [done|done| |done|done]. unfold ckpts_sent. count.
    + eexists _, _, _. split_and!; [done|done| |done|done]. unfold ckpts_sent. count.
Qed.

(** The loop is the submission of the queue in order. *)
Lemma pop_loop_total fuel signer s w :
  cache_wf (checkpointCache s) → (length (Checkpoints (checkpointCache s)) < fuel)%nat →
  ∃ s' w' ms, pop_loop fuel signer (s, w) = (Val tt, (s', w')) ∧
    checkpointCache s' = with_Checkpoints [] (checkpointCache s) ∧
    ckpts_sent s' = ckpts_sent s + NumCheckpoints (checkpointCache s) ∧
    sent w' = sent w ++ ms ∧ Forall2 (ckpt_msg signer) (Checkpoints (checkpointCache s)) ms.
Proof.
  revert s w. induction fuel as [|fuel IH]; intros s w Hwf Hf; [lia|]. cbn [pop_loop].
  rewrite bind_unfold, with_ckptCache_run. unfold PopEarliestCheckpoint, NumCheckpoints.
  rewrite bind_unfold. unfold gets, id. cbn [fst snd].
  destruct (Checkpoints (checkpointCache s)) as [|k rest] eqn:Ek.
  - eexists _, _, []. split_and!; [done| |unfold len, ckpts_sent; cbn; lia|by rewrite app_nil_r|done].
    destruct s as [[] ? ? ? ?]. cbn in *. by subst.
  - rewrite bind_unfold. unfold modify. cbn.
    destruct Hwf as [Hkeys H0 H1 Hall]. rewrite Ek, Forall_cons in Hall.
    destruct Hall as [Hk Hall].
    set (t := set_checkpointCache (with_Checkpoints rest (checkpointCache s)) s).
    rewrite bind_unfold.
    destruct (submit_checkpoint_total signer k t w Hk) as (s1 & w1 & m & -> & Hc1 & Hn1 & Hs1 & Hm).
    destruct (IH s1 w1) as (s2 & w2 & ms & -> & Hc2 & Hn2 & Hs2 & Hms).
    + rewrite Hc1. by split.
    + rewrite Hc1. cbn in *. lia.
    + eexists _, _, (m :: ms). rewrite Hc1 in Hms. cbn in Hms.
      split_and!; [done|by rewrite Hc2, Hc1| |by rewrite Hs2, Hs1, <-app_assoc|by constructor].
      rewrite Hn2, Hn1, Hc1. unfold NumCheckpoints, ckpts_sent, len. cbn. lia.
Qed.

(** ** Matching keeps the cache well formed *)
Lemma match_pair_keys i h1 s1 c e :
  is_Some (Segments c !! i) → is_Some (Segments (match_pair h1 s1 c e) !! i).
Proof.
  intros Hi. unfold match_pair. case_match; [|done]. cbn.
  apply lookup_alter_is_Some, lookup_alter_is_Some, Hi.
Qed.

Section iteration.
Context (ord0 : gmap Hash CkptSegment → list (Hash * CkptSegment)).
Context (ord1 : Hash → gmap Hash CkptSegment → list (Hash * CkptSegment)).
Context (Hord0 : ∀ m, is_range m (ord0 m)) (Hord1 : ∀ h m, is_range m (ord1 h m)).

Lemma foldl_keeps {A B} (P : A → Prop) (f : A → B → A) (xs : list B) a :
  (∀ a x, P a → P (f a x)) → P a → P (foldl f a xs).
Proof. intros Hf. revert a. induction xs as [|x xs IH]; cbn; auto. Qed.

Lemma Match_wf c : cache_wf c → cache_wf (Match ord0 ord1 c).
Proof.
  intros [[H0 H1] Hs0 Hs1 Hk].
  destruct (Match_made ord0 ord1 Hord0 Hord1 c) as (Hm0 & Hm1 & (new & Hn & Hall & _) & _).
  assert (∀ i, is_Some (Segments c !! i) → is_Some (Segments (Match ord0 ord1 c) !! i)) as Hkeys.
  { intros i Hi. unfold Match, sortCheckpoints, match_outer. cbn.
    apply (foldl_keeps (λ c, is_Some (Segments c !! i))); [|done]. intros a e Ha.
    apply (foldl_keeps (λ c, is_Some (Segments c !! i))); [|done]. intros. by apply match_pair_keys. }
  split.
  - auto.
  - intros h s Hh. eapply Hs0, lookup_weaken; done.
  - intros h s Hh. eapply Hs1, lookup_weaken; done.
  - rewrite Hn. apply Forall_app. split; [done|]. eapply Forall_impl; [exact Hall|].
    intros k (h1 & s1 & h2 & s2 & e & E1 & E2 & _ & -> & _). exists s1, s2.
    split_and!; [done|by eapply Hs0|by eapply Hs1].
Qed.

Lemma matchAndSubmit_total signer s w :
  cache_wf (checkpointCache s) →
  ∃ n s' w' ms, matchAndSubmitCheckpoints ord0 ord1 signer (s, w) = (Val n, (s', w')) ∧
    sent w' = sent w ++ ms ∧
    Forall2 (ckpt_msg signer) (Checkpoints (Match ord0 ord1 (checkpointCache s))) ms ∧
    checkpointCache s' = with_Checkpoints [] (Match ord0 ord1 (checkpointCache s)) ∧
    ckpts_sent s' = ckpts_sent s + n ∧
    n = NumCheckpoints (Match ord0 ord1 (checkpointCache s)).
Proof.
  intros Hwf. unfold matchAndSubmitCheckpoints.
  rewrite bind_unfold, with_ckptCache_run. unfold modify.
  rewrite bind_unfold, with_ckptCache_run. unfold gets. cbn [fst snd].
  set (c := Match ord0 ord1 (checkpointCache s)). set (t := set_checkpointCache _ _).
  assert (checkpointCache t = c) as Et by done.
  pose proof (Match_wf _ Hwf) as Hc. fold c in Hc.
  change (checkpointCache (set_checkpointCache c s)) with c.
  assert (set_checkpointCache c t = t) as Ett by done. try rewrite Ett. rewrite ?Et.
  destruct (Z.eqb_spec (NumCheckpoints c) 0) as [E|E].
  - assert (Checkpoints c = []) as E0.
    { apply nil_length_inv. unfold NumCheckpoints, len in E. lia. }
    eexists _, _, _, []. fold c. rewrite E0, E, app_nil_r.
    split_and!; [done|done|done| |unfold ckpts_sent; cbn; lia|done].
    rewrite Et. destruct c as [tg v ks sg]. cbn in E0. by subst ks.
  - rewrite bind_unfold.
    destruct (pop_loop_total (S (Z.to_nat (NumCheckpoints c))) signer t w)
      as (s' & w' & ms & -> & Hc' & Hn & Hs' & Hms).
    + by rewrite Et.
    + rewrite Et. unfold NumCheckpoints, len. lia.
    + rewrite Et in Hms. eexists _, _, _, ms.
      split_and!; [done|done|done|by rewrite Hc', Et|by rewrite Hn, Et|done].
Qed.

(** [s1] is the reporter once the segments of the blocks are in its cache. *)
Lemma ProcessCheckpoints_total signer ibs s w :
  cache_wf (checkpointCache s) → Forall block_wf ibs →
  ∃ nsegs n s1 w1 s' w' ms,
    ProcessCheckpoints ord0 ord1 signer ibs (s, w) = (Val (nsegs, n), (s', w')) ∧
    for_fold ibs 0 (λ n ib, m ← extractCheckpoints ib; mret (n + m)) (s, w) =
      (Val nsegs, (s1, w1)) ∧
    (extract_keeps s s1 ∧ Forall (λ ib, block_cached ib s1) ibs) ∧
    sent w' = sent w ++ ms ∧
    Forall2 (ckpt_msg signer) (Checkpoints (Match ord0 ord1 (checkpointCache s1))) ms ∧
    checkpointCache s' = with_Checkpoints [] (Match ord0 ord1 (checkpointCache s1)) ∧
    cache_wf (checkpointCache s') ∧
    n = len ms ∧ ckpts_sent s' = ckpts_sent s + n.
Proof.
  intros Hwf Hb. unfold ProcessCheckpoints. rewrite bind_unfold.
  destruct (extract_blocks_total ibs 0 (s, w) Hb Hwf)
    as (nsegs & [s1 w1] & Hex & [Hwf1 Hm1 Hs1 Hk1] & Hcached).
  rewrite Hex, bind_unfold. cbn [fst snd] in *.
  destruct (matchAndSubmit_total signer s1 w1 Hwf1)
    as (n & s2 & w2 & ms & -> & Hs2 & Hms & Hc & Hcount & ->).
  pose proof (Match_wf _ Hwf1) as [Hk Ha0 Ha1 _].
  eexists nsegs, _, s1, w1, s2, w2, ms. split_and!; [done|done|done|done| |done|done| | |].
  - by rewrite Hs2, Hs1.
  - rewrite Hc. by split.
  - unfold NumCheckpoints, len. by rewrite (Forall2_length _ _ _ Hms).
  - rewrite Hcount. unfold ckpts_sent. by rewrite Hm1.
Qed.
End iteration.
End ckpts.
