(* ===== verification/ReporterBootstrap.v ===== *)
(** * Bootstrapping and block events of the reporter

    [reporter/bootstrapping.go], [reporter/block_handler.go] and
    [reporter/reporter.go].  [bootstrap] ends by starting a goroutine that
    processes checkpoints; the goroutine is the pending task
    [asyncCheckpoints], run by the step [run_async] at any later point, and
    waiting on [bootstrapWg] is waiting for that step.  The goroutine keeps the
    cache's own slice of blocks, so a block added to a full cache before its turn
    sets an element of the slice to [nil] ([cache_Add]).  The loop that polls the
    Bitcoin node has no bound in the code, so it takes fuel. *)

From S2P Require Import Prelude Blocks BTCCache CkptCache Retry BTCClient Reporter.

(** ** Heights of the synchronisation (32-bit) *)
Section heights.
Context (k w : Z).

(** The first block to cache, for a Babylon tip [T] over a base header [B]. *)
Definition sync_base (T B : Z) : Z :=
  if u32 (u32 (B + k) + w) <? T then u32 (u32 (u32 (T - k) - w) + 1) else B.

(** The block that must agree between the two chains. *)
Definition check_height (T B : Z) : Z :=
  if u32 (B + k) <=? T then u32 (T - k) else B.
End heights.

Section bootstrap.
Context {BL : BTCLib} {BF : BabylonFormatter} {RT : Retry} {GS : GoSort}.
Context {W : Type} {BC : BabylonClient W} {CK : Clock W} {BTC : BTCClient W}.
Context (NewBTCHeaderHashBytesFromHex : string → result Hash).
Context (r : ReporterParams).
Context (ord0 : gmap Hash CkptSegment → list (Hash * CkptSegment)).
Context (ord1 : Hash → gmap Hash CkptSegment → list (Hash * CkptSegment)).

Notation RM A := (M (Reporter * W) A).

(** A method call on [r.btcCache]. *)
Definition with_btcCache {A} (m : M BTCCache A) : RM A := λ '(s, w),
  match btcCache s with
  | None => (Panic "nil pointer dereference", (s, w))
  | Some c => let '(o, c') := m c in (o, (set_btcCache (Some c') s, w))
  end.
Definition query_btcCache {A} (f : BTCCache → outcome A) : RM A :=
  with_btcCache (c ← gets id; of_outcome (f c)).

(** [r.btcCache.Add] and [r.btcCache.RemoveAll], with what they do to the slice
    that the pending goroutine holds. *)
Definition on_captured (f : BlockSlice → BlockSlice) (s : Reporter) : Reporter :=
  set_asyncCheckpoints ((λ '(signer, sl), (signer, f sl)) <$> asyncCheckpoints s) s.
Definition cache_Add (ib : IndexedBlock) : RM unit :=
  c ← query_btcCache Val;
  self (modify (on_captured (slice_after_add c))) ;;
  with_btcCache (Add ib).
Definition cache_RemoveAll : RM unit :=
  self (modify (on_captured slice_after_RemoveAll)) ;;
  with_btcCache RemoveAll.

(** [reporter.New]: the state before bootstrapping, and [k] and [w]. *)
Definition New (cfg : Z * Z) (maxRetry : Z) : M W (ReporterParams * Reporter) :=
  res ← wrap_err "failed to get BTC Checkpoint parameters"
    (capture (λ f, Do f (mkRetryOpts DefaultAttempts (λ _, true) false false))
       None (assign_both BTCCheckpointParams));
  match res with
  | None => panic "nil pointer dereference"
  | Some p =>
      checkpointTag ← wrap_err "failed to decode checkpoint tag"
        (of_result (hex_DecodeString (CheckpointTag p)));
      mret (mkReporterParams (fst cfg) (snd cfg) maxRetry (BtcConfirmationDepth p)
              (CheckpointFinalizationTimeout p),
            mkReporter (NewCheckpointCache checkpointTag CurrentVersion) None false None [])
  end.

(** ** Consistency with Babylon *)
Definition checkHeaderConsistency (consistencyCheckHeight : Z) : RM unit :=
  consistencyCheckBlock ← query_btcCache (λ c, FindBlock c consistencyCheckHeight);
  match consistencyCheckBlock with
  | None => panic "cannot find the block of BBN header chain in BTC cache"
  | Some b =>
      contains ← world (ContainsBTCBlock (BlockHash b));
      if contains : bool then mret tt
      else panic "BTC main chain is inconsistent with BBN header chain"
  end.

(** Returns [bbnLatestBlockHeight] and [startSyncHeight]. *)
Definition checkConsistency : RM (Z * Z) :=
  tipRes ← world BTCHeaderChainTip;
  baseHeight ← world BTCBaseHeader_Height;
  let consistencyCheckHeight :=
    check_height (btcConfirmationDepth r) (tip_Height tipRes) baseHeight in
  checkHeaderConsistency consistencyCheckHeight ;;
  mret (tip_Height tipRes, u32 (consistencyCheckHeight + 1)).

(** ** Waiting for the Bitcoin node *)
Definition caught_up (btcHeight bbnHeight : Z) : bool :=
  (0 <? btcHeight) && (bbnHeight <=? btcHeight).

(** One iteration per tick of the ticker. *)
Fixpoint poll_loop (fuel : nat) : RM unit :=
  match fuel with
  | O => diverge
  | S fuel =>
      btcLatestBlockHeight ← world GetBestBlock;
      tipRes ← world BTCHeaderChainTip;
      if caught_up btcLatestBlockHeight (tip_Height tipRes) then mret tt else poll_loop fuel
  end.

Definition waitUntilBTCSync (fuel : nat) : RM unit :=
  btcLatestBlockHeight ← world GetBestBlock;
  tipRes ← world BTCHeaderChainTip;
  of_result (NewBTCHeaderHashBytesFromHex (tip_HashHex tipRes)) ;;
  if (btcLatestBlockHeight =? 0) || (btcLatestBlockHeight <? tip_Height tipRes)
  then poll_loop fuel else mret tt.

(** ** Filling the cache *)
Definition initBTCCache : RM unit :=
  cache ← must "NewBTCCache" (of_result (NewBTCCache (cfg_BTCCacheSize r)));
  self (modify (set_btcCache (Some cache))) ;;
  tipRes ← world BTCHeaderChainTip;
  bbnBaseHeight ← world BTCBaseHeader_Height;
  let baseHeight := sync_base (btcConfirmationDepth r) (checkpointFinalizationTimeout r)
                      (tip_Height tipRes) bbnBaseHeight in
  ibs ← must "FindTailBlocksByHeight" (world (FindTailBlocksByHeight baseHeight));
  must "btcCache.Init" (with_btcCache (Init ibs)).

(** ** [bootstrap] *)

(** Up to the start of the goroutine; returns what the goroutine captures.
    [NewBTCCache] made the array for [BTCCacheSize] blocks, [Init] put [n] into
    it, and reslicing leaves the room behind them. *)
Definition bootstrap_sync (pollFuel fuel : nat) : RM (string * BlockSlice) :=
  waitUntilBTCSync pollFuel ;;
  initBTCCache ;;
  n ← query_btcCache (λ c, Val (Size c));
  consistencyInfo ← checkConsistency;
  ibs ← must "GetLastBlocks" (query_btcCache (λ c, GetLastBlocks c (snd consistencyInfo)));
  signer ← world MustGetAddr;
  res ← ProcessHeaders r fuel signer ibs;
  match snd res with
  | Some err => fail err
  | None =>
      let maxEntries := u32 (btcConfirmationDepth r + checkpointFinalizationTimeout r) in
      must "Resize" (with_btcCache (Resize maxEntries)) ;;
      with_btcCache Trim ;;
      ibs ← query_btcCache (λ c, Val (GetAllBlocks (cfg_BTCCacheSize r - n) c));
      mret (signer, ibs)
  end.

Definition bootstrap (pollFuel fuel : nat) : RM unit :=
  inProgress ← self (gets bootstrapInProgress);
  if inProgress : bool then fail (ENew "bootstrap already in progress")
  else
    self (modify (set_bootstrapInProgress true)) ;;
    captured ← on_failure (λ '(s, w), (set_bootstrapInProgress false s, w))
                 (bootstrap_sync pollFuel fuel);
    self (modify (set_asyncCheckpoints (Some captured))).

(** The goroutine started by a successful [bootstrap]. *)
Definition run_async : RM unit :=
  pending ← self (gets asyncCheckpoints);
  match pending with
  | None => mret tt
  | Some (signer, ibs) =>
      ProcessCheckpoints_nilable ord0 ord1 signer (bs_elems ibs) ;;
      self (modify (λ s, set_asyncCheckpoints None (set_bootstrapInProgress false s)))
  end.

Definition bootstrapAttempts : Z := 60.

(** [bootstrapWg.Wait(); return bootstrap()], retried until the process quits;
    [Fatalf] ends the process. *)
Definition bootstrapWithRetries (pollFuel fuel : nat) : RM unit :=
  err ← try (retry_Do (mkRetryOpts bootstrapAttempts (λ _, true) true true)
               (run_async ;; bootstrap pollFuel fuel));
  match err with
  | Ok _ => mret tt
  | Err err => if errors_Is err "context.Canceled" then mret tt else panic "Fatalf"
  end.

(** ** Block events *)
Definition processNewBlock (fuel : nat) (ib : IndexedBlock) : RM unit :=
  let headersToProcess := [ib] in
  signer ← world MustGetAddr;
  res ← ProcessHeaders r fuel signer headersToProcess;
  match snd res with
  | Some err => fail (EWrap "failed to submit headers" err)
  | None => ProcessCheckpoints ord0 ord1 signer headersToProcess ;; mret tt
  end.

Definition handleNewBlock (fuel : nat) (height : Z) (header : BlockHeader) : RM unit :=
  cacheTip ← query_btcCache (λ c, Val (Tip c));
  match cacheTip with
  | None => fail (ENew "cache is empty, restart bootstrap process")
  | Some cacheTip =>
      if height <=? Height cacheTip then mret tt
      else if u32 (Height cacheTip + 1) <? height then fail (ENew "missing blocks")
      else if negb (PrevBlock header =? BlockHash cacheTip) then
        cache_RemoveAll ;;
        fail (ENew "block does not connect to the cache, diff hash, bootstrap required")
      else
        res ← wrap_err "failed to get block" (world (GetBlockByHash (HeaderHash header)));
        cache_Add (fst res) ;;
        processNewBlock fuel (fst res)
  end.

(** What [blockEventHandler] receives, with the goroutine's turns in between. *)
Inductive block_event :=
| NewEpoch (height : Z) (header : BlockHeader)
| EpochsClosed
| QuitChan
| AsyncTurn.

Fixpoint blockEventHandler (pollFuel fuel : nat) (evs : list block_event) : RM unit :=
  match evs with
  | [] | EpochsClosed :: _ | QuitChan :: _ => mret tt
  | AsyncTurn :: evs => run_async ;; blockEventHandler pollFuel fuel evs
  | NewEpoch height header :: evs =>
      if height <? 0 then panic "received negative epoch height"
      else
        err ← try (handleNewBlock fuel (u32 height) header);
        (match err with
         | Ok _ => mret tt
         | Err _ => bootstrapWithRetries pollFuel fuel
         end) ;;
        blockEventHandler pollFuel fuel evs
  end.
End bootstrap.
