(* ===== verification/ReporterBootstrapProps.v ===== *)
(** * The reporter's cache is a window of one Bitcoin chain

    Whatever blocks are notified, whatever the node and Babylon answer, and
    wherever the checkpoint goroutine is scheduled, the block cache holds
    consecutive blocks of the chain within its bound, and a bootstrap is never
    refused as already running. *)

From S2P Require Import Prelude Blocks BTCCache CkptCache CkptCacheProps Retry BTCClient Window.
From S2P Require Import Reporter ReporterProps ReporterBootstrap.

Section frame.
Context {BL : BTCLib} {BF : BabylonFormatter} {RT : Retry} {GS : GoSort}.
Context {W : Type} {BC : BabylonClient W} {CK : Clock W}.
Context (r : ReporterParams).

(** Invariants of the fields that reporting headers and checkpoints leave
    alone. *)
Definition control (s : Reporter) := (btcCache s, bootstrapInProgress s, asyncCheckpoints s).
Context (J : option BTCCache * bool * option (string * BlockSlice) → Prop).
Definition on_control (s : Reporter * W) : Prop := J (control (fst s)).

Lemma preserves_world {A} (m : M W A) : preserves on_control (world m).
Proof. intros [s w] Hs. rewrite world_run. by destruct (m w). Qed.

Lemma preserves_emit e : preserves on_control (emit e).
Proof. intros [s w] Hs. done. Qed.

Lemma preserves_with_ckptCache {A} (m : M CheckpointCache A) :
  preserves on_control (with_ckptCache m).
Proof. intros [s w] Hs. rewrite with_ckptCache_run. by destruct (m _). Qed.

Hint Resolve preserves_world preserves_emit preserves_with_ckptCache : preserves.

Lemma preserves_find_start i ibs : preserves on_control (find_start i ibs).
Proof.
  revert i. induction ibs as [|ib ibs IH]; intros i; cbn [find_start]; preserve.
Qed.
Hint Resolve preserves_find_start : preserves.

Lemma preserves_getHeaderMsgs signer ibs :
  preserves on_control (getHeaderMsgsToSubmit r signer ibs).
Proof. unfold getHeaderMsgsToSubmit. preserve. Qed.
Hint Resolve preserves_getHeaderMsgs : preserves.

Lemma preserves_submitHeaderMsgs msg : preserves on_control (submitHeaderMsgs r msg).
Proof. unfold submitHeaderMsgs. cbn zeta. preserve. Qed.
Hint Resolve preserves_submitHeaderMsgs : preserves.

Lemma preserves_submit_loop fuel signer ibs msgs n :
  preserves on_control (submit_loop r fuel signer ibs msgs n).
Proof.
  revert msgs n. induction fuel as [|fuel IH]; intros msgs n; cbn [submit_loop]; preserve.
Qed.
Hint Resolve preserves_submit_loop : preserves.

Lemma preserves_ProcessHeaders fuel signer ibs :
  preserves on_control (ProcessHeaders r fuel signer ibs).
Proof. unfold ProcessHeaders. preserve. Qed.

Lemma preserves_ckpt_labels k : preserves on_control (ckpt_labels k).
Proof. unfold ckpt_labels. preserve. Qed.
Hint Resolve preserves_ckpt_labels : preserves.

Lemma preserves_submit_checkpoint signer k :
  preserves on_control (submit_checkpoint signer k).
Proof. unfold submit_checkpoint. preserve. Qed.
Hint Resolve preserves_submit_checkpoint : preserves.

Lemma preserves_pop_loop fuel signer : preserves on_control (pop_loop fuel signer).
Proof. induction fuel as [|fuel IH]; cbn [pop_loop]; preserve. Qed.
Hint Resolve preserves_pop_loop : preserves.

Lemma preserves_ProcessCheckpoints ord0 ord1 signer ibs :
  preserves on_control (ProcessCheckpoints ord0 ord1 signer ibs).
Proof.
  unfold ProcessCheckpoints, matchAndSubmitCheckpoints, extractCheckpoints, extract_tx. preserve.
Qed.

Lemma preserves_ProcessCheckpoints_nilable ord0 ord1 signer ibs :
  preserves on_control (ProcessCheckpoints_nilable ord0 ord1 signer ibs).
Proof.
  unfold ProcessCheckpoints_nilable, matchAndSubmitCheckpoints, extractCheckpoints, extract_tx.
  preserve.
Qed.
End frame.

#[export] Hint Resolve preserves_world preserves_emit preserves_with_ckptCache
  preserves_ProcessHeaders preserves_ProcessCheckpoints preserves_ProcessCheckpoints_nilable
  : preserves.

Section window.
Context {BL : BTCLib} {BF : BabylonFormatter} {RT : Retry} {GS : GoSort}.
Context {W : Type} {BC : BabylonClient W} {CK : Clock W} {BTC : BTCClient W}.
Context (hexToHash : string → result Hash) (r : ReporterParams).
Context (ord0 : gmap Hash CkptSegment → list (Hash * CkptSegment)).
Context (ord1 : Hash → gmap Hash CkptSegment → list (Hash * CkptSegment)).
Context (known : Hash → MsgBlock → Z → Prop) {LAWS : BTCClientLaws W known}.

(** The parameters are the [uint32] values of the configuration and of Babylon,
    and the window [k + w] is not empty. *)
Record params_ok : Prop := {
  size_u32 : is_u32 (cfg_BTCCacheSize r);
  k_u32 : is_u32 (btcConfirmationDepth r);
  w_u32 : is_u32 (checkpointFinalizationTimeout r);
  kw_u32 : is_u32 (btcConfirmationDepth r + checkpointFinalizationTimeout r);
  kw_pos : 0 < btcConfirmationDepth r + checkpointFinalizationTimeout r;
}.
Context (Hpar : params_ok).

(** A property [F] of the flags goes along unchanged. *)
Context (F : bool → option (string * BlockSlice) → Prop).
Definition window_inv : Reporter * W → Prop :=
  on_control (λ '(c, f, a), (∀ c', c = Some c' → window_ok known c') ∧ F f a).

Lemma preserves_with_btcCache {A} (m : M BTCCache A) :
  (∀ c, window_ok known c → window_ok known (snd (m c))) → preserves window_inv (with_btcCache m).
Proof.
  intros Hm [s w] [Hc Hf]. unfold with_btcCache. destruct (btcCache s) as [c|] eqn:E.
  - specialize (Hm c (Hc _ E)). destruct (m c) as [o c']. split; [|done].
    cbn. by intros ? [= <-].
  - split; [|done]. cbn. by rewrite E.
Qed.

Lemma preserves_query_btcCache {A} (f : BTCCache → outcome A) :
  preserves window_inv (query_btcCache f).
Proof. apply preserves_with_btcCache. intros c Hc. exact Hc. Qed.
Hint Resolve preserves_query_btcCache : preserves.

Lemma preserves_poll_loop fuel : preserves window_inv (poll_loop fuel).
Proof. induction fuel as [|fuel IH]; cbn [poll_loop]; unfold window_inv in *; preserve. Qed.
Hint Resolve preserves_poll_loop : preserves.

Lemma preserves_waitUntilBTCSync fuel : preserves window_inv (waitUntilBTCSync hexToHash fuel).
Proof. unfold waitUntilBTCSync. preserve; apply preserves_world. Qed.
Hint Resolve preserves_waitUntilBTCSync : preserves.

Lemma preserves_checkConsistency : preserves window_inv (checkConsistency r).
Proof. unfold checkConsistency, checkHeaderConsistency. preserve; apply preserves_world. Qed.
Hint Resolve preserves_checkConsistency : preserves.

(** The cache is empty until it is filled with a chain from the node. *)
Lemma sync_base_u32 T B :
  is_u32 B → is_u32 (sync_base (btcConfirmationDepth r) (checkpointFinalizationTimeout r) T B).
Proof. intros HB. unfold sync_base. case_match; [apply u32_range|done]. Qed.

(** The base height is a [uint32] of the protobuf response. *)
Definition base_u32 : Prop := ∀ w B w', BTCBaseHeader_Height w = (Val B, w') → is_u32 B.
Context (Hbase : base_u32).

Lemma preserves_initBTCCache : preserves window_inv (initBTCCache r).
Proof.
  intros [s w] Hs. pose proof Hs as [Hc Hf]. pose proof (size_u32 Hpar) as Hsize.
  unfold initBTCCache. rewrite bind_unfold. unfold NewBTCCache.
  destruct (Z.eqb_spec (cfg_BTCCacheSize r) 0) as [E|E]; [exact Hs|].
  assert (1 ≤ cfg_BTCCacheSize r) as H1 by zrange.
  set (c0 := mkBTCCache [] (cfg_BTCCacheSize r)).
  change (must "NewBTCCache" (of_result (Ok c0)) (s, w)) with (@Val BTCCache c0, (s, w)).
  cbv iota beta. rewrite bind_unfold.
  change (self (modify (set_btcCache (Some c0))) (s, w)) with (Val tt, (set_btcCache (Some c0) s, w)).
  set (s1 := set_btcCache (Some c0) s).
  assert (window_inv (s1, w)) as Hs1.
  { split; [|done]. cbn. intros ? [= <-]. by apply window_empty. }
  cbv iota beta. rewrite bind_unfold, world_run.
  destruct (BTCHeaderChainTip w) as [[tip|e|p|] w1]; [|exact Hs1..].
  rewrite bind_unfold, world_run.
  destruct (BTCBaseHeader_Height w1) as [[B|e|p|] w2] eqn:EB; [|exact Hs1..].
  apply Hbase in EB. cbn zeta.
  rewrite bind_unfold. unfold must at 1. rewrite world_run.
  destruct (FindTailBlocksByHeight _ w2) as [[ibs|e|p|] w3] eqn:EF; [|exact Hs1..].
  apply FindTailBlocksByHeight_law in EF as (Hch & _ & Hk); [|by apply sync_base_u32].
  pose proof (Init_window known ibs _ H1 Hch Hk) as HI. fold c0 in HI.
  unfold must, with_btcCache. cbn [btcCache s1 set_btcCache].
  destruct (Init ibs c0) as [[[]|e|p|] c1]; (split; [|done]); cbn; by intros ? [= <-].
Qed.
Hint Resolve preserves_initBTCCache : preserves.

(** Shrinking the window to [k + w] blocks. *)
Lemma preserves_resize_trim {A} (k : unit → M (Reporter * W) A) max :
  1 ≤ max → (∀ x, preserves window_inv (k x)) →
  preserves window_inv
    (must "Resize" (with_btcCache (Resize max)) ≫= λ _, with_btcCache Trim ≫= k).
Proof.
  intros Hm Hk [s w] Hs. pose proof Hs as [Hc Hf]. rewrite bind_unfold. unfold must, with_btcCache at 1.
  destruct (btcCache s) as [c|] eqn:E; [|exact Hs].
  rewrite Resize_spec by lia. cbn. rewrite bind_unfold. unfold with_btcCache. cbn.
  rewrite Trim_spec by (cbn; lia). cbn. apply Hk. split; [|done]. cbn. intros ? [= <-].
  apply window_lastn; [done|done|]. by apply Hc.
Qed.

Lemma kw_wrap :
  u32 (btcConfirmationDepth r + checkpointFinalizationTimeout r) =
  btcConfirmationDepth r + checkpointFinalizationTimeout r.
Proof. apply u32_id, kw_u32, Hpar. Qed.

Lemma preserves_bootstrap_sync pollFuel fuel :
  preserves window_inv (bootstrap_sync hexToHash r pollFuel fuel).
Proof.
  unfold bootstrap_sync. rewrite kw_wrap. pose proof (kw_pos Hpar) as Hp. cbn zeta.
  apply preserves_bind; [eauto with preserves|intros _].
  apply preserves_bind; [eauto with preserves|intros _].
  apply preserves_bind; [eauto with preserves|intros n0].
  apply preserves_bind; [eauto with preserves|intros [T h]].
  apply preserves_bind; [apply preserves_must; eauto with preserves|intros ibs].
  apply preserves_bind; [apply preserves_world|intros signer].
  apply preserves_bind; [apply preserves_ProcessHeaders|intros [n [err|]]].
  - apply preserves_fail.
  - apply preserves_resize_trim; [lia|]. intros _.
    apply preserves_bind; [eauto with preserves|intros ?]. apply preserves_ret.
Qed.
End window.

(** ** The event loop *)
Section events.
Context {BL : BTCLib} {BF : BabylonFormatter} {RT : Retry} {GS : GoSort}.
Context {W : Type} {BC : BabylonClient W} {CK : Clock W} {BTC : BTCClient W}.
Context (hexToHash : string → result Hash) (r : ReporterParams).
Context (ord0 : gmap Hash CkptSegment → list (Hash * CkptSegment)).
Context (ord1 : Hash → gmap Hash CkptSegment → list (Hash * CkptSegment)).
Context (known : Hash → MsgBlock → Z → Prop) {LAWS : BTCClientLaws W known}.
Context (Hpar : params_ok r) (Hbase : base_u32).

(** A bootstrap is in progress exactly while its goroutine has not finished. *)
Definition flag_ok (f : bool) (a : option (string * BlockSlice)) : Prop :=
  f = true ↔ is_Some a.
Definition running (f : bool) (a : option (string * BlockSlice)) : Prop :=
  f = true ∧ a = None.

Definition reporter_inv : Reporter * W → Prop := window_inv known flag_ok.

Lemma preserves_bootstrap pollFuel fuel :
  preserves reporter_inv (bootstrap hexToHash r pollFuel fuel).
Proof.
  intros [s w] Hs. pose proof Hs as [Hc Hf]. unfold bootstrap. rewrite bind_unfold.
  cbn [self zoom gets fst snd]. destruct (bootstrapInProgress s) eqn:E; [exact Hs|].
  rewrite bind_unfold. set (s1 := set_bootstrapInProgress true s).
  change (self (modify (set_bootstrapInProgress true)) (s, w)) with (Val tt, (s1, w)).
  cbv iota beta. rewrite bind_unfold. unfold on_failure.
  assert (window_inv known running (s1, w)) as H1.
  { split; [exact Hc|]. cbn in *. split; [done|]. destruct (asyncCheckpoints s); [|done].
    destruct Hf as [_ Hf]. rewrite E in Hf. discriminate Hf. eauto. }
  apply (preserves_bootstrap_sync hexToHash r known Hpar running Hbase pollFuel fuel) in H1.
  destruct (bootstrap_sync hexToHash r pollFuel fuel (s1, w)) as [[cap|e|p|] [s2 w2]];
    destruct H1 as [Hc2 [Hf2 Ha2]]; cbn in *; (split; [exact Hc2|]); cbn.
  - rewrite Hf2. split; [by eexists|done].
  - rewrite Ha2. split; [done|by intros []].
  - rewrite Ha2. split; [done|by intros []].
  - rewrite Ha2. split; [done|by intros []].
Qed.

Lemma preserves_run_async : preserves reporter_inv (run_async ord0 ord1).
Proof.
  intros [s w] Hs. unfold run_async. rewrite bind_unfold. cbn [self zoom gets fst snd].
  destruct (asyncCheckpoints s) as [[signer ibs]|]; [|exact Hs].
  rewrite bind_unfold. unfold reporter_inv, window_inv in *.
  apply (preserves_ProcessCheckpoints_nilable _ ord0 ord1 signer (bs_elems ibs)) in Hs.
  destruct (ProcessCheckpoints_nilable ord0 ord1 signer (bs_elems ibs) (s, w)) as [[[]|e|p|] [s1 w1]]; [|exact Hs..].
  destruct Hs as [Hc _]. split; [exact Hc|]. cbn. split; [done|by intros []].
Qed.

(** After waiting for the goroutine no bootstrap is in progress. *)
Lemma run_async_clears s s' :
  reporter_inv s → run_async ord0 ord1 s = (Val tt, s') → bootstrapInProgress (fst s') = false.
Proof.
  destruct s as [s w]. intros [_ Hf]. unfold run_async. rewrite bind_unfold.
  cbn [self zoom gets fst snd]. destruct (asyncCheckpoints s) as [[signer ibs]|] eqn:E.
  - intros Hr. apply bind_Val_inv in Hr as (? & [s1 w1] & _ & Hr).
    unfold self, zoom, modify in Hr. by simplify_eq/=.
  - intros Hr. cbn in Hf. rewrite E in Hf.
    assert (bootstrapInProgress s = false) as Hb.
    { destruct (bootstrapInProgress s); [|done]. destruct Hf as [Hf _]. by destruct (Hf eq_refl). }
    unfold mret, M_ret in Hr. simplify_eq. done.
Qed.

Lemma preserves_bootstrapWithRetries pollFuel fuel :
  preserves reporter_inv (bootstrapWithRetries hexToHash r ord0 ord1 pollFuel fuel).
Proof.
  unfold bootstrapWithRetries. apply preserves_bind.
  - apply preserves_try. intros s Hs. eapply (retried_inv reporter_inv); [|apply retry_Do_spec|done].
    + apply preserves_bind; [apply preserves_run_async|]. intros _. apply preserves_bootstrap.
    + done.
    + done.
  - intros [[]|e]; preserve.
Qed.

Lemma processNewBlock_control J fuel ib :
  preserves (on_control J) (processNewBlock r ord0 ord1 fuel ib).
Proof. unfold processNewBlock. preserve. Qed.

(** Touching the captured slice keeps the flags. *)
Lemma flag_ok_captured f g (a : option (string * BlockSlice)) :
  flag_ok f a → flag_ok f ((λ '(signer, sl), (signer, g sl)) <$> a).
Proof. unfold flag_ok. by rewrite fmap_is_Some. Qed.

Lemma preserves_handleNewBlock fuel height header :
  header_ok known header → preserves reporter_inv (handleNewBlock r ord0 ord1 fuel height header).
Proof.
  intros Hh [s w] Hs. pose proof Hs as [Hc Hf]. unfold handleNewBlock. rewrite bind_unfold.
  unfold query_btcCache, with_btcCache at 1. destruct (btcCache s) as [c|] eqn:Ec; [|exact Hs].
  cbn [gets of_outcome id]. rewrite bind_unfold. cbn [gets of_outcome id].
  assert (set_btcCache (Some c) s = s) as -> by (destruct s; cbn in *; by subst).
  specialize (Hc c). cbn in Hc. specialize (Hc Ec).
  destruct (Tip c) as [tip|] eqn:Et; [|exact Hs].
  destruct (height <=? Height tip); [exact Hs|].
  destruct (u32 (Height tip + 1) <? height); [exact Hs|].
  destruct (Z.eqb_spec (PrevBlock header) (BlockHash tip)) as [Hp|Hp]; cbn [negb].
  2:{ rewrite bind_unfold. unfold cache_RemoveAll. rewrite bind_unfold.
      cbn [self zoom modify fst snd]. unfold with_btcCache. cbn [btcCache on_captured set_asyncCheckpoints].
      rewrite Ec. split; [|by apply flag_ok_captured]. cbn.
      intros ? [= <-]. apply window_empty. apply Hc. }
  rewrite bind_unfold. unfold wrap_err. rewrite world_run.
  destruct (GetBlockByHash (HeaderHash header) w) as [[[ib mb]|e|p|] w1] eqn:Eg; [|exact Hs..].
  destruct (new_block_links known header tip w ib mb w1 Hh) as [Hl Hk]; [|done|done|].
  { pose proof (window_known _ _ Hc) as Hall. rewrite Forall_forall in Hall.
    by apply Hall, Tip_elem. }
  pose proof (window_add known c tip ib Hc Et Hl Hk) as Hw.
  rewrite bind_unfold. unfold cache_Add. rewrite bind_unfold.
  unfold query_btcCache, with_btcCache at 1. rewrite Ec.
  cbn [gets of_outcome id]. rewrite bind_unfold. cbn [gets of_outcome id].
  rewrite bind_unfold. cbn [self zoom modify fst snd]. unfold with_btcCache.
  cbn [btcCache on_captured set_asyncCheckpoints set_btcCache fst].
  unfold Add in *. rewrite add_spec in * by apply Hc. cbn in Hw.
  apply processNewBlock_control. split; [|by apply flag_ok_captured]. cbn. by intros ? [= <-].
Qed.

(** ** The slice the goroutine holds *)
Lemma run_async_shared (s : Reporter) (w : W) signer ibs sl :
  asyncCheckpoints s = Some (signer, sl) → bs_elems sl = Some <$> ibs →
  run_async ord0 ord1 (s, w) =
  (ProcessCheckpoints ord0 ord1 signer ibs ;;
   self (modify (λ s, set_asyncCheckpoints None (set_bootstrapInProgress false s)))) (s, w).
Proof.
  intros Ha He. unfold run_async. rewrite bind_unfold. cbn [self zoom gets fst snd].
  rewrite Ha, He, !bind_unfold. unfold ProcessCheckpoints_nilable, ProcessCheckpoints.
  rewrite !bind_unfold, for_fold_fmap. done.
Qed.

Lemma run_async_nil (s : Reporter) (w : W) signer sl rest :
  asyncCheckpoints s = Some (signer, sl) → bs_elems sl = None :: rest →
  fst (run_async ord0 ord1 (s, w)) = Panic "nil pointer dereference".
Proof.
  intros Ha He. unfold run_async. rewrite bind_unfold. cbn [self zoom gets fst snd].
  by rewrite Ha, He.
Qed.

(** A block that connects, added to a full cache while the goroutine holds its
    slice, leaves [nil] in front of the slice. *)
Lemma handleNewBlock_nils fuel height header (s : Reporter) (w : W) c signer spare tip ib mb w1 :
  btcCache s = Some c → asyncCheckpoints s = Some (signer, GetAllBlocks spare c) →
  size c = maxEntries c → Tip c = Some tip →
  Height tip < height ≤ u32 (Height tip + 1) → PrevBlock header = BlockHash tip →
  GetBlockByHash (HeaderHash header) w = (Val (ib, mb), w1) →
  ∃ sl rest, asyncCheckpoints (fst (snd (handleNewBlock r ord0 ord1 fuel height header (s, w))))
    = Some (signer, sl) ∧ bs_elems sl = None :: rest.
Proof.
  intros Ec Ea Hfull Et Hh Hp Hg. unfold handleNewBlock. rewrite bind_unfold.
  unfold query_btcCache, with_btcCache at 1. rewrite Ec.
  cbn [gets of_outcome id]. rewrite bind_unfold. cbn [gets of_outcome id].
  assert (set_btcCache (Some c) s = s) as -> by (destruct s; cbn in *; by subst).
  rewrite Et. destruct (Z.leb_spec height (Height tip)); [lia|].
  destruct (Z.ltb_spec (u32 (Height tip + 1)) height); [lia|].
  rewrite Hp, Z.eqb_refl. cbn [negb]. rewrite bind_unfold. unfold wrap_err.
  rewrite world_run, Hg. cbn [fst].
  rewrite bind_unfold. unfold cache_Add. rewrite bind_unfold.
  unfold query_btcCache, with_btcCache at 1. rewrite Ec.
  cbn [gets of_outcome id]. rewrite bind_unfold. cbn [gets of_outcome id].
  rewrite bind_unfold. cbn [self zoom modify fst snd]. unfold with_btcCache.
  cbn [btcCache on_captured set_asyncCheckpoints set_btcCache fst].
  pose (J := λ x : option BTCCache * bool * option (string * BlockSlice), ∃ sl rest,
    snd x = Some (signer, sl) ∧ bs_elems sl = None :: rest).
  assert (cache_ok c) as Hok.
  { unfold cache_ok, Tip, size, len in *. destruct (blocks c); cbn in *; [done|lia]. }
  unfold Add. rewrite add_spec by done.
  apply (processNewBlock_control J). unfold J, on_control, control. cbn. rewrite Ea. cbn.
  eexists _, (tail (Some <$> blocks c)). split; [reflexivity|]. unfold slice_after_add. cbn.
  rewrite Hfull, Z.ltb_irrefl, Z.eqb_refl. cbn.
  unfold Tip in Et. destruct (size c =? 0); [done|]. by destruct (blocks c).
Qed.

Definition event_ok (e : block_event) : Prop :=
  match e with NewEpoch _ header => header_ok known header | _ => True end.

Lemma preserves_blockEventHandler pollFuel fuel evs :
  Forall event_ok evs →
  preserves reporter_inv (blockEventHandler hexToHash r ord0 ord1 pollFuel fuel evs).
Proof.
  induction 1 as [|[height header| | |] evs He _ IH]; cbn [blockEventHandler];
    [apply preserves_ret| |apply preserves_ret|apply preserves_ret|].
  - case_match; [apply preserves_panic|].
    apply preserves_bind; [apply preserves_try; by apply preserves_handleNewBlock|].
    intros res. apply preserves_bind; [|done].
    destruct res; [apply preserves_ret|apply preserves_bootstrapWithRetries].
  - apply preserves_bind; [apply preserves_run_async|done].
Qed.
End events.

(** ** The consistency check finds its block *)
Section consistency.
Context {BL : BTCLib}.

(** The window starts at or below the block to check, when [w >= 1]. *)
Lemma check_in_window k w T B :
  0 ≤ k → 1 ≤ w → 0 ≤ B ≤ T → is_u32 T → is_u32 (B + k + w) →
  sync_base k w T B ≤ check_height k T B ≤ T ∧ B ≤ sync_base k w T B.
Proof.
  intros Hk Hw HB HT Hs. unfold sync_base, check_height.
  rewrite (u32_id (B + k)), (u32_id (B + k + w)) by zrange.
  destruct (Z.ltb_spec (B + k + w) T), (Z.leb_spec (B + k) T); try zrange.
  - rewrite (u32_id (T - k)), (u32_id (T - k - w)), (u32_id (T - k - w + 1)) by zrange. lia.
  - rewrite (u32_id (T - k)) by zrange. lia.
Qed.

Lemma consistency_found c f l k w T B :
  0 ≤ k → 1 ≤ w → 0 ≤ B ≤ T → is_u32 T → is_u32 (B + k + w) →
  chained (blocks c) → head (blocks c) = Some f → last (blocks c) = Some l →
  Height f = sync_base k w T B → T ≤ Height l →
  ∃ b, FindBlock c (check_height k T B) = Val (Some b) ∧ Height b = check_height k T B.
Proof.
  intros Hk Hw HB HT Hs Hch Hf Hl Hfh Hlh.
  pose proof (check_in_window k w T B Hk Hw HB HT Hs) as [Hwin _].
  destruct (FindBlock_total_correct c (check_height k T B)) as (o & Ho & Hspec).
  { by destruct (blocks c). }
  { by apply chained_sorted. }
  destruct o as [b|]; [naive_solver|]. exfalso.
  destruct (blocks c) as [|f' bs] eqn:Eb; [done|]. cbn in Hf. simplify_eq.
  assert (Height l = Height f + Z.of_nat (length bs)) as Hlast.
  { rewrite last_lookup in Hl. rewrite (chained_height _ _ _ _ Hch Hl). cbn. lia. }
  destruct (lookup_lt_is_Some_2 (f :: bs) (Z.to_nat (check_height k T B - Height f)))
    as [b Hb]; [cbn; lia|].
  apply (Hspec b); [by eapply list_elem_of_lookup_2|].
  rewrite (chained_height _ _ _ _ Hch Hb). lia.
Qed.
End consistency.
