(* ===== verification/Stores.v ===== *)
(** * The databases of the programs

    [monitor/store/store.go], [submitter/store/store.go],
    [btcstaking-tracker/btcslasher/store/store.go] and [utils/serialize.go].
    The key-value backend [kvdb.Backend] is the interface [KVDB]; its laws say
    what the stores rely on, and a map of maps satisfies them. *)

From S2P Require Import Prelude Blocks.

(** ** Fixed-width integers as bytes ([encoding/binary]) *)
Fixpoint le_bytes (n : nat) (v : Z) : bytes :=
  match n with
  | O => []
  | S n => u8 v :: le_bytes n (Z.shiftr v 8)
  end.
Fixpoint le_uint (b : bytes) : Z :=
  match b with
  | [] => 0
  | x :: b => Z.lor x (Z.shiftl (le_uint b) 8)
  end.

Definition LittleEndian_PutUint64 (v : Z) : bytes := le_bytes 8 v.
(** Reads the first eight bytes and panics when there are fewer. *)
Definition LittleEndian_Uint64 (b : bytes) : outcome Z :=
  if len b <? 8 then Panic "index out of range" else Val (le_uint (take 8 b)).
Definition BigEndian_PutUint64 (v : Z) : bytes := reverse (le_bytes 8 v).
Definition BigEndian_Uint64 (b : bytes) : outcome Z :=
  if len b <? 8 then Panic "index out of range" else Val (le_uint (reverse (take 8 b))).

Lemma length_le_bytes n v : length (le_bytes n v) = n.
Proof. revert v. induction n as [|n IH]; intros v; cbn; [done|]. by rewrite IH. Qed.

Lemma le_bytes_range n v : Forall (λ x, 0 ≤ x < 256) (le_bytes n v).
Proof.
  revert v. induction n as [|n IH]; intros v; cbn; constructor; [|apply IH].
  unfold u8. apply Z.mod_pos_bound. lia.
Qed.

Lemma lor_low_high v m :
  0 ≤ m → Z.lor (v mod 2 ^ 8) (Z.shiftl (Z.shiftr v 8 mod 2 ^ m) 8) = v mod 2 ^ (8 + m).
Proof.
  intros Hm. apply Z.bits_inj'. intros i Hi. rewrite Z.lor_spec.
  destruct (decide (i < 8)) as [Hlt|Hge].
  - rewrite Z.mod_pow2_bits_low, Z.shiftl_spec_low, Z.mod_pow2_bits_low by lia.
    by rewrite orb_false_r.
  - rewrite Z.mod_pow2_bits_high, Z.shiftl_spec by lia. cbn [orb].
    destruct (decide (i < 8 + m)).
    + rewrite !Z.mod_pow2_bits_low, Z.shiftr_spec by lia. f_equal. lia.
    + rewrite !Z.mod_pow2_bits_high by lia. done.
Qed.

Lemma le_uint_bytes n v : le_uint (le_bytes n v) = v mod 2 ^ (8 * Z.of_nat n).
Proof.
  revert v. induction n as [|n IH]; intros v.
  - cbn. by rewrite Z.mod_1_r.
  - cbn [le_bytes le_uint]. rewrite IH. unfold u8.
    rewrite lor_low_high by lia. do 2 f_equal. lia.
Qed.

Lemma LittleEndian_roundtrip v :
  is_u64 v → LittleEndian_Uint64 (LittleEndian_PutUint64 v) = Val v.
Proof.
  intros Hv. unfold LittleEndian_Uint64, LittleEndian_PutUint64, len.
  rewrite length_le_bytes, take_ge by (by rewrite length_le_bytes).
  cbn -[le_uint le_bytes]. rewrite le_uint_bytes. f_equal. by apply u64_id.
Qed.

Lemma BigEndian_roundtrip v :
  is_u64 v → BigEndian_Uint64 (BigEndian_PutUint64 v) = Val v.
Proof.
  intros Hv. unfold BigEndian_Uint64, BigEndian_PutUint64, len.
  rewrite length_reverse, length_le_bytes, take_ge by (by rewrite length_reverse, length_le_bytes).
  cbn -[le_uint le_bytes reverse]. rewrite reverse_involutive, le_uint_bytes. f_equal.
  by apply u64_id.
Qed.

(** ** The key-value backend *)
Class KVDB (D : Type) := {
  (** An [Update] transaction that creates a bucket unless it exists. *)
  CreateTopLevelBucket : bytes → M D unit;
  (** A [View] transaction that reads a key; [None] if there is no such bucket. *)
  BucketGet : bytes → bytes → M D (option (option bytes));
  (** A [Batch] transaction that writes a key; [false] if there is no such bucket. *)
  BucketPut : bytes → bytes → bytes → M D bool;
}.

Class KVLaws (D : Type) {KV : KVDB D} := {
  contents : D → gmap (list Z) (gmap (list Z) (list Z));
  create_law : ∀ b d d', CreateTopLevelBucket b d = (Val tt, d') →
    contents d' = <[b := default ∅ (contents d !! b)]> (contents d);
  get_law : ∀ b k d r d', BucketGet b k d = (Val r, d') →
    contents d' = contents d ∧ r = (λ m : gmap _ _, m !! k) <$> contents d !! b;
  put_law : ∀ b k v d ok d', BucketPut b k v d = (Val ok, d') →
    match contents d !! b with
    | None => ok = false ∧ contents d' = contents d
    | Some m => ok = true ∧ contents d' = <[b := <[k := v]> m]> (contents d)
    end;
  (** Transactions are atomic. *)
  get_error_law : ∀ b k d e d', BucketGet b k d = (Error e, d') → contents d' = contents d;
  put_error_law : ∀ b k v d e d', BucketPut b k v d = (Error e, d') → contents d' = contents d;
}.

Definition ErrCorruptedDB : gerror := ESentinel "db is corrupted".
Definition ErrNotFound : gerror := ESentinel "not found".

Section kv.
Context {D : Type} {KV : KVDB D}.

(** The shape shared by the three stores: [get] ([None] when absent) and [put]. *)
Definition kv_get (key bucketName : bytes) : M D (option bytes) :=
  r ← BucketGet bucketName key;
  match r with
  | None => fail ErrCorruptedDB
  | Some None => mret None
  | Some (Some byteVal) => mret (Some byteVal)
  end.

Definition kv_put (key val bucketName : bytes) : M D unit :=
  ok ← BucketPut bucketName key val;
  match ok with
  | true => mret tt
  | false => fail ErrCorruptedDB
  end.

Context {LAWS : KVLaws D}.

(** The value of a key, if its bucket and the key exist. *)
Definition stored (bucket key : list Z) (d : D) : option (list Z) :=
  contents d !! bucket ≫= λ m, m !! key.

Lemma kv_get_spec key bucket d r d' :
  kv_get key bucket d = (Val r, d') → contents d' = contents d ∧ r = stored bucket key d.
Proof.
  intros Hr. unfold kv_get in Hr. apply bind_Val_inv in Hr as (o & d1 & Hg & Hr).
  apply get_law in Hg as [Hc Ho]. unfold stored. rewrite Ho in Hr.
  destruct (contents d !! bucket) as [m|]; cbn in *; [|done].
  destruct (m !! key) eqn:E; unfold mret, M_ret in Hr; simplify_eq; split; done.
Qed.

Lemma kv_put_spec key val bucket d d' :
  kv_put key val bucket d = (Val tt, d') →
  stored bucket key d' = Some val ∧
  ∀ b k, (b, k) ≠ (bucket, key) → stored b k d' = stored b k d.
Proof.
  intros Hr. unfold kv_put in Hr. apply bind_Val_inv in Hr as (ok & d1 & Hp & Hr).
  apply put_law in Hp. destruct (contents d !! bucket) as [m|] eqn:E.
  2:{ destruct Hp as [-> _]. done. }
  destruct Hp as [-> Hc]. unfold mret, M_ret in Hr. simplify_eq. unfold stored. rewrite Hc.
  split; [by rewrite lookup_insert_eq; cbn; rewrite lookup_insert_eq|].
  intros b k Hne. destruct (decide (b = bucket)) as [->|Hb].
  - rewrite lookup_insert_eq, E. cbn. apply lookup_insert_ne. congruence.
  - by rewrite lookup_insert_ne.
Qed.

(** A failed write changes nothing. *)
Lemma kv_put_error key val bucket d e d' :
  kv_put key val bucket d = (Error e, d') → contents d' = contents d.
Proof.
  unfold kv_put. rewrite bind_unfold.
  destruct (BucketPut bucket key val d) as [[ok|e1|p|] d1] eqn:Hp; try done.
  - apply put_law in Hp. destruct ok; [done|]. intros [= _ <-].
    destruct (contents d !! bucket); naive_solver.
  - intros [= _ <-]. by eapply put_error_law.
Qed.
End kv.

(** ** The monitor's store *)
Module MonitorStore.
(** The byte strings [epoch], [height], [ltsepoch] and [ltsheight]. *)
Definition epochsBucketName : bytes := [101; 112; 111; 99; 104].
Definition heightBucketName : bytes := [104; 101; 105; 103; 104; 116].
Definition latestEpochKey : bytes := [108; 116; 115; 101; 112; 111; 99; 104].
Definition latestHeightKey : bytes := [108; 116; 115; 104; 101; 105; 103; 104; 116].

Section store.
Context {D : Type} {KV : KVDB D}.

Definition createBuckets : M D unit :=
  for_each [epochsBucketName; heightBucketName] CreateTopLevelBucket.
Definition NewMonitorStore : M D unit := createBuckets.

Definition uint64FromBytes (b : bytes) : outcome Z :=
  if negb (len b =? 8) then Error (ENew "invalid byte slice length: expected 8")
  else BigEndian_Uint64 b.
Definition uint64ToBytes (v : Z) : bytes := BigEndian_PutUint64 v.

(** A decoding error surfaces as an error of [View]. *)
Definition get (key bucketName : bytes) : M D (option Z) :=
  r ← kv_get key bucketName;
  match r with
  | None => mret None
  | Some byteVal => val ← of_outcome (uint64FromBytes byteVal); mret (Some val)
  end.
Definition put (key : bytes) (val : Z) (bucketName : bytes) : M D unit :=
  kv_put key (uint64ToBytes val) bucketName.

Definition LatestEpoch : M D (option Z) := get latestEpochKey epochsBucketName.
Definition LatestHeight : M D (option Z) := get latestHeightKey heightBucketName.
Definition PutLatestEpoch (epoch : Z) : M D unit := put latestEpochKey epoch epochsBucketName.
Definition PutLatestHeight (height : Z) : M D unit := put latestHeightKey height heightBucketName.

Lemma uint64_bytes_roundtrip v : is_u64 v → uint64FromBytes (uint64ToBytes v) = Val v.
Proof.
  intros Hv. unfold uint64FromBytes, uint64ToBytes. rewrite BigEndian_roundtrip by done.
  unfold BigEndian_PutUint64, len. by rewrite length_reverse, length_le_bytes.
Qed.

Context {LAWS : KVLaws D}.

(** Reading a key that holds an encoded integer. *)
Lemma get_stored key bucket v d r d' :
  is_u64 v → stored bucket key d = Some (uint64ToBytes v) → get key bucket d = (Val r, d') →
  r = Some v ∧ contents d' = contents d.
Proof.
  intros Hv Hs Hg. unfold get in Hg. apply bind_Val_inv in Hg as (o & d3 & Hk & Hg).
  apply kv_get_spec in Hk as [Hc ->]. rewrite Hs, uint64_bytes_roundtrip in Hg by done.
  rewrite bind_unfold in Hg. cbn in Hg. unfold mret, M_ret in Hg. by simplify_eq.
Qed.

Lemma put_get key val bucket d d1 r d2 :
  is_u64 val → put key val bucket d = (Val tt, d1) → get key bucket d1 = (Val r, d2) →
  r = Some val.
Proof.
  intros Hv Hp Hg. apply kv_put_spec in Hp as [Hs _].
  by apply (get_stored _ _ _ _ _ _ Hv Hs) in Hg as [-> _].
Qed.

Lemma put_other key val bucket key' bucket' d d1 r d2 :
  (bucket', key') ≠ (bucket, key) →
  put key val bucket d = (Val tt, d1) → get key' bucket' d1 = (Val r, d2) →
  match stored bucket' key' d with
  | None => r = None
  | Some b => ∃ v, uint64FromBytes b = Val v ∧ r = Some v
  end.
Proof.
  intros Hne Hp Hg. apply kv_put_spec in Hp as [_ Ho]. specialize (Ho _ _ Hne).
  unfold get in Hg. apply bind_Val_inv in Hg as (o & d3 & Hk & Hg).
  apply kv_get_spec in Hk as [_ ->]. rewrite Ho in Hg.
  destruct (stored bucket' key' d) as [b|].
  - apply bind_Val_inv in Hg as (v & d4 & Hv & Hg). unfold of_outcome in Hv.
    unfold mret, M_ret in Hg. simplify_eq. eauto.
  - unfold mret, M_ret in Hg. by simplify_eq.
Qed.
End store.
End MonitorStore.

(** ** The slasher's store *)
Module SlasherStore.
Definition processedEvidenceHeightBucket : bytes :=
  [112; 114; 111; 99; 101; 115; 115; 101; 100; 101; 118; 105; 100; 101; 110; 99; 101; 104;
   101; 105; 103; 104; 116].
Definition processedEvidenceHeightKey : bytes :=
  [108; 97; 115; 116; 101; 118; 105; 100; 101; 110; 99; 101; 104; 101; 105; 103; 104; 116].

Section store.
Context {D : Type} {KV : KVDB D}.

Definition NewSlasherStore : M D unit := CreateTopLevelBucket processedEvidenceHeightBucket.
Definition uint64ToBytes (n : Z) : bytes := LittleEndian_PutUint64 n.
Definition bytesToUint64 (b : bytes) : outcome Z := LittleEndian_Uint64 b.

Definition LastProcessedHeight : M D (option Z) :=
  r ← kv_get processedEvidenceHeightKey processedEvidenceHeightBucket;
  match r with
  | None => mret None
  | Some data => h ← of_outcome (bytesToUint64 data); mret (Some h)
  end.
Definition PutHeight (height : Z) : M D unit :=
  kv_put processedEvidenceHeightKey (uint64ToBytes height) processedEvidenceHeightBucket.

Context {LAWS : KVLaws D}.

Lemma height_put_get h d d1 r d2 :
  is_u64 h → PutHeight h d = (Val tt, d1) → LastProcessedHeight d1 = (Val r, d2) → r = Some h.
Proof.
  intros Hh Hp Hg. apply kv_put_spec in Hp as [Hs _].
  apply bind_Val_inv in Hg as (o & d3 & Hk & Hg). apply kv_get_spec in Hk as [_ ->].
  rewrite Hs in Hg. unfold bytesToUint64, uint64ToBytes in Hg.
  rewrite LittleEndian_roundtrip, bind_unfold in Hg by done. cbn in Hg.
  unfold mret, M_ret in Hg. by simplify_eq.
Qed.
End store.
End SlasherStore.

(** ** The submitter's store *)
Module SubmitterStore.
Definition storedCheckpointBucketName : bytes := [115; 116; 111; 114; 101; 100; 99; 107; 112; 116].
Definition lastSubmittedCkptKey : bytes := [108; 97; 115; 116; 115; 117; 98; 99; 107; 112; 116].

(** A [nil] transaction is [None]. *)
Record StoredCheckpoint := mkStoredCheckpoint {
  Tx1 : option MsgTx;
  Tx2 : option MsgTx;
  sc_Epoch : Z;
}.
Definition NewStoredCheckpoint (tx1 tx2 : option MsgTx) (epoch : Z) : StoredCheckpoint :=
  mkStoredCheckpoint tx1 tx2 epoch.

Record ProtoCheckpoint := mkProtoCheckpoint { p_tx1 : bytes; p_tx2 : bytes; p_epoch : Z }.

(** Generated protobuf code and btcd's transaction parser. *)
Class ProtoLib := {
  Marshal : ProtoCheckpoint → result bytes;
  Unmarshal : bytes → result ProtoCheckpoint;
  Deserialize : bytes → result MsgTx;
  Unmarshal_Marshal : ∀ p b, Marshal p = Ok b → Unmarshal b = Ok p;
}.

Section store.
Context {BL : BTCLib} {PL : ProtoLib} {D : Type} {KV : KVDB D}.

(** [utils.SerializeMsgTx] and [utils.DeserializeMsgTx] *)
Definition SerializeMsgTx (tx : option MsgTx) : M D bytes :=
  match tx with
  | None => panic "nil pointer dereference"
  | Some tx => of_result (Serialize tx)
  end.
Definition DeserializeMsgTx (data : bytes) : M D MsgTx := of_result (Deserialize data).

Definition ToProto (s : StoredCheckpoint) : M D ProtoCheckpoint :=
  bufTx1 ← SerializeMsgTx (Tx1 s);
  bufTx2 ← SerializeMsgTx (Tx2 s);
  mret (mkProtoCheckpoint bufTx1 bufTx2 (sc_Epoch s)).
Definition FromProto (p : ProtoCheckpoint) : M D StoredCheckpoint :=
  tx1 ← DeserializeMsgTx (p_tx1 p);
  tx2 ← DeserializeMsgTx (p_tx2 p);
  mret (mkStoredCheckpoint (Some tx1) (Some tx2) (p_epoch p)).

Definition NewSubmitterStore : M D unit := CreateTopLevelBucket storedCheckpointBucketName.

Definition LatestCheckpoint : M D (option StoredCheckpoint) :=
  data ← kv_get lastSubmittedCkptKey storedCheckpointBucketName;
  match data with
  | None => mret None
  | Some data =>
      protoCkpt ← of_result (Unmarshal data);
      storedCkpt ← FromProto protoCkpt;
      mret (Some storedCkpt)
  end.

Definition PutCheckpoint (ckpt : StoredCheckpoint) : M D unit :=
  protoCkpt ← ToProto ckpt;
  data ← of_result (Marshal protoCkpt);
  kv_put lastSubmittedCkptKey data storedCheckpointBucketName.

Context {LAWS : KVLaws D}.

(** btcd parses back a transaction it wrote (for one that has inputs). *)
Definition parses_back (tx : MsgTx) : Prop := ∀ b, Serialize tx = Ok b → Deserialize b = Ok tx.

Lemma SerializeMsgTx_Val tx d b d' :
  SerializeMsgTx tx d = (Val b, d') → d' = d ∧ ∃ t, tx = Some t ∧ Serialize t = Ok b.
Proof.
  unfold SerializeMsgTx. destruct tx as [t|]; [|done]. unfold of_result.
  destruct (Serialize t) eqn:E; [|done]. unfold mret, M_ret. intros; simplify_eq. eauto.
Qed.

Lemma checkpoint_put_get ckpt d d1 r d2 :
  (∀ t, Tx1 ckpt = Some t ∨ Tx2 ckpt = Some t → parses_back t) →
  PutCheckpoint ckpt d = (Val tt, d1) → LatestCheckpoint d1 = (Val r, d2) → r = Some ckpt.
Proof.
  intros Hparse Hp Hg.
  apply bind_Val_inv in Hp as (p & e1 & Hto & Hp).
  apply bind_Val_inv in Hto as (b1 & e2 & Hs1 & Hto).
  apply bind_Val_inv in Hto as (b2 & e3 & Hs2 & Hto). unfold mret, M_ret in Hto. simplify_eq.
  apply SerializeMsgTx_Val in Hs1 as (-> & t1 & Ht1 & Hs1).
  apply SerializeMsgTx_Val in Hs2 as (-> & t2 & Ht2 & Hs2).
  apply bind_Val_inv in Hp as (data & e4 & Hm & Hp). unfold of_result in Hm.
  destruct (Marshal _) as [data'|] eqn:Em; [|done]. unfold mret, M_ret in Hm. simplify_eq.
  apply kv_put_spec in Hp as [Hst _].
  apply bind_Val_inv in Hg as (o & e5 & Hk & Hg). apply kv_get_spec in Hk as [_ ->].
  rewrite Hst in Hg. rewrite (Unmarshal_Marshal _ _ Em) in Hg.
  apply bind_Val_inv in Hg as (p & e6 & Hu & Hg). unfold of_result, mret, M_ret in Hu. simplify_eq.
  apply bind_Val_inv in Hg as (c & e7 & Hf & Hg). unfold mret, M_ret in Hg. simplify_eq.
  unfold FromProto, DeserializeMsgTx in Hf. cbn in Hf.
  rewrite (Hparse t1 (or_introl Ht1) b1 Hs1), (Hparse t2 (or_intror Ht2) b2 Hs2) in Hf.
  rewrite bind_unfold in Hf. cbn in Hf. rewrite bind_unfold in Hf. cbn in Hf.
  unfold mret, M_ret in Hf. simplify_eq. destruct ckpt. cbn in *. by subst.
Qed.
End store.
End SubmitterStore.

(** ** A backend: a map of maps *)
Definition mem_db : Type := gmap (list Z) (gmap (list Z) (list Z)).

#[global] Instance mem_KVDB : KVDB mem_db := {|
  CreateTopLevelBucket b := modify (λ d : mem_db, <[b := default ∅ (d !! b)]> d);
  BucketGet b k := gets (λ d : mem_db, (λ m : gmap _ _, m !! k) <$> d !! b);
  BucketPut b k v := λ d : mem_db,
    match d !! b with
    | None => (Val false, d)
    | Some m => (Val true, <[b := <[k := v]> m]> d)
    end;
|}.

#[global] Instance mem_KVLaws : KVLaws mem_db.
Proof.
  refine {| contents := λ d : mem_db, d |}.
  - cbn. intros b d d' Hr. unfold modify in Hr. by simplify_eq.
  - cbn. intros b k d r d' Hr. unfold gets in Hr. by simplify_eq.
  - cbn. intros b k v d ok d' Hr. unfold mem_db in *.
    destruct (d !! b); by injection Hr as <- <-.
  - cbn. intros b k d e d' Hr. unfold gets in Hr. done.
  - cbn. intros b k v d e d' Hr. destruct (d !! b); done.
Defined.
