(* ===== verification/EpochInfo.v ===== *)
(** * Epochs, raw checkpoints and the checkpoint bookkeeper

    [types/epoch_info.go], [types/ckpt_record.go], [types/ckpt_bookkeeper.go]
    and [types/errors.go].  BLS verification and the validator sets of Babylon
    are the interface [BLSLib]. *)

From S2P Require Import Prelude Blocks.

(** The fields of [ckpttypes.RawCheckpoint] the monitor reads. *)
Record RawCheckpoint := mkRawCheckpoint {
  EpochNum : Z;
  rc_BlockHash : bytes;
  Bitmap : bytes;
  BlsMultiSig : bytes;
}.
#[global] Instance RawCheckpoint_eq_dec : EqDecision RawCheckpoint.
Proof. solve_decision. Defined.

Record ValidatorWithBlsKey := mkValidator {
  ValidatorAddress : string;
  BlsPubKey : bytes;
  VotingPower : Z;
}.
#[global] Instance ValidatorWithBlsKey_eq_dec : EqDecision ValidatorWithBlsKey.
Proof. solve_decision. Defined.

Class BLSLib := {
  ckpt_HashString : RawCheckpoint → string;
  FindSubsetWithPowerSum : list ValidatorWithBlsKey → bytes → result (list ValidatorWithBlsKey * Z);
  GetBLSKeySet : list ValidatorWithBlsKey → list bytes;
  GetTotalPower_ValSet : list ValidatorWithBlsKey → Z;
  SignedMsg : RawCheckpoint → bytes;
  bls_VerifyMultiSig : bytes → list bytes → bytes → result bool;
}.

Definition ErrInvalidMultiSig := "invalid multi-sig".
Definition ErrInsufficientPower := "insufficient power".
Definition ErrInvalidEpochNum := "invalid epoch number".
Definition ErrInconsistentBlockHash := "inconsistent BlockHash".
Definition ErrLivenessAttack := "liveness attack".

Record EpochInfo := mkEpochInfo { epochNum : Z; valSet : list ValidatorWithBlsKey }.
#[global] Instance EpochInfo_eq_dec : EqDecision EpochInfo.
Proof. solve_decision. Defined.

Section epoch.
Context {BLS : BLSLib}.

Definition NewEpochInfo (n : Z) (vs : list ValidatorWithBlsKey) : EpochInfo := mkEpochInfo n vs.

(** The three results of the Go function; on error the power is 0. *)
Definition GetSignersKeySetWithPowerSum (ei : EpochInfo) (bm : bytes)
  : list bytes * Z * option gerror :=
  match FindSubsetWithPowerSum (valSet ei) bm with
  | Err e => ([], 0, Some e)
  | Ok (signers, powerSum) => (GetBLSKeySet signers, powerSum, None)
  end.

Definition GetEpochNumber (ei : EpochInfo) : Z := epochNum ei.
Definition GetTotalPower (ei : EpochInfo) : Z := GetTotalPower_ValSet (valSet ei).

(** The loop of [Equal]; the second set is indexed without a length check. *)
Fixpoint equal_vals (vs vs1 : list ValidatorWithBlsKey) : outcome bool :=
  match vs with
  | [] => Val true
  | val :: vs =>
      match vs1 with
      | [] => Panic "index out of range"
      | val1 :: vs1 =>
          if negb (bool_decide (ValidatorAddress val = ValidatorAddress val1)) then Val false
          else if negb (bool_decide (BlsPubKey val = BlsPubKey val1)) then Val false
          else if negb (VotingPower val =? VotingPower val1) then Val false
          else equal_vals vs vs1
      end
  end.
Definition Equal (ei epochInfo : EpochInfo) : outcome bool :=
  if negb (epochNum ei =? epochNum epochInfo) then Val false
  else equal_vals (valSet ei) (valSet epochInfo).

(** [VerifyMultiSig]: [None] when the signature is accepted.  The products are
    64-bit. *)
Definition VerifyMultiSig (ei : EpochInfo) (ckpt : RawCheckpoint) : option gerror :=
  let '(signerKeySet, sumPower, err) := GetSignersKeySetWithPowerSum ei (Bitmap ckpt) in
  if u64 (sumPower * 3) <=? u64 (GetTotalPower ei * 2)
  then Some (EWrap "expected to be greater" (ESentinel ErrInsufficientPower))
  else
    match err with
    | Some _ => Some (EWrap "failed to get signer set" (ESentinel ErrInvalidMultiSig))
    | None =>
        match bls_VerifyMultiSig (BlsMultiSig ckpt) signerKeySet (SignedMsg ckpt) with
        | Ok true => None
        | _ => Some (ESentinel ErrInvalidMultiSig)
        end
    end.

(** ** Acceptance *)
Definition supermajority_signed (ei : EpochInfo) (ckpt : RawCheckpoint) : Prop :=
  ∃ signers power, FindSubsetWithPowerSum (valSet ei) (Bitmap ckpt) = Ok (signers, power) ∧
    2 * GetTotalPower ei < 3 * power ∧
    bls_VerifyMultiSig (BlsMultiSig ckpt) (GetBLSKeySet signers) (SignedMsg ckpt) = Ok true.

(** Voting powers small enough for the products (CometBFT caps the total power
    at [MaxInt64 / 8]). *)
Definition powers_fit (ei : EpochInfo) : Prop :=
  0 ≤ GetTotalPower ei ≤ (2 ^ 63 - 1) `div` 8 ∧
  ∀ bm signers power, FindSubsetWithPowerSum (valSet ei) bm = Ok (signers, power) →
    0 ≤ power ≤ GetTotalPower ei.

Lemma VerifyMultiSig_spec ei ckpt :
  powers_fit ei → VerifyMultiSig ei ckpt = None ↔ supermajority_signed ei ckpt.
Proof.
  intros [Ht Hp]. unfold VerifyMultiSig, GetSignersKeySetWithPowerSum, supermajority_signed.
  assert (0 ≤ GetTotalPower ei ≤ 2 ^ 60) as Ht' by (vm_compute ((2 ^ 63 - 1) `div` 8) in Ht; lia).
  rewrite (u64_id (GetTotalPower ei * 2)) by zrange.
  destruct (FindSubsetWithPowerSum _ _) as [[signers power]|e] eqn:E.
  - apply Hp in E. rewrite u64_id by zrange.
    destruct (Z.leb_spec (power * 3) (GetTotalPower ei * 2)).
    + split; [done|]. intros (? & ? & ? & ? & ?). simplify_eq. lia.
    + split.
      * destruct (bls_VerifyMultiSig _ _ _) as [[]|] eqn:Eb; [|done..]. intros _.
        exists signers, power. split_and!; [done|lia|done].
      * intros (? & ? & ? & ? & Hb). simplify_eq. by rewrite Hb.
  - rewrite u64_id by zrange. destruct (Z.leb_spec (0 * 3) (GetTotalPower ei * 2)); [|lia].
    split; [done|]. naive_solver.
Qed.

(** A bitmap for which the signer set cannot be computed is reported as
    insufficient power: the later test of the error is never reached. *)
Lemma VerifyMultiSig_bad_bitmap ei ckpt e :
  FindSubsetWithPowerSum (valSet ei) (Bitmap ckpt) = Err e →
  ∃ m, VerifyMultiSig ei ckpt = Some (EWrap m (ESentinel ErrInsufficientPower)).
Proof.
  intros He. unfold VerifyMultiSig, GetSignersKeySetWithPowerSum. rewrite He.
  assert (u64 (0 * 3) <=? u64 (GetTotalPower ei * 2) = true) as ->; [|eauto].
  apply Z.leb_le. pose proof (u64_range (GetTotalPower ei * 2)). unfold is_u64 in *.
  cbn. unfold u64 at 1. rewrite Z.mod_0_l; lia.
Qed.

Lemma equal_vals_spec vs vs1 :
  length vs = length vs1 → equal_vals vs vs1 = Val (bool_decide (vs = vs1)).
Proof.
  revert vs1. induction vs as [|v vs IH]; intros [|v1 vs1] Hl; cbn in *; [done|lia|lia|].
  destruct (decide (v = v1)) as [<-|Hv].
  - rewrite !bool_decide_eq_true_2, Z.eqb_refl by done. cbn. rewrite IH by lia. f_equal.
    apply bool_decide_ext. naive_solver.
  - rewrite (bool_decide_eq_false_2 (v :: vs = v1 :: vs1)) by congruence.
    case_bool_decide as H1; [|done]. case_bool_decide as H2; [|done]. cbn.
    destruct (Z.eqb_spec (VotingPower v) (VotingPower v1)) as [H3|H3]; [|done].
    exfalso. apply Hv. destruct v, v1. cbn in *. congruence.
Qed.

(** On sets of the same size [Equal] decides equality. *)
Lemma Equal_spec ei ei1 :
  length (valSet ei) = length (valSet ei1) →
  Equal ei ei1 = Val (bool_decide (ei = ei1)).
Proof.
  intros Hl. unfold Equal. destruct ei as [n vs], ei1 as [n1 vs1]. cbn in *.
  destruct (Z.eqb_spec n n1) as [<-|Hn]; cbn.
  - rewrite equal_vals_spec by done. f_equal. apply bool_decide_ext. naive_solver.
  - by rewrite bool_decide_eq_false_2 by congruence.
Qed.
End epoch.

(** ** Checkpoint records *)
Record CheckpointRecord := mkCheckpointRecord {
  cr_RawCheckpoint : RawCheckpoint;
  FirstSeenBtcHeight : Z;
}.
#[global] Instance CheckpointRecord_eq_dec : EqDecision CheckpointRecord.
Proof. solve_decision. Defined.

Module Bookkeeper.
Section book.
Context {BLS : BLSLib}.

Definition NewCheckpointRecord (ckpt : RawCheckpoint) (height : Z) : CheckpointRecord :=
  mkCheckpointRecord ckpt height.
Definition ID (cr : CheckpointRecord) : string := ckpt_HashString (cr_RawCheckpoint cr).
Definition cr_EpochNum (cr : CheckpointRecord) : Z := EpochNum (cr_RawCheckpoint cr).

(** [checkpointRecords]; the mutex makes every method atomic. *)
Definition CheckpointsBookkeeper : Type := gmap string CheckpointRecord.

Definition NewCheckpointsBookkeeper : CheckpointsBookkeeper := ∅.
Definition has (id : string) (cb : CheckpointsBookkeeper) : bool :=
  match cb !! id with Some _ => true | None => false end.
Definition Add (cr : CheckpointRecord) (cb : CheckpointsBookkeeper) : CheckpointsBookkeeper :=
  let id := ID cr in
  if negb (has id cb) then <[id := cr]> cb
  else
    match cb !! id with
    | Some old =>
        if FirstSeenBtcHeight cr <? FirstSeenBtcHeight old then <[id := cr]> cb else cb
    | None => cb
    end.
Definition Remove (id : string) (cb : CheckpointsBookkeeper) : CheckpointsBookkeeper :=
  delete id cb.
(** The order of the result is that of a map iteration. *)
Definition GetAll (order : CheckpointsBookkeeper → list (string * CheckpointRecord))
    (cb : CheckpointsBookkeeper) : list CheckpointRecord := (order cb).*2.

(** ** Abstract specification: the earliest sighting since the last removal *)
Inductive book_op := OpAdd (cr : CheckpointRecord) | OpRemove (id : string).

Definition book_run (cb : CheckpointsBookkeeper) (op : book_op) : CheckpointsBookkeeper :=
  match op with OpAdd cr => Add cr cb | OpRemove id => Remove id cb end.

Definition earlier (old : option CheckpointRecord) (cr : CheckpointRecord) : CheckpointRecord :=
  match old with
  | Some o => if FirstSeenBtcHeight cr <? FirstSeenBtcHeight o then cr else o
  | None => cr
  end.

(** What a checkpoint's record should be after a history of operations. *)
Definition earliest (id : string) (old : option CheckpointRecord) (op : book_op)
  : option CheckpointRecord :=
  match op with
  | OpAdd cr => if bool_decide (ID cr = id) then Some (earlier old cr) else old
  | OpRemove id' => if bool_decide (id' = id) then None else old
  end.

Lemma book_run_refines cb op id : book_run cb op !! id = earliest id (cb !! id) op.
Proof.
  unfold CheckpointsBookkeeper in *. destruct op as [cr|id']; cbn.
  - unfold Add, has, CheckpointsBookkeeper. destruct (cb !! ID cr) as [old|] eqn:E; cbn.
    + case_bool_decide as Hid.
      * subst id. rewrite E. cbn. case_match; [by rewrite lookup_insert_eq|done].
      * case_match; [by rewrite lookup_insert_ne|done].
    + case_bool_decide as Hid; [subst id; rewrite E; by rewrite lookup_insert_eq|].
      by rewrite lookup_insert_ne.
  - unfold Remove, CheckpointsBookkeeper. case_bool_decide; [subst; by rewrite lookup_delete_eq|].
    by rewrite lookup_delete_ne.
Qed.

Lemma bookkeeper_refines ops cb id :
  foldl book_run cb ops !! id = foldl (earliest id) (cb !! id) ops.
Proof.
  revert cb. induction ops as [|op ops IH]; intros cb; cbn; [done|].
  by rewrite IH, book_run_refines.
Qed.

(** Every record is stored under its own identifier. *)
Definition book_ok (cb : CheckpointsBookkeeper) : Prop := map_Forall (λ id cr, ID cr = id) cb.

Lemma book_run_ok cb op : book_ok cb → book_ok (book_run cb op).
Proof.
  intros Hb id cr. rewrite book_run_refines. destruct op as [cr'|id']; cbn.
  - case_bool_decide as Hid; [|apply Hb]. intros [= <-]. unfold earlier.
    destruct (cb !! id) as [old|] eqn:E; [|done]. case_match; [done|]. by apply Hb in E.
  - case_bool_decide; [done|apply Hb].
Qed.
End book.
End Bookkeeper.
