(* ===== verification/Scanner.v ===== *)
(** * The Bitcoin scanner of the monitor ([monitor/btcscanner])

    The scanner follows the Bitcoin chain, keeps the blocks that are not yet
    [k] deep in a cache and emits the others, in order, on a channel.  A channel
    is the list of all values sent on it; blocking sends are not modelled. *)

From S2P Require Import Prelude Blocks BTCCache CkptCache Retry BTCClient Reporter EpochInfo.

Section scanner.
Context {BL : BTCLib} {BF : BabylonFormatter} {GS : GoSort}.
Record BtcScanner := mkScanner {
  baseHeight : Z;
  scan_k : Z;
  confirmedTipBlock : option IndexedBlock;
  confirmedBlocksChan : list IndexedBlock;
  ckptCache : CheckpointCache;
  unconfirmedBlockCache : BTCCache;
  blockHeaderChan : list BlockHeader;
  checkpointsChan : list CheckpointRecord;
}.

Context {W : Type} {CK : Clock W} {BTC : BTCClient W}.
(** [ckpttypes.FromBTCCkptBytesToRawCkpt] *)
Context (FromBTCCkptBytesToRawCkpt : bytes → result RawCheckpoint).
Context (ord0 : gmap Hash CkptSegment → list (Hash * CkptSegment)).
Context (ord1 : Hash → gmap Hash CkptSegment → list (Hash * CkptSegment)).

Notation SM A := (M (BtcScanner * W) A).

Definition set_confirmed (b : IndexedBlock) (s : BtcScanner) : BtcScanner :=
  mkScanner (baseHeight s) (scan_k s) (Some b) (confirmedBlocksChan s ++ [b]) (ckptCache s)
    (unconfirmedBlockCache s) (blockHeaderChan s) (checkpointsChan s).
Definition set_unconfirmed (c : BTCCache) (s : BtcScanner) : BtcScanner :=
  mkScanner (baseHeight s) (scan_k s) (confirmedTipBlock s) (confirmedBlocksChan s) (ckptCache s)
    c (blockHeaderChan s) (checkpointsChan s).
Definition set_ckptCache (c : CheckpointCache) (s : BtcScanner) : BtcScanner :=
  mkScanner (baseHeight s) (scan_k s) (confirmedTipBlock s) (confirmedBlocksChan s) c
    (unconfirmedBlockCache s) (blockHeaderChan s) (checkpointsChan s).
Definition push_header (h : BlockHeader) (s : BtcScanner) : BtcScanner :=
  mkScanner (baseHeight s) (scan_k s) (confirmedTipBlock s) (confirmedBlocksChan s) (ckptCache s)
    (unconfirmedBlockCache s) (blockHeaderChan s ++ [h]) (checkpointsChan s).
Definition push_checkpoint (c : CheckpointRecord) (s : BtcScanner) : BtcScanner :=
  mkScanner (baseHeight s) (scan_k s) (confirmedTipBlock s) (confirmedBlocksChan s) (ckptCache s)
    (unconfirmedBlockCache s) (blockHeaderChan s) (checkpointsChan s ++ [c]).
Definition SetBaseHeight (h : Z) (s : BtcScanner) : BtcScanner :=
  mkScanner h (scan_k s) (confirmedTipBlock s) (confirmedBlocksChan s) (ckptCache s)
    (unconfirmedBlockCache s) (blockHeaderChan s) (checkpointsChan s).

(** [btcscanner.New]: an invalid cache size panics. *)
Definition NewScanner (btcCacheSize k : Z) (checkpointTag : bytes) : outcome BtcScanner :=
  match NewBTCCache btcCacheSize with
  | Err _ => Panic "failed to create BTC cache for tail blocks"
  | Ok c => Val (mkScanner 0 k None [] (NewCheckpointCache checkpointTag CurrentVersion) c [] [])
  end.

Definition on_self {A} (m : M BtcScanner A) : SM A := zoom fst (λ t s, (t, snd s)) m.
Definition on_world {A} (m : M W A) : SM A := zoom snd (λ w s, (fst s, w)) m.
Definition on_cache {A} (m : M BTCCache A) : SM A :=
  on_self (zoom unconfirmedBlockCache set_unconfirmed m).
Definition on_ckpts {A} (m : M CheckpointCache A) : SM A :=
  on_self (zoom ckptCache set_ckptCache m).

Definition sendConfirmedBlocksToChan (blocks : list IndexedBlock) : SM unit :=
  for_each blocks (λ b, on_self (modify (set_confirmed b))).

(** [for i := lo; i <= hi; i++] on [uint32]; the fuel bounds the iterations. *)
Fixpoint for_heights (fuel : nat) (i hi : Z) (body : Z → SM unit) : SM unit :=
  if i <=? hi then
    match fuel with
    | O => diverge
    | S fuel => body i ;; for_heights fuel (u32 (i + 1)) hi body
    end
  else mret tt.

(** The body of the first loop of [Bootstrap]. *)
Definition bootstrap_confirmed (i : Z) : SM unit :=
  res ← must "GetBlockByHeight" (on_world (GetBlockByHeight i));
  let confirmedBlock := fst res in
  tip ← on_self (gets confirmedTipBlock);
  match tip with
  | Some t =>
      if negb (BlockHash t =? PrevBlock (Header confirmedBlock))
      then panic "invalid canonical chain"
      else sendConfirmedBlocksToChan [confirmedBlock]
  | None => sendConfirmedBlocksToChan [confirmedBlock]
  end.

(** The body of the second loop. *)
Definition bootstrap_unconfirmed (i : Z) : SM unit :=
  res ← must "GetBlockByHeight" (on_world (GetBlockByHeight i));
  let ib := fst res in
  tipCache ← on_cache (gets Tip);
  match tipCache with
  | Some t =>
      if negb (BlockHash t =? PrevBlock (Header ib)) then panic "invalid canonical chain"
      else on_cache (Add ib)
  | None => on_cache (Add ib)
  end.

Definition Bootstrap (fuel : nat) : SM unit :=
  s ← on_self (gets id);
  let firstUnconfirmedHeight :=
    match confirmedTipBlock s with
    | Some t => u32 (Height t + 1)
    | None => baseHeight s
    end in
  on_cache RemoveAll ;;
  bestHeight ← must "cannot get the best BTC block" (on_world GetBestBlock);
  let bestConfirmedHeight := u32 (bestHeight - scan_k s) in
  for_heights fuel firstUnconfirmedHeight bestConfirmedHeight bootstrap_confirmed ;;
  for_heights fuel (u32 (bestConfirmedHeight + 1)) bestHeight bootstrap_unconfirmed.

(** The part of [handleNewBlock] after the block is added to the cache; the
    cache's size is checked against [int32] before it is read as [uint32]. *)
Definition confirmBlocks : SM unit :=
  sz ← on_cache (gets Size);
  if MaxInt32 <? sz then panic "unconfirmedBlockCache exceeds uint32"
  else
    k ← on_self (gets scan_k);
    if u32 sz <=? k then mret tt
    else
      confirmedBlocks ← on_cache (TrimConfirmedBlocks k);
      match confirmedBlocks with
      | None => mret tt
      | Some confirmedBlocks =>
          tip ← on_self (gets confirmedTipBlock);
          match tip, head confirmedBlocks with
          | None, _ => panic "nil pointer dereference"
          | Some _, None => panic "index out of range"
          | Some t, Some b0 =>
              if negb (BlockHash t =? PrevBlock (Header b0)) then panic "invalid canonical chain"
              else sendConfirmedBlocksToChan confirmedBlocks
          end
      end.

Definition handleNewBlock (height : Z) (header : BlockHeader) : SM unit :=
  cacheTip ← on_cache (gets Tip);
  match cacheTip with
  | None => fail (ENew "no unconfirmed blocks found")
  | Some cacheTip =>
      if height <=? Height cacheTip then mret tt
      else if u32 (Height cacheTip + 1) <? height then fail (ENew "missing blocks")
      else if negb (PrevBlock header =? BlockHash cacheTip)
      then fail (ENew "cache is not up-to-date")
      else
        res ← must "failed to request block by hash" (on_world (GetBlockByHash (HeaderHash header)));
        on_cache (Add (fst res)) ;;
        confirmBlocks
  end.

(** What [bootstrapAndBlockEventHandler] receives after [Bootstrap]. *)
Inductive scan_event :=
| ScanEpoch (height : Z) (header : BlockHeader)
| ScanClosed
| ScanQuit.

Fixpoint scan_loop (fuel : nat) (evs : list scan_event) : SM unit :=
  match evs with
  | [] | ScanClosed :: _ | ScanQuit :: _ => mret tt
  | ScanEpoch height header :: evs =>
      if height <? 0 then panic "received negative epoch height"
      else
        err ← try (handleNewBlock (u32 height) header);
        (match err with Ok _ => mret tt | Err _ => Bootstrap fuel end) ;;
        scan_loop fuel evs
  end.

Definition bootstrapAndBlockEventHandler (fuel : nat) (evs : list scan_event) : SM unit :=
  Bootstrap fuel ;;
  bestKnownBlock ← on_cache (gets Tip);
  match bestKnownBlock with
  | Some b => if MaxInt32 <? Height b then panic "block height exceeds int32 range"
              else scan_loop fuel evs
  | None => scan_loop fuel evs
  end.

(** ** Checkpoints in confirmed blocks *)

Definition extract_seg (b : IndexedBlock) (found : bool) (tx : option Tx) : SM bool :=
  match tx with
  | None => mret found
  | Some tx =>
      c ← on_ckpts (gets id);
      match NewCkptSegment (cc_Tag c) (cc_Version c) b tx with
      | None => mret found
      | Some ckptSeg =>
          now ← on_world Now;
          err ← try (on_ckpts (AddSegment now ckptSeg));
          match err with
          | Err _ => mret found
          | Ok _ => mret true
          end
      end
  end.
Definition tryToExtractCkptSegment (b : IndexedBlock) : SM bool :=
  for_fold (Txs b) false (extract_seg b).

Definition matchAndPop : SM (option CheckpointRecord) :=
  on_ckpts (modify (Match ord0 ord1)) ;;
  ckptSegments ← on_ckpts PopEarliestCheckpoint;
  match ckptSegments with
  | None => mret None
  | Some ckpt =>
      c ← on_ckpts (gets id);
      s0 ← of_outcome (slice_index (Segs ckpt) 0);
      s1 ← of_outcome (slice_index (Segs ckpt) 1);
      connectedBytes ← wrap_err "failed to connect two checkpoint parts"
        (of_result (ConnectParts (cc_Version c) (seg_Data s0) (seg_Data s1)));
      rawCheckpoint ← wrap_err "failed to decode raw checkpoint bytes"
        (of_result (FromBTCCkptBytesToRawCkpt connectedBytes));
      mret (Some (mkCheckpointRecord rawCheckpoint (Height (AssocBlock s0))))
  end.

Definition tryToExtractCheckpoint (block : IndexedBlock) : SM (option CheckpointRecord) :=
  found ← tryToExtractCkptSegment block;
  match found with
  | false => mret None
  | true => must "matchAndPop" matchAndPop
  end.

(** The body of the loop of [Start] on a block received from the channel. *)
Definition scan_block (block : IndexedBlock) : SM unit :=
  on_self (modify (push_header (Header block))) ;;
  ckptBtc ← tryToExtractCheckpoint block;
  match ckptBtc with
  | None => mret tt
  | Some ckptBtc => on_self (modify (push_checkpoint ckptBtc))
  end.
End scanner.
