(* ===== verification/ScannerProps.v ===== *)
(** * The scanner emits one chain of confirmed blocks

    The blocks sent on the channel are consecutive blocks of one chain, through
    any number of bootstraps and events; every block is at least [k] deep when
    it is sent, and no block between two bootstraps is skipped. *)

From S2P Require Import Prelude Blocks BTCCache CkptCache Retry BTCClient Window Reporter.
From S2P Require Import EpochInfo Scanner.

Section props.
Context {BL : BTCLib} {BF : BabylonFormatter} {GS : GoSort}.
Context {W : Type} {CK : Clock W} {BTC : BTCClient W}.
Context (known : Hash → MsgBlock → Z → Prop) {LAWS : BTCClientLaws W known}.
Implicit Types (s : BtcScanner) (w : W).

(** ** Running on the parts of the state *)
Lemma on_world_run {A} (m : M W A) s w :
  on_world m (s, w) = (let '(o, w') := m w in (o, (s, w'))).
Proof. done. Qed.

Lemma on_cache_run {A} (m : M BTCCache A) s w :
  on_cache m (s, w) =
  (let '(o, c) := m (unconfirmedBlockCache s) in (o, (set_unconfirmed c s, w))).
Proof. unfold on_cache, on_self, zoom. cbn. by destruct (m _). Qed.

Lemma set_unconfirmed_same s : set_unconfirmed (unconfirmedBlockCache s) s = s.
Proof. by destruct s. Qed.

Lemma on_cache_gets {A} (f : BTCCache → A) s w :
  on_cache (gets f) (s, w) = (Val (f (unconfirmedBlockCache s)), (s, w)).
Proof. rewrite on_cache_run. cbn. by rewrite set_unconfirmed_same. Qed.

Lemma must_world {A} msg (m : M W A) s w :
  must msg (on_world m) (s, w) =
  match m w with
  | (Val a, w') => (Val a, (s, w'))
  | (Error _, w') => (Panic msg, (s, w'))
  | (Panic p, w') => (Panic p, (s, w'))
  | (Diverge, w') => (Diverge, (s, w'))
  end.
Proof. unfold must. rewrite on_world_run. by destruct (m w) as [[]]. Qed.

(** Every block sent, with the chain they make. *)
Lemma send_run bs s w :
  sendConfirmedBlocksToChan bs (s, w) =
  (Val tt, (mkScanner (baseHeight s) (scan_k s)
              (match last bs with Some b => Some b | None => confirmedTipBlock s end)
              (confirmedBlocksChan s ++ bs) (ckptCache s) (unconfirmedBlockCache s)
              (blockHeaderChan s) (checkpointsChan s), w)).
Proof.
  unfold sendConfirmedBlocksToChan. revert s. induction bs as [|b bs IH]; intros s; cbn [for_each].
  { cbn. rewrite app_nil_r. by destruct s. }
  rewrite bind_unfold. unfold on_self at 1, zoom at 1, modify. cbn [fst snd].
  rewrite IH. cbn. rewrite <-app_assoc. destruct bs; [done|]. cbn.
  destruct (last _) eqn:E; [done|]. by apply last_None in E.
Qed.

(** ** The invariant *)
Record scan_ok (s : BtcScanner) : Prop := {
  ok_base : is_u32 (baseHeight s);
  ok_cache : window_ok known (unconfirmedBlockCache s);
  ok_sent : chained (confirmedBlocksChan s);
  ok_tip : last (confirmedBlocksChan s) = confirmedTipBlock s;
  ok_known : Forall (ib_known known) (confirmedBlocksChan s);
}.
Definition scan_inv (x : BtcScanner * W) : Prop := scan_ok (fst x).

Lemma ok_tip_known s t : scan_ok s → confirmedTipBlock s = Some t → ib_known known t.
Proof.
  intros [_ _ _ Ht Hk] E. rewrite E, last_lookup in Ht. rewrite Forall_lookup in Hk. eauto.
Qed.

Lemma scan_inv_cache s w c : scan_inv (s, w) → window_ok known c → scan_inv (set_unconfirmed c s, w).
Proof. intros [? ? ? ? ?] ?. by split. Qed.

(** Sending a chain of accepted blocks that continues the emitted one. *)
Lemma scan_inv_send s w b0 bs :
  scan_inv (s, w) → chained (b0 :: bs) → Forall (ib_known known) (b0 :: bs) →
  (∀ t, confirmedTipBlock s = Some t → PrevBlock (Header b0) = BlockHash t) →
  scan_inv (snd (sendConfirmedBlocksToChan (b0 :: bs) (s, w))).
Proof.
  intros Hs Hc Hk Hp. pose proof Hs as [Hb Hca Hse Ht Hkn]. rewrite send_run.
  split; cbn -[last] in *; [done|done| | |by apply Forall_app].
  - apply chained_app. split_and!; [done|done|]. intros b c Hl Hh. cbn in Hh. simplify_eq.
    rewrite Ht in Hl. apply (known_links (W := W) known); [|by apply Forall_cons in Hk as [? _]|by apply Hp].
    by eapply ok_tip_known.
  - rewrite last_app. destruct (last (b0 :: bs)) eqn:E; [done|]. by apply last_None in E.
Qed.

(** ** Bootstrap *)
Lemma bootstrap_confirmed_inv i : is_u32 i → preserves scan_inv (bootstrap_confirmed i).
Proof.
  intros Hi [s w] Hs. unfold bootstrap_confirmed. rewrite bind_unfold, must_world.
  destruct (GetBlockByHeight i w) as [[[ib mb]|e|p|] w1] eqn:E; [|exact Hs..].
  apply (GetBlockByHeight_law (known := known)) in E as [_ Hib]; [|done]. cbn [fst].
  rewrite bind_unfold. change (on_self (gets confirmedTipBlock) (s, w1))
    with (Val (confirmedTipBlock s), (s, w1)). cbv iota beta.
  assert (scan_inv (s, w1)) as Hs1 by exact Hs.
  destruct (confirmedTipBlock s) as [t|] eqn:Et.
  - destruct (Z.eqb_spec (BlockHash t) (PrevBlock (Header ib))) as [Hp|Hp]; [|exact Hs].
    apply scan_inv_send; [done|done|by constructor|]. intros ? ?. by simplify_eq.
  - apply scan_inv_send; [done|done|by constructor|]. intros ? ?. by simplify_eq.
Qed.

Lemma bootstrap_unconfirmed_inv i : is_u32 i → preserves scan_inv (bootstrap_unconfirmed i).
Proof.
  intros Hi [s w] Hs. unfold bootstrap_unconfirmed. rewrite bind_unfold, must_world.
  destruct (GetBlockByHeight i w) as [[[ib mb]|e|p|] w1] eqn:E; [|exact Hs..].
  apply (GetBlockByHeight_law (known := known)) in E as [_ Hib]; [|done]. cbn [fst].
  rewrite bind_unfold, on_cache_gets.
  assert (scan_inv (s, w1)) as Hs1 by exact Hs. pose proof Hs1 as [_ Hc _ _ _]. cbn in Hc.
  assert (∀ tip, Tip (unconfirmedBlockCache s) = Some tip → links tip ib →
    scan_inv (snd (on_cache (Add ib) (s, w1)))) as Hadd.
  { intros tip Ht Hl. rewrite on_cache_run.
    pose proof (window_add known _ tip ib Hc Ht Hl Hib) as Hw.
    destruct (Add ib (unconfirmedBlockCache s)). by apply scan_inv_cache. }
  destruct (Tip (unconfirmedBlockCache s)) as [t|] eqn:Et.
  - destruct (Z.eqb_spec (BlockHash t) (PrevBlock (Header ib))) as [Hp|Hp]; [|exact Hs].
    apply (Hadd t); [done|]. apply (known_links (W := W) known); [|done|done].
    pose proof (window_known _ _ Hc) as Hall. rewrite Forall_forall in Hall. by apply Hall, Tip_elem.
  - cbn. rewrite on_cache_run.
    assert (blocks (unconfirmedBlockCache s) = []) as Hnil.
    { unfold Tip, size, len in Et. destruct (blocks _) as [|b bs] eqn:Eb; [done|].
      cbn -[last] in Et. by apply last_None in Et. }
    unfold Add. rewrite add_spec by apply Hc. apply scan_inv_cache; [done|].
    destruct Hc as [[H1 H2] _ _]. split; cbn.
    + split; [done|]. apply lastn_bound. etrans; [|exact H1]. done.
    + apply lastn_chained. by rewrite Hnil.
    + apply Forall_drop. rewrite Hnil. by constructor.
Qed.

Lemma for_heights_inv (I : BtcScanner * W → Prop) fuel i hi body :
  is_u32 i → (∀ j, is_u32 j → preserves I (body j)) → preserves I (for_heights fuel i hi body).
Proof.
  intros Hi Hb. revert i Hi. induction fuel as [|fuel IH]; intros i Hi; cbn [for_heights];
    destruct (i <=? hi); try apply preserves_ret; [apply preserves_diverge|].
  apply preserves_bind; [by apply Hb|]. intros _. apply IH, u32_range.
Qed.

Lemma Bootstrap_inv fuel : preserves scan_inv (Bootstrap fuel).
Proof.
  intros [s w] Hs. unfold Bootstrap. rewrite bind_unfold.
  change (on_self (gets id) (s, w)) with (Val s, (s, w)). cbv iota beta zeta.
  rewrite bind_unfold, on_cache_run. cbn [RemoveAll modify].
  set (s1 := set_unconfirmed _ s).
  assert (scan_inv (s1, w)) as Hs1.
  { apply scan_inv_cache; [done|]. apply window_empty. by destruct Hs as [_ [[]] _ _ _]. }
  rewrite bind_unfold, must_world.
  destruct (GetBestBlock w) as [[best|e|p|] w1]; [|exact Hs1..].
  match goal with |- scan_inv (snd (?m _)) => assert (preserves scan_inv m) as Hm end.
  { apply preserves_bind; [|intros _]; apply for_heights_inv.
    - destruct Hs as [Hb _ _ _ _]. destruct (confirmedTipBlock s); [apply u32_range|exact Hb].
    - apply bootstrap_confirmed_inv.
    - apply u32_range.
    - apply bootstrap_unconfirmed_inv. }
  apply Hm. exact Hs1.
Qed.

(** ** New blocks *)

(** What [confirmBlocks] does, for a [uint32] depth. *)
Lemma confirmBlocks_run s w :
  0 ≤ scan_k s → size (unconfirmedBlockCache s) ≤ MaxInt32 →
  let c := unconfirmedBlockCache s in
  let n := Z.to_nat (size c - scan_k s) in
  confirmBlocks (s, w) =
  if size c <=? scan_k s then (Val tt, (s, w))
  else
    let s1 := set_unconfirmed (with_blocks (lastn (scan_k s) (blocks c)) c) s in
    match confirmedTipBlock s, head (take n (blocks c)) with
    | None, _ => (Panic "nil pointer dereference", (s1, w))
    | Some _, None => (Panic "index out of range", (s1, w))
    | Some t, Some b0 =>
        if negb (BlockHash t =? PrevBlock (Header b0))
        then (Panic "invalid canonical chain", (s1, w))
        else sendConfirmedBlocksToChan (take n (blocks c)) (s1, w)
    end.
Proof.
  intros Hk Hsz. cbn zeta. unfold confirmBlocks. rewrite bind_unfold, on_cache_gets.
  unfold Size. assert (0 ≤ size (unconfirmedBlockCache s)) as H0 by (unfold size, len; lia).
  destruct (Z.ltb_spec MaxInt32 (size (unconfirmedBlockCache s))); [lia|].
  rewrite bind_unfold.
  change (on_self (gets scan_k) (s, w)) with (Val (scan_k s), (s, w)). cbv iota beta.
  rewrite u32_id by zrange.
  destruct (size (unconfirmedBlockCache s) <=? scan_k s) eqn:E; [done|].
  rewrite bind_unfold, on_cache_run, TrimConfirmedBlocks_spec, E by done. cbv iota beta zeta.
  set (s1 := set_unconfirmed _ s). rewrite bind_unfold.
  change (on_self (gets confirmedTipBlock) (s1, w)) with (Val (confirmedTipBlock s), (s1, w)).
  cbv iota beta. destruct (confirmedTipBlock s); [|done]. destruct (head _); [|done].
  by case_match.
Qed.

Lemma confirmBlocks_inv s w :
  0 ≤ scan_k s → size (unconfirmedBlockCache s) ≤ MaxInt32 →
  scan_inv (s, w) → scan_inv (snd (confirmBlocks (s, w))).
Proof.
  intros Hk Hsz Hs. rewrite confirmBlocks_run by done. cbn zeta.
  set (c := unconfirmedBlockCache s). set (n := Z.to_nat _).
  destruct (size c <=? scan_k s) eqn:E; [done|]. apply Z.leb_gt in E.
  pose proof Hs as [_ Hw _ _ _]. cbn in Hw. fold c in Hw. pose proof Hw as [[H1 H2] Hch Hkn].
  assert (scan_inv (set_unconfirmed (with_blocks (lastn (scan_k s) (blocks c)) c) s, w)) as Hs1.
  { apply scan_inv_cache; [done|]. apply (window_lastn known c (scan_k s)); [done|lia|done]. }
  destruct (confirmedTipBlock s) as [t|] eqn:Et; [|exact Hs1].
  destruct (take n (blocks c)) as [|b0 bs] eqn:Eb; cbn [head]; [exact Hs1|].
  destruct (Z.eqb_spec (BlockHash t) (PrevBlock (Header b0))) as [Hp|Hp]; [|exact Hs1].
  cbn [negb]. apply scan_inv_send; [done| | |].
  - rewrite <-Eb. by apply chained_take.
  - rewrite <-Eb. by apply Forall_take.
  - cbn. intros t' Ht'. rewrite Et in Ht'. by simplify_eq.
Qed.

(** The configuration: the cache is larger than the confirmation depth, and
    smaller than [MaxInt32]. *)
Definition scan_cfg_ok (s : BtcScanner) : Prop :=
  0 ≤ scan_k s ∧ maxEntries (unconfirmedBlockCache s) ≤ MaxInt32.

Lemma handleNewBlock_inv height header s w :
  scan_cfg_ok s → header_ok known header →
  scan_inv (s, w) → scan_inv (snd (handleNewBlock height header (s, w))).
Proof.
  intros [Hk Hmax] Hh Hs. unfold handleNewBlock. rewrite bind_unfold, on_cache_gets.
  pose proof Hs as [_ Hc _ _ _]. cbn in Hc.
  destruct (Tip (unconfirmedBlockCache s)) as [tip|] eqn:Et; [|exact Hs].
  destruct (height <=? Height tip); [exact Hs|].
  destruct (u32 (Height tip + 1) <? height); [exact Hs|].
  destruct (Z.eqb_spec (PrevBlock header) (BlockHash tip)) as [Hp|Hp]; [|exact Hs]. cbn [negb].
  rewrite bind_unfold, must_world.
  destruct (GetBlockByHash (HeaderHash header) w) as [[[ib mb]|e|p|] w1] eqn:Eg; [|exact Hs..].
  destruct (new_block_links known header tip w ib mb w1 Hh) as [Hl Hib]; [|done|done|].
  { pose proof (window_known _ _ Hc) as Hall. rewrite Forall_forall in Hall.
    by apply Hall, Tip_elem. }
  pose proof (window_add known _ tip ib Hc Et Hl Hib) as Hw.
  rewrite bind_unfold, on_cache_run. unfold Add in *. rewrite add_spec in * by apply Hc.
  cbn [fst snd] in *. apply confirmBlocks_inv; cbn [scan_k set_unconfirmed unconfirmedBlockCache].
  - done.
  - destruct Hw as [[_ Hb] _ _]. cbn in Hb. cbn. lia.
  - by apply scan_inv_cache.
Qed.

(** ** The configuration does not change *)
Definition cfg_inv (x : BtcScanner * W) : Prop := scan_cfg_ok (fst x).

Lemma cfg_world {A} (m : M W A) : preserves cfg_inv (on_world m).
Proof. intros [s w] Hs. rewrite on_world_run. by destruct (m w). Qed.

Lemma cfg_gets {A} (f : BtcScanner → A) : preserves cfg_inv (on_self (gets f)).
Proof. intros [s w] Hs. done. Qed.

Lemma cfg_cache {A} (m : M BTCCache A) :
  (∀ c, maxEntries (snd (m c)) = maxEntries c) → preserves cfg_inv (on_cache m).
Proof.
  intros Hm [s w] [Hk Hs]. rewrite on_cache_run. specialize (Hm (unconfirmedBlockCache s)).
  destruct (m _) as [o c]. cbn in *. split; [done|]. cbn. by rewrite Hm.
Qed.

Lemma cfg_send bs : preserves cfg_inv (sendConfirmedBlocksToChan bs).
Proof. intros [s w] Hs. rewrite send_run. exact Hs. Qed.

Lemma Add_maxEntries ib c : maxEntries (snd (Add ib c)) = maxEntries c.
Proof.
  unfold Add, add. rewrite bind_unfold. cbn. destruct (_ <? _); [done|]. rewrite bind_unfold.
  destruct (_ =? _); [destruct (blocks c)|]; done.
Qed.

Lemma Trim_maxEntries k c : maxEntries (snd (TrimConfirmedBlocks k c)) = maxEntries c.
Proof. unfold TrimConfirmedBlocks. rewrite bind_unfold. cbn. by repeat case_match. Qed.

Hint Resolve cfg_world cfg_gets cfg_send : preserves.

Lemma cfg_for_heights fuel i hi body :
  (∀ j, preserves cfg_inv (body j)) → preserves cfg_inv (for_heights fuel i hi body).
Proof.
  intros Hb. revert i. induction fuel as [|fuel IH]; intros i; cbn [for_heights]; preserve; auto.
Qed.

Lemma cfg_Bootstrap fuel : preserves cfg_inv (Bootstrap fuel).
Proof.
  unfold Bootstrap. preserve; try (apply cfg_cache; done).
  - apply cfg_for_heights. intros j. unfold bootstrap_confirmed. preserve.
  - apply cfg_for_heights. intros j. unfold bootstrap_unconfirmed.
    preserve; apply cfg_cache; try done; apply Add_maxEntries.
Qed.

Lemma cfg_handleNewBlock height header : preserves cfg_inv (handleNewBlock height header).
Proof.
  unfold handleNewBlock, confirmBlocks. preserve; apply cfg_cache; try done.
  - apply Add_maxEntries.
  - apply Trim_maxEntries.
Qed.

(** ** The event loop *)
Definition scanner_inv (x : BtcScanner * W) : Prop := scan_inv x ∧ cfg_inv x.

Definition scan_event_ok (e : scan_event) : Prop :=
  match e with ScanEpoch _ header => header_ok known header | _ => True end.

Lemma scan_loop_inv fuel evs :
  Forall scan_event_ok evs → preserves scanner_inv (scan_loop fuel evs).
Proof.
  assert (preserves scanner_inv (Bootstrap fuel)) as HB.
  { intros x [H1 H2]. split; [by apply Bootstrap_inv|by apply cfg_Bootstrap]. }
  induction 1 as [|[height header| |] evs He _ IH]; cbn [scan_loop]; try apply preserves_ret.
  case_match; [apply preserves_panic|].
  apply preserves_bind.
  - apply preserves_try. intros [s w] [H1 H2]. split; [by apply handleNewBlock_inv|].
    by apply cfg_handleNewBlock.
  - intros res. apply preserves_bind; [|done]. destruct res; [apply preserves_ret|exact HB].
Qed.

Lemma handler_inv fuel evs :
  Forall scan_event_ok evs → preserves scanner_inv (bootstrapAndBlockEventHandler fuel evs).
Proof.
  intros He. unfold bootstrapAndBlockEventHandler. apply preserves_bind.
  { intros x [H1 H2]. split; [by apply Bootstrap_inv|by apply cfg_Bootstrap]. }
  intros _. apply preserves_bind.
  { intros [s w] Hs. by rewrite on_cache_gets. }
  intros [b|]; [case_match; [apply preserves_panic|]|]; by apply scan_loop_inv.
Qed.

(** ** Depth and completeness of a confirmation *)

(** With room in the cache, adding a block and confirming loses no block, and
    what is sent is at least [k] deep. *)
Lemma confirm_step s w ib :
  scan_inv (s, w) → 0 < scan_k s →
  size (unconfirmedBlockCache s) ≤ scan_k s < maxEntries (unconfirmedBlockCache s) →
  maxEntries (unconfirmedBlockCache s) ≤ MaxInt32 →
  (∀ t, Tip (unconfirmedBlockCache s) = Some t → links t ib) →
  ∀ s' w', (on_cache (Add ib) ;; confirmBlocks) (s, w) = (Val tt, (s', w')) →
  ∃ sent, confirmedBlocksChan s' = confirmedBlocksChan s ++ sent ∧
    blocks (unconfirmedBlockCache s) ++ [ib] = sent ++ blocks (unconfirmedBlockCache s') ∧
    size (unconfirmedBlockCache s') ≤ scan_k s ∧
    Forall (λ b, Height b + scan_k s ≤ Height ib) sent.
Proof.
  intros Hs Hk [Hsz Hmax] Hmi Hlink s' w' Hr.
  pose proof Hs as [_ [Hok Hch _] _ _ _]. cbn in Hok, Hch.
  rewrite bind_unfold, on_cache_run in Hr. unfold Add in Hr. rewrite add_spec in Hr by done.
  set (c := unconfirmedBlockCache s) in *.
  assert (lastn (maxEntries c) (blocks c ++ [ib]) = blocks c ++ [ib]) as Hall.
  { unfold lastn. rewrite length_app. unfold size, len in *. cbn.
    replace (length (blocks c) + 1 - Z.to_nat (maxEntries c))%nat with 0%nat by lia. done. }
  rewrite Hall in Hr. set (bs := blocks c ++ [ib]) in *.
  assert (len bs = size c + 1) as Hlen.
  { unfold bs, len, size. rewrite length_app. unfold len. cbn. lia. }
  rewrite confirmBlocks_run in Hr; [|cbn; lia|cbn; unfold size; cbn; lia].
  cbn zeta in Hr. cbn [scan_k set_unconfirmed unconfirmedBlockCache with_blocks blocks] in Hr.
  unfold size at 1 2 in Hr. cbn [blocks with_blocks] in Hr.
  destruct (Z.leb_spec (len bs) (scan_k s)) as [Hle|Hgt].
  { simplify_eq. exists []. cbn. unfold size. cbn. rewrite app_nil_r.
    split_and!; [done|done|done|constructor]. }
  assert (chained bs) as Hcb.
  { apply chained_snoc. split; [done|]. intros t Ht. apply Hlink. unfold Tip, size.
    destruct (blocks c); [done|]. exact Ht. }
  set (n := Z.to_nat (len bs - scan_k s)) in *.
  assert (bs = take n bs ++ lastn (scan_k s) bs) as Hsplit.
  { unfold lastn. unfold len in *.
    replace (length bs - Z.to_nat (scan_k s))%nat with n by lia. by rewrite take_drop. }
  change (size (with_blocks bs c)) with (len bs) in Hr. fold n in Hr.
  change (confirmedTipBlock (set_unconfirmed (with_blocks bs c) s)) with (confirmedTipBlock s) in Hr.
  destruct (confirmedTipBlock s) as [t|]; [|done].
  destruct (head (take n bs)) as [b0|] eqn:Eh; [|done].
  destruct (negb _); [done|]. rewrite send_run in Hr. injection Hr as <- <-. cbn.
  exists (take n bs). split_and!; [done|exact Hsplit| |].
  - unfold size. cbn. apply lastn_bound. lia.
  - apply Forall_lookup. intros i b Hb.
    assert (bs !! i = Some b ∧ (i < n)%nat) as [Hbi Hin].
    { apply lookup_take_Some in Hb. naive_solver. }
    assert (bs !! (length bs - 1)%nat = Some ib) as Hlast.
    { unfold bs. rewrite length_app. cbn.
      replace (length (blocks c) + 1 - 1)%nat with (length (blocks c)) by lia.
      by rewrite lookup_app_r, Nat.sub_diag by lia. }
    assert (Z.of_nat n = len bs - scan_k s) as Hn by lia.
    clear Hsplit Hall Eh Hlen Hgt Hb. clearbody n bs. destruct bs as [|f bs']; [done|].
    rewrite (chained_height _ _ _ _ Hcb Hbi), (chained_height _ _ _ _ Hcb Hlast).
    unfold len in *. cbn in *. lia.
Qed.

(** A connecting block that overflows the cache before anything was confirmed
    makes the scanner dereference a [nil] confirmed tip. *)
Lemma confirm_nil_tip s w ib :
  cache_ok (unconfirmedBlockCache s) → confirmedTipBlock s = None → 0 ≤ scan_k s →
  size (unconfirmedBlockCache s) = scan_k s →
  scan_k s < maxEntries (unconfirmedBlockCache s) ≤ MaxInt32 →
  fst ((on_cache (Add ib) ;; confirmBlocks) (s, w)) = Panic "nil pointer dereference".
Proof.
  intros Hok Ht Hk Hsz Hmax.
  rewrite bind_unfold, on_cache_run. unfold Add. rewrite add_spec by done.
  set (c := unconfirmedBlockCache s) in *.
  assert (len (lastn (maxEntries c) (blocks c ++ [ib])) = scan_k s + 1) as Hlen.
  { rewrite lastn_length by lia. unfold size, len in *. rewrite length_app. cbn. lia. }
  rewrite confirmBlocks_run; [|cbn; lia|cbn; unfold size; cbn; lia].
  cbn zeta. cbn [scan_k set_unconfirmed unconfirmedBlockCache with_blocks blocks confirmedTipBlock].
  unfold size. cbn [blocks with_blocks].
  destruct (Z.leb_spec (len (lastn (maxEntries c) (blocks c ++ [ib]))) (scan_k s)); [lia|].
  by rewrite Ht.
Qed.
End props.
