(* ===== verification/Monitor.v ===== *)
(** * The monitor ([monitor/monitor.go], [query.go], [liveness_checker.go])

    The monitor checks the checkpoints found on Bitcoin against Babylon, epoch
    by epoch, and raises an alarm when a checkpoint is not reported to Babylon
    in time.  Its state is the current epoch and the checklist; the world holds
    the Babylon node it queries and its database. *)

From S2P Require Import Prelude Blocks BTCCache CkptCache Retry Reporter EpochInfo Stores Scanner.

(** ** Babylon's answers *)
Inductive CheckpointStatus := Accumulating | Sealed | Submitted | Confirmed | Finalized.
#[global] Instance CheckpointStatus_eq_dec : EqDecision CheckpointStatus.
Proof. solve_decision. Defined.

Record BlsPublicKeyListResponse := mkBlsKeyRes {
  bk_ValidatorAddress : string;
  bk_BlsPubKeyHex : string;
  bk_VotingPower : Z;
}.

(** [BabylonQueryClient]; every response is read through its fields.  A
    [QueryRawCheckpointResponse] whose [RawCheckpoint] is [nil] is [None]. *)
Class BabylonQueryClient (W : Type) := {
  q_Start : M W unit;
  q_EndedEpochBTCHeight : Z → M W Z;
  q_ReportedCheckpointBTCHeight : string → M W Z;
  RawCheckpointResponse : Type;
  q_RawCheckpoint : Z → M W (option (RawCheckpointResponse * CheckpointStatus));
  ToRawCheckpoint : RawCheckpointResponse → result RawCheckpoint;
  q_BTCHeaderChainTip_Height : M W (option Z);
  q_ContainsBTCBlock : Hash → M W bool;
  q_CurrentEpoch : M W Z;
  q_BlsPublicKeyList : Z → M W (list BlsPublicKeyListResponse);
}.

Definition ErrCheckpointNotReported := "monitortypes.ErrCheckpointNotReported".

Record MonitorConfig := mkMonitorConfig {
  EnableLivenessChecker : bool;
  MaxLiveBtcHeights : Z;
  LivenessCheckIntervalSeconds : Z;
  MaxRetryTimes : Z;
}.

Record Monitor := mkMonitor {
  curEpoch : EpochInfo;
  checkpointChecklist : Bookkeeper.CheckpointsBookkeeper;
  mon_metrics : list metric_event;
}.
Definition set_curEpoch (e : EpochInfo) (m : Monitor) : Monitor :=
  mkMonitor e (checkpointChecklist m) (mon_metrics m).
Definition set_checklist (c : Bookkeeper.CheckpointsBookkeeper) (m : Monitor) : Monitor :=
  mkMonitor (curEpoch m) c (mon_metrics m).
Definition mon_metric (e : metric_event) (m : Monitor) : Monitor :=
  mkMonitor (curEpoch m) (checkpointChecklist m) (mon_metrics m ++ [e]).

(** [utils.go] *)
Definition minBTCHeight (h1 h2 : Z) : Z := if h2 <? h1 then h2 else h1.

(** The validators are ordered by the first eight bytes of their address. *)
Section sorted.
Context {GS : GoSort}.
Context (ValAddressFromBech32 : string → result bytes) (BigEndianToUint64 : bytes → Z).

Definition val_key (v : ValidatorWithBlsKey) : Z :=
  match ValAddressFromBech32 (ValidatorAddress v) with
  | Ok a => BigEndianToUint64 a
  | Err _ => 0
  end.
Definition val_address_ok (v : ValidatorWithBlsKey) : bool :=
  match ValAddressFromBech32 (ValidatorAddress v) with Ok _ => true | Err _ => false end.

(** The comparison, called on every validator when there are two or more,
    panics on an address that does not parse. *)
Definition GetSortedValSet (vs : list ValidatorWithBlsKey) : outcome (list ValidatorWithBlsKey) :=
  if (2 <=? len vs) && negb (forallb val_address_ok vs)
  then Panic "failed to parse validator address"
  else Val (sort_Slice val_key vs).
End sorted.

Section monitor.
Context {BLS : BLSLib} {RT : Retry} {BL : BTCLib}.
Context {W : Type} {BQ : BabylonQueryClient W} {KV : KVDB W}.
Context (Cfg : MonitorConfig).

Notation MM A := (M (Monitor * W) A).
Definition mon_self {A} (m : M Monitor A) : MM A := zoom fst (λ t s, (t, snd s)) m.
Definition mon_world {A} (m : M W A) : MM A := zoom snd (λ w s, (fst s, w)) m.

(** ** Queries with retries

    The closure copies a successful response into a variable that starts as
    the zero value. *)
Definition query_retry {A} (zero : A) (call : M W A) : MM A :=
  mon_world (capture (λ f, Do f (mkRetryOpts (MaxRetryTimes Cfg) (λ _, true) false false))
               zero (assign_ok call)).

Definition queryCurrentEpochWithRetry : MM Z := query_retry 0 q_CurrentEpoch.
Definition queryRawCheckpointWithRetry (epoch : Z)
  : MM (option (RawCheckpointResponse * CheckpointStatus)) :=
  query_retry None (q_RawCheckpoint epoch).
Definition queryBlsPublicKeyListWithRetry (epoch : Z) : MM (list BlsPublicKeyListResponse) :=
  query_retry [] (q_BlsPublicKeyList epoch).
Definition queryEndedEpochBTCHeightWithRetry (epoch : Z) : MM Z :=
  query_retry 0 (q_EndedEpochBTCHeight epoch).
Definition queryReportedCheckpointBTCHeightWithRetry (hashStr : string) : MM Z :=
  query_retry 0 (q_ReportedCheckpointBTCHeight hashStr).
Definition queryBTCHeaderChainTipWithRetry : MM (option Z) :=
  query_retry None q_BTCHeaderChainTip_Height.
Definition queryContainsBTCBlockWithRetry (blockHash : Hash) : MM bool :=
  query_retry false (q_ContainsBTCBlock blockHash).

Fixpoint convertFromBlsPublicKeyListResponse (keys : list BlsPublicKeyListResponse)
  : result (list ValidatorWithBlsKey) :=
  match keys with
  | [] => Ok []
  | k :: keys =>
      match hex_DecodeString (bk_BlsPubKeyHex k) with
      | Err e => Err e
      | Ok blsKey =>
          result_map (cons (mkValidator (bk_ValidatorAddress k) blsKey (bk_VotingPower k)))
            (convertFromBlsPublicKeyListResponse keys)
      end
  end.

Definition QueryInfoForNextEpoch (epoch : Z) : MM EpochInfo :=
  res ← wrap_err "failed to query BLS key set" (queryBlsPublicKeyListWithRetry epoch);
  blsKeys ← wrap_err "failed to convert BLS key response set"
    (of_result (convertFromBlsPublicKeyListResponse res));
  mret (NewEpochInfo epoch blsKeys).

Definition status_confirmed (st : CheckpointStatus) : bool :=
  bool_decide (st = Confirmed) || bool_decide (st = Finalized).

(** The loop of [FindTipConfirmedEpoch] from epoch [curEpoch] downwards. *)
Fixpoint find_confirmed (curEpoch : nat) : MM Z :=
  match curEpoch with
  | O => fail (ENew "cannot find a confirmed or finalized epoch from Babylon")
  | S prev =>
      ckptRes ← wrap_err "failed to query the checkpoint"
        (queryRawCheckpointWithRetry (Z.of_nat prev));
      match ckptRes with
      | None => panic "nil pointer dereference"
      | Some (_, st) => if status_confirmed st then mret (Z.of_nat prev) else find_confirmed prev
      end
  end.
Definition FindTipConfirmedEpoch : MM Z :=
  cur ← wrap_err "failed to query the current epoch of Babylon" queryCurrentEpochWithRetry;
  find_confirmed (Z.to_nat cur).

(** ** Epochs and headers *)
Definition GetCurrentEpoch (m : Monitor) : Z := GetEpochNumber (curEpoch m).

Definition UpdateEpochInfo (epoch : Z) : MM unit :=
  ei ← wrap_err "failed to query information of the epoch" (QueryInfoForNextEpoch epoch);
  mon_self (modify (set_curEpoch ei)).

Definition checkHeaderConsistency (header : BlockHeader) : MM unit :=
  res ← queryContainsBTCBlockWithRetry (HeaderHash header);
  match res with
  | true => mret tt
  | false => fail (ENew "BTC header does not exist on Babylon BTC light client")
  end.

Definition handleNewConfirmedHeader (block : IndexedBlock) : MM unit :=
  checkHeaderConsistency (Header block) ;;
  mon_world (MonitorStore.PutLatestHeight (Height block)).

(** ** Checkpoints *)
Definition VerifyCheckpoint (btcCkpt : RawCheckpoint) : MM unit :=
  m ← mon_self (gets id);
  if negb (GetCurrentEpoch m =? EpochNum btcCkpt)
  then fail (EWrap "found a checkpoint of another epoch" (ESentinel ErrInvalidEpochNum))
  else
    match VerifyMultiSig (curEpoch m) btcCkpt with
    | Some err => fail (EWrap "invalid BLS sig of BTC checkpoint" err)
    | None =>
        res ← wrap_err "failed to query raw checkpoint from Babylon"
          (queryRawCheckpointWithRetry (EpochNum btcCkpt));
        match res with
        | None => panic "nil pointer dereference"
        | Some (resp, _) =>
            ckpt ← wrap_err "failed to parse raw checkpoint" (of_result (ToRawCheckpoint resp));
            match VerifyMultiSig (curEpoch m) ckpt with
            | Some err => fail (EWrap "invalid BLS sig of Babylon raw checkpoint" err)
            | None =>
                if negb (bool_decide (rc_BlockHash ckpt = rc_BlockHash btcCkpt))
                then fail (EWrap "Babylon checkpoint's BlockHash"
                             (ESentinel ErrInconsistentBlockHash))
                else mret tt
            end
        end
    end.

Definition addCheckpointToCheckList (ckpt : CheckpointRecord) : MM unit :=
  let record := Bookkeeper.NewCheckpointRecord (cr_RawCheckpoint ckpt) (FirstSeenBtcHeight ckpt) in
  mon_self (modify (λ m, set_checklist (Bookkeeper.Add record (checkpointChecklist m)) m)).

Definition add_if_enabled (ckpt : CheckpointRecord) : MM unit :=
  if EnableLivenessChecker Cfg then addCheckpointToCheckList ckpt else mret tt.

Definition handleNewConfirmedCheckpoint (ckpt : CheckpointRecord) : MM unit :=
  err ← try (VerifyCheckpoint (cr_RawCheckpoint ckpt));
  match err with
  | Err err =>
      if errors_Is err ErrInconsistentBlockHash then
        add_if_enabled ckpt ;;
        fail (EWrap "verification failed" err)
      else mret tt
  | Ok _ =>
      add_if_enabled ckpt ;;
      currentEpoch ← mon_self (gets GetCurrentEpoch);
      let nextEpochNum := u64 (currentEpoch + 1) in
      wrap_err "failed to update information of epoch" (UpdateEpochInfo nextEpochNum) ;;
      wrap_err "failed to set epoch" (mon_world (MonitorStore.PutLatestEpoch currentEpoch))
  end.

(** ** Liveness *)
Definition CheckLiveness (cr : CheckpointRecord) : MM unit :=
  btcHeightEpochEnded ← wrap_err "the epoch is not ended on Babylon"
    (queryEndedEpochBTCHeightWithRetry (Bookkeeper.cr_EpochNum cr));
  let minHeight := minBTCHeight btcHeightEpochEnded (FirstSeenBtcHeight cr) in
  reportedRes ← try (queryReportedCheckpointBTCHeightWithRetry (Bookkeeper.ID cr));
  gap ← (match reportedRes with
         | Ok btcHeightCkptReported => mret (btcHeightCkptReported - minHeight)
         | Err err =>
             if negb (errors_Is err ErrCheckpointNotReported)
             then fail (EWrap "failed to query checkpoint reported BTC height" err)
             else
               chainTipRes ← wrap_err "failed to query the current tip height of BTC light client"
                 queryBTCHeaderChainTipWithRetry;
               match chainTipRes with
               | None => panic "nil pointer dereference"
               | Some currentBtcTipHeight => mret (currentBtcTipHeight - minHeight)
               end
         end);
  if gap <? 0 then fail (ENew "the gap between two BTC heights should not be negative")
  else if MaxLiveBtcHeights Cfg <? gap
  then fail (EWrap "the gap BTC height is larger than the threshold" (ESentinel ErrLivenessAttack))
  else mret tt.

(** One tick of [runLivenessChecker]. *)
Definition check_record (c : CheckpointRecord) : MM unit :=
  err ← try (CheckLiveness c);
  match err with
  | Err _ => mon_self (modify (mon_metric (MInc "LivenessAttacksCounter")))
  | Ok _ => mon_self (modify (λ m,
      set_checklist (Bookkeeper.Remove (Bookkeeper.ID c) (checkpointChecklist m)) m))
  end.
Definition liveness_tick
    (order : Bookkeeper.CheckpointsBookkeeper → list (string * CheckpointRecord)) : MM unit :=
  cb ← mon_self (gets checkpointChecklist);
  for_each (Bookkeeper.GetAll order cb) check_record.

(** ** [New] *)
Section new.
Context {BF : BabylonFormatter} {GS : GoSort}.
Context (ValAddressFromBech32 : string → result bytes) (BigEndianToUint64 : bytes → Z).

(** The genesis information gives the tag and the validators of epoch 1. *)
Definition NewMonitor (btcCacheSize k : Z) (checkpointTag : string)
    (blsKeySet : list ValidatorWithBlsKey) : M W (Monitor * BtcScanner) :=
  wrap_err "error setting up store" MonitorStore.NewMonitorStore ;;
  checkpointTagBytes ← wrap_err "invalid hex checkpoint tag"
    (of_result (hex_DecodeString checkpointTag));
  btcScanner ← of_outcome (NewScanner btcCacheSize k checkpointTagBytes);
  sortedGenesisValSet ← of_outcome (GetSortedValSet ValAddressFromBech32 BigEndianToUint64 blsKeySet);
  mret (mkMonitor (NewEpochInfo 1 sortedGenesisValSet) Bookkeeper.NewCheckpointsBookkeeper [],
        btcScanner).
End new.

(** ** [Start] *)

(** Up to the height the scanner starts at. *)
Definition start_init (baseHeight : Z) : MM Z :=
  must "failed to start Babylon querier" (mon_world q_Start) ;;
  epochNumber ← must "getting epoch from db err" (mon_world MonitorStore.LatestEpoch);
  (match epochNumber with
   | Some e => must "error updating epoch" (UpdateEpochInfo (u64 (e + 1)))
   | None =>
       currentEpochResp ← try (mon_world q_CurrentEpoch);
       match currentEpochResp with
       | Err _ => mret tt
       | Ok cur => if 0 <? cur then must "error updating epoch" (UpdateEpochInfo cur) else mret tt
       end
   end) ;;
  dbHeight ← must "error getting latest height from db" (mon_world MonitorStore.LatestHeight);
  match dbHeight with
  | None => mret baseHeight
  | Some h => if MaxUint32 <? h then panic "dbHeight exceeds uint32 range"
              else mret (u32 (u32 h + 1))
  end.

Inductive monitor_event :=
| MonQuit
| MonBlock (block : IndexedBlock)
| MonCkpt (ckpt : CheckpointRecord).

Definition inc (name : string) : MM unit := mon_self (modify (mon_metric (MInc name))).

(** One round of the main loop; the counters of valid items are incremented on
    both paths. *)
Definition monitor_event_step (e : monitor_event) : MM unit :=
  match e with
  | MonQuit => mret tt
  | MonBlock block =>
      err ← try (handleNewConfirmedHeader block);
      (match err with Err _ => inc "InvalidBTCHeadersCounter" | Ok _ => mret tt end) ;;
      inc "ValidBTCHeadersCounter"
  | MonCkpt ckpt =>
      err ← try (handleNewConfirmedCheckpoint ckpt);
      (match err with Err _ => inc "InvalidEpochsCounter" | Ok _ => mret tt end) ;;
      inc "ValidEpochsCounter"
  end.

Fixpoint monitor_loop (evs : list monitor_event) : MM unit :=
  match evs with
  | [] | MonQuit :: _ => mret tt
  | e :: evs => monitor_event_step e ;; monitor_loop evs
  end.
End monitor.
