(* ===== verification/MonitorProps.v ===== *)
(** * Correctness of the monitor

    A checkpoint is accepted only if it is of the current epoch, signed by a
    supermajority and equal to Babylon's; a conflicting one is kept for the
    liveness checker and stops the epoch; epochs advance one at a time and are
    persisted; the liveness check raises the alarm exactly past the threshold. *)

From S2P Require Import Prelude Blocks BTCCache CkptCache Retry Reporter EpochInfo Stores Scanner.
From S2P Require Import Monitor.

Section props.
Context {BLS : BLSLib} {RT : Retry} {BL : BTCLib}.
Context {W : Type} {BQ : BabylonQueryClient W} {KV : KVDB W}.
Context (Cfg : MonitorConfig).
Implicit Types (m : Monitor) (w : W).

Lemma mon_world_run {A} (x : M W A) m w :
  mon_world x (m, w) = (let '(o, w') := x w in (o, (m, w'))).
Proof. done. Qed.

(** ** Queries *)
Lemma query_retry_frame {A} (zero : A) call m w :
  fst (snd (query_retry Cfg zero call (m, w))) = m.
Proof. unfold query_retry. rewrite mon_world_run. by destruct (capture _ _ _ w). Qed.

(** A retried query returns an answer of Babylon, or the zero value when the
    wrapper swallowed an error. *)
Lemma query_retry_answer {A} (zero : A) call x a x' :
  0 < MaxRetryTimes Cfg → query_retry Cfg zero call x = (Val a, x') →
  a = zero ∨ ∃ w1 w2, call w1 = (Val a, w2).
Proof.
  intros Hat. destruct x as [m w]. unfold query_retry. rewrite mon_world_run. unfold capture, Do.
  set (opts := Do_opts _). set (f := assign_ok call).
  assert (retried opts f [] (w, zero) (retry_Do opts f (w, zero))) as Hr.
  { apply retry_Do_spec; cbn; lia. }
  pose (I := λ y : W * A, snd y = zero ∨ ∃ w1 w2, call w1 = (Val (snd y), w2)).
  assert (I (snd (retry_Do opts f (w, zero)))) as HI.
  { eapply (retried_inv I); [|exact Hr|by left]. intros [w1 a1] Ha. unfold f, assign_ok.
    destruct (call w1) as [[b|e|p|] w2] eqn:E; [right; eauto|exact Ha..]. }
  unfold I in HI. destruct (retry_Do opts f (w, zero)) as [[[]|e|p|] [w1 a1]];
    cbn -[containsErr] in *; [|destruct (containsErr expectedErrors e)|..]; intros; simplify_eq; auto.
Qed.

(** A query that Babylon answers at once is answered. *)
Lemma query_retry_once {A} (zero : A) call m w a w' :
  0 < MaxRetryTimes Cfg → call w = (Val a, w') →
  query_retry Cfg zero call (m, w) = (Val a, (m, w')).
Proof.
  intros Hat Hc. unfold query_retry. rewrite mon_world_run. unfold capture.
  rewrite (Do_once_Val _ _ _ (w', a)); [done|done|done|].
  unfold assign_ok. by rewrite Hc.
Qed.

(** A query that always fails the same way fails that way. *)
Lemma query_retry_fails {A} (zero : A) call m w e :
  0 < MaxRetryTimes Cfg → (∀ w, call w = (Error e, w)) →
  containsErr expectedErrors e = false →
  ∃ e', query_retry Cfg zero call (m, w) = (Error e', (m, w)) ∧
        ∀ t, errors_Is e' t = errors_Is e t.
Proof.
  intros Hat Hc He. unfold query_retry. rewrite mon_world_run. unfold capture, Do.
  set (opts := Do_opts _). set (f := assign_ok call).
  destruct (retried_const opts f e [] (w, zero) (retry_Do opts f (w, zero))) as (e' & -> & Heq).
  - done.
  - intros [w1 a1]. unfold f, assign_ok. by rewrite Hc.
  - constructor.
  - apply retry_Do_spec; cbn; lia.
  - assert (containsErr expectedErrors e' = false) as ->; [|eauto].
    destruct (containsErr expectedErrors e') eqn:E; [|done].
    apply containsErr_spec in E as (t & Ht & Et). rewrite Heq in Et.
    rewrite <-He. symmetry. apply containsErr_spec. eauto.
Qed.

(** ** Verification *)

(** Babylon's checkpoint for an epoch, as it answers some query. *)
Definition babylon_checkpoint (epoch : Z) (ckpt : RawCheckpoint) : Prop :=
  ∃ w1 w2 resp st, q_RawCheckpoint epoch w1 = (Val (Some (resp, st)), w2) ∧
    ToRawCheckpoint resp = Ok ckpt.

Lemma VerifyCheckpoint_sound btcCkpt m w x' :
  0 < MaxRetryTimes Cfg →
  VerifyCheckpoint Cfg btcCkpt (m, w) = (Val tt, x') →
  EpochNum btcCkpt = GetCurrentEpoch m ∧
  VerifyMultiSig (curEpoch m) btcCkpt = None ∧
  ∃ ckpt, babylon_checkpoint (EpochNum btcCkpt) ckpt ∧
    VerifyMultiSig (curEpoch m) ckpt = None ∧ rc_BlockHash ckpt = rc_BlockHash btcCkpt.
Proof.
  intros Hat Hr. unfold VerifyCheckpoint in Hr. rewrite bind_unfold in Hr.
  cbn [mon_self zoom gets fst snd id] in Hr.
  destruct (Z.eqb_spec (GetCurrentEpoch m) (EpochNum btcCkpt)) as [He|He]; [|done].
  cbn [negb] in Hr. destruct (VerifyMultiSig (curEpoch m) btcCkpt) eqn:E1; [done|].
  apply bind_Val_inv in Hr as (res & x1 & Hq & Hr). unfold wrap_err in Hq.
  destruct (queryRawCheckpointWithRetry Cfg (EpochNum btcCkpt) _) as [[o|e|p|] x2] eqn:Eq;
    simplify_eq. destruct res as [[resp st]|]; [|done].
  apply bind_Val_inv in Hr as (ckpt & x3 & Hp & Hr). unfold wrap_err, of_result in Hp.
  destruct (ToRawCheckpoint resp) as [c|] eqn:Ep; [|done]. unfold mret, M_ret in Hp. simplify_eq.
  destruct (VerifyMultiSig (curEpoch m) ckpt) eqn:E2; [done|].
  destruct (bool_decide _) eqn:Eb; [|done]. apply bool_decide_eq_true in Eb.
  split_and!; [done|done|]. exists ckpt. split_and!; [|done|done].
  apply query_retry_answer in Eq as [?|(w1 & w2 & Hc)]; [done| |done].
  exists w1, w2, resp, st. done.
Qed.

(** Verifying changes nothing in the monitor. *)
Lemma VerifyCheckpoint_frame btcCkpt m w : fst (snd (VerifyCheckpoint Cfg btcCkpt (m, w))) = m.
Proof.
  unfold VerifyCheckpoint. rewrite bind_unfold. cbn [mon_self zoom gets fst snd id].
  destruct (negb _); [done|]. destruct (VerifyMultiSig _ _); [done|].
  rewrite bind_unfold. unfold wrap_err at 1.
  pose proof (query_retry_frame None (q_RawCheckpoint (EpochNum btcCkpt)) m w) as Hf.
  unfold queryRawCheckpointWithRetry.
  destruct (query_retry Cfg None _ (m, w)) as [[[[resp st]|]|e|p|] [m1 w1]]; cbn in Hf; subst; try done.
  rewrite bind_unfold. unfold wrap_err, of_result. destruct (ToRawCheckpoint resp); [|done]. cbn.
  destruct (VerifyMultiSig _ _); [done|]. by destruct (bool_decide _).
Qed.

(** ** Handling a confirmed checkpoint *)
Definition listed (m : Monitor) (cr : CheckpointRecord) : Prop :=
  ∃ r, checkpointChecklist m !! Bookkeeper.ID cr = Some r ∧
       FirstSeenBtcHeight r ≤ FirstSeenBtcHeight cr.

Lemma Add_listed cr cb :
  ∃ r, Bookkeeper.Add cr cb !! Bookkeeper.ID cr = Some r ∧
       FirstSeenBtcHeight r ≤ FirstSeenBtcHeight cr.
Proof.
  pose proof (Bookkeeper.book_run_refines cb (Bookkeeper.OpAdd cr) (Bookkeeper.ID cr)) as Hr.
  cbn in Hr. rewrite bool_decide_eq_true_2 in Hr by done. rewrite Hr. eexists. split; [done|].
  unfold Bookkeeper.earlier. destruct (cb !! _); [|done].
  destruct (Z.ltb_spec (FirstSeenBtcHeight cr) (FirstSeenBtcHeight c)); lia.
Qed.

Lemma add_if_enabled_run ckpt m w :
  ∃ m', add_if_enabled Cfg ckpt (m, w) = (Val tt, (m', w)) ∧ curEpoch m' = curEpoch m ∧
    (EnableLivenessChecker Cfg = true → listed m' ckpt).
Proof.
  unfold add_if_enabled. destruct (EnableLivenessChecker Cfg).
  - eexists. split_and!; [done|done|]. intros _. unfold listed. cbn.
    destruct ckpt. apply Add_listed.
  - eexists. split_and!; [done|done|done].
Qed.

(** A checkpoint that is properly signed but conflicts with Babylon's keeps the
    epoch, is put on the checklist and is reported as an error. *)
Lemma conflicting_checkpoint ckpt m w err x1 :
  VerifyCheckpoint Cfg (cr_RawCheckpoint ckpt) (m, w) = (Error err, x1) →
  errors_Is err ErrInconsistentBlockHash = true →
  ∃ e m' w', handleNewConfirmedCheckpoint Cfg ckpt (m, w) = (Error e, (m', w')) ∧
    curEpoch m' = curEpoch m ∧ errors_Is e ErrInconsistentBlockHash = true ∧
    (EnableLivenessChecker Cfg = true → listed m' ckpt).
Proof.
  intros Hv He. pose proof (VerifyCheckpoint_frame (cr_RawCheckpoint ckpt) m w) as Hf.
  unfold handleNewConfirmedCheckpoint. rewrite bind_unfold. unfold try. rewrite Hv in *.
  rewrite He. destruct x1 as [m1 w1]. cbn in Hf. subst m1. rewrite bind_unfold.
  destruct (add_if_enabled_run ckpt m w1) as (m' & -> & Hc & Hl).
  eexists _, _, _. split_and!; [done|done|done|done].
Qed.

(** Any other refused checkpoint is skipped without a trace. *)
Lemma refused_checkpoint ckpt m w err w1 :
  VerifyCheckpoint Cfg (cr_RawCheckpoint ckpt) (m, w) = (Error err, (m, w1)) →
  errors_Is err ErrInconsistentBlockHash = false →
  handleNewConfirmedCheckpoint Cfg ckpt (m, w) = (Val tt, (m, w1)).
Proof.
  intros Hv He. unfold handleNewConfirmedCheckpoint. rewrite bind_unfold. unfold try.
  by rewrite Hv, He.
Qed.

Lemma UpdateEpochInfo_cases epoch m w :
  match UpdateEpochInfo Cfg epoch (m, w) with
  | (Val _, (m', _)) => GetCurrentEpoch m' = epoch ∧ checkpointChecklist m' = checkpointChecklist m
  | (_, (m', _)) => m' = m
  end.
Proof.
  unfold UpdateEpochInfo, QueryInfoForNextEpoch. rewrite bind_unfold.
  unfold wrap_err at 1. rewrite bind_unfold. unfold wrap_err at 1.
  pose proof (query_retry_frame [] (q_BlsPublicKeyList epoch) m w) as Hf.
  unfold queryBlsPublicKeyListWithRetry.
  destruct (query_retry Cfg [] _ (m, w)) as [[keys|e|p|] [m1 w1]]; cbn in Hf; subst; try done.
  rewrite bind_unfold. unfold wrap_err, of_result.
  by destruct (convertFromBlsPublicKeyListResponse keys).
Qed.

(** The epoch moves by at most one, and only after a verified checkpoint. *)
Lemma handle_checkpoint_epoch ckpt m w :
  let '(o, (m', _)) := handleNewConfirmedCheckpoint Cfg ckpt (m, w) in
  GetCurrentEpoch m' = GetCurrentEpoch m ∨
  (GetCurrentEpoch m' = u64 (GetCurrentEpoch m + 1) ∧
   ∃ x, VerifyCheckpoint Cfg (cr_RawCheckpoint ckpt) (m, w) = (Val tt, x)).
Proof.
  unfold handleNewConfirmedCheckpoint. rewrite bind_unfold. unfold try.
  pose proof (VerifyCheckpoint_frame (cr_RawCheckpoint ckpt) m w) as Hf.
  destruct (VerifyCheckpoint Cfg _ (m, w)) as [[[]|e|p|] [m1 w1]] eqn:Ev; cbn in Hf; subst m1;
    [| |by left|by left].
  - rewrite bind_unfold. destruct (add_if_enabled_run ckpt m w1) as (m2 & -> & Hc2 & _).
    rewrite bind_unfold. cbn [mon_self zoom gets fst snd]. rewrite bind_unfold. unfold wrap_err at 1.
    assert (GetCurrentEpoch m2 = GetCurrentEpoch m) as Hce by (unfold GetCurrentEpoch; by rewrite Hc2).
    pose proof (UpdateEpochInfo_cases (u64 (GetCurrentEpoch m2 + 1)) m2 w1) as Hu.
    destruct (UpdateEpochInfo Cfg _ (m2, w1)) as [[[]|e|p|] [m3 w3]]; [|left; by subst..].
    destruct Hu as [Hu _]. unfold wrap_err. rewrite mon_world_run.
    destruct (MonitorStore.PutLatestEpoch _ w3) as [[[]|e|p|] w4]; right; rewrite Hu, Hce; eauto.
  - destruct (errors_Is e _); [|by left]. rewrite bind_unfold.
    destruct (add_if_enabled_run ckpt m w1) as (m2 & -> & Hc2 & _). left.
    unfold GetCurrentEpoch. by rewrite Hc2.
Qed.

(** ** Persistence *)
Section persistence.
Context {LAWS : KVLaws W}.

Definition stored_epoch (w : W) : option (list Z) :=
  stored MonitorStore.epochsBucketName MonitorStore.latestEpochKey w.
Definition stored_height (w : W) : option (list Z) :=
  stored MonitorStore.heightBucketName MonitorStore.latestHeightKey w.

(** An accepted checkpoint advances the epoch, is listed and is persisted. *)
Lemma accepted_checkpoint ckpt m w x m' w' :
  VerifyCheckpoint Cfg (cr_RawCheckpoint ckpt) (m, w) = (Val tt, x) →
  handleNewConfirmedCheckpoint Cfg ckpt (m, w) = (Val tt, (m', w')) →
  GetCurrentEpoch m' = u64 (GetCurrentEpoch m + 1) ∧
  stored_epoch w' = Some (MonitorStore.uint64ToBytes (GetCurrentEpoch m)) ∧
  (EnableLivenessChecker Cfg = true → listed m' ckpt).
Proof.
  intros Hv Hr. unfold handleNewConfirmedCheckpoint in Hr.
  apply bind_Val_inv in Hr as (res & x1 & Ht & Hr).
  pose proof (VerifyCheckpoint_frame (cr_RawCheckpoint ckpt) m w) as Hf.
  unfold try in Ht. rewrite Hv in Ht, Hf. injection Ht as <- <-.
  destruct x as [m1 w1]. cbn in Hf. subst m1.
  rewrite bind_unfold in Hr. destruct (add_if_enabled_run ckpt m w1) as (m2 & E & Hc2 & Hl).
  rewrite E in Hr. rewrite bind_unfold in Hr. cbn [mon_self zoom gets fst snd] in Hr.
  assert (GetCurrentEpoch m2 = GetCurrentEpoch m) as Hce by (unfold GetCurrentEpoch; by rewrite Hc2).
  rewrite bind_unfold in Hr. unfold wrap_err at 1 in Hr.
  pose proof (UpdateEpochInfo_cases (u64 (GetCurrentEpoch m2 + 1)) m2 w1) as Hu.
  destruct (UpdateEpochInfo Cfg _ (m2, w1)) as [[[]|e|p|] [m3 w3]]; try done.
  destruct Hu as [Hu Hcl]. unfold wrap_err in Hr. rewrite mon_world_run in Hr.
  destruct (MonitorStore.PutLatestEpoch _ w3) as [[[]|e|p|] w4] eqn:Ep; simplify_eq.
  apply kv_put_spec in Ep as [Hst _]. rewrite Hce in *. split_and!; [done|done|].
  intros He. specialize (Hl He). unfold listed in *. by rewrite Hcl.
Qed.

(** A header found consistent is persisted as the latest height. *)
Lemma accepted_header block m w m' w' :
  handleNewConfirmedHeader Cfg block (m, w) = (Val tt, (m', w')) →
  m' = m ∧ stored_height w' = Some (MonitorStore.uint64ToBytes (Height block)).
Proof.
  intros Hr. unfold handleNewConfirmedHeader in Hr.
  apply bind_Val_inv in Hr as ([] & [m1 w1] & Hc & Hr).
  unfold checkHeaderConsistency in Hc.
  apply bind_Val_inv in Hc as (b & [m2 w2] & Hq & Hc).
  pose proof (query_retry_frame false (q_ContainsBTCBlock (HeaderHash (Header block))) m w) as Hf.
  unfold queryContainsBTCBlockWithRetry in Hq. rewrite Hq in Hf. cbn in Hf. subst m2.
  destruct b; [|done]. unfold mret, M_ret in Hc. simplify_eq.
  rewrite mon_world_run in Hr.
  destruct (MonitorStore.PutLatestHeight _ w1) as [[[]|e|p|] w3] eqn:Ep; simplify_eq.
  apply kv_put_spec in Ep as [Hst _]. done.
Qed.

(** ** Restarting *)

(** Talking to Babylon leaves the database alone. *)
Definition db_untouched : Prop :=
  (∀ w o w', q_Start w = (o, w') → contents w' = contents w) ∧
  (∀ e w o w', q_BlsPublicKeyList e w = (o, w') → contents w' = contents w).

Lemma contents_stored b k (w w' : W) : contents w' = contents w → stored b k w' = stored b k w.
Proof. unfold stored. by intros ->. Qed.

Lemma query_retry_contents {A} (zero : A) call m w :
  0 < MaxRetryTimes Cfg → (∀ w o w', call w = (o, w') → contents w' = contents w) →
  contents (snd (snd (query_retry Cfg zero call (m, w)))) = contents w.
Proof.
  intros Hat Hc. unfold query_retry. rewrite mon_world_run. unfold capture, Do.
  set (opts := Do_opts _). set (f := assign_ok call).
  assert (contents (fst (snd (retry_Do opts f (w, zero)))) = contents w) as HI.
  { eapply (retried_inv (λ y : W * A, contents (fst y) = contents w));
      [|apply retry_Do_spec; cbn; lia|done].
    intros [w1 a1] Ha. unfold f, assign_ok.
    destruct (call w1) as [[b|e|p|] w2] eqn:E; apply Hc in E; cbn in *; congruence. }
  destruct (retry_Do opts f (w, zero)) as [[[]|e|p|] [w1 a1]]; cbn -[containsErr] in *;
    [done|destruct (containsErr expectedErrors e); done|done|done].
Qed.

Lemma UpdateEpochInfo_contents epoch m w :
  0 < MaxRetryTimes Cfg → db_untouched →
  contents (snd (snd (UpdateEpochInfo Cfg epoch (m, w)))) = contents w.
Proof.
  intros Hat [_ Hb]. unfold UpdateEpochInfo, QueryInfoForNextEpoch. rewrite bind_unfold.
  unfold wrap_err at 1. rewrite bind_unfold. unfold wrap_err at 1.
  pose proof (query_retry_contents [] (q_BlsPublicKeyList epoch) m w Hat (Hb epoch)) as Hf.
  unfold queryBlsPublicKeyListWithRetry.
  destruct (query_retry Cfg [] _ (m, w)) as [[keys|e|p|] [m1 w1]]; cbn in Hf; try done.
  rewrite bind_unfold. unfold wrap_err, of_result.
  by destruct (convertFromBlsPublicKeyListResponse keys).
Qed.

(** A restarted monitor continues after the last persisted epoch and height. *)
Lemma start_resumes base m w e h startHeight m' w' :
  0 < MaxRetryTimes Cfg → db_untouched → is_u64 e → is_u64 h →
  stored_epoch w = Some (MonitorStore.uint64ToBytes e) →
  stored_height w = Some (MonitorStore.uint64ToBytes h) →
  start_init Cfg base (m, w) = (Val startHeight, (m', w')) →
  GetCurrentEpoch m' = u64 (e + 1) ∧ startHeight = u32 (h + 1).
Proof.
  intros Hat Hdb He Hh Hse Hsh Hr. pose proof Hdb as [Hst _].
  unfold start_init in Hr. apply bind_Val_inv in Hr as ([] & x1 & H1 & Hr).
  unfold must in H1. rewrite mon_world_run in H1.
  destruct (q_Start w) as [[[]|?|?|] w1] eqn:E1; simplify_eq. apply Hst in E1.
  apply bind_Val_inv in Hr as (ep & x2 & H2 & Hr). unfold must in H2. rewrite mon_world_run in H2.
  destruct (MonitorStore.LatestEpoch w1) as [[ep'|?|?|] w2] eqn:E2; simplify_eq.
  apply (MonitorStore.get_stored _ _ e) in E2 as [-> Hc2]; [|done|].
  2:{ etrans; [by apply contents_stored|exact Hse]. }
  apply bind_Val_inv in Hr as ([] & [m3 w3] & H3 & Hr). unfold must in H3.
  pose proof (UpdateEpochInfo_cases (u64 (e + 1)) m w2) as Hu.
  pose proof (UpdateEpochInfo_contents (u64 (e + 1)) m w2 Hat Hdb) as Huc.
  destruct (UpdateEpochInfo Cfg _ (m, w2)) as [[[]|?|?|] [m4 w4]]; simplify_eq. cbn in Huc.
  destruct Hu as [Hu _].
  apply bind_Val_inv in Hr as (dbh & x4 & H4 & Hr). unfold must in H4. rewrite mon_world_run in H4.
  destruct (MonitorStore.LatestHeight w3) as [[dbh'|?|?|] w5] eqn:E4; simplify_eq.
  apply (MonitorStore.get_stored _ _ h) in E4 as [-> _]; [|done|].
  2:{ etrans; [apply (contents_stored _ _ w); congruence|exact Hsh]. }
  destruct (Z.ltb_spec MaxUint32 h); [done|]. unfold mret, M_ret in Hr. simplify_eq.
  split; [done|]. rewrite (u32_id h) by zrange. done.
Qed.
End persistence.

(** ** Liveness *)

(** What Babylon answers about a checkpoint: the height at which its epoch
    ended, and the height at which it was reported, or none and the current
    tip. *)
Record liveness_answers := mkAnswers { ans_ended : Z; ans_reported : option Z; ans_tip : Z }.

Definition answers_liveness (cr : CheckpointRecord) (a : liveness_answers) : Prop :=
  (∀ w, q_EndedEpochBTCHeight (Bookkeeper.cr_EpochNum cr) w = (Val (ans_ended a), w)) ∧
  (∀ w, q_ReportedCheckpointBTCHeight (Bookkeeper.ID cr) w =
        match ans_reported a with
        | Some h => (Val h, w)
        | None => (Error (ESentinel ErrCheckpointNotReported), w)
        end) ∧
  (∀ w, q_BTCHeaderChainTip_Height w = (Val (Some (ans_tip a)), w)).

(** H3 - min(H1, H2), or H4 - min(H1, H2) if the checkpoint is not reported. *)
Definition liveness_gap (cr : CheckpointRecord) (a : liveness_answers) : Z :=
  default (ans_tip a) (ans_reported a) - Z.min (ans_ended a) (FirstSeenBtcHeight cr).

Lemma minBTCHeight_min h1 h2 : minBTCHeight h1 h2 = Z.min h1 h2.
Proof. unfold minBTCHeight. destruct (Z.ltb_spec h2 h1); lia. Qed.

Lemma CheckLiveness_spec cr a m w :
  0 < MaxRetryTimes Cfg → answers_liveness cr a →
  let gap := liveness_gap cr a in
  CheckLiveness Cfg cr (m, w) =
  (if gap <? 0 then Error (ENew "the gap between two BTC heights should not be negative")
   else if MaxLiveBtcHeights Cfg <? gap
   then Error (EWrap "the gap BTC height is larger than the threshold" (ESentinel ErrLivenessAttack))
   else Val tt, (m, w)).
Proof.
  intros Hat (H1 & H2 & H3). unfold CheckLiveness, liveness_gap. rewrite bind_unfold.
  unfold wrap_err at 1, queryEndedEpochBTCHeightWithRetry.
  rewrite (query_retry_once 0 _ m w (ans_ended a) w Hat (H1 w)). cbv iota beta zeta.
  rewrite minBTCHeight_min, bind_unfold. unfold try, queryReportedCheckpointBTCHeightWithRetry.
  destruct (ans_reported a) as [h|].
  - rewrite (query_retry_once 0 _ m w h w Hat (H2 w)). cbv iota beta.
    rewrite bind_unfold. cbn. by repeat case_match.
  - destruct (query_retry_fails 0 (q_ReportedCheckpointBTCHeight (Bookkeeper.ID cr)) m w
      (ESentinel ErrCheckpointNotReported) Hat H2 eq_refl) as (e' & -> & He'). cbv iota beta.
    rewrite He'. assert (errors_Is (ESentinel ErrCheckpointNotReported) ErrCheckpointNotReported
      = true) as -> by done. cbn [negb].
    rewrite bind_unfold, bind_unfold. unfold wrap_err, queryBTCHeaderChainTipWithRetry.
    rewrite (query_retry_once None _ m w (Some (ans_tip a)) w Hat (H3 w)). cbv iota beta.
    unfold mret, M_ret. cbn [default]. by repeat case_match.
Qed.

(** A record passes when its gap is within the threshold. *)
Definition live (cr : CheckpointRecord) (a : liveness_answers) : bool :=
  (0 <=? liveness_gap cr a) && (liveness_gap cr a <=? MaxLiveBtcHeights Cfg).

Lemma check_record_run cr a m w :
  0 < MaxRetryTimes Cfg → answers_liveness cr a →
  check_record Cfg cr (m, w) =
  (Val tt, (if live cr a
            then set_checklist (Bookkeeper.Remove (Bookkeeper.ID cr) (checkpointChecklist m)) m
            else mon_metric (MInc "LivenessAttacksCounter") m, w)).
Proof.
  intros Hat Ha. unfold check_record. rewrite bind_unfold. unfold try.
  rewrite (CheckLiveness_spec cr a m w Hat Ha). unfold live.
  destruct (Z.ltb_spec (liveness_gap cr a) 0), (Z.leb_spec 0 (liveness_gap cr a)); try lia;
    [done|].
  destruct (Z.ltb_spec (MaxLiveBtcHeights Cfg) (liveness_gap cr a)),
    (Z.leb_spec (liveness_gap cr a) (MaxLiveBtcHeights Cfg)); try lia; done.
Qed.

(** One tick removes exactly the live records and counts one attack for every
    other one. *)
Section tick.
Context (ans : CheckpointRecord → liveness_answers).
Context (Hat : 0 < MaxRetryTimes Cfg) (Hans : ∀ cr, answers_liveness cr (ans cr)).

Lemma check_records_run crs m w :
  ∃ m', for_each crs (check_record Cfg) (m, w) = (Val tt, (m', w)) ∧
    curEpoch m' = curEpoch m ∧
    (∀ id, checkpointChecklist m' !! id =
       if existsb (λ cr, bool_decide (Bookkeeper.ID cr = id) && live cr (ans cr)) crs
       then None else checkpointChecklist m !! id) ∧
    mon_metrics m' = mon_metrics m ++
      replicate (length (filter (λ cr, live cr (ans cr) = false) crs))
        (MInc "LivenessAttacksCounter").
Proof.
  revert m. induction crs as [|cr crs IH]; intros m; cbn [for_each].
  { exists m. cbn. by rewrite app_nil_r. }
  rewrite bind_unfold, (check_record_run cr (ans cr) m w Hat (Hans cr)). cbn [existsb].
  rewrite filter_cons. destruct (live cr (ans cr)) eqn:El.
  - rewrite decide_False by done.
    destruct (IH (set_checklist (Bookkeeper.Remove (Bookkeeper.ID cr) (checkpointChecklist m)) m))
      as (m' & -> & Hc & Hl & Hm). exists m'. split_and!; [done|done| |done].
    intros id. rewrite Hl, andb_true_r. cbn. destruct (existsb _ crs); [by rewrite orb_true_r|].
    rewrite orb_false_r. unfold Bookkeeper.Remove, Bookkeeper.CheckpointsBookkeeper.
    case_bool_decide; [subst; by rewrite lookup_delete_eq|by rewrite lookup_delete_ne].
  - rewrite decide_True by done.
    destruct (IH (mon_metric (MInc "LivenessAttacksCounter") m)) as (m' & -> & Hc & Hl & Hm).
    exists m'. split_and!; [done|done| |].
    + intros id. by rewrite Hl, andb_false_r.
    + rewrite Hm. cbn. by rewrite <-app_assoc.
Qed.

Lemma existsb_false_all {A} (f : A → bool) xs :
  (∀ x, x ∈ xs → f x = false) → existsb f xs = false.
Proof.
  induction xs as [|x xs IH]; cbn; intros H; [done|].
  rewrite H by left. apply IH. intros y Hy. apply H. by right.
Qed.

Lemma liveness_tick_spec order m w :
  Bookkeeper.book_ok (checkpointChecklist m) → (∀ cb, is_range cb (order cb)) →
  ∃ m', liveness_tick Cfg order (m, w) = (Val tt, (m', w)) ∧ curEpoch m' = curEpoch m ∧
    ∀ id cr, checkpointChecklist m' !! id = Some cr ↔
             checkpointChecklist m !! id = Some cr ∧ live cr (ans cr) = false.
Proof.
  intros Hok Hord. unfold liveness_tick. rewrite bind_unfold. cbn [mon_self zoom gets fst snd].
  destruct (check_records_run (Bookkeeper.GetAll order (checkpointChecklist m)) m w)
    as (m' & -> & Hc & Hl & _). exists m'. split_and!; [done|done|].
  intros id cr. rewrite Hl. specialize (Hord (checkpointChecklist m)).
  unfold Bookkeeper.CheckpointsBookkeeper in *. unfold Bookkeeper.GetAll.
  split.
  - destruct (existsb _ _) eqn:E; [done|]. intros Hm. split; [done|].
    destruct (live cr (ans cr)) eqn:El; [|done]. exfalso.
    assert (existsb (λ cr, bool_decide (Bookkeeper.ID cr = id) && live cr (ans cr))
      (order (checkpointChecklist m)).*2 = true); [|congruence].
    apply existsb_exists. exists cr. split.
    + apply list_elem_of_In, list_elem_of_fmap. exists (id, cr). split; [done|].
      by apply (is_range_elem _ _ _ _ Hord).
    + rewrite bool_decide_eq_true_2 by (by apply Hok in Hm). done.
  - intros [Hm El]. rewrite existsb_false_all; [done|]. intros x Hx.
    apply list_elem_of_fmap in Hx as ([id' x'] & -> & Hx). cbn.
    apply (is_range_elem _ _ _ _ Hord) in Hx. case_bool_decide as Hid; [|done]. cbn.
    apply Hok in Hx as Hid'. subst. by simplify_eq.
Qed.
End tick.

(** ** The last confirmed epoch *)

(** Babylon's answers about the status of every epoch. *)
Definition answers_status (st : Z → CheckpointStatus) : Prop :=
  ∀ e w, ∃ resp w', q_RawCheckpoint e w = (Val (Some (resp, st e)), w').

Lemma find_confirmed_spec st n m w :
  0 < MaxRetryTimes Cfg → answers_status st →
  match fst (find_confirmed Cfg n (m, w)) with
  | Val e => 0 ≤ e < Z.of_nat n ∧ status_confirmed (st e) = true ∧
             ∀ e', e < e' < Z.of_nat n → status_confirmed (st e') = false
  | Error _ => ∀ e', 0 ≤ e' < Z.of_nat n → status_confirmed (st e') = false
  | _ => False
  end.
Proof.
  intros Hat Hst. revert w. induction n as [|n IH]; intros w; cbn [find_confirmed]; [cbn; lia|].
  rewrite bind_unfold. unfold wrap_err, queryRawCheckpointWithRetry.
  destruct (Hst (Z.of_nat n) w) as (resp & w1 & Hq).
  rewrite (query_retry_once None _ m w _ w1 Hat Hq). cbv iota beta.
  destruct (status_confirmed (st (Z.of_nat n))) eqn:E.
  - cbn. split_and!; [lia|lia|done|lia].
  - specialize (IH w1). destruct (find_confirmed Cfg n (m, w1)) as [[e|e|p|] x]; cbn in *; try done.
    + destruct IH as (? & ? & Hall). split_and!; [lia|lia|done|]. intros e' He'.
      destruct (decide (e' = Z.of_nat n)) as [->|]; [done|]. apply Hall. lia.
    + intros e' He'. destruct (decide (e' = Z.of_nat n)) as [->|]; [done|]. apply IH. lia.
Qed.
End props.
