(* ===== verification/Relayer.v ===== *)
(** * The relayer ([submitter/relayer])

    The relayer writes a sealed checkpoint into two chained Bitcoin
    transactions, persists them, and later replaces the second one by a
    transaction that pays more.  The program runs on the relayer's state, the
    Bitcoin node with its wallet, and the submitter's database. *)

From S2P Require Import Prelude GoFloat Config Blocks Retry Reporter Stores Monitor.
Import SubmitterStore.

(** ** Functions of btcd, lnd and Babylon *)
Class RelayerLib := {
  HashString : Hash → string;
  (** [mempool.GetTxVirtualSize(btcutil.NewTx(tx))] *)
  GetTxVirtualSize : MsgTx → Z;
  (** [NewScriptBuilder().AddOp(OP_RETURN).AddData(data).Script()] *)
  OpReturnScript : bytes → result bytes;
  BtcAddress : Type;
  PayToAddrScript : BtcAddress → result bytes;
  ExtractPkScriptAddrs : bytes → result (list BtcAddress);
  TxVersion : Z;
  (** [btcutil.Amount] *)
  MaxSatoshi : Z;
  MulF64 : Z → float64 → Z;
  ToBTC : Z → float64;
  NewAmount : float64 → result Z;
  (** [chainfee] *)
  FeePerKVByte : Z → Z;
  FeeForVSize : Z → Z → Z;
  (** the codes of [btcjson.RPCError] *)
  ErrRPCNoTxInfo : Z;
  ErrRPCTxAlreadyInChain : Z;
  ErrRPCRawTxString : Z;
  ErrRPCDecodeHexString : Z;
  ErrRPCTxError : Z;
  ErrRPCTxRejected : Z;
  (** Babylon's checkpoints *)
  CkptResponse : Type;
  EpochNum : CkptResponse → Z;
  RawCkpt : Type;
  CkptToRawCheckpoint : CkptResponse → result RawCkpt;
  BtcCkpt : Type;
  FromRawCkptToBTCCkpt : RawCkpt → bytes → result BtcCkpt;
  EncodeCheckpointData : bytes → Z → BtcCkpt → result (bytes * bytes);
}.

(** [btcjson.GetMempoolEntryResult], as far as it is read. *)
Record MempoolEntry := mkMempoolEntry {
  me_Fee : float64;
  me_Time : Z;
  DescendantCount : Z;
  DescendantSize : Z;
  DescendantFees : float64;
}.

Inductive TxStatus := TxNotFound | TxInMemPool | TxInChain.

(** [btcclient.BTCWallet] and [chainfee.Estimator]; a node may answer a
    mempool query with a [nil] entry. *)
Class BTCWallet (W : Type) := {
  GetRawTransaction : Hash → M W MsgTx;
  SendRawTransaction : MsgTx → bool → M W Hash;
  (** with the fee rate in BTC/kvB and the position of the change output *)
  FundRawTransaction : MsgTx → float64 → Z → M W (MsgTx * Z);
  SignRawTransactionWithWallet : MsgTx → M W (MsgTx * bool);
  WalletPassphrase : string → Z → M W unit;
  GetMempoolEntry : string → M W (option MempoolEntry);
  GetNetworkInfo_IncrementalFee : M W float64;
  (** a [nil] hash looks the transaction up by its script *)
  TxDetails : option Hash → bytes → M W TxStatus;
  GetNewAddress : ∀ {RL : RelayerLib}, string → M W BtcAddress;
  EstimateFeePerKW : Z → M W Z;
  RelayFeePerKW : M W Z;
}.

(** ** State *)

(** [types/ckpt_info.go] *)
Record BtcTxInfo := mkBtcTxInfo {
  TxID : option Hash;
  bi_Tx : MsgTx;
  bi_Size : Z;
  bi_Fee : Z;
}.
#[global] Instance BtcTxInfo_eq_dec : EqDecision BtcTxInfo.
Proof. solve_decision. Defined.
Record CheckpointInfo := mkCheckpointInfo {
  ci_Epoch : Z;
  ci_TS : Z;
  ci_Tx1 : option BtcTxInfo;
  ci_Tx2 : option BtcTxInfo;
}.
Definition set_Tx1 (t : option BtcTxInfo) (c : CheckpointInfo) : CheckpointInfo :=
  mkCheckpointInfo (ci_Epoch c) (ci_TS c) t (ci_Tx2 c).
Definition set_Tx2 (t : option BtcTxInfo) (c : CheckpointInfo) : CheckpointInfo :=
  mkCheckpointInfo (ci_Epoch c) (ci_TS c) (ci_Tx1 c) t.
Definition set_TS (ts : Z) (c : CheckpointInfo) : CheckpointInfo :=
  mkCheckpointInfo (ci_Epoch c) ts (ci_Tx1 c) (ci_Tx2 c).

Record Relayer := mkRelayer {
  lastSubmittedCheckpoint : CheckpointInfo;
  rl_metrics : list metric_event;
}.
Definition set_last (c : CheckpointInfo) (r : Relayer) : Relayer := mkRelayer c (rl_metrics r).
Definition rl_add_metric (m : metric_event) (r : Relayer) : Relayer :=
  mkRelayer (lastSubmittedCheckpoint r) (rl_metrics r ++ [m]).

Definition changePosition : Z := 1.
Definition dustThreshold : Z := 546.

Definition ErrTooManyDescendants := "too many descendant transactions".
Definition ErrInsufficientFee := "insufficient fee".
Definition ErrInsufficientFeerate := "feerate insufficient".
Definition ErrFeeIncrementTooSmall := "fee increment too small".
Definition ErrTxNotInMempool := "transaction not found in mempool".
Definition ErrRelayFeerate := "failed to get relay feerate".
Definition ErrNoChangeOutput := "transaction has no change output".

Section relayer.
Context {BL : BTCLib} {PL : ProtoLib} {RL : RelayerLib} {RT : Retry}.
Context {W D : Type} {WL : BTCWallet W} {CK : Clock W} {KV : KVDB D}.
Context (config : SubmitterConfig) (btcConfig : BTCConfig).
Context (tag : bytes) (version : Z) (submitterAddress : bytes).

Notation RLM A := (M (Relayer * W * D) A).
Definition rl_self {A} (m : M Relayer A) : RLM A :=
  zoom (λ s, s.1.1) (λ t s, (t, s.1.2, s.2)) m.
Definition wallet {A} (m : M W A) : RLM A :=
  zoom (λ s, s.1.2) (λ w s, (s.1.1, w, s.2)) m.
Definition store {A} (m : M D A) : RLM A := zoom snd (λ d s, (s.1, d)) m.

Definition last : RLM CheckpointInfo := rl_self (gets lastSubmittedCheckpoint).
Definition update_last (f : CheckpointInfo → CheckpointInfo) : RLM unit :=
  rl_self (modify (λ r, set_last (f (lastSubmittedCheckpoint r)) r)).
Definition rl_emit (m : metric_event) : RLM unit := rl_self (modify (rl_add_metric m)).

(** Dereferencing a pointer. *)
Definition deref {A} (p : option A) : RLM A :=
  match p with Some a => mret a | None => panic "nil pointer dereference" end.

(** [New] *)
Definition NewRelayer : RLM unit :=
  must "error setting up store" (store NewSubmitterStore) ;;
  rl_self (modify (λ _, mkRelayer (mkCheckpointInfo 0 0 None None)
    [MSet "ResendIntervalSecondsGauge" (ResendIntervalSeconds config)])).

(** ** Decisions *)
Definition shouldSendCompleteCkpt (c : CheckpointInfo) (ckptEpoch : Z) : bool :=
  bool_decide (ci_Tx1 c = None) || (ci_Epoch c <? ckptEpoch).
Definition shouldSendTx2 (c : CheckpointInfo) (ckptEpoch : Z) : bool :=
  (negb (bool_decide (ci_Tx1 c = None)) || (ci_Epoch c <? ckptEpoch)) &&
  bool_decide (ci_Tx2 c = None).
Definition isNotRBFError (previousFailure : gerror) : bool :=
  negb (errors_Is previousFailure ErrInsufficientFee) &&
  negb (errors_Is previousFailure ErrInsufficientFeerate) &&
  negb (errors_Is previousFailure ErrFeeIncrementTooSmall).

(** ** Fees *)
Definition clampFee (feePerKVByte : Z) : Z :=
  let fee := if TxFeeMax btcConfig <? feePerKVByte then TxFeeMax btcConfig else feePerKVByte in
  if fee <? TxFeeMin btcConfig then TxFeeMin btcConfig else fee.

Definition getFeeRate : RLM Z :=
  let targetBlockNum := TargetBlockNum btcConfig in
  if (targetBlockNum <? 0) || (MaxUint32 <? targetBlockNum)
  then panic "targetBlockNum is out of uint32 range"
  else
    fee ← try (wallet (EstimateFeePerKW (u32 targetBlockNum)));
    match fee with
    | Err _ => mret (DefaultFee btcConfig)
    | Ok fee => mret (clampFee (FeePerKVByte fee))
    end.

Definition calcMinRelayFee (txVirtualSize : Z) : RLM Z :=
  relayFee ← wallet RelayFeePerKW;
  let minRelayFee := FeeForVSize (FeePerKVByte relayFee) (u64 txVirtualSize) in
  mret (if MaxSatoshi <? minRelayFee then MaxSatoshi else minRelayFee).

Definition getIncrementalRelayFeerate : RLM Z :=
  fee ← wrap_err "failed to get network info for incremental relay feerate"
    (wallet GetNetworkInfo_IncrementalFee);
  mret (f64_to_i64 fee).

Definition shouldResendCheckpoint (tx2 : BtcTxInfo) (bumpedFee : Z) : RLM bool :=
  minRelayFee ← calcMinRelayFee (bi_Size tx2);
  let requiredBumpingFee := i64 (bi_Fee tx2 + minRelayFee) in
  mret (requiredBumpingFee <=? bumpedFee).

Definition adjustFeeForInsufficientFee (mempoolEntry : MempoolEntry) (bumpedFee : Z) : Z :=
  let originalTotalFees := f64_to_i64 (DescendantFees mempoolEntry) in
  let margin := f64_add (f64_of_int 1) (InsufficientFeeMargin config) in
  let newFee := MulF64 originalTotalFees margin in
  if bumpedFee <? newFee then newFee else bumpedFee.

(** When the computed fee is higher, the code assigns [requiredFee]. *)
Definition adjustFeeForIncrementTooSmall (mempoolEntry : MempoolEntry)
    (bumpedFee requiredFee : Z) (tx2 : BtcTxInfo) : RLM Z :=
  r ← try getIncrementalRelayFeerate;
  match r with
  | Err _ => mret bumpedFee
  | Ok incrementalFeerate =>
      let requiredIncrement := i64 (incrementalFeerate * bi_Size tx2) in
      let originalFee :=
        if f64_eqb (me_Fee mempoolEntry) (f64_of_int 0) then bi_Fee tx2
        else f64_to_i64 (me_Fee mempoolEntry) in
      let margin := f64_add (f64_of_int 1) (FeeIncrementMargin config) in
      let newFee := i64 (originalFee + MulF64 requiredIncrement margin) in
      mret (if bumpedFee <? newFee then requiredFee else bumpedFee)
  end.

Definition adjustFeeForInsufficientFeerate (mempoolEntry : MempoolEntry)
    (bumpedFee requiredFee txSize : Z) : Z :=
  let originalTotalFees := f64_to_i64 (DescendantFees mempoolEntry) in
  let originalVsize := DescendantSize mempoolEntry in
  let originalFeerate := f64_div (f64_of_int originalTotalFees) (f64_of_int originalVsize) in
  let margin := f64_add (f64_of_int 1) (InsufficientFeerateMargin config) in
  let newFeerate := f64_mul originalFeerate margin in
  let newFee := f64_to_i64 (f64_mul newFeerate (f64_of_int txSize)) in
  if bumpedFee <? newFee then requiredFee else bumpedFee.

(** Called with [rl.lastSubmittedCheckpoint]; [nil] is no previous failure. *)
Definition calculateBumpedFee (ckptInfo : CheckpointInfo) (previousFailure : option gerror)
  : RLM Z :=
  match ci_Tx2 ckptInfo with
  | None => fail (ENew "checkpoint info or Tx2 is nil")
  | Some tx2 =>
      currentFeeRate ← getFeeRate;
      let feeRatePerByte := Z.quot currentFeeRate 1000 in
      let requiredFee := i64 (feeRatePerByte * bi_Size tx2) in
      let bumpedFee := MulF64 (bi_Fee tx2) (ResubmitFeeMultiplier config) in
      let at_least_required fee := if fee <? requiredFee then requiredFee else fee in
      match previousFailure with
      | None => mret (at_least_required bumpedFee)
      | Some failure =>
          if isNotRBFError failure then mret (at_least_required bumpedFee)
          else
            txHash ← deref (TxID tx2);
            entry ← wrap_err "failed to get mempool entry"
              (wallet (GetMempoolEntry (HashString txHash)));
            mempoolEntry ← deref entry;
            bumpedFee ←
              (if errors_Is failure ErrInsufficientFee then
                 mret (adjustFeeForInsufficientFee mempoolEntry bumpedFee)
               else if errors_Is failure ErrInsufficientFeerate then
                 mret (adjustFeeForInsufficientFeerate mempoolEntry bumpedFee requiredFee
                         (bi_Size tx2))
               else if errors_Is failure ErrFeeIncrementTooSmall then
                 adjustFeeForIncrementTooSmall mempoolEntry bumpedFee requiredFee tx2
               else mret bumpedFee);
            mret (at_least_required bumpedFee)
      end
  end.

Definition verifyRBFRequirements (txID : string) (newFee txVirtualSize : Z) : RLM unit :=
  r ← try (wallet (GetMempoolEntry txID));
  match r with
  | Err err => fail (EJoin (ESentinel ErrTxNotInMempool) err)
  | Ok entry =>
      mempoolEntry ← deref entry;
      if 100 <? DescendantCount mempoolEntry then fail (ESentinel ErrTooManyDescendants)
      else
        let originalTotalFees := f64_to_i64 (DescendantFees mempoolEntry) in
        let originalTotalVsize := DescendantSize mempoolEntry in
        if newFee <=? originalTotalFees then fail (ESentinel ErrInsufficientFee)
        else
          let originalFeerate :=
            f64_div (f64_of_int originalTotalFees) (f64_of_int originalTotalVsize) in
          let newFeerate := f64_div (f64_of_int newFee) (f64_of_int txVirtualSize) in
          if f64_leb newFeerate originalFeerate then fail (ESentinel ErrInsufficientFeerate)
          else
            r ← try getIncrementalRelayFeerate;
            match r with
            | Err err => fail (EJoin (ESentinel ErrRelayFeerate) err)
            | Ok incrementalFeerate =>
                let requiredIncrement := i64 (incrementalFeerate * txVirtualSize) in
                if i64 (newFee - originalTotalFees) <? requiredIncrement
                then fail (ESentinel ErrFeeIncrementTooSmall)
                else mret tt
            end
  end.

(** ** Transactions *)

(** [utils.go] *)
Definition calculateTxVirtualSize (tx : option MsgTx) : RLM Z :=
  match tx with
  | None => fail (ENew "tx param nil")
  | Some tx => mret (GetTxVirtualSize tx)
  end.

Definition signTx (tx : MsgTx) : RLM MsgTx :=
  wallet (WalletPassphrase (WalletPassword btcConfig) (WalletLockTime btcConfig)) ;;
  r ← wallet (SignRawTransactionWithWallet tx);
  let '(signedTx, allSigned) := r in
  if negb allSigned then fail (ENew "transaction is only partially signed") else mret signedTx.

Definition sendTxToBTC (tx : MsgTx) : RLM Hash := wallet (SendRawTransaction tx true).

(** [tx.TxOut[i].Value = v] *)
Definition set_out_value (i : Z) (v : Z) (tx : MsgTx) : MsgTx :=
  mkMsgTx (tx_Version tx) (TxIn tx)
    (alter (λ o, mkTxOut v (PkScript o)) (Z.to_nat i) (TxOut tx)) (LockTime tx).

(** The pointer [tx2] is the one held by [lastSubmittedCheckpoint]: what is
    written to it before a failure stays. *)
Definition assign_tx2 (t : BtcTxInfo) : RLM unit := update_last (set_Tx2 (Some t)).

(** The fee rate given to the node, in BTC/kB with six decimals. *)
Definition roundedFeeRate (bumpedFee size : Z) : float64 :=
  let txSizeKB := f64_div (f64_of_int size) (f64_of_int 1000) in
  let feeRate := f64_div (ToBTC bumpedFee) txSizeKB in
  f64_div (f64_round (f64_mul feeRate (f64_of_int 1000000))) (f64_of_int 1000000).

(** Raises the fee of [tx2] in place: from its change, or with new inputs. *)
Definition apply_bumped_fee (tx2 : BtcTxInfo) (change : TxOutput) (bumpedFee : Z)
  : RLM (BtcTxInfo * Z) :=
  let balance := Value change in
  if i64 (balance - bumpedFee) <? dustThreshold then
    funded ← wrap_err "failed to fund transaction"
      (wallet (FundRawTransaction (bi_Tx tx2) (roundedFeeRate bumpedFee (bi_Size tx2)) 1));
    let '(tx, fee) := funded in
    let tx2 := mkBtcTxInfo (TxID tx2) tx (bi_Size tx2) (bi_Fee tx2) in
    assign_tx2 tx2 ;;
    txSize ← calculateTxVirtualSize (Some tx);
    let tx2 := mkBtcTxInfo (TxID tx2) tx txSize (bi_Fee tx2) in
    assign_tx2 tx2 ;;
    mret (tx2, fee)
  else
    let tx := set_out_value changePosition (i64 (balance - bumpedFee)) (bi_Tx tx2) in
    let tx2 := mkBtcTxInfo (TxID tx2) tx (bi_Size tx2) (bi_Fee tx2) in
    assign_tx2 tx2 ;;
    mret (tx2, bumpedFee).

(** The rest of the function, for a transaction that is not confirmed. *)
Definition replace_tx2 (tx2 : BtcTxInfo) (change : TxOutput) (bumpedFee : Z)
  : RLM (option BtcTxInfo) :=
  let originalTxID := HashString (TxHash (bi_Tx tx2)) in
  bumped ← apply_bumped_fee tx2 change bumpedFee;
  let '(tx2, bumpedFee) := bumped in
  wrap_err "RBF requirements not met"
    (verifyRBFRequirements originalTxID bumpedFee (bi_Size tx2)) ;;
  tx ← signTx (bi_Tx tx2);
  txID ← sendTxToBTC tx;
  let tx2 := mkBtcTxInfo (Some txID) (bi_Tx tx2) (bi_Size tx2) bumpedFee in
  assign_tx2 tx2 ;;
  mret (Some tx2).

Definition maybeResendSecondTxOfCheckpointToBTC (tx2 : BtcTxInfo) (bumpedFee : Z)
  : RLM (option BtcTxInfo) :=
  match TxOut (bi_Tx tx2) !! Z.to_nat changePosition with
  | None => fail (ESentinel ErrNoChangeOutput)
  | Some change =>
      status ← wallet (TxDetails (TxID tx2) (PkScript change));
      match status with
      | TxInChain => mret None
      | _ => replace_tx2 tx2 change bumpedFee
      end
  end.

Definition encodeCheckpointData (ckpt : CkptResponse) : RLM (bytes * bytes) :=
  rawCkpt ← of_result (CkptToRawCheckpoint ckpt);
  btcCkpt ← of_result (FromRawCkptToBTCCkpt rawCkpt submitterAddress);
  of_result (EncodeCheckpointData tag version btcCkpt).

Definition logAndRecordCheckpointMetrics (tx1 tx2 : BtcTxInfo) (epochNum : Z) : RLM unit :=
  rl_emit (MTouch "NewSubmittedCheckpointSegmentGaugeVec"
             [epochNum; 0; TxHash (bi_Tx tx1); bi_Fee tx1]) ;;
  rl_emit (MTouch "NewSubmittedCheckpointSegmentGaugeVec"
             [epochNum; 1; TxHash (bi_Tx tx2); bi_Fee tx2]).

(** The recorded size is that of the unsigned transaction, and the recorded fee
    the minimum relay fee for that size. *)
Definition finalizeTransaction (tx : MsgTx) : RLM BtcTxInfo :=
  match TxOut tx !! Z.to_nat changePosition with
  | None => mret tt
  | Some change =>
      addresses ← wrap_err "failed to ExtractPkScriptAddrs"
        (of_result (ExtractPkScriptAddrs (PkScript change)));
      match addresses with
      | [] => fail (ENew "no change address found")
      | _ => mret tt
      end
  end ;;
  signedTx ← wrap_err "failed to sign tx" (signTx tx);
  wrap_err "failed to serialize signedTx" (of_result (Serialize signedTx)) ;;
  txSize ← calculateTxVirtualSize (Some tx);
  txFee ← calcMinRelayFee txSize;
  mret (mkBtcTxInfo None signedTx txSize txFee).

(** An output that carries [data]. *)
Definition data_tx (ins : list TxInput) (dataScript : bytes) : MsgTx :=
  mkMsgTx TxVersion ins [mkTxOut 0 dataScript] 0.

Definition buildDataTx (data : bytes) : RLM BtcTxInfo :=
  dataScript ← wrap_err "failed to build data script" (of_result (OpReturnScript data));
  let tx := data_tx [] dataScript in
  feeRate ← getFeeRate;
  let feeRate := ToBTC feeRate in
  rawTxResult ← wrap_err "failed to fund raw tx in buildDataTx"
    (wallet (FundRawTransaction tx feeRate 1));
  if len (TxOut rawTxResult.1) <=? 1 then
    changeAddr ← wrap_err "err getting raw change address" (wallet (GetNewAddress ""));
    changePkScript ← wrap_err "failed to create script for change address"
      (of_result (PayToAddrScript changeAddr));
    let t := rawTxResult.1 in
    let t := mkMsgTx (tx_Version t) (TxIn t) (TxOut t ++ [mkTxOut dustThreshold changePkScript])
               (LockTime t) in
    rawTxResult ← wrap_err "failed to fund raw tx after nochange"
      (wallet (FundRawTransaction t feeRate 1));
    finalizeTransaction rawTxResult.1
  else finalizeTransaction rawTxResult.1.

(** The input that spends the change of [prevTx], replaceable by fee. *)
Definition chained_input (prevTx : MsgTx) : TxInput :=
  mkTxIn (mkOutPoint (TxHash prevTx) changePosition) [] [] (MaxUint32 - 2).

Definition buildChainedDataTx (data : bytes) (prevTx : MsgTx) : RLM BtcTxInfo :=
  dataScript ← wrap_err "failed to build data script" (of_result (OpReturnScript data));
  let tx := data_tx [chained_input prevTx] dataScript in
  feeRate ← getFeeRate;
  rawTxResult ← wrap_err "failed to fund raw tx in buildChainedDataTx"
    (wallet (FundRawTransaction tx (ToBTC feeRate) 1));
  finalizeTransaction rawTxResult.1.

Definition buildAndSendTx (builderFunc : RLM BtcTxInfo) : RLM BtcTxInfo :=
  tx ← wrap_err "failed to add data to tx" builderFunc;
  txID ← wrap_err "failed to send tx to BTC" (sendTxToBTC (bi_Tx tx));
  mret (mkBtcTxInfo (Some txID) (bi_Tx tx) (bi_Size tx) (bi_Fee tx)).

Definition ChainTwoTxAndSend (data1 data2 : bytes) : RLM (BtcTxInfo * BtcTxInfo) :=
  tx1 ← buildAndSendTx (buildDataTx data1);
  update_last (set_Tx1 (Some tx1)) ;;
  tx2 ← buildAndSendTx (buildChainedDataTx data2 (bi_Tx tx1));
  mret (tx1, tx2).

Definition convertCkptToTwoTxAndSubmit (ckpt : CkptResponse) : RLM CheckpointInfo :=
  data ← encodeCheckpointData ckpt;
  txs ← ChainTwoTxAndSend data.1 data.2;
  let '(tx1, tx2) := txs in
  logAndRecordCheckpointMetrics tx1 tx2 (EpochNum ckpt) ;;
  ts ← wallet Now;
  mret (mkCheckpointInfo (EpochNum ckpt) ts (Some tx1) (Some tx2)).

Definition retrySendTx2 (ckpt : CkptResponse) : RLM CheckpointInfo :=
  data ← encodeCheckpointData ckpt;
  c ← last;
  match ci_Tx1 c with
  | None => fail (ENew "tx1 is nil")
  | Some tx1 =>
      tx2 ← buildAndSendTx (buildChainedDataTx data.2 (bi_Tx tx1));
      logAndRecordCheckpointMetrics tx1 tx2 (EpochNum ckpt) ;;
      ts ← wallet Now;
      mret (mkCheckpointInfo (EpochNum ckpt) ts (Some tx1) (Some tx2))
  end.

(** ** Restarts *)

(** The closure [maybeResendFunc]. *)
Definition maybeResendFunc (tx : MsgTx) : RLM unit :=
  r ← try (wallet (GetRawTransaction (TxHash tx)));
  match r with
  | Ok _ => mret tt
  | Err err =>
      if bool_decide (errors_As_RPCError err = Some ErrRPCNoTxInfo) then
        sent ← try (sendTxToBTC tx);
        match sent with
        | Ok _ => mret tt
        | Err sendErr =>
            match errors_As_RPCError sendErr with
            | None => fail sendErr
            | Some code =>
                if code =? ErrRPCTxAlreadyInChain then mret tt
                else if (code =? ErrRPCRawTxString) || (code =? ErrRPCDecodeHexString) then
                  fail (EWrap "fatal error: invalid transaction format" sendErr)
                else if code =? ErrRPCTxError then fail (EWrap "transaction error" sendErr)
                else if code =? ErrRPCTxRejected then fail (EWrap "transaction rejected" sendErr)
                else fail sendErr
            end
        end
      else fail err
  end.

Definition maybeResendFromStore (epoch : Z) : RLM bool :=
  r ← store LatestCheckpoint;
  match r with
  | None => mret false
  | Some storedCkpt =>
      if negb (sc_Epoch storedCkpt =? epoch) then mret false
      else
        tx1 ← deref (Tx1 storedCkpt);
        maybeResendFunc tx1 ;;
        tx2 ← deref (Tx2 storedCkpt);
        maybeResendFunc tx2 ;;
        mret true
  end.

Definition btcTxInfoFromStoredTx (tx : option MsgTx) : RLM (BtcTxInfo * Z) :=
  match tx with
  | None => fail (ENew "stored tx is nil")
  | Some t =>
      size ← wrap_err "failed to compute virtual size" (calculateTxVirtualSize tx);
      let txHash := TxHash t in
      entry ← wrap_err "mempool entry unavailable" (wallet (GetMempoolEntry (HashString txHash)));
      match entry with
      | None => fail (ENew "mempool entry nil")
      | Some entry =>
          fee ← wrap_err "could not convert mempool fee" (of_result (NewAmount (me_Fee entry)));
          now ← wallet Now;
          let ts := if 0 <? me_Time entry then me_Time entry * 1000000000 else now in
          mret (mkBtcTxInfo (Some txHash) t size fee, ts)
      end
  end.

Definition rehydrateLastSubmittedCheckpointFromStore (ckptEpoch : Z) : RLM unit :=
  r ← wrap_err "failed to load stored checkpoint" (store LatestCheckpoint);
  match r with
  | None => mret tt
  | Some stored =>
      if negb (sc_Epoch stored =? ckptEpoch) then mret tt
      else
        i1 ← wrap_err "failed to rehydrate tx1" (btcTxInfoFromStoredTx (Tx1 stored));
        i2 ← wrap_err "failed to rehydrate tx2" (btcTxInfoFromStoredTx (Tx2 stored));
        update_last (λ _, mkCheckpointInfo (sc_Epoch stored) i2.2 (Some i1.1) (Some i2.1))
  end.

(** ** Entry points *)
Record RawCheckpointWithMetaResponse := mkCkptMeta {
  cm_Ckpt : CkptResponse;
  cm_Status : CheckpointStatus;
}.

(** [storeCkptFunc]; both transactions are dereferenced. *)
Definition storeCkpt (c : CheckpointInfo) : RLM unit :=
  tx1 ← deref (ci_Tx1 c);
  tx2 ← deref (ci_Tx2 c);
  store (PutCheckpoint
    (NewStoredCheckpoint (Some (bi_Tx tx1)) (Some (bi_Tx tx2)) (ci_Epoch c))).

(** The submission proper: both transactions, or the second one. *)
Definition submit_new (ckpt : CkptResponse) : RLM unit :=
  c ← last;
  if shouldSendCompleteCkpt c (EpochNum ckpt) then
    submittedCkpt ← convertCkptToTwoTxAndSubmit ckpt;
    update_last (λ _, submittedCkpt) ;;
    storeCkpt submittedCkpt
  else if shouldSendTx2 c (EpochNum ckpt) then
    deref (ci_Tx1 c) ;;
    submittedCkpt ← retrySendTx2 ckpt;
    update_last (λ _, submittedCkpt) ;;
    storeCkpt submittedCkpt
  else mret tt.

Definition SendCheckpointToBTC (ckpt : RawCheckpointWithMetaResponse) : RLM unit :=
  let ckptEpoch := EpochNum (cm_Ckpt ckpt) in
  if negb (bool_decide (cm_Status ckpt = Sealed)) then
    rl_emit (MInc "InvalidCheckpointCounter")
  else
    c ← last;
    if shouldSendCompleteCkpt c ckptEpoch || shouldSendTx2 c ckptEpoch then
      hasBeenProcessed ← maybeResendFromStore ckptEpoch;
      if hasBeenProcessed : bool then
        c ← last;
        if bool_decide (ci_Tx2 c = None) then
          wrap_err "failed to rehydrate lastSubmittedCheckpoint"
            (rehydrateLastSubmittedCheckpointFromStore ckptEpoch)
        else mret tt
      else submit_new (cm_Ckpt ckpt)
    else submit_new (cm_Ckpt ckpt).

(** The variables [resubmittedTx2] and [lastError] of the retried closure. *)
Definition rbf_vars : Type := option BtcTxInfo * option gerror.

(** One attempt to replace the second transaction. *)
Definition resubmit_attempt : M ((Relayer * W * D) * rbf_vars) unit := λ '(s, (res, lastError)),
  let keep {A} (r : outcome A * (Relayer * W * D)) : outcome unit * _ :=
    match r with
    | (Val _, s) => (Val tt, (s, (res, lastError)))
    | (Error e, s) => (Error e, (s, (res, lastError)))
    | (Panic p, s) => (Panic p, (s, (res, lastError)))
    | (Diverge, s) => (Diverge, (s, (res, lastError)))
    end in
  match (c ← last; bumpedFee ← calculateBumpedFee c lastError;
         tx2 ← deref (ci_Tx2 c);
         resend ← shouldResendCheckpoint tx2 bumpedFee;
         mret (if resend : bool then Some (tx2, bumpedFee) else None)) s with
  | (Val (Some (tx2, bumpedFee)), s) =>
      match (deref (TxID tx2) ;; maybeResendSecondTxOfCheckpointToBTC tx2 bumpedFee) s with
      | (Error err, s) =>
          if errors_Is err ErrTooManyDescendants || errors_Is err ErrNoChangeOutput
          then (Val tt, (s, (res, Some err)))
          else (Error err, (s, (res, Some err)))
      | (Val tx2Result, s) => (Val tt, (s, (tx2Result, lastError)))
      | (Panic p, s) => (Panic p, (s, (res, lastError)))
      | (Diverge, s) => (Diverge, (s, (res, lastError)))
      end
  | r => keep r
  end.

(** [uint(time.Since(ts).Seconds())]; [time.Since] saturates. *)
Definition secondsSince (now ts : Z) : Z :=
  u64 (f64_to_i64 (Seconds (Z.max (- 2 ^ 63) (Z.min (2 ^ 63 - 1) (now - ts))))).

Definition MaybeResubmitSecondCheckpointTx (ckpt : RawCheckpointWithMetaResponse) : RLM unit :=
  let ckptEpoch := EpochNum (cm_Ckpt ckpt) in
  if negb (bool_decide (cm_Status ckpt = Sealed)) then
    rl_emit (MInc "InvalidCheckpointCounter")
  else
    c ← last;
    if bool_decide (ci_Tx1 c = None) || bool_decide (ci_Tx2 c = None) then mret tt
    else if ckptEpoch <? ci_Epoch c then rl_emit (MInc "InvalidCheckpointCounter")
    else
      now ← wallet Now;
      if secondsSince now (ci_TS c) <? ResendIntervalSeconds config then mret tt
      else
        r ← try (capture (retry_Do (mkRetryOpts 5 (λ _, true) false false)) (None, None)
                   resubmit_attempt);
        match r with
        | Err err =>
            rl_emit (MInc "FailedResentCheckpointsCounter") ;;
            fail (EWrap "failed to re-send the second tx of the checkpoint" err)
        | Ok (None, _) => mret tt
        | Ok (Some tx2, _) =>
            txID ← deref (TxID tx2);
            rl_emit (MTouch "NewSubmittedCheckpointSegmentGaugeVec"
                       [ckptEpoch; 1; txID; bi_Fee tx2]) ;;
            rl_emit (MInc "ResentCheckpointsCounter") ;;
            update_last (set_Tx2 (Some tx2)) ;;
            ts ← wallet Now;
            update_last (set_TS ts) ;;
            c ← last;
            storeCkpt c
        end.

(** [Submitter.processCheckpoints] on one checkpoint received from the poller. *)
Definition process_checkpoint (ckpt : RawCheckpointWithMetaResponse) : RLM unit :=
  r ← try (SendCheckpointToBTC ckpt);
  match r with
  | Err _ => rl_emit (MInc "FailedCheckpointsCounter")
  | Ok _ =>
      r ← try (MaybeResubmitSecondCheckpointTx ckpt);
      match r with
      | Err _ => rl_emit (MInc "FailedCheckpointsCounter")
      | Ok _ => mret tt
      end ;;
      rl_emit (MSet "SecondsSinceLastCheckpointGauge" 0)
  end.
End relayer.
