(* ===== verification/RelayerProps.v ===== *)
(** * Properties of the relayer

    What the relayer relies on from the Bitcoin node is the class
    [WalletLaws]: a log of the transactions handed to the node, and the
    documented behaviour of funding and signing.  The lemmas follow the
    transactions of a checkpoint from the data they carry to the node and to
    the database. *)

From S2P Require Import Prelude GoFloat Config Blocks Retry Reporter Stores Monitor Relayer.
Import SubmitterStore.

(** An input without its signature. *)
Definition spends (i : TxInput) : OutPoint * Z := (PreviousOutPoint i, Sequence i).

Class WalletLaws {BL : BTCLib} {RL : RelayerLib} (W : Type) {WL : BTCWallet W} {CK : Clock W} := {
  (** The transactions the node was asked to broadcast, in order. *)
  broadcasts : W → list MsgTx;
  send_log : ∀ tx b w, broadcasts (snd (SendRawTransaction tx b w)) = broadcasts w ++ [tx];
  (** No other call broadcasts. *)
  GetRawTransaction_quiet : ∀ h w, broadcasts (snd (GetRawTransaction h w)) = broadcasts w;
  FundRawTransaction_quiet : ∀ tx r p w,
    broadcasts (snd (FundRawTransaction tx r p w)) = broadcasts w;
  SignRawTransaction_quiet : ∀ tx w,
    broadcasts (snd (SignRawTransactionWithWallet tx w)) = broadcasts w;
  WalletPassphrase_quiet : ∀ p t w, broadcasts (snd (WalletPassphrase p t w)) = broadcasts w;
  GetMempoolEntry_quiet : ∀ h w, broadcasts (snd (GetMempoolEntry h w)) = broadcasts w;
  GetNetworkInfo_quiet : ∀ w, broadcasts (snd (GetNetworkInfo_IncrementalFee w)) = broadcasts w;
  TxDetails_quiet : ∀ h p w, broadcasts (snd (TxDetails h p w)) = broadcasts w;
  GetNewAddress_quiet : ∀ a w, broadcasts (snd (GetNewAddress a w)) = broadcasts w;
  EstimateFee_quiet : ∀ n w, broadcasts (snd (EstimateFeePerKW n w)) = broadcasts w;
  RelayFee_quiet : ∀ w, broadcasts (snd (RelayFeePerKW w)) = broadcasts w;
  Now_quiet : ∀ w, broadcasts (snd (Now w)) = broadcasts w;
  (** [sendrawtransaction] answers with the hash of the transaction. *)
  send_hash : ∀ tx b w h w', SendRawTransaction tx b w = (Val h, w') → h = TxHash tx;
  (** [fundrawtransaction] adds inputs, and at most one change output at the
      position asked for; it modifies no existing input or output. *)
  fund_adds : ∀ tx r p w tx' fee w', FundRawTransaction tx r p w = (Val (tx', fee), w') →
    (∃ new, TxIn tx' = TxIn tx ++ new) ∧
    (TxOut tx' = TxOut tx ∨
     ∃ change, TxOut tx' = take (Z.to_nat p) (TxOut tx) ++ change :: drop (Z.to_nat p) (TxOut tx));
  (** Signing changes nothing but signatures. *)
  sign_keeps : ∀ tx w tx' b w', SignRawTransactionWithWallet tx w = (Val (tx', b), w') →
    TxOut tx' = TxOut tx ∧ spends <$> TxIn tx' = spends <$> TxIn tx;
}.

Section relayer.
Context {BL : BTCLib} {PL : ProtoLib} {RL : RelayerLib} {RT : Retry}.
Context {W D : Type} {WL : BTCWallet W} {CK : Clock W} {KV : KVDB D}.
Context {LAWS : WalletLaws W}.
Context (config : SubmitterConfig) (btcConfig : BTCConfig).
Context (tag : bytes) (version : Z) (submitterAddress : bytes).
Notation RLM A := (M (Relayer * W * D) A).

(** ** Computations that broadcast nothing and leave the database alone *)
Definition at_log (L : list MsgTx) (d : D) (s : Relayer * W * D) : Prop :=
  broadcasts s.1.2 = L ∧ s.2 = d.
Definition silent {A} (m : RLM A) : Prop := ∀ L d, preserves (at_log L d) m.

Lemma silent_wallet {A} (m : M W A) :
  (∀ w, broadcasts (snd (m w)) = broadcasts w) → silent (wallet m).
Proof.
  intros Hm L d [[r w] d'] [H1 H2]. unfold wallet, zoom, at_log in *. cbn in *.
  specialize (Hm w). destruct (m w). cbn in *. by rewrite Hm.
Qed.

Lemma silent_self {A} (m : M Relayer A) : silent (rl_self m).
Proof.
  intros L d [[r w] d'] Hs. unfold rl_self, zoom, at_log in *. cbn in *. by destruct (m r).
Qed.

Lemma silent_deref {A} (p : option A) : silent (deref p : RLM A).
Proof. intros L d s Hs. by destruct p. Qed.

Lemma silent_run {A} (m : RLM A) s o s' :
  silent m → m s = (o, s') → broadcasts s'.1.2 = broadcasts s.1.2 ∧ s'.2 = s.2.
Proof. intros Hm E. specialize (Hm _ _ s (conj eq_refl eq_refl)). by rewrite E in Hm. Qed.

(** Calls known to be silent are found in the hint database. *)
Create HintDb silent discriminated.
#[local] Hint Resolve silent_self silent_deref : silent.
Ltac silence :=
  intros; unfold silent; intros; preserve;
  try (apply silent_wallet; intros;
       eauto using GetRawTransaction_quiet, FundRawTransaction_quiet, SignRawTransaction_quiet,
         WalletPassphrase_quiet, GetMempoolEntry_quiet, GetNetworkInfo_quiet, TxDetails_quiet,
         GetNewAddress_quiet, EstimateFee_quiet, RelayFee_quiet, Now_quiet);
  try match goal with
    | |- preserves (at_log _ _) ?m =>
        let H := fresh in assert (silent m) as H by eauto with silent; apply H
    end.

Lemma getFeeRate_silent : silent (getFeeRate btcConfig : RLM Z).
Proof. unfold getFeeRate. silence. Qed.
#[local] Hint Resolve getFeeRate_silent : silent.

Lemma calcMinRelayFee_silent n : silent (calcMinRelayFee n : RLM Z).
Proof. unfold calcMinRelayFee. silence. Qed.
#[local] Hint Resolve calcMinRelayFee_silent : silent.

Lemma signTx_silent tx : silent (signTx btcConfig tx : RLM MsgTx).
Proof. unfold signTx. silence. Qed.
#[local] Hint Resolve signTx_silent : silent.

Lemma calculateTxVirtualSize_silent tx : silent (calculateTxVirtualSize tx : RLM Z).
Proof. unfold calculateTxVirtualSize. silence. Qed.
#[local] Hint Resolve calculateTxVirtualSize_silent : silent.

Lemma encode_silent ckpt :
  silent (encodeCheckpointData tag version submitterAddress ckpt : RLM (bytes * bytes)).
Proof. unfold encodeCheckpointData. silence. Qed.
#[local] Hint Resolve encode_silent : silent.

Lemma finalize_silent tx : silent (finalizeTransaction btcConfig tx : RLM BtcTxInfo).
Proof. unfold finalizeTransaction. silence. Qed.
#[local] Hint Resolve finalize_silent : silent.

Lemma buildDataTx_silent data : silent (buildDataTx btcConfig data : RLM BtcTxInfo).
Proof. unfold buildDataTx. silence. Qed.
#[local] Hint Resolve buildDataTx_silent : silent.

Lemma buildChainedDataTx_silent data prev :
  silent (buildChainedDataTx btcConfig data prev : RLM BtcTxInfo).
Proof. unfold buildChainedDataTx. silence. Qed.
#[local] Hint Resolve buildChainedDataTx_silent : silent.

Lemma metrics_silent tx1 tx2 e : silent (logAndRecordCheckpointMetrics tx1 tx2 e : RLM unit).
Proof. unfold logAndRecordCheckpointMetrics. silence. Qed.
#[local] Hint Resolve metrics_silent : silent.

Lemma verifyRBF_silent txID fee size : silent (verifyRBFRequirements txID fee size : RLM unit).
Proof. unfold verifyRBFRequirements. silence. Qed.
#[local] Hint Resolve verifyRBF_silent : silent.

Lemma apply_bumped_fee_silent tx2 change fee :
  silent (apply_bumped_fee tx2 change fee : RLM (BtcTxInfo * Z)).
Proof. unfold apply_bumped_fee. silence. Qed.
#[local] Hint Resolve apply_bumped_fee_silent : silent.

Lemma btcTxInfoFromStoredTx_silent tx : silent (btcTxInfoFromStoredTx tx : RLM (BtcTxInfo * Z)).
Proof. unfold btcTxInfoFromStoredTx. silence. Qed.
#[local] Hint Resolve btcTxInfoFromStoredTx_silent : silent.

(** ** What a call that returned normally did *)
Lemma wallet_Val {A} (m : M W A) s a s' :
  (wallet m : RLM A) s = (Val a, s') →
  ∃ w', m s.1.2 = (Val a, w') ∧ s' = (s.1.1, w', s.2).
Proof. unfold wallet, zoom. destruct (m s.1.2) eqn:E. intros ?; simplify_eq. eauto. Qed.

Lemma of_result_Val {A} (r : result A) s a s' :
  (of_result r : RLM A) s = (Val a, s') → r = Ok a ∧ s' = s.
Proof. destruct r; cbn; unfold mret, M_ret, fail; naive_solver. Qed.

Ltac inv_run :=
  repeat first
    [ progress inv_bind
    | match goal with
      | H : wrap_err _ _ _ = (Val _, _) |- _ => apply wrap_err_Val in H
      | H : of_result _ _ = (Val _, _) |- _ => apply of_result_Val in H as [? ->]
      | H : wallet _ _ = (Val _, _) |- _ => apply wallet_Val in H as (? & ? & ->)
      | H : fail _ _ = (Val _, _) |- _ => discriminate H
      | H : panic _ _ = (Val _, _) |- _ => discriminate H
      end ].

(** The same transaction up to signatures. *)
Definition same_body (tx tx' : MsgTx) : Prop :=
  TxOut tx' = TxOut tx ∧ spends <$> TxIn tx' = spends <$> TxIn tx.

Lemma signTx_body tx s tx' s' :
  (signTx btcConfig tx : RLM MsgTx) s = (Val tx', s') → same_body tx tx'.
Proof.
  unfold signTx. intros H. inv_run. destruct x1 as [signed ok]. cbn in *.
  destruct ok; cbn in *; inv_run. by eapply sign_keeps.
Qed.

Lemma finalize_body tx s i s' :
  (finalizeTransaction btcConfig tx : RLM BtcTxInfo) s = (Val i, s') → same_body tx (bi_Tx i).
Proof.
  unfold finalizeTransaction. intros H. inv_run. by eapply signTx_body.
Qed.

Ltac finalized Hout Hsp :=
  match goal with
  | H : finalizeTransaction _ _ _ = _ |- _ => apply finalize_body in H as [Hout Hsp]
  end.

(** Funding keeps the data output first and the inputs in front. *)
Lemma fund_keeps tx r w tx' fee w' o :
  FundRawTransaction tx r 1 w = (Val (tx', fee), w') → TxOut tx !! 0%nat = Some o →
  TxOut tx' !! 0%nat = Some o ∧ ∃ new, TxIn tx' = TxIn tx ++ new.
Proof.
  intros Hf Ho. apply fund_adds in Hf as [Hin Hout]. split; [|done].
  destruct Hout as [->|(c & ->)]; [done|].
  destruct (TxOut tx) as [|o' os]; [done|]. cbn in *. done.
Qed.

(** [carries data tx]: the first output of [tx] is [data]'s OP_RETURN output. *)
Definition carries (data : bytes) (tx : MsgTx) : Prop :=
  ∃ script, OpReturnScript data = Ok script ∧ TxOut tx !! 0%nat = Some (mkTxOut 0 script).

Lemma buildDataTx_carries data s i s' :
  (buildDataTx btcConfig data : RLM BtcTxInfo) s = (Val i, s') → carries data (bi_Tx i).
Proof.
  unfold buildDataTx. intros H. inv_run. destruct x3 as [tx fee].
  assert (Ho : TxOut tx !! 0%nat = Some (mkTxOut 0 x)) by (by eapply fund_keeps).
  exists x. split; [done|]. cbn in *. case_match; inv_run.
  - match goal with p : MsgTx * Z |- _ => destruct p as [tx3 fee3] end.
    cbn in *. finalized Hout Hsp. rewrite Hout.
    eapply fund_keeps; [done|]. cbn. by apply lookup_app_l_Some.
  - finalized Hout Hsp. by rewrite Hout.
Qed.

(** [chains tx1 tx2]: the first input of [tx2] spends the change of [tx1] and
    signals that it may be replaced. *)
Definition chains (tx1 tx2 : MsgTx) : Prop :=
  ∃ i, TxIn tx2 !! 0%nat = Some i ∧
    PreviousOutPoint i = mkOutPoint (TxHash tx1) changePosition ∧
    Sequence i = MaxUint32 - 2.

Lemma buildChainedDataTx_carries data prev s i s' :
  (buildChainedDataTx btcConfig data prev : RLM BtcTxInfo) s = (Val i, s') →
  carries data (bi_Tx i) ∧ chains prev (bi_Tx i).
Proof.
  unfold buildChainedDataTx. intros H. inv_run. destruct x3 as [tx fee]. cbn in *.
  match goal with
  | H : FundRawTransaction _ _ _ _ = _ |- _ =>
      eapply fund_keeps in H as [Ho [new Hin]]; [|reflexivity]
  end.
  finalized Hout Hsp. split; [exists x; by rewrite Hout|].
  rewrite Hin in Hsp. cbn [data_tx TxIn app] in Hsp. rewrite fmap_cons in Hsp.
  destruct (TxIn (bi_Tx i)) as [|j js] eqn:E; [done|]. rewrite fmap_cons in Hsp.
  injection Hsp as Hp Hs _.
  exists j. by rewrite E.
Qed.

(** ** Broadcasting *)
Lemma sendTxToBTC_log tx s :
  at_log (broadcasts s.1.2 ++ [tx]) s.2 (snd ((sendTxToBTC tx : RLM Hash) s)) ∧
  (snd ((sendTxToBTC tx : RLM Hash) s)).1.1 = s.1.1.
Proof.
  destruct s as [[r w] d]. unfold sendTxToBTC, wallet, zoom, at_log. cbn.
  pose proof (send_log tx true w) as H. by destruct (SendRawTransaction tx true w).
Qed.

Lemma buildAndSendTx_Val (build : RLM BtcTxInfo) s i s' :
  silent build → buildAndSendTx build s = (Val i, s') →
  ∃ i0 s0, build s = (Val i0, s0) ∧ bi_Tx i = bi_Tx i0 ∧ TxID i = Some (TxHash (bi_Tx i)) ∧
    at_log (broadcasts s.1.2 ++ [bi_Tx i]) s.2 s' ∧ s'.1.1 = s0.1.1.
Proof.
  intros Hb H. unfold buildAndSendTx in H. inv_run.
  match goal with H : build s = (Val ?i0, ?s0) |- _ => rename H into Hrun end.
  destruct (silent_run build _ _ _ Hb Hrun) as [Hlog Hdb].
  match goal with H : sendTxToBTC ?t ?s0 = (Val ?h, _) |- _ =>
    rename H into Hs; pose proof (sendTxToBTC_log t s0) as [Hl Hr] end.
  rewrite Hs in Hl, Hr. cbn in Hl, Hr.
  apply wallet_Val in Hs as (w' & Hs & ->). apply send_hash in Hs as ->.
  do 2 eexists. split; [exact Hrun|]. cbn. rewrite Hlog in Hl. by rewrite Hdb in Hl |- *.
Qed.

(** The two transactions of a checkpoint: both are broadcast, the first carries
    the first part of the data and the second, which spends the first, the rest. *)
Lemma ChainTwoTxAndSend_Val data1 data2 s i1 i2 s' :
  (ChainTwoTxAndSend btcConfig data1 data2 : RLM _) s = (Val (i1, i2), s') →
  carries data1 (bi_Tx i1) ∧ carries data2 (bi_Tx i2) ∧ chains (bi_Tx i1) (bi_Tx i2) ∧
  at_log (broadcasts s.1.2 ++ [bi_Tx i1; bi_Tx i2]) s.2 s'.
Proof.
  unfold ChainTwoTxAndSend. intros H. inv_run.
  match goal with H : buildAndSendTx (buildDataTx _ _) _ = _ |- _ =>
    apply buildAndSendTx_Val in H as (j1 & s1 & B1 & Ht1 & _ & [L1 D1] & _);
    [|apply buildDataTx_silent] end.
  match goal with H : buildAndSendTx (buildChainedDataTx _ _ _) _ = _ |- _ =>
    apply buildAndSendTx_Val in H as (j2 & s2 & B2 & Ht2 & _ & [L2 D2] & _);
    [|apply buildChainedDataTx_silent] end.
  match goal with H : update_last _ _ = (Val ?x, ?s3) |- _ =>
    pose proof (silent_run _ _ _ _ (silent_self _) H) as [L3 D3] end.
  apply buildDataTx_carries in B1. apply buildChainedDataTx_carries in B2 as [B2 Hc].
  rewrite <-Ht1 in B1. rewrite <-Ht2 in B2, Hc. do 3 (split; [done|]). split.
  - rewrite L2, L3, L1. by rewrite <-app_assoc.
  - by rewrite D2, D3, D1.
Qed.

(** ** Persisting *)
Context {KVL : KVLaws D}.

Lemma store_Val {A} (m : M D A) s a s' :
  (store m : RLM A) s = (Val a, s') → ∃ d', m s.2 = (Val a, d') ∧ s' = (s.1, d').
Proof. unfold store, zoom. destruct (m s.2) eqn:E. intros ?; simplify_eq. eauto. Qed.

Lemma storeCkpt_Val i1 i2 e ts s s' :
  (storeCkpt (mkCheckpointInfo e ts (Some i1) (Some i2)) : RLM unit) s = (Val tt, s') →
  ∃ d', PutCheckpoint (mkStoredCheckpoint (Some (bi_Tx i1)) (Some (bi_Tx i2)) e) s.2 = (Val tt, d') ∧
    s' = (s.1, d').
Proof.
  unfold storeCkpt. intros H. inv_run. cbn [ci_Tx1 ci_Tx2 deref] in *. inv_run.
  by match goal with H : store _ _ = _ |- _ => apply store_Val in H end.
Qed.

(** The bytes the two parts of a checkpoint are encoded to. *)
Definition encodes (ckpt : CkptResponse) (data1 data2 : bytes) : Prop :=
  ∃ raw btc, CkptToRawCheckpoint ckpt = Ok raw ∧
    FromRawCkptToBTCCkpt raw submitterAddress = Ok btc ∧
    EncodeCheckpointData tag version btc = Ok (data1, data2).

Lemma encodeCheckpointData_Val ckpt s data s' :
  (encodeCheckpointData tag version submitterAddress ckpt : RLM _) s = (Val data, s') →
  encodes ckpt data.1 data.2 ∧ s' = s.
Proof.
  unfold encodeCheckpointData. intros H. inv_run. split; [|done].
  do 2 eexists. split; [done|]. split; [done|]. by destruct data.
Qed.

(** A complete submission. *)
Lemma convert_Val ckpt s c s' :
  (convertCkptToTwoTxAndSubmit btcConfig tag version submitterAddress ckpt : RLM _) s
    = (Val c, s') →
  ∃ data1 data2 ts i1 i2,
    c = mkCheckpointInfo (EpochNum ckpt) ts (Some i1) (Some i2) ∧
    encodes ckpt data1 data2 ∧
    carries data1 (bi_Tx i1) ∧ carries data2 (bi_Tx i2) ∧ chains (bi_Tx i1) (bi_Tx i2) ∧
    at_log (broadcasts s.1.2 ++ [bi_Tx i1; bi_Tx i2]) s.2 s'.
Proof.
  unfold convertCkptToTwoTxAndSubmit. intros H. inv_run.
  match goal with H : encodeCheckpointData _ _ _ _ _ = _ |- _ =>
    apply encodeCheckpointData_Val in H as [Henc ->] end.
  match goal with p : BtcTxInfo * BtcTxInfo |- _ => destruct p as [i1 i2] end. inv_run.
  match goal with H : ChainTwoTxAndSend _ _ _ _ = _ |- _ =>
    apply ChainTwoTxAndSend_Val in H as (C1 & C2 & Hc & L & Hd) end.
  match goal with H : logAndRecordCheckpointMetrics _ _ _ _ = _ |- _ =>
    apply silent_run in H as [L1 D1]; [|apply metrics_silent] end.
  match goal with H : Now ?w = (Val ?t, ?w') |- _ =>
    pose proof (Now_quiet w) as Hn; rewrite H in Hn; cbn in Hn end.
  do 5 eexists. split; [done|]. do 4 (split; [done|]). unfold at_log. cbn.
  by rewrite Hn, L1, L, D1, Hd.
Qed.

Lemma last_run (s : Relayer * W * D) :
  (last : RLM _) s = (Val (lastSubmittedCheckpoint s.1.1), s).
Proof. by destruct s as [[r w] d]. Qed.

Lemma update_last_run f (s : Relayer * W * D) :
  (update_last f : RLM _) s =
  (Val tt, (set_last (f (lastSubmittedCheckpoint s.1.1)) s.1.1, s.1.2, s.2)).
Proof. by destruct s as [[r w] d]. Qed.

(** The database holds no checkpoint of the epoch. *)
Definition not_stored (e : Z) (d d1 : D) : Prop :=
  ∃ r, LatestCheckpoint d = (Val r, d1) ∧ ∀ c, r = Some c → sc_Epoch c ≠ e.

Lemma maybeResendFromStore_none e s d1 :
  not_stored e s.2 d1 → (maybeResendFromStore e : RLM bool) s = (Val false, (s.1, d1)).
Proof.
  intros (r & Hr & Hne). unfold maybeResendFromStore. rewrite bind_unfold.
  unfold store, zoom. rewrite Hr. destruct r as [c|]; [|done].
  specialize (Hne c eq_refl). apply Z.eqb_neq in Hne. by rewrite Hne.
Qed.

Lemma submit_new_complete ckpt s s' :
  shouldSendCompleteCkpt (lastSubmittedCheckpoint s.1.1) (EpochNum ckpt) = true →
  (submit_new btcConfig tag version submitterAddress ckpt : RLM unit) s = (Val tt, s') →
  ∃ data1 data2 ts i1 i2,
    encodes ckpt data1 data2 ∧
    carries data1 (bi_Tx i1) ∧ carries data2 (bi_Tx i2) ∧ chains (bi_Tx i1) (bi_Tx i2) ∧
    broadcasts s'.1.2 = broadcasts s.1.2 ++ [bi_Tx i1; bi_Tx i2] ∧
    lastSubmittedCheckpoint s'.1.1 = mkCheckpointInfo (EpochNum ckpt) ts (Some i1) (Some i2) ∧
    PutCheckpoint (mkStoredCheckpoint (Some (bi_Tx i1)) (Some (bi_Tx i2)) (EpochNum ckpt)) s.2
      = (Val tt, s'.2).
Proof.
  intros Hc H. unfold submit_new in H.
  apply bind_Val_inv in H as (c & s1 & E & H). rewrite last_run in E. simplify_eq.
  rewrite Hc in H. apply bind_Val_inv in H as (c & s2 & E & H).
  apply convert_Val in E as (d1 & d2 & ts & i1 & i2 & -> & He & C1 & C2 & Hch & L & Hd).
  apply bind_Val_inv in H as ([] & s3 & E & H). rewrite update_last_run in E. simplify_eq.
  apply storeCkpt_Val in H as (d' & Hp & ->). cbn in *. rewrite Hd in Hp.
  by exists d1, d2, ts, i1, i2.
Qed.

Lemma SendCheckpointToBTC_new ckpt s d1 s' :
  cm_Status ckpt = Sealed →
  shouldSendCompleteCkpt (lastSubmittedCheckpoint s.1.1) (EpochNum (cm_Ckpt ckpt)) = true →
  not_stored (EpochNum (cm_Ckpt ckpt)) s.2 d1 →
  (SendCheckpointToBTC btcConfig tag version submitterAddress ckpt : RLM unit) s = (Val tt, s') →
  (submit_new btcConfig tag version submitterAddress (cm_Ckpt ckpt) : RLM unit) (s.1, d1)
    = (Val tt, s').
Proof.
  intros Hst Hc Hn H. unfold SendCheckpointToBTC in H. rewrite Hst in H.
  rewrite bool_decide_true in H by done. cbn [negb] in H.
  apply bind_Val_inv in H as (c & s1 & E & H). rewrite last_run in E. simplify_eq.
  rewrite Hc in H. cbn [orb] in H.
  rewrite bind_unfold, (maybeResendFromStore_none _ _ _ Hn) in H. done.
Qed.

(** ** After a restart *)

(** A transaction is handed to the node again only if the node said it does
    not know it, and at most once. *)
Definition reported_missing (tx : MsgTx) : Prop :=
  ∃ w err w', GetRawTransaction (TxHash tx) w = (Error err, w') ∧
    errors_As_RPCError err = Some ErrRPCNoTxInfo.

Definition grows_by (P : list MsgTx → Prop) (s s' : Relayer * W * D) : Prop :=
  ∃ l, P l ∧ broadcasts s'.1.2 = broadcasts s.1.2 ++ l.

Lemma maybeResendFunc_log tx s :
  grows_by (λ l, l = [] ∨ l = [tx] ∧ reported_missing tx) s
    (snd ((maybeResendFunc tx : RLM unit) s)) ∧
  (snd ((maybeResendFunc tx : RLM unit) s)).2 = s.2.
Proof.
  unfold maybeResendFunc. rewrite bind_unfold. unfold try.
  destruct (wallet _ s) as [o s1] eqn:E.
  assert (silent (wallet (GetRawTransaction (TxHash tx)) : RLM MsgTx)) as Hq
    by (apply silent_wallet; intros; apply GetRawTransaction_quiet).
  destruct (silent_run _ _ _ _ Hq E) as [L1 D1].
  assert (Hnone : ∀ s2, s2 = s1 → grows_by (λ l, l = [] ∨ l = [tx] ∧ reported_missing tx) s s2 ∧
    s2.2 = s.2).
  { intros s2 ->. split; [|done]. exists []. rewrite app_nil_r. auto. }
  destruct o as [t|err|p|]; try (by apply Hnone). cbv beta iota.
  case_bool_decide as Hcode; [|by apply Hnone].
  rewrite bind_unfold. pose proof (sendTxToBTC_log tx s1) as [[Hl Hd] _].
  destruct (sendTxToBTC tx s1) as [o2 s2]. cbn [snd] in Hl, Hd. rewrite L1 in Hl. rewrite D1 in Hd.
  assert (Hmiss : reported_missing tx).
  { unfold wallet, zoom in E. destruct (GetRawTransaction (TxHash tx) s.1.2) as [o3 w3] eqn:G.
    injection E as -> _. by exists s.1.2, err, w3. }
  assert (Hsent : ∀ s3, s3 = s2 → grows_by (λ l, l = [] ∨ l = [tx] ∧ reported_missing tx) s s3 ∧
    s3.2 = s.2).
  { intros s3 ->. split; [|done]. exists [tx]. auto. }
  apply Hsent. unfold mret, M_ret, fail. repeat case_match; simplify_eq; done.
Qed.

(** Every one of [l] is a stored transaction the node does not know. *)
Definition missing_of (ts l : list MsgTx) : Prop :=
  l `sublist_of` ts ∧ ∀ t, t ∈ l → reported_missing t.

Lemma missing_of_app ts1 ts2 l1 l2 :
  missing_of ts1 l1 → missing_of ts2 l2 → missing_of (ts1 ++ ts2) (l1 ++ l2).
Proof.
  intros [Hs1 Hm1] [Hs2 Hm2]. split; [by apply sublist_app|].
  intros t [Ht|Ht]%elem_of_app; auto.
Qed.

Lemma missing_of_nil ts : missing_of ts [].
Proof. split; [apply sublist_nil_l|set_solver]. Qed.

Lemma maybeResendFunc_missing tx s :
  grows_by (missing_of [tx]) s (snd ((maybeResendFunc tx : RLM unit) s)) ∧
  (snd ((maybeResendFunc tx : RLM unit) s)).2 = s.2.
Proof.
  destruct (maybeResendFunc_log tx s) as [(l & Hl & HL) Hd]. split; [|done]. exists l. split; [|done].
  destruct Hl as [->|[-> Hm]]; [apply missing_of_nil|].
  split; [done|]. by intros t ->%list_elem_of_singleton.
Qed.

(** The database holds the checkpoint [t1], [t2] of the epoch. *)
Definition stored (e : Z) (t1 t2 : MsgTx) (d d1 : D) : Prop :=
  LatestCheckpoint d = (Val (Some (mkStoredCheckpoint (Some t1) (Some t2) e)), d1).

Lemma deref_bind {A B} (a : A) (k : A → RLM B) s : (deref (Some a) ≫= k) s = k a s.
Proof. reflexivity. Qed.

Lemma maybeResendFromStore_stored e t1 t2 s d1 :
  stored e t1 t2 s.2 d1 →
  grows_by (missing_of [t1; t2]) s (snd ((maybeResendFromStore e : RLM bool) s)) ∧
  (snd ((maybeResendFromStore e : RLM bool) s)).2 = d1 ∧
  fst ((maybeResendFromStore e : RLM bool) s) ≠ Val false.
Proof.
  intros Hst. unfold maybeResendFromStore. rewrite bind_unfold. unfold store, zoom.
  rewrite Hst. cbn [sc_Epoch Tx1 Tx2]. rewrite Z.eqb_refl. cbn [negb].
  rewrite deref_bind, bind_unfold.
  pose proof (maybeResendFunc_missing t1 (s.1, d1)) as [(l1 & M1 & L1) D1].
  destruct (maybeResendFunc t1 (s.1, d1)) as [o1 s1]. cbn [fst snd] in *.
  assert (Hfirst : grows_by (missing_of [t1; t2]) s s1).
  { exists l1. split; [|done]. rewrite <-(app_nil_r l1). apply (missing_of_app [t1] [t2]); [done|].
    apply missing_of_nil. }
  destruct o1 as [[]|e1|p1|]; try (split; [done|split; [done|discriminate]]).
  rewrite deref_bind, bind_unfold.
  pose proof (maybeResendFunc_missing t2 s1) as [(l2 & M2 & L2) D2].
  assert (Hboth : grows_by (missing_of [t1; t2]) s (snd (maybeResendFunc t2 s1))).
  { exists (l1 ++ l2). split; [by apply (missing_of_app [t1] [t2])|].
    by rewrite L2, L1, <-app_assoc. }
  destruct (maybeResendFunc t2 s1) as [o2 s2]. cbn [snd] in *. rewrite D1 in D2.
  by destruct o2 as [[]|e2|p2|].
Qed.

(** Rehydrating reads the store and the mempool only. *)
Lemma rehydrate_quiet e s :
  broadcasts (snd ((rehydrateLastSubmittedCheckpointFromStore e : RLM unit) s)).1.2 =
  broadcasts s.1.2.
Proof.
  set (I := λ s' : Relayer * W * D, broadcasts s'.1.2 = broadcasts s.1.2).
  assert (Hsil : ∀ {A} (m : RLM A), silent m → preserves I m).
  { intros A m Hm s1 Hs1. unfold I. by destruct (Hm _ _ s1 (conj Hs1 eq_refl)). }
  assert (preserves I (rehydrateLastSubmittedCheckpointFromStore e : RLM unit)) as H; [|by apply H].
  unfold rehydrateLastSubmittedCheckpointFromStore. preserve.
  - intros s1 Hs1. unfold store, zoom, I in *. by destruct (LatestCheckpoint s1.2).
  - apply Hsil, btcTxInfoFromStoredTx_silent.
  - apply Hsil, btcTxInfoFromStoredTx_silent.
  - apply Hsil, silent_self.
Qed.

Lemma submit_new_idle ckpt s :
  shouldSendCompleteCkpt (lastSubmittedCheckpoint s.1.1) (EpochNum ckpt) ||
  shouldSendTx2 (lastSubmittedCheckpoint s.1.1) (EpochNum ckpt) = false →
  (submit_new btcConfig tag version submitterAddress ckpt : RLM unit) s = (Val tt, s).
Proof.
  intros [H1 H2]%orb_false_iff. unfold submit_new. rewrite bind_unfold, last_run. by rewrite H1, H2.
Qed.

(** For an epoch whose checkpoint is stored, no new transaction is made. *)
Lemma SendCheckpointToBTC_stored ckpt t1 t2 s d1 :
  stored (EpochNum (cm_Ckpt ckpt)) t1 t2 s.2 d1 →
  grows_by (missing_of [t1; t2]) s
    (snd ((SendCheckpointToBTC btcConfig tag version submitterAddress ckpt : RLM unit) s)).
Proof.
  intros Hst. assert (Hsame : ∀ s', broadcasts s'.1.2 = broadcasts s.1.2 →
    grows_by (missing_of [t1; t2]) s s').
  { intros s' E. exists []. rewrite app_nil_r. split; [apply missing_of_nil|done]. }
  unfold SendCheckpointToBTC. case_match; [by apply Hsame; destruct s as [[??]?]|].
  rewrite bind_unfold, last_run. case_match eqn:E; [|by rewrite submit_new_idle by done; apply Hsame].
  rewrite bind_unfold.
  destruct (maybeResendFromStore_stored _ _ _ _ _ Hst) as ((l & Hl & HL) & _ & Hf).
  destruct (maybeResendFromStore _ s) as [o s1]. cbn [fst snd] in *.
  destruct o as [[|]|e|p|]; [|done|by exists l..].
  rewrite bind_unfold, last_run. case_match; [|by exists l].
  exists l. split; [done|]. rewrite <-HL. unfold wrap_err.
  pose proof (rehydrate_quiet (EpochNum (cm_Ckpt ckpt)) s1) as Hq.
  by destruct (rehydrateLastSubmittedCheckpointFromStore _ s1) as [[]].
Qed.

(** ** Replacing the second transaction *)
Lemma deref_Val {A} (p : option A) (s : Relayer * W * D) a s' :
  (deref p : RLM A) s = (Val a, s') → p = Some a ∧ s' = s.
Proof. destruct p; cbn; unfold mret, M_ret, panic; naive_solver. Qed.

Lemma try_Val_inv {A} (m : RLM A) s r s' :
  try m s = (Val r, s') →
  match r with Ok a => m s = (Val a, s') | Err e => m s = (Error e, s') end.
Proof. unfold try. destruct (m s) as [[]]; naive_solver. Qed.

(** What an accepted replacement pays, by the node's mempool. *)
Definition outbids (entry : MempoolEntry) (newFee size : Z) : Prop :=
  DescendantCount entry ≤ 100 ∧
  f64_to_i64 (DescendantFees entry) < newFee ∧
  f64_leb (f64_div (f64_of_int newFee) (f64_of_int size))
    (f64_div (f64_of_int (f64_to_i64 (DescendantFees entry)))
       (f64_of_int (DescendantSize entry))) = false ∧
  ∃ w fee w', GetNetworkInfo_IncrementalFee w = (Val fee, w') ∧
    i64 (f64_to_i64 fee * size) ≤ i64 (newFee - f64_to_i64 (DescendantFees entry)).

Lemma verifyRBF_Val txID newFee size s s' :
  (verifyRBFRequirements txID newFee size : RLM unit) s = (Val tt, s') →
  ∃ w entry w', GetMempoolEntry txID w = (Val (Some entry), w') ∧ outbids entry newFee size.
Proof.
  unfold verifyRBFRequirements. intros H.
  apply bind_Val_inv in H as (r & s1 & E1 & H). apply try_Val_inv in E1.
  destruct r as [entry|]; [|by inv_run]. apply wallet_Val in E1 as (w1 & E1 & ->).
  apply bind_Val_inv in H as (me & s2 & E2 & H). apply deref_Val in E2 as [-> ->].
  case_match eqn:Hc; [by inv_run|]. case_match eqn:Hf; [by inv_run|].
  case_match eqn:Hr; [by inv_run|].
  apply bind_Val_inv in H as (r & s3 & E3 & H). apply try_Val_inv in E3.
  destruct r as [inc|]; [|by inv_run]. unfold getIncrementalRelayFeerate in E3.
  case_match eqn:Hi; [by inv_run|]. inv_run.
  do 3 eexists. split; [exact E1|]. do 3 (split; [by first [lia | done]|]).
  do 3 eexists. split; [done|]. lia.
Qed.

(** The total of a transaction's outputs. *)
Definition output_total (tx : MsgTx) : Z := foldr Z.add 0 (Value <$> TxOut tx).

Lemma foldr_add_alter (vs : list TxOutput) i o v :
  vs !! i = Some o →
  foldr Z.add 0 (Value <$> alter (λ o, mkTxOut v (PkScript o)) i vs) =
  foldr Z.add 0 (Value <$> vs) - Value o + v.
Proof.
  revert i. induction vs as [|x vs IH]; intros [|i] Hi; simplify_eq/=; [lia|].
  rewrite (IH _ Hi). lia.
Qed.

Lemma apply_bumped_fee_change tx2 change fee s t paid s' :
  TxOut (bi_Tx tx2) !! Z.to_nat changePosition = Some change →
  dustThreshold ≤ i64 (Value change - fee) →
  (apply_bumped_fee tx2 change fee : RLM _) s = (Val (t, paid), s') →
  paid = fee ∧ bi_Size t = bi_Size tx2 ∧
  bi_Tx t = set_out_value changePosition (i64 (Value change - fee)) (bi_Tx tx2).
Proof.
  intros Hch Hd H. unfold apply_bumped_fee in H.
  destruct (Z.ltb_spec (i64 (Value change - fee)) dustThreshold); [lia|].
  apply bind_Val_inv in H as ([] & s1 & E & H). by inv_run.
Qed.

Lemma assign_tx2_run t (s : Relayer * W * D) :
  ci_Tx2 (lastSubmittedCheckpoint (snd ((assign_tx2 t : RLM unit) s)).1.1) = Some t.
Proof. by destruct s as [[r w] d]. Qed.

(** A replacement paid from the change: what was broadcast and recorded. *)
Lemma replace_from_change tx2 change fee s t s' :
  TxOut (bi_Tx tx2) !! Z.to_nat changePosition = Some change →
  dustThreshold ≤ i64 (Value change - fee) →
  (replace_tx2 btcConfig tx2 change fee : RLM _) s = (Val (Some t), s') →
  bi_Fee t = fee ∧
  bi_Tx t = set_out_value changePosition (i64 (Value change - fee)) (bi_Tx tx2) ∧
  (∃ sent, at_log (broadcasts s.1.2 ++ [sent]) s.2 s' ∧ same_body (bi_Tx t) sent ∧
    TxID t = Some (TxHash sent)) ∧
  ∃ w entry w', GetMempoolEntry (HashString (TxHash (bi_Tx tx2))) w = (Val (Some entry), w') ∧
    outbids entry fee (bi_Size tx2).
Proof.
  intros Hch Hd H. unfold replace_tx2 in H.
  apply bind_Val_inv in H as ([u paid] & s2 & E2 & H).
  pose proof (silent_run _ _ _ _ (apply_bumped_fee_silent _ _ _) E2) as [L2 D2].
  apply (apply_bumped_fee_change _ _ _ _ _ _ _ Hch Hd) in E2 as (-> & Hsz & Hu).
  apply bind_Val_inv in H as ([] & s3 & E3 & H). apply wrap_err_Val in E3.
  pose proof (silent_run _ _ _ _ (verifyRBF_silent _ _ _) E3) as [L3 D3].
  apply verifyRBF_Val in E3 as (w & entry & w' & Hm & Hout). rewrite Hsz in Hout.
  apply bind_Val_inv in H as (sent & s4 & E4 & H).
  pose proof (silent_run _ _ _ _ (signTx_silent _) E4) as [L4 D4].
  apply signTx_body in E4.
  apply bind_Val_inv in H as (h & s5 & E5 & H).
  pose proof (sendTxToBTC_log sent s4) as [[L5 D5] _]. rewrite E5 in L5, D5. cbn [snd] in L5, D5.
  apply wallet_Val in E5 as (w5 & E5 & _). apply send_hash in E5 as ->.
  apply bind_Val_inv in H as ([] & s6 & E6 & H).
  apply (silent_run _ _ _ _ (silent_self _)) in E6 as [L6 D6]. inv_run.
  split; [done|]. split; [done|]. split; [|by exists w, entry, w'].
  exists sent. split; [|done]. unfold at_log.
  by rewrite L6, L5, L4, L3, L2, D6, D5, D4, D3, D2.
Qed.

Lemma resend_is_replace tx2 change fee s t s' :
  TxOut (bi_Tx tx2) !! Z.to_nat changePosition = Some change →
  (maybeResendSecondTxOfCheckpointToBTC btcConfig tx2 fee : RLM _) s = (Val (Some t), s') →
  ∃ s1, broadcasts s1.1.2 = broadcasts s.1.2 ∧ s1.2 = s.2 ∧
    (replace_tx2 btcConfig tx2 change fee : RLM _) s1 = (Val (Some t), s').
Proof.
  intros Hch H. unfold maybeResendSecondTxOfCheckpointToBTC in H. rewrite Hch in H.
  apply bind_Val_inv in H as (st & s1 & E1 & H).
  apply (silent_run _ _ _ _ (silent_wallet _ (TxDetails_quiet _ _))) in E1 as [L1 D1].
  exists s1. do 2 (split; [done|]). destruct st; [done..|by inv_run].
Qed.

Lemma set_out_value_total tx change v :
  TxOut tx !! Z.to_nat changePosition = Some change →
  output_total (set_out_value changePosition v tx) = output_total tx - Value change + v.
Proof. intros H. by apply foldr_add_alter. Qed.

(** A replacement the mempool's fees rule out: the change of the recorded
    transaction has been reduced although nothing was sent. *)
Lemma rejected_replacement tx2 change fee s w1 w2 entry :
  TxOut (bi_Tx tx2) !! Z.to_nat changePosition = Some change →
  dustThreshold ≤ i64 (Value change - fee) →
  TxDetails (TxID tx2) (PkScript change) s.1.2 = (Val TxInMemPool, w1) →
  GetMempoolEntry (HashString (TxHash (bi_Tx tx2))) w1 = (Val (Some entry), w2) →
  DescendantCount entry ≤ 100 → fee ≤ f64_to_i64 (DescendantFees entry) →
  (maybeResendSecondTxOfCheckpointToBTC btcConfig tx2 fee : RLM _) s =
  (Error (EWrap "RBF requirements not met" (ESentinel ErrInsufficientFee)),
   (set_last (set_Tx2 (Some (mkBtcTxInfo (TxID tx2)
      (set_out_value changePosition (i64 (Value change - fee)) (bi_Tx tx2))
      (bi_Size tx2) (bi_Fee tx2))) (lastSubmittedCheckpoint s.1.1)) s.1.1, w2, s.2)).
Proof.
  intros Hch Hd Htd Hme Hc Hf. destruct s as [[r w] d]. cbn [fst snd] in *.
  unfold maybeResendSecondTxOfCheckpointToBTC. rewrite Hch, bind_unfold.
  unfold wallet at 1, zoom at 1. cbn [fst snd]. rewrite Htd. unfold replace_tx2.
  rewrite bind_unfold. unfold apply_bumped_fee.
  destruct (Z.ltb_spec (i64 (Value change - fee)) dustThreshold); [lia|].
  rewrite bind_unfold. unfold assign_tx2. rewrite update_last_run. cbn [fst snd mret M_ret].
  rewrite bind_unfold. unfold wrap_err. unfold verifyRBFRequirements. rewrite bind_unfold.
  unfold try, wallet, zoom. cbn [fst snd]. rewrite Hme.
  rewrite deref_bind. destruct (Z.ltb_spec 100 (DescendantCount entry)); [lia|].
  destruct (Z.leb_spec fee (f64_to_i64 (DescendantFees entry))); [|lia]. reflexivity.
Qed.

(** ** Resending only the second transaction

    Only a complete submission or a reload from the store sets the epoch. *)
Definition epoch_set (s : Relayer * W * D) : Prop :=
  ci_Tx2 (lastSubmittedCheckpoint s.1.1) = None → ci_Epoch (lastSubmittedCheckpoint s.1.1) = 0.

Lemma epoch_set_wallet {A} (m : M W A) : preserves epoch_set (wallet m : RLM A).
Proof. intros [[r w] d] Hs. unfold wallet, zoom. cbn. by destruct (m w). Qed.

Lemma epoch_set_store {A} (m : M D A) : preserves epoch_set (store m : RLM A).
Proof. intros [[r w] d] Hs. unfold store, zoom. cbn. by destruct (m d). Qed.

Lemma epoch_set_last : preserves epoch_set (last : RLM _).
Proof. intros s Hs. by rewrite last_run. Qed.

Lemma epoch_set_emit m : preserves epoch_set (rl_emit m : RLM _).
Proof. by intros [[r w] d] Hs. Qed.

Lemma epoch_set_deref {A} (p : option A) : preserves epoch_set (deref p : RLM A).
Proof. intros s Hs. by destruct p. Qed.

Lemma epoch_set_Tx1 t : preserves epoch_set (update_last (set_Tx1 t) : RLM unit).
Proof. by intros [[r w] d] Hs. Qed.

Lemma epoch_set_TS ts : preserves epoch_set (update_last (set_TS ts) : RLM unit).
Proof. by intros [[r w] d] Hs. Qed.

Lemma epoch_set_Tx2 t : preserves epoch_set (update_last (set_Tx2 (Some t)) : RLM unit).
Proof. intros [[r w] d] Hs. unfold epoch_set. done. Qed.

Lemma epoch_set_info c : ci_Tx2 c ≠ None → preserves epoch_set (update_last (λ _, c) : RLM unit).
Proof. intros Hc [[r w] d] Hs. unfold epoch_set. cbn. done. Qed.

#[local] Hint Resolve epoch_set_wallet epoch_set_store epoch_set_last epoch_set_emit
  epoch_set_deref epoch_set_Tx1 epoch_set_TS epoch_set_Tx2 : preserves.

Lemma epoch_set_getFeeRate : preserves epoch_set (getFeeRate btcConfig : RLM Z).
Proof. unfold getFeeRate. preserve. Qed.
#[local] Hint Resolve epoch_set_getFeeRate : preserves.

Lemma epoch_set_buildDataTx data : preserves epoch_set (buildDataTx btcConfig data : RLM _).
Proof. unfold buildDataTx. preserve. Qed.

Lemma epoch_set_buildChainedDataTx data prev :
  preserves epoch_set (buildChainedDataTx btcConfig data prev : RLM _).
Proof. unfold buildChainedDataTx. preserve. Qed.
#[local] Hint Resolve epoch_set_buildDataTx epoch_set_buildChainedDataTx : preserves.

Lemma epoch_set_convert ckpt :
  preserves epoch_set
    (convertCkptToTwoTxAndSubmit btcConfig tag version submitterAddress ckpt : RLM _).
Proof. unfold convertCkptToTwoTxAndSubmit. preserve. Qed.

Lemma epoch_set_retry ckpt :
  preserves epoch_set (retrySendTx2 btcConfig tag version submitterAddress ckpt : RLM _).
Proof. unfold retrySendTx2. preserve. Qed.

Lemma retrySendTx2_Val ckpt s c s' :
  (retrySendTx2 btcConfig tag version submitterAddress ckpt : RLM _) s = (Val c, s') →
  ci_Tx2 c ≠ None.
Proof.
  unfold retrySendTx2. intros H. apply bind_Val_inv in H as (? & ? & _ & H).
  apply bind_Val_inv in H as (? & ? & _ & H). case_match; [|done].
  apply bind_Val_inv in H as (? & ? & _ & H). apply bind_Val_inv in H as (? & ? & _ & H).
  apply bind_Val_inv in H as (? & ? & _ & H). by inv_run.
Qed.

Lemma convert_Tx2 ckpt s c s' :
  (convertCkptToTwoTxAndSubmit btcConfig tag version submitterAddress ckpt : RLM _) s
    = (Val c, s') → ci_Tx2 c ≠ None.
Proof.
  unfold convertCkptToTwoTxAndSubmit. intros H. apply bind_Val_inv in H as (? & ? & _ & H).
  apply bind_Val_inv in H as ([i1 i2] & ? & _ & H). apply bind_Val_inv in H as (? & ? & _ & H).
  apply bind_Val_inv in H as (? & ? & _ & H). by inv_run.
Qed.

Lemma epoch_set_submit_new ckpt :
  preserves epoch_set (submit_new btcConfig tag version submitterAddress ckpt : RLM unit).
Proof.
  unfold submit_new. apply preserves_bind; [auto with preserves|]. intros c.
  repeat case_match.
  - apply (preserves_bind_post _ (λ c, ci_Tx2 c ≠ None)); [apply epoch_set_convert| |].
    + intros s a s' Hr. by eapply convert_Tx2.
    + intros a Ha. apply preserves_bind; [by apply epoch_set_info|]. intros _. unfold storeCkpt.
      preserve.
  - apply preserves_bind; [auto with preserves|]. intros _.
    apply (preserves_bind_post _ (λ c, ci_Tx2 c ≠ None)); [apply epoch_set_retry| |].
    + intros s a s' Hr. by eapply retrySendTx2_Val.
    + intros a Ha. apply preserves_bind; [by apply epoch_set_info|]. intros _. unfold storeCkpt.
      preserve.
  - apply preserves_ret.
Qed.

Lemma epoch_set_storedTx tx : preserves epoch_set (btcTxInfoFromStoredTx tx : RLM _).
Proof. unfold btcTxInfoFromStoredTx. preserve. Qed.
#[local] Hint Resolve epoch_set_storedTx : preserves.

Lemma epoch_set_rehydrate e :
  preserves epoch_set (rehydrateLastSubmittedCheckpointFromStore e : RLM unit).
Proof.
  unfold rehydrateLastSubmittedCheckpointFromStore. preserve. by apply epoch_set_info.
Qed.

Lemma epoch_set_fromStore e : preserves epoch_set (maybeResendFromStore e : RLM bool).
Proof. unfold maybeResendFromStore, maybeResendFunc. preserve. Qed.
#[local] Hint Resolve epoch_set_rehydrate epoch_set_submit_new epoch_set_fromStore : preserves.

Lemma epoch_set_Send ckpt :
  preserves epoch_set (SendCheckpointToBTC btcConfig tag version submitterAddress ckpt : RLM unit).
Proof.
  unfold SendCheckpointToBTC. preserve.
Qed.

Lemma epoch_set_calculate c e : preserves epoch_set (calculateBumpedFee config btcConfig c e : RLM Z).
Proof. unfold calculateBumpedFee. preserve. Qed.

Lemma epoch_set_resend tx2 fee :
  preserves epoch_set (maybeResendSecondTxOfCheckpointToBTC btcConfig tx2 fee : RLM _).
Proof.
  unfold maybeResendSecondTxOfCheckpointToBTC, replace_tx2, apply_bumped_fee, assign_tx2. preserve.
Qed.

Lemma epoch_set_attempt (sv : (Relayer * W * D) * rbf_vars) :
  epoch_set sv.1 → epoch_set (snd (resubmit_attempt config btcConfig sv)).1.
Proof.
  destruct sv as [s [res le]]. cbn [fst]. intros Hs. unfold resubmit_attempt.
  match goal with |- context [match ?m s with _ => _ end] =>
    assert (preserves epoch_set m) as Hm
      by (preserve; auto using epoch_set_calculate); specialize (Hm s Hs);
    destruct (m s) as [[[[tx2 fee]|]|?|?|] s1]; try exact Hm end.
  cbn [snd] in Hm.
  match goal with |- context [match ?m s1 with _ => _ end] =>
    assert (preserves epoch_set m) as Hm2
      by (preserve; auto using epoch_set_resend); specialize (Hm2 s1 Hm);
    destruct (m s1) as [[?|?|?|] s2]; try exact Hm2 end.
  by case_match.
Qed.

Lemma epoch_set_Resubmit ckpt :
  preserves epoch_set (MaybeResubmitSecondCheckpointTx config btcConfig ckpt : RLM unit).
Proof.
  unfold MaybeResubmitSecondCheckpointTx, storeCkpt. preserve.
  intros s Hs. unfold capture.
  pose proof (retry_Do_spec (mkRetryOpts 5 (λ _, true) false false)
    (resubmit_attempt config btcConfig) (s, (None, None)) ltac:(cbn; lia) ltac:(done)) as Hr.
  apply (retried_inv (λ sv, epoch_set sv.1)) in Hr; [|apply epoch_set_attempt|done].
  by destruct (retry_Do _ _ _) as [[?|?|?|] [s1 v]].
Qed.

Lemma epoch_set_process ckpt :
  preserves epoch_set
    (process_checkpoint config btcConfig tag version submitterAddress ckpt : RLM unit).
Proof.
  unfold process_checkpoint. preserve; auto using epoch_set_Send, epoch_set_Resubmit.
Qed.

Lemma epoch_set_no_tx2_retry s e :
  epoch_set s → 1 ≤ e →
  shouldSendCompleteCkpt (lastSubmittedCheckpoint s.1.1) e = false →
  shouldSendTx2 (lastSubmittedCheckpoint s.1.1) e = false.
Proof.
  intros Hs He [H1 H2]%orb_false_iff. unfold shouldSendTx2.
  destruct (decide (ci_Tx2 (lastSubmittedCheckpoint s.1.1) = None)) as [E|E];
    [specialize (Hs E); lia|].
  by rewrite (bool_decide_false (ci_Tx2 _ = None)), andb_false_r.
Qed.

(** ** Fee rates *)
Lemma clampFee_range f :
  TxFeeMin btcConfig ≤ TxFeeMax btcConfig →
  TxFeeMin btcConfig ≤ clampFee btcConfig f ≤ TxFeeMax btcConfig ∧
  (TxFeeMin btcConfig ≤ f ≤ TxFeeMax btcConfig → clampFee btcConfig f = f).
Proof. unfold clampFee. repeat case_match; lia. Qed.

Lemma getFeeRate_range s :
  BTCConfig_Validate btcConfig = Ok tt → is_u32 (TargetBlockNum btcConfig) →
  match (getFeeRate btcConfig : RLM Z) s with
  | (Val f, _) => TxFeeMin btcConfig ≤ f ≤ TxFeeMax btcConfig
  | (Error _, _) => False
  | (Panic _, _) | (Diverge, _) =>
      match EstimateFeePerKW (TargetBlockNum btcConfig) s.1.2 with
      | (Panic _, _) | (Diverge, _) => True
      | _ => False
      end
  end.
Proof.
  intros Hv Ht. pose proof (BTCConfig_valid_fees _ Hv) as (H0 & Hd & Hp).
  unfold getFeeRate. destruct (Z.ltb_spec (TargetBlockNum btcConfig) 0); [lia|].
  destruct (Z.ltb_spec MaxUint32 (TargetBlockNum btcConfig)); [zrange|]. cbn [orb].
  rewrite (u32_id _ Ht), bind_unfold. unfold try, wallet, zoom.
  destruct (EstimateFeePerKW _ s.1.2) as [[f|e|p|] w]; cbn; [|lia|done..].
  apply clampFee_range. lia.
Qed.
End relayer.
