(* ===== verification/Submitter.v ===== *)
(** * The submitter ([submitter/submitter.go], [submitter/poller/poller.go])

    Two goroutines share a channel of [BufferSize] places: one polls Babylon
    for sealed checkpoints and sends the oldest, the other receives checkpoints
    and hands them to the relayer.  Their interleavings are the relation
    [sub_step]. *)

From S2P Require Import Prelude GoFloat Config Blocks Retry Reporter Stores Monitor Relayer.
From S2P Require Import RelayerProps.

(** [poller.BabylonQueryClient]: the sealed checkpoints. *)
Class CheckpointQuerier {RL : RelayerLib} (W : Type) := {
  RawCheckpointList : CheckpointStatus → M W (list RawCheckpointWithMetaResponse);
}.

Section submitter.
Context {BL : BTCLib} {PL : SubmitterStore.ProtoLib} {RL : RelayerLib} {RT : Retry}.
Context {W D : Type} {WL : BTCWallet W} {CK : Clock W} {CQ : CheckpointQuerier W} {KV : KVDB D}.
Context (config : SubmitterConfig) (btcConfig : BTCConfig).
Context (tag : bytes) (version : Z) (submitterAddress : bytes).
Notation ckpt_meta := RawCheckpointWithMetaResponse.

(** ** The poller *)
Definition ckpt_epoch (c : ckpt_meta) : Z := EpochNum (cm_Ckpt c).

(** The loop of [PollSealedCheckpoints]. *)
Fixpoint oldest_loop (oldestCkpt : ckpt_meta) (sealedCheckpoints : list ckpt_meta) : ckpt_meta :=
  match sealedCheckpoints with
  | [] => oldestCkpt
  | ckpt :: rest =>
      oldest_loop (if ckpt_epoch ckpt <? ckpt_epoch oldestCkpt then ckpt else oldestCkpt) rest
  end.

(** [PollSealedCheckpoints] up to the send on the channel. *)
Definition PollSealedCheckpoints : M W (option ckpt_meta) :=
  sealedCheckpoints ← RawCheckpointList Sealed;
  match sealedCheckpoints with
  | [] => mret None
  | first :: _ => mret (Some (oldest_loop first sealedCheckpoints))
  end.

(** The oldest of an answer. *)
Definition oldest_of (c : ckpt_meta) (cs : list ckpt_meta) : Prop :=
  c ∈ cs ∧ ∀ c', c' ∈ cs → ckpt_epoch c ≤ ckpt_epoch c'.

Lemma oldest_loop_spec o cs :
  (oldest_loop o cs = o ∨ oldest_loop o cs ∈ cs) ∧
  ckpt_epoch (oldest_loop o cs) ≤ ckpt_epoch o ∧
  ∀ c, c ∈ cs → ckpt_epoch (oldest_loop o cs) ≤ ckpt_epoch c.
Proof.
  revert o. induction cs as [|x cs IH]; intros o; cbn; [split; [by left|split; [lia|set_solver]]|].
  destruct (IH (if ckpt_epoch x <? ckpt_epoch o then x else o)) as (H1 & H2 & H3).
  destruct (Z.ltb_spec (ckpt_epoch x) (ckpt_epoch o)).
  all: split; [destruct H1 as [->|H1]; set_solver|]; split; [lia|].
  all: intros c [->|Hc]%elem_of_cons; [lia|by apply H3].
Qed.

Lemma PollSealedCheckpoints_oldest w c w' :
  PollSealedCheckpoints w = (Val (Some c), w') →
  ∃ cs, RawCheckpointList Sealed w = (Val cs, w') ∧ oldest_of c cs.
Proof.
  unfold PollSealedCheckpoints. intros H. apply bind_Val_inv in H as (cs & w1 & E & H).
  destruct cs as [|f cs]; inv_bind. eexists. split; [done|].
  destruct (oldest_loop_spec f (f :: cs)) as (H1 & _ & H3). split; [|done].
  destruct H1 as [H1|H1]; [|exact H1]. apply elem_of_cons. left. exact H1.
Qed.

(** ** The two goroutines *)
Record Submitter := mkSubmitter {
  sub_relayer : Relayer * W * D;
  rawCkptChan : list ckpt_meta;
  (** the checkpoint a blocked [pl.rawCkptChan <- oldestCkpt] is about to send *)
  sending : option ckpt_meta;
  (** the history: what was polled and what was taken from the channel *)
  polled : list ckpt_meta;
  processed : list ckpt_meta;
}.

Definition with_world (w : W) (s : Relayer * W * D) : Relayer * W * D := (s.1.1, w, s.2).

Inductive sub_step : Submitter → Submitter → Prop :=
(** a tick of [pollCheckpoints] that finds nothing, or fails *)
| step_poll_idle s w q ps pr o :
    PollSealedCheckpoints s.1.2 = (o, w) → (∀ c, o ≠ Val (Some c)) →
    sub_step (mkSubmitter s q None ps pr) (mkSubmitter (with_world w s) q None ps pr)
(** a tick that finds a checkpoint *)
| step_poll s w q ps pr c :
    PollSealedCheckpoints s.1.2 = (Val (Some c), w) →
    sub_step (mkSubmitter s q None ps pr) (mkSubmitter (with_world w s) q (Some c) (ps ++ [c]) pr)
(** the send completes when the buffer has room *)
| step_send s q ps pr c :
    len q < BufferSize config →
    sub_step (mkSubmitter s q (Some c) ps pr) (mkSubmitter s (q ++ [c]) None ps pr)
(** an iteration of [processCheckpoints] *)
| step_process s s' q ps pr c pd :
    process_checkpoint config btcConfig tag version submitterAddress c s = (Val tt, s') →
    sub_step (mkSubmitter s (c :: q) pd ps pr) (mkSubmitter s' q pd ps (pr ++ [c])).

Definition sub_init (s : Relayer * W * D) : Submitter := mkSubmitter s [] None [] [].

Inductive sub_reachable (s0 : Relayer * W * D) : Submitter → Prop :=
| reach_init : sub_reachable s0 (sub_init s0)
| reach_step s s' : sub_reachable s0 s → sub_step s s' → sub_reachable s0 s'.

(** Every polled checkpoint is in flight or processed, in order. *)
Definition sub_inv (s : Submitter) : Prop :=
  polled s = processed s ++ rawCkptChan s ++ option_list (sending s) ∧
  len (rawCkptChan s) ≤ BufferSize config ∧
  Forall (λ c, ∃ w cs w', RawCheckpointList Sealed w = (Val cs, w') ∧ oldest_of c cs) (polled s).

Lemma sub_step_inv s s' : sub_inv s → sub_step s s' → sub_inv s'.
Proof.
  intros (Hp & Hb & Ho) Hs. destruct Hs; cbn in *; unfold sub_inv; cbn.
  - done.
  - split; [|split; [done|]].
    + rewrite Hp, app_nil_r, <-!app_assoc. done.
    + apply Forall_app. split; [done|]. apply Forall_singleton.
      match goal with H : PollSealedCheckpoints _ = _ |- _ =>
        apply PollSealedCheckpoints_oldest in H as (cs & H & Hc) end. by eexists _, cs, _.
  - split; [by rewrite Hp, app_nil_r|]. split; [|done]. unfold len in *. rewrite length_app. cbn. lia.
  - split; [by rewrite Hp, <-!app_assoc|]. split; [|done]. unfold len in *. cbn in *. lia.
Qed.

Lemma sub_reachable_inv s0 s : 0 ≤ BufferSize config → sub_reachable s0 s → sub_inv s.
Proof.
  intros Hb. induction 1 as [|s s' _ IH Hs]; [|by eapply sub_step_inv].
  split; [done|]. split; [cbn; done|constructor].
Qed.

(** The relayer's own invariant, in every interleaving. *)
Lemma sub_reachable_epoch s0 s :
  epoch_set s0 → sub_reachable s0 s → epoch_set (sub_relayer s).
Proof.
  intros H0. induction 1 as [|s s' _ IH Hs]; [done|].
  destruct Hs; try exact IH. cbn [sub_relayer] in *.
  match goal with H : process_checkpoint _ _ _ _ _ ?c ?s1 = _ |- _ =>
    pose proof (epoch_set_process config btcConfig tag version submitterAddress c s1 IH) as Hp;
    rewrite H in Hp end. done.
Qed.
End submitter.
