(* ===== verification/Instances.v ===== *)
(** * Small concrete instances of the interfaces

    A model of every interface the components are proved against, with a chain
    of four blocks, a pair of checkpoint halves and one validator set: what the
    hypotheses of the theorems ask for can be met. *)

From S2P Require Import Prelude Blocks BTCCache CkptCache Retry BTCClient Window Reporter.
From S2P Require Import EpochInfo Stores Scanner Monitor.

(** ** Formats and hashes *)
#[global] Instance small_lib : BTCLib := {|
  HeaderHash := hdr_Nonce;
  TxHash := LockTime;
  NewBTCHeaderBytesFromBlockHeader h := [hdr_Nonce h];
  Serialize t := Ok [LockTime t];
  BTCSpvProof := Z;
  SpvProofFromHeaderAndTransactions _ _ i := Ok i;
|}.

(** A checkpoint half is [[epoch; index]] in the only output. *)
Definition half_of (b : list Z) : result BabylonData :=
  match b with
  | [epoch; index] => if index <? 0 then Err (ENew "index") else Ok (mkBabylonData [epoch] index)
  | _ => Err (ENew "not a checkpoint")
  end.

#[global] Instance small_formatter : BabylonFormatter := {|
  CurrentVersion := 0;
  NumberOfParts := 2;
  NumberOfParts_two := eq_refl;
  ExtractStandardOpReturnData t :=
    match TxOut (tx_MsgTx t) with
    | [o] => Ok (PkScript o)
    | _ => Err (ENew "no output")
    end;
  IsBabylonCheckpointData _ _ b := half_of b;
  ConnectParts _ a b := if bool_decide (a = b) then Ok a else Err (ENew "parts do not connect");
  DecodeRawCheckpoint _ b := match b with [e] => Ok e | _ => Err (ENew "decode") end;
  Sum256 b := foldr (λ x h, x + 257 * h) 0 b;
|}.

(** ** A chain of four blocks at heights 100 to 103 *)
Definition half_tx (id epoch index : Z) : MsgTx := mkMsgTx 1 [] [mkTxOut 0 [epoch; index]] id.
Definition header_at (i : Z) : BlockHeader := mkHeader 1 (1000 + i - 1) 0 0 0 (1000 + i).
Definition block_at (i : Z) (txs : list MsgTx) : MsgBlock := mkMsgBlock (header_at i) txs.

Definition small_chain : list MsgBlock :=
  [ block_at 100 []; block_at 101 [half_tx 1 7 0]; block_at 102 [half_tx 2 7 1]; block_at 103 [] ].

Definition ib_at (i : nat) : option IndexedBlock :=
  NewIndexedBlockFromMsgBlock (100 + Z.of_nat i) <$> small_chain !! i.

Definition small_blocks : list IndexedBlock := omap ib_at (seq 0 4).

Definition small_known (h : Hash) (mb : MsgBlock) (n : Z) : Prop :=
  ∃ i, small_chain !! i = Some mb ∧ n = 100 + Z.of_nat i ∧ h = HeaderHash (blk_Header mb).

(** A node that has the chain; unknown hashes and heights are errors. *)
Definition find_hash (h : Hash) : option nat :=
  fst <$> list_find (λ mb, HeaderHash (blk_Header mb) = h) small_chain.

Definition get_at {W} (o : option nat) : M W (IndexedBlock * MsgBlock) :=
  match o with
  | Some i =>
      match small_chain !! i with
      | Some mb => mret (NewIndexedBlockFromMsgBlock (100 + Z.of_nat i) mb, mb)
      | None => fail (ENew "block not found")
      end
  | None => fail (ENew "block not found")
  end.

#[global] Instance small_node {W} : BTCClient W := {|
  GetBestBlock := mret 103;
  GetBlockByHash h := get_at (find_hash h);
  GetBlockByHeight n :=
    if (100 <=? n) && (n <=? 103) then get_at (Some (Z.to_nat (n - 100)))
    else fail (ENew "block not found");
  FindTailBlocksByHeight base :=
    if (100 <=? base) && (base <=? 103) then mret (drop (Z.to_nat (base - 100)) small_blocks)
    else fail (ENew "invalid base height");
|}.

Lemma small_chain_header i mb :
  small_chain !! i = Some mb →
  HeaderHash (blk_Header mb) = 1100 + Z.of_nat i ∧ PrevBlock (blk_Header mb) = 1099 + Z.of_nat i ∧
  (i < 4)%nat.
Proof. do 4 (destruct i as [|i]; [intros [= <-]; cbn; lia|]). done. Qed.

Lemma get_at_known {W} i (w w' : W) ib mb :
  get_at (Some i) w = (Val (ib, mb), w') →
  small_chain !! i = Some mb ∧ ib = NewIndexedBlockFromMsgBlock (100 + Z.of_nat i) mb ∧
  ib_known small_known ib.
Proof.
  cbn. destruct (small_chain !! i) as [mb'|] eqn:E; [|done]. unfold mret, M_ret.
  intros; simplify_eq. split_and!; [done|done|]. pose proof (small_chain_header _ _ E). split.
  - cbn. zrange.
  - exists mb. split_and!; [|done|done]. exists i. done.
Qed.

Lemma small_blocks_known : Forall (ib_known small_known) small_blocks.
Proof.
  apply Forall_lookup. intros i ib Hi.
  assert (get_at (W := unit) (Some i) tt = (Val (ib, default (block_at 0 []) (small_chain !! i)), tt))
    as Hg.
  { do 4 (destruct i as [|i]; [cbn in Hi; simplify_eq; done|]). done. }
  by apply get_at_known in Hg as (_ & _ & ?).
Qed.

#[global] Instance small_node_laws {W} : BTCClientLaws W small_known.
Proof.
  split.
  - intros h mb n mb' n' (i & Hi & -> & ->) (j & Hj & -> & Hp).
    apply small_chain_header in Hi as (_ & Hi & _), Hj as (Hj & _). lia.
  - intros h w ib mb w' Hr. change (get_at (find_hash h) w = (Val (ib, mb), w')) in Hr. unfold find_hash in Hr.
    destruct (list_find _ small_chain) as [[i mb']|] eqn:E; [|done].
    change (fst <$> Some (i, mb')) with (Some i) in Hr.
    apply get_at_known in Hr as (Hm & -> & Hk). apply list_find_Some in E as (Hi & Hh & _).
    simplify_eq. done.
  - intros n w ib mb w' Hn Hr. cbn in Hr. destruct ((100 <=? n) && (n <=? 103)) eqn:E; [|done].
    apply andb_true_iff in E as [E1%Z.leb_le E2%Z.leb_le].
    apply get_at_known in Hr as (_ & -> & Hk). split; [cbn; lia|done].
  - intros base w ibs w' Hb Hr. cbn in Hr. destruct ((100 <=? base) && (base <=? 103)) eqn:E; [|done].
    apply andb_true_iff in E as [E1%Z.leb_le E2%Z.leb_le].
    unfold mret, M_ret in Hr. simplify_eq.
    assert (base = 100 ∨ base = 101 ∨ base = 102 ∨ base = 103) as [->|[->|[->| ->]]] by lia;
      (split_and!; [by vm_compute|by eexists|apply Forall_drop, small_blocks_known]).
Qed.

(** ** A Babylon light client that knows some headers *)
Definition one_of (l : list Hash) (h : Hash) : bool := existsb (Z.eqb h) l.
Definition babylon (contained : list Hash) (answer : option Z) (tip : TipHeader) (base : Z)
  : BabylonClient unit := {|
  MustGetAddr := mret "bbn1";
  BTCCheckpointParams := mret (mkCkptParams 2 3 "62626e");
  ContainsBTCBlock h := mret (one_of contained h);
  BTCHeaderChainTip := mret tip;
  BTCBaseHeader_Height := mret base;
  ReliablySendMsg _ _ _ := mret answer;
  HeaderBytesHash b := foldr Z.add 0 b;
|}.

#[global] Instance still_clock {W} : Clock W := {| Now := mret 0 |}.

Definition in_order {K V} `{Countable K} (m : gmap K V) : list (K * V) := map_to_list m.

(** ** Validators and a Babylon node for the monitor *)
#[global] Instance small_bls : BLSLib := {|
  ckpt_HashString c := if EpochNum c =? 7 then "seven" else "other";
  FindSubsetWithPowerSum vs bm :=
    match bm with
    | [] => Err (ENew "bitmap")
    | _ => Ok (vs, foldr (λ v n, VotingPower v + n) 0 vs)
    end;
  GetBLSKeySet vs := BlsPubKey <$> vs;
  GetTotalPower_ValSet vs := foldr (λ v n, VotingPower v + n) 0 vs;
  SignedMsg c := rc_BlockHash c;
  bls_VerifyMultiSig sig _ msg := Ok (bool_decide (sig = msg));
|}.

Definition validators : list ValidatorWithBlsKey := [mkValidator "val1" [1] 10; mkValidator "val2" [2] 20].
Definition ckpt7 (hash : list Z) : RawCheckpoint := mkRawCheckpoint 7 hash [1] hash.

(** Babylon's own checkpoint has block hash [[7; 7]] in every epoch and was
    reported at [reported]. *)
Definition bbn_node (reported : option Z) : BabylonQueryClient mem_db := {|
  q_Start := mret tt;
  q_EndedEpochBTCHeight _ := mret 100;
  q_ReportedCheckpointBTCHeight _ :=
    match reported with
    | Some h => mret h
    | None => fail (ESentinel ErrCheckpointNotReported)
    end;
  RawCheckpointResponse := Z;
  q_RawCheckpoint e := mret (Some (e, if e <? 6 then Finalized else Sealed));
  ToRawCheckpoint e := Ok (mkRawCheckpoint e [7; 7] [1] [7; 7]);
  q_BTCHeaderChainTip_Height := mret (Some 110);
  q_ContainsBTCBlock _ := mret true;
  q_CurrentEpoch := mret 8;
  q_BlsPublicKeyList _ := mret [mkBlsKeyRes "val1" "01" 10];
|}.

Definition monitor_cfg : MonitorConfig := mkMonitorConfig true 5 10 3.
Definition monitor_at (epoch : Z) : Monitor := mkMonitor (mkEpochInfo epoch validators) ∅ [].
Definition monitor_db : mem_db :=
  snd (MonitorStore.NewMonitorStore (∅ : mem_db)).
