(* ===== verification/SubmitterInstances.v ===== *)
(** * A small Bitcoin node and wallet for the relayer

    Concrete formats and a node that remembers what it was asked to broadcast:
    the interfaces of the relayer and the laws it relies on can be met. *)

From S2P Require Import Prelude GoFloat Config Blocks Retry Reporter Stores Monitor Relayer.
From S2P Require Import RelayerProps Submitter Instances.

(** ** Formats: lists of numbers with their lengths in front *)
Definition enc_bytes (b : list Z) : list Z := len b :: b.
Definition dec_bytes (l : list Z) : option (list Z * list Z) :=
  match l with
  | n :: r => Some (take (Z.to_nat n) r, drop (Z.to_nat n) r)
  | [] => None
  end.

Lemma dec_enc_bytes b r : dec_bytes (len b :: b ++ r) = Some (b, r).
Proof.
  unfold dec_bytes, len.
  by rewrite Nat2Z.id, take_app_length, drop_app_length.
Qed.

Fixpoint dec_many {A} (n : nat) (dec : list Z → option (A * list Z)) (l : list Z)
  : option (list A * list Z) :=
  match n with
  | O => Some ([], l)
  | S n => '(a, r) ← dec l; '(rest, r) ← dec_many n dec r; Some (a :: rest, r)
  end.
Definition dec_list {A} (dec : list Z → option (A * list Z)) (l : list Z) : option (list A * list Z) :=
  match l with n :: r => dec_many (Z.to_nat n) dec r | [] => None end.
Definition enc_list {A} (enc : A → list Z) (xs : list A) : list Z := len xs :: concat (enc <$> xs).

Definition enc_in (i : TxInput) : list Z :=
  [op_Hash (PreviousOutPoint i); op_Index (PreviousOutPoint i); Sequence i]
  ++ enc_bytes (SignatureScript i) ++ enc_list enc_bytes (Witness i).
Definition dec_in (l : list Z) : option (TxInput * list Z) :=
  match l with
  | h :: ix :: sq :: r =>
      '(script, r) ← dec_bytes r; '(wit, r) ← dec_list dec_bytes r;
      Some (mkTxIn (mkOutPoint h ix) script wit sq, r)
  | _ => None
  end.
Definition enc_out (o : TxOutput) : list Z := Value o :: enc_bytes (PkScript o).
Definition dec_out (l : list Z) : option (TxOutput * list Z) :=
  match l with
  | v :: r => '(script, r) ← dec_bytes r; Some (mkTxOut v script, r)
  | [] => None
  end.
Definition enc_tx (t : MsgTx) : list Z :=
  [tx_Version t; LockTime t] ++ enc_list enc_in (TxIn t) ++ enc_list enc_out (TxOut t).
Definition dec_tx (l : list Z) : option MsgTx :=
  match l with
  | v :: lt :: r =>
      '(ins, r) ← dec_list dec_in r; '(outs, r) ← dec_list dec_out r;
      Some (mkMsgTx v ins outs lt)
  | _ => None
  end.

(** A transaction's identity does not depend on its signatures. *)
Definition unsigned (t : MsgTx) : MsgTx :=
  mkMsgTx (tx_Version t) ((λ i, mkTxIn (PreviousOutPoint i) [] [] (Sequence i)) <$> TxIn t)
    (TxOut t) (LockTime t).
Definition digest (l : list Z) : Z := foldr (λ x h, (x + 1000003 * h) mod 2 ^ 61) 0 l.

#[local] Instance wire_lib : BTCLib := {|
  HeaderHash := hdr_Nonce;
  TxHash t := digest (enc_tx (unsigned t));
  NewBTCHeaderBytesFromBlockHeader h := [hdr_Nonce h];
  Serialize t := Ok (enc_tx t);
  BTCSpvProof := Z;
  SpvProofFromHeaderAndTransactions _ _ i := Ok i;
|}.

Definition wire_proto : SubmitterStore.ProtoLib.
Proof.
  refine {|
    SubmitterStore.Marshal p :=
      Ok (enc_bytes (SubmitterStore.p_tx1 p) ++ enc_bytes (SubmitterStore.p_tx2 p)
          ++ [SubmitterStore.p_epoch p]);
    SubmitterStore.Unmarshal b :=
      match dec_bytes b with
      | None => Err (ENew "unmarshal")
      | Some (t1, r) =>
          match dec_bytes r with
          | Some (t2, [e]) => Ok (SubmitterStore.mkProtoCheckpoint t1 t2 e)
          | _ => Err (ENew "unmarshal")
          end
      end;
    SubmitterStore.Deserialize b :=
      match dec_tx b with Some t => Ok t | None => Err (ENew "deserialize") end |}.
  intros [t1 t2 e] b [= <-]. cbn [SubmitterStore.p_tx1 SubmitterStore.p_tx2 SubmitterStore.p_epoch].
  cbv beta. rewrite dec_enc_bytes. cbv beta iota. by rewrite dec_enc_bytes.
Defined.

#[local] Instance relayer_lib : RelayerLib := {|
  HashString h := if bool_decide (h = 0) then "" else "txid";
  GetTxVirtualSize t := len (enc_tx t);
  OpReturnScript data := if 80 <? len data then Err (ENew "script too long") else Ok (106 :: data);
  BtcAddress := Z;
  PayToAddrScript a := Ok [81; a];
  ExtractPkScriptAddrs s := match s with [81; a] => Ok [a] | _ => Ok [] end;
  TxVersion := 1;
  MaxSatoshi := 21 * 10 ^ 14;
  MulF64 a f := f64_to_i64 (f64_round (f64_mul (f64_of_int a) f));
  ToBTC a := f64_div (f64_of_int a) (f64_of_int 100000000);
  NewAmount f := Ok (f64_to_i64 (f64_round (f64_mul f (f64_of_int 100000000))));
  FeePerKVByte r := 4 * r;
  FeeForVSize r v := r * v / 1000;
  ErrRPCNoTxInfo := -5;
  ErrRPCTxAlreadyInChain := -27;
  ErrRPCRawTxString := -32602;
  ErrRPCDecodeHexString := -22;
  ErrRPCTxError := -25;
  ErrRPCTxRejected := -26;
  CkptResponse := Z;
  EpochNum e := e;
  RawCkpt := Z;
  CkptToRawCheckpoint e := Ok e;
  BtcCkpt := Z;
  FromRawCkptToBTCCkpt e _ := Ok e;
  EncodeCheckpointData tag v e := Ok (tag ++ [v; 0; e], tag ++ [v; 1; e]);
|}.

(** ** The node: what it was asked to broadcast and the fees in its mempool *)
Record btc_node := mkNode { nd_log : list MsgTx; nd_fees : Z; nd_time : Z }.

#[local] Instance node_clock : Clock btc_node := {| Now := gets nd_time |}.

Definition wallet_input : TxInput := mkTxIn (mkOutPoint 77 0) [] [] MaxUint32.
Definition change_output : TxOutput := mkTxOut 50000 [81; 5].

#[local] Instance node_wallet : BTCWallet btc_node := {|
  GetRawTransaction h := λ n,
    match list_find (λ t, TxHash t = h) (nd_log n) with
    | Some (_, t) => (Val t, n)
    | None => (Error (ERpc (-5) "No such mempool or blockchain transaction"), n)
    end;
  SendRawTransaction t _ := λ n, (Val (TxHash t), mkNode (nd_log n ++ [t]) (nd_fees n) (nd_time n));
  FundRawTransaction t _ p := mret (mkMsgTx (tx_Version t) (TxIn t ++ [wallet_input])
    (take (Z.to_nat p) (TxOut t) ++ change_output :: drop (Z.to_nat p) (TxOut t)) (LockTime t), 300);
  SignRawTransactionWithWallet t := mret (mkMsgTx (tx_Version t)
    ((λ i, mkTxIn (PreviousOutPoint i) [] [[48]] (Sequence i)) <$> TxIn t) (TxOut t) (LockTime t), true);
  WalletPassphrase _ _ := mret tt;
  GetMempoolEntry _ := gets (λ n, Some (mkMempoolEntry (f64_dec 3 6) 5 1 40 (f64_of_int (nd_fees n))));
  GetNetworkInfo_IncrementalFee := mret (f64_dec 1 5);
  TxDetails _ _ := mret TxInMemPool;
  GetNewAddress := λ RL _, fail (ENew "no address");
  EstimateFeePerKW _ := mret 2500;
  RelayFeePerKW := mret 250;
|}.

#[local] Instance node_laws : WalletLaws btc_node.
Proof.
  refine {| broadcasts := nd_log |}; try done.
  - intros h w. cbn. by repeat case_match.
  - intros tx b w h w' [= <- <-]. done.
  - intros tx r p w tx' fee w' [= <- <- <-]. cbn. split; [eauto|]. right. eauto.
  - intros tx w tx' b w' [= <- <- <-]. cbn. split; [done|]. rewrite <-list_fmap_compose. done.
Defined.

(** ** The submitter's configuration and a fresh relayer *)
Definition sub_cfg : SubmitterConfig :=
  mkSubmitterConfig "simnet" 100 (f64_of_int 1) 60 1800
    (Some (mkDBConfig "data" "vigilante.db" true false 0 0)) (f64_dec 15 2) (f64_dec 15 2) (f64_dec 15 2).
Definition btc_cfg : BTCConfig := DefaultBTCConfig.
Definition sub_tag : list Z := [98; 98; 110; 48].
Definition fresh_node : btc_node := mkNode [] 100 (10 ^ 18).
Definition fresh_relayer : Relayer * btc_node * mem_db :=
  snd (NewRelayer (W := btc_node) sub_cfg
         (mkRelayer (mkCheckpointInfo 0 0 None None) [], fresh_node, (∅ : mem_db))).
Definition sealed_ckpt (e : Z) : RawCheckpointWithMetaResponse := mkCkptMeta e Sealed.
