(* ===== verification/TypesTheorems.v ===== *)
(** * Theorems about the shared types

    The block cache, the checkpoint cache, the bookkeeper, multi-signatures,
    retries and the Bitcoin client. *)

From S2P Require Import Prelude Blocks BTCCache CkptCache CkptCacheProps Retry BTCClient EpochInfo.
From S2P Require Import Stores Instances Reporter Scanner Monitor.

(** ** The block cache *)

(** C21: on a non-empty cache whose blocks are sorted by height, the binary
    search of [FindBlock] terminates without panicking, returns a cached block
    of the requested height if there is one, and [nil] otherwise. *)
Theorem FindBlock_correct (c : BTCCache) (h : Z) :
  blocks c ≠ [] → sorted_on Height (blocks c) →
  ∃ o, FindBlock c h = Val o ∧
    match o with
    | Some b => b ∈ blocks c ∧ Height b = h
    | None => ∀ b, b ∈ blocks c → Height b ≠ h
    end.
Proof. apply FindBlock_total_correct. Qed.

Lemma FindBlock_correct_witness :
  ∃ o, FindBlock (mkBTCCache small_blocks 10) 102 = Val o ∧
    match o with
    | Some b => b ∈ small_blocks ∧ Height b = 102
    | None => ∀ b, b ∈ small_blocks → Height b ≠ 102
    end.
Proof.
  apply (FindBlock_correct (mkBTCCache small_blocks 10) 102); [done|].
  apply is_sorted_on_spec. reflexivity.
Defined.

(** C22: through any sequence of the cache's operations ([Init], [Add], [First],
    [Tip], [RemoveLast], [RemoveAll], [Size], [GetLastBlocks], [GetAllBlocks],
    [TrimConfirmedBlocks], [FindBlock], [Resize], [Trim]) every operation returns,
    and it panics exactly when [must_panic] holds of the cache it runs on.  When
    every [Resize] is followed by a [Trim], the cache never holds more than
    [maxEntries] blocks at the end, and only searching an empty cache
    ([GetLastBlocks], [FindBlock]) or confirming with a negative depth panics. *)
Theorem cache_ops_safe (ops : list cache_op) (c : BTCCache) :
  cache_ok c → Forall op_args_ok ops →
  (∀ pre op post, ops = pre ++ op :: post →
     let c' := run_ops pre c in
     (panics (run_op op c') ↔ must_panic op c' = true) ∧ fst (run_op op c') ≠ Diverge) ∧
  (trimmed ops = true →
     cache_ok (run_ops ops c) ∧
     ∀ pre op post, ops = pre ++ op :: post → panics (run_op op (run_ops pre c)) →
       match op with
       | OpGetLastBlocks _ | OpFindBlock _ => blocks (run_ops pre c) = []
       | OpTrimConfirmed k => k < 0
       | _ => False
       end).
Proof.
  intros Hc Ho.
  assert (∀ pre op post, ops = pre ++ op :: post →
    (panics (run_op op (run_ops pre c)) ↔ must_panic op (run_ops pre c) = true) ∧
    fst (run_op op (run_ops pre c)) ≠ Diverge) as Hp.
  { intros pre op post ->. apply Forall_app in Ho as [Hpre Ho]. apply Forall_cons in Ho as [Ho _].
    destruct (run_op_ok op (run_ops pre c)) as (H1 & H2 & _); [apply run_ops_pos; [apply Hc|done]|done|].
    done. }
  split; [exact Hp|]. intros Ht. destruct (trimmed_ok ops c Hc Ho Ht) as [He Hw]. split; [done|].
  intros pre op post Heq Hpanic. apply (Hp _ _ _ Heq) in Hpanic.
  destruct (Hw _ _ _ Heq) as [->|[H1 H2]]; [done|].
  destruct op; cbn in Hpanic; try done.
  - rewrite !andb_true_iff in Hpanic. lia.
  - lia.
  - apply Z.eqb_eq in Hpanic. apply nil_length_inv. unfold size, len in Hpanic. lia.
  - lia.
  - apply Z.eqb_eq in Hpanic. apply nil_length_inv. unfold size, len in Hpanic. lia.
Qed.

Definition some_ops : list cache_op :=
  [OpInit (take 2 small_blocks); OpAdd (NewIndexedBlockFromMsgBlock 102 (block_at 102 []));
   OpFindBlock 101; OpResize 2; OpTrim; OpTrimConfirmed 1; OpRemoveLast; OpGetLastBlocks 100].

Lemma cache_ops_safe_witness :
  cache_ok (run_ops some_ops (mkBTCCache [] 3)) ∧
  fst (run_op (OpGetLastBlocks 100) (run_ops (take 7 some_ops) (mkBTCCache [] 3)))
    = Panic "index out of range".
Proof.
  split; [|vm_compute; reflexivity].
  apply (cache_ops_safe some_ops (mkBTCCache [] 3)).
  - split; vm_compute; discriminate.
  - repeat constructor; cbn; lia.
  - reflexivity.
Defined.

(** On a chain of blocks, [GetLastBlocks] of a height in range returns
    exactly the blocks from that height to the tip. *)
Theorem GetLastBlocks_suffix {BL : BTCLib} (c : BTCCache) (f l : IndexedBlock) (h : Z) :
  chained (blocks c) → head (blocks c) = Some f → last (blocks c) = Some l →
  Height f ≤ h ≤ Height l →
  GetLastBlocks c h = Val (drop (Z.to_nat (h - Height f)) (blocks c)) ∧
  Forall (λ b, h ≤ Height b) (drop (Z.to_nat (h - Height f)) (blocks c)) ∧
  ∃ b, head (drop (Z.to_nat (h - Height f)) (blocks c)) = Some b ∧ Height b = h.
Proof.
  intros Hch Hf Hl Hh. split; [by eapply GetLastBlocks_chain|].
  destruct (blocks c) as [|f' bs]; [done|]. cbn in Hf. simplify_eq.
  assert (Height l = Height f + Z.of_nat (length bs)) as Hlast.
  { rewrite last_lookup in Hl. rewrite (chained_height _ _ _ _ Hch Hl). cbn. lia. }
  split.
  - apply Forall_lookup. intros i b Hi. rewrite lookup_drop in Hi.
    rewrite (chained_height _ _ _ _ Hch Hi). lia.
  - destruct (lookup_lt_is_Some_2 (f :: bs) (Z.to_nat (h - Height f))) as [b Hb]; [cbn; lia|].
    exists b. rewrite head_lookup, lookup_drop, Nat.add_0_r. split; [done|].
    rewrite (chained_height _ _ _ _ Hch Hb). lia.
Qed.

Lemma GetLastBlocks_suffix_witness :
  ∃ b, GetLastBlocks (mkBTCCache small_blocks 10) 102 = Val (drop 2 small_blocks) ∧
       head (drop 2 small_blocks) = Some b ∧ Height b = 102.
Proof.
  destruct (GetLastBlocks_suffix (mkBTCCache small_blocks 10)
    (NewIndexedBlockFromMsgBlock 100 (block_at 100 []))
    (NewIndexedBlockFromMsgBlock 103 (block_at 103 [])) 102) as (H1 & _ & b & H2 & H3);
    [by vm_compute|done|done|cbn; lia|]. exists b. split_and!; [exact H1|exact H2|exact H3].
Defined.

(** ** The checkpoint cache *)

(** C13: for every order in which Go may iterate its maps, [Match] only makes
    checkpoints of two cached segments that decode together and removes both
    (soundness), leaves no two segments that belong together (completeness),
    adds no segment and removes none but those of the checkpoints it makes, as
    many second segments as there are new checkpoints (conservation), keeps
    the tag and the version, and leaves the checkpoints sorted by epoch. *)
Theorem Match_correct {BL : BTCLib} {BF : BabylonFormatter} {GS : GoSort}
    (ord0 : gmap Hash CkptSegment → list (Hash * CkptSegment))
    (ord1 : Hash → gmap Hash CkptSegment → list (Hash * CkptSegment)) (c : CheckpointCache) :
  (∀ m, is_range m (ord0 m)) → (∀ h m, is_range m (ord1 h m)) →
  let c' := Match ord0 ord1 c in
  (∃ new, Checkpoints c' ≡ₚ Checkpoints c ++ new ∧ Forall (from_pair c c') new ∧
     ∀ i h s, segments i c !! h = Some s →
       segments i c' !! h = Some s ∨
       ∃ k, k ∈ new ∧ 0 ≤ i ∧ Segs k !! Z.to_nat i = Some s) ∧
  (∀ i, segments i c' ⊆ segments i c) ∧
  cc_Version c' = cc_Version c ∧ cc_Tag c' = cc_Tag c ∧
  (∀ h1 s1 h2 s2, segments 0 c' !! h1 = Some s1 → segments 1 c' !! h2 = Some s2 →
     connect (cc_Version c) s1 s2 = None) ∧
  (length (Checkpoints c') + base.size (segments 1 c') =
   length (Checkpoints c) + base.size (segments 1 c))%nat ∧
  sorted_on Epoch (Checkpoints c').
Proof.
  intros H0 H1. destruct (Match_made ord0 ord1 H0 H1 c) as
    (_ & _ & Hs & (Hsg & Hv & Ht) & Hsort & Hc & Hcomp).
  done.
Qed.

(** The cache after both halves of the checkpoint of epoch 7 were seen. *)
Definition two_halves : CheckpointCache :=
  mkCheckpointCache [] 0 []
    {[ 0 := {[ 7 := mkCkptSegment (mkBabylonData [7] 0) 0
                      (NewIndexedBlockFromMsgBlock 101 (block_at 101 [half_tx 1 7 0])) 0 ]};
       1 := {[ 7 := mkCkptSegment (mkBabylonData [7] 1) 0
                      (NewIndexedBlockFromMsgBlock 102 (block_at 102 [half_tx 2 7 1])) 0 ]} ]}.

Lemma Match_correct_witness :
  Epoch <$> Checkpoints (Match in_order (λ _, in_order) two_halves) = [7] ∧
  sorted_on Epoch (Checkpoints (Match in_order (λ _, in_order) two_halves)).
Proof.
  split; [reflexivity|].
  apply (Match_correct in_order (λ _, in_order) two_halves);
    intros; apply is_range_refl.
Defined.

(** ** The bookkeeper *)

(** The bookkeeper refines its specification: after any sequence of [Add]
    and [Remove], the record under an identifier is the one with the smallest
    first-seen height added since the identifier was last removed. *)
Theorem bookkeeper_correct {BLS : BLSLib} (ops : list Bookkeeper.book_op)
    (cb : Bookkeeper.CheckpointsBookkeeper) (id : string) :
  foldl Bookkeeper.book_run cb ops !! id =
  foldl (Bookkeeper.earliest id) (cb !! id) ops.
Proof. apply Bookkeeper.bookkeeper_refines. Qed.

(** ** Multi-signatures *)

(** C9: with voting powers within CometBFT's bounds, [VerifyMultiSig] accepts
    a checkpoint exactly when more than two thirds of the voting power signed it
    and the aggregate signature verifies. *)
Theorem VerifyMultiSig_supermajority {BLS : BLSLib} (ei : EpochInfo) (ckpt : RawCheckpoint) :
  powers_fit ei → VerifyMultiSig ei ckpt = None ↔ supermajority_signed ei ckpt.
Proof. apply VerifyMultiSig_spec. Qed.

Lemma VerifyMultiSig_supermajority_witness :
  VerifyMultiSig (mkEpochInfo 7 validators) (ckpt7 [7; 7]) = None ↔
  supermajority_signed (mkEpochInfo 7 validators) (ckpt7 [7; 7]).
Proof.
  apply (VerifyMultiSig_supermajority (mkEpochInfo 7 validators) (ckpt7 [7; 7])).
  split; [vm_compute; split; discriminate|]. intros bm signers power Hs. destruct bm; [done|].
  cbn in Hs. simplify_eq. vm_compute. split; discriminate.
Defined.

(** A checkpoint whose bitmap does not fit the validator set is always
    refused with [ErrInsufficientPower]: the branch of [VerifyMultiSig] that
    reports it as [ErrInvalidMultiSig] is never reached. *)
Theorem bad_bitmap_is_insufficient_power {BLS : BLSLib} (ei : EpochInfo) (ckpt : RawCheckpoint)
    (e : gerror) :
  FindSubsetWithPowerSum (valSet ei) (Bitmap ckpt) = Err e →
  ∃ m, VerifyMultiSig ei ckpt = Some (EWrap m (ESentinel ErrInsufficientPower)).
Proof. apply VerifyMultiSig_bad_bitmap. Qed.

Lemma bad_bitmap_is_insufficient_power_witness :
  ∃ m, VerifyMultiSig (mkEpochInfo 7 validators) (mkRawCheckpoint 7 [7] [] [7]) =
       Some (EWrap m (ESentinel ErrInsufficientPower)).
Proof.
  apply (bad_bitmap_is_insufficient_power (mkEpochInfo 7 validators)
           (mkRawCheckpoint 7 [7] [] [7]) (ENew "bitmap")).
  reflexivity.
Defined.

(** ** Retries *)

(** The retry wrapper reports what its last attempt did: it returns
    normally only if the last attempt succeeded or failed with an expected
    error, and fails only if the last attempt failed with another error. *)
Theorem Do_reports_last_attempt {RT : Retry} {S : Type} (f : M S unit) (o : retry_opts) (s : S) :
  0 < Attempts o → WithContext o = false →
  match Do f o s with
  | (Val _, s') => ∃ s1, f s1 = (Val tt, s') ∨
                         ∃ e, f s1 = (Error e, s') ∧ containsErr expectedErrors e = true
  | (Error _, s') => ∃ s1 e, f s1 = (Error e, s') ∧ containsErr expectedErrors e = false
  | _ => True
  end.
Proof. apply Do_last. Qed.

(** A call that succeeds the third time. *)
Definition third_time : M nat unit := λ n,
  if (n <? 2)%nat then (Error (ENew "not yet"), S n) else (Val tt, S n).

Lemma Do_reports_last_attempt_witness :
  Do third_time (mkRetryOpts 5 (λ _, true) false false) 0%nat = (Val tt, 3%nat) ∧
  match Do third_time (mkRetryOpts 5 (λ _, true) false false) 0%nat with
  | (Val _, s') => ∃ s1, third_time s1 = (Val tt, s') ∨
                         ∃ e, third_time s1 = (Error e, s') ∧ containsErr expectedErrors e = true
  | (Error _, s') => ∃ s1 e, third_time s1 = (Error e, s') ∧ containsErr expectedErrors e = false
  | _ => True
  end.
Proof.
  split; [reflexivity|].
  apply (Do_reports_last_attempt third_time (mkRetryOpts 5 (λ _, true) false false) 0%nat).
  - reflexivity.
  - reflexivity.
Defined.

(** Babylon's [btcctypes.ErrInvalidHeader], listed among the unrecoverable
    errors, is also listed among the expected ones, so a call refused with it is
    reported to the caller as a success. *)
Theorem invalid_header_is_success {RT : Retry} {S : Type} (f : M S unit) (o : retry_opts)
    (s s' : S) (e : gerror) :
  0 < Attempts o → WithContext o = false →
  f s = (Error e, s') → errors_Is e btcc_ErrInvalidHeader = true →
  btcc_ErrInvalidHeader ∈ unrecoverableErrors ∧ Do f o s = (Val tt, s').
Proof.
  intros Ha Hc Hf He. split; [repeat (left || right)|]. eapply Do_expected; [done|done|done|].
  apply containsErr_spec. exists btcc_ErrInvalidHeader. split; [repeat (left || right)|done].
Qed.

Lemma invalid_header_is_success_witness :
  Do (λ s : nat, (Error (EWrap "tx failed" (ESentinel btcc_ErrInvalidHeader)), s))
     (mkRetryOpts 5 (λ _, true) false false) 0%nat = (Val tt, 0%nat).
Proof.
  apply (invalid_header_is_success
    (λ s : nat, (Error (EWrap "tx failed" (ESentinel btcc_ErrInvalidHeader)), s))
    (mkRetryOpts 5 (λ _, true) false false) 0%nat 0%nat
    (EWrap "tx failed" (ESentinel btcc_ErrInvalidHeader))); reflexivity.
Defined.

(** ** The Bitcoin client *)

(** C30: the client refines its interface: if the node's blocks are addressed
    by their hash and sit one above their parent, then [GetBlockByHash],
    [GetBlockByHeight] and [FindTailBlocksByHeight] return accepted blocks, and
    the last one a gap-free chain that starts at the requested height. *)
Theorem client_refines_interface {BL : BTCLib} {RT : Retry} {W : Type} {rpc : Client.RPC W}
    (maxRetryTimes : Z) (known : Hash → MsgBlock → Z → Prop) :
  (∀ h w mb w', Client.GetBlock h w = (Val mb, w') →
     HeaderHash (blk_Header mb) = h ∧ ∃ n, known h mb n) →
  (∀ h w n w', Client.GetBlockVerbose_Height h w = (Val n, w') → ∃ mb, known h mb n) →
  (∀ n w h w', Client.GetBlockHash n w = (Val h, w') → ∃ mb, known h mb n) →
  (∀ h mb n mb' n', known h mb n → known h mb' n' → mb = mb' ∧ n = n') →
  (∀ h mb n mb' n', known h mb n → known (PrevBlock (blk_Header mb)) mb' n' → n = n' + 1) →
  0 < maxRetryTimes →
  BTCClientLaws (C := Client.client maxRetryTimes) W known.
Proof. intros. by apply Client.client_laws. Qed.

(** A node with the small chain. *)
Definition rpc_of_chain : Client.RPC unit := {|
  Client.GetBlockCount := mret 103;
  Client.GetBestBlockHash := mret 1103;
  Client.GetBlockHash n :=
    match small_chain !! Z.to_nat (n - 100) with
    | Some mb => if 100 <=? n then mret (HeaderHash (blk_Header mb)) else fail (ENew "height")
    | None => fail (ENew "height")
    end;
  Client.GetBlock h :=
    match find_hash h ≫= (small_chain !!.) with
    | Some mb => mret mb
    | None => fail (ENew "hash")
    end;
  Client.GetBlockVerbose_Height h :=
    match find_hash h with
    | Some i => mret (100 + Z.of_nat i)
    | None => fail (ENew "hash")
    end;
|}.

Lemma find_hash_Some h i :
  find_hash h = Some i → ∃ mb, small_chain !! i = Some mb ∧ HeaderHash (blk_Header mb) = h.
Proof.
  unfold find_hash. destruct (list_find _ small_chain) as [[j mb]|] eqn:E; [|done].
  cbn. intros [= <-]. apply list_find_Some in E as (Hj & Hh & _). eauto.
Qed.

Lemma client_refines_interface_witness :
  BTCClientLaws (C := Client.client (rpc := rpc_of_chain) 3) unit small_known ∧
  match FindTailBlocksByHeight (BTCClient := Client.client (rpc := rpc_of_chain) 3) 101 tt with
  | (Val ibs, _) => Height <$> ibs = [101; 102; 103]
  | _ => False
  end.
Proof.
  split; [|reflexivity].
  apply (client_refines_interface (rpc := rpc_of_chain) 3 small_known).
  - intros h w mb w' Hr. cbn -[find_hash small_chain] in Hr.
    destruct (find_hash h) as [i|] eqn:E; cbn -[small_chain] in Hr; [|done].
    apply find_hash_Some in E as (mb' & Hi & Hh). rewrite Hi in Hr. unfold mret, M_ret in Hr.
    simplify_eq. split; [done|]. exists (100 + Z.of_nat i), i. done.
  - intros h w n w' Hr. cbn -[find_hash small_chain] in Hr.
    destruct (find_hash h) as [i|] eqn:E; [|done]. unfold mret, M_ret in Hr. simplify_eq.
    apply find_hash_Some in E as (mb & Hi & Hh). exists mb, i. done.
  - intros n w h w' Hr. cbn -[small_chain] in Hr.
    destruct (small_chain !! Z.to_nat (n - 100)) as [mb|] eqn:E; [|done].
    destruct (Z.leb_spec 100 n); [|done]. unfold mret, M_ret in Hr. simplify_eq.
    exists mb, (Z.to_nat (n - 100)). split_and!; [done|lia|done].
  - intros h mb n mb' n' (i & Hi & -> & Eh) (j & Hj & -> & Eh').
    pose proof (small_chain_header _ _ Hi) as (H1 & _). pose proof (small_chain_header _ _ Hj) as (H2 & _).
    assert (i = j) as -> by lia. by simplify_eq.
  - intros h mb n mb' n' (i & Hi & -> & Eh) (j & Hj & -> & Eh').
    apply small_chain_header in Hi as (_ & H1 & _), Hj as (H2 & _). lia.
  - reflexivity.
Defined.

(** ** Blocks and stores *)

(** What the monitor persists is what it reads back after a restart: a
    written epoch is the latest epoch, and writing it leaves the latest height
    alone. *)
Theorem monitor_store_roundtrip {D : Type} {KV : KVDB D} {LAWS : KVLaws D}
    (epoch height : Z) (d d1 d2 d3 d4 : D) (e h : option Z) :
  is_u64 epoch → is_u64 height →
  MonitorStore.PutLatestHeight height d = (Val tt, d1) →
  MonitorStore.PutLatestEpoch epoch d1 = (Val tt, d2) →
  MonitorStore.LatestEpoch d2 = (Val e, d3) →
  MonitorStore.LatestHeight d3 = (Val h, d4) →
  e = Some epoch ∧ h = Some height.
Proof.
  intros He Hh H1 H2 H3 H4. apply kv_put_spec in H1 as [Hs1 _]. apply kv_put_spec in H2 as [Hs2 Ho2].
  apply (MonitorStore.get_stored _ _ _ _ _ _ He Hs2) in H3 as [-> Hc]. split; [done|].
  apply (MonitorStore.get_stored _ _ height) in H4 as [-> _]; [done|done|].
  unfold stored in *. rewrite Hc. rewrite (Ho2 MonitorStore.heightBucketName
    MonitorStore.latestHeightKey); [exact Hs1|discriminate].
Qed.

Lemma monitor_store_roundtrip_witness :
  let d1 := snd (MonitorStore.PutLatestHeight 102 monitor_db) in
  let d2 := snd (MonitorStore.PutLatestEpoch 7 d1) in
  Some 7 = Some 7 ∧ fst (MonitorStore.LatestHeight d2) = Val (Some 102).
Proof.
  cbn zeta. split; [|vm_compute; reflexivity].
  apply (monitor_store_roundtrip 7 102 monitor_db
    (snd (MonitorStore.PutLatestHeight 102 monitor_db))
    (snd (MonitorStore.PutLatestEpoch 7 (snd (MonitorStore.PutLatestHeight 102 monitor_db))))
    (snd (MonitorStore.PutLatestEpoch 7 (snd (MonitorStore.PutLatestHeight 102 monitor_db))))
    (snd (MonitorStore.PutLatestEpoch 7 (snd (MonitorStore.PutLatestHeight 102 monitor_db))))
    (Some 7) (Some 102)).
  - zrange.
  - zrange.
  - vm_compute; reflexivity.
  - vm_compute; reflexivity.
  - vm_compute; reflexivity.
  - vm_compute; reflexivity.
Defined.
