(* ===== verification/SubmitterTheorems.v ===== *)
(** * The submitter: theorems

    What is broadcast for a checkpoint and what is stored, restarts, the
    limits of the fee rate, replacements of the second transaction, and the
    order in which checkpoints reach the relayer. *)

From S2P Require Import Prelude GoFloat Config Blocks Retry Reporter Stores Monitor Relayer.
From S2P Require Import RelayerProps Submitter Instances SubmitterInstances.
#[local] Existing Instances wire_lib wire_proto relayer_lib node_clock node_wallet node_laws.

(** C1: A sealed checkpoint of a new epoch that is submitted without an error is
    broadcast as exactly two transactions: the first carries the first half of
    the encoded checkpoint, the second carries the other half and spends the
    change of the first with a replaceable sequence number; the pair is what the
    relayer remembers and what the database returns for the epoch. *)
Theorem submission_chained_and_persisted
    {BL : BTCLib} {PL : SubmitterStore.ProtoLib} {RL : RelayerLib} {W D : Type}
    {WL : BTCWallet W} {CK : Clock W} {KV : KVDB D} {LAWS : WalletLaws W} {KVL : KVLaws D}
    (btcConfig : BTCConfig) (tag : list Z) (version : Z) (submitterAddress : list Z)
    (ckpt : RawCheckpointWithMetaResponse) (s s' : Relayer * W * D) (d1 : D) :
  cm_Status ckpt = Sealed →
  shouldSendCompleteCkpt (lastSubmittedCheckpoint s.1.1) (EpochNum (cm_Ckpt ckpt)) = true →
  not_stored (EpochNum (cm_Ckpt ckpt)) s.2 d1 →
  SendCheckpointToBTC btcConfig tag version submitterAddress ckpt s = (Val tt, s') →
  ∃ data1 data2 ts i1 i2,
    encodes tag version submitterAddress (cm_Ckpt ckpt) data1 data2 ∧
    carries data1 (bi_Tx i1) ∧ carries data2 (bi_Tx i2) ∧ chains (bi_Tx i1) (bi_Tx i2) ∧
    broadcasts s'.1.2 = broadcasts s.1.2 ++ [bi_Tx i1; bi_Tx i2] ∧
    lastSubmittedCheckpoint s'.1.1 =
      mkCheckpointInfo (EpochNum (cm_Ckpt ckpt)) ts (Some i1) (Some i2) ∧
    (SubmitterStore.parses_back (bi_Tx i1) → SubmitterStore.parses_back (bi_Tx i2) →
     ∀ r d2, SubmitterStore.LatestCheckpoint s'.2 = (Val r, d2) →
       r = Some (SubmitterStore.mkStoredCheckpoint (Some (bi_Tx i1)) (Some (bi_Tx i2))
                   (EpochNum (cm_Ckpt ckpt)))).
Proof.
  intros Hst Hc Hn H. apply (SendCheckpointToBTC_new _ _ _ _ _ _ _ _ Hst Hc Hn) in H.
  apply submit_new_complete in H as
    (data1 & data2 & ts & i1 & i2 & He & C1 & C2 & Hch & L & Hl & Hp); [|done].
  exists data1, data2, ts, i1, i2. do 6 (split; [done|]). intros P1 P2 r d2 Hr.
  refine (SubmitterStore.checkpoint_put_get _ _ _ _ _ _ Hp Hr). intros t [[= <-]|[= <-]]; done.
Qed.

(** The checkpoint of epoch 7, submitted by a fresh relayer. *)
Definition after_submission : Relayer * btc_node * mem_db :=
  snd (SendCheckpointToBTC btc_cfg sub_tag 0 [1] (sealed_ckpt 7) fresh_relayer).
Definition sent_tx (i : nat) : MsgTx :=
  default (mkMsgTx 0 [] [] 0) (nd_log after_submission.1.2 !! i).

Lemma submission_chained_and_persisted_witness :
  fst (SendCheckpointToBTC btc_cfg sub_tag 0 [1] (sealed_ckpt 7) fresh_relayer) = Val tt ∧
  ∃ data1 data2 ts i1 i2,
    encodes sub_tag 0 [1] 7 data1 data2 ∧
    carries data1 (bi_Tx i1) ∧ carries data2 (bi_Tx i2) ∧ chains (bi_Tx i1) (bi_Tx i2) ∧
    broadcasts after_submission.1.2 = broadcasts fresh_relayer.1.2 ++ [bi_Tx i1; bi_Tx i2] ∧
    lastSubmittedCheckpoint after_submission.1.1 = mkCheckpointInfo 7 ts (Some i1) (Some i2) ∧
    (SubmitterStore.parses_back (bi_Tx i1) → SubmitterStore.parses_back (bi_Tx i2) →
     ∀ r d2, SubmitterStore.LatestCheckpoint after_submission.2 = (Val r, d2) →
       r = Some (SubmitterStore.mkStoredCheckpoint (Some (bi_Tx i1)) (Some (bi_Tx i2)) 7)).
Proof.
  split; [vm_compute; reflexivity|].
  apply (submission_chained_and_persisted btc_cfg sub_tag 0 [1] (sealed_ckpt 7) fresh_relayer
    after_submission fresh_relayer.2).
  - reflexivity.
  - vm_compute; reflexivity.
  - exists None. split; [vm_compute; reflexivity|discriminate].
  - vm_compute; reflexivity.
Defined.

(** C2: For an epoch whose checkpoint is in the database, whatever the relayer
    remembers (after a restart, nothing), the submitter makes no new
    transaction: it broadcasts at most the stored ones, each at most once and in
    order, and only those the node reported missing. *)
Theorem stored_epoch_not_paid_twice
    {BL : BTCLib} {PL : SubmitterStore.ProtoLib} {RL : RelayerLib} {W D : Type}
    {WL : BTCWallet W} {CK : Clock W} {KV : KVDB D} {LAWS : WalletLaws W}
    (btcConfig : BTCConfig) (tag : list Z) (version : Z) (submitterAddress : list Z)
    (ckpt : RawCheckpointWithMetaResponse) (t1 t2 : MsgTx) (s : Relayer * W * D) (d1 : D) :
  stored (EpochNum (cm_Ckpt ckpt)) t1 t2 s.2 d1 →
  ∃ l, l `sublist_of` [t1; t2] ∧ (∀ t, t ∈ l → reported_missing (W := W) t) ∧
    broadcasts (snd (SendCheckpointToBTC btcConfig tag version submitterAddress ckpt s)).1.2 =
    broadcasts s.1.2 ++ l.
Proof.
  intros Hst.
  destruct (SendCheckpointToBTC_stored btcConfig tag version submitterAddress ckpt t1 t2 s d1 Hst)
    as (l & [Hs Hm] & HL).
  by exists l.
Qed.

(** A restart on the database of epoch 7. *)
Definition restarted (n : btc_node) : Relayer * btc_node * mem_db :=
  snd (NewRelayer (W := btc_node) sub_cfg (after_submission.1.1, n, after_submission.2)).

Lemma stored_epoch_not_paid_twice_witness :
  lastSubmittedCheckpoint (restarted after_submission.1.2).1.1 = mkCheckpointInfo 0 0 None None ∧
  (** a node that lost the second transaction gets it again *)
  nd_log (snd (SendCheckpointToBTC btc_cfg sub_tag 0 [1] (sealed_ckpt 7)
    (restarted (mkNode [sent_tx 0] 100 0)))).1.2 = [sent_tx 0; sent_tx 1] ∧
  ∃ l, l `sublist_of` [sent_tx 0; sent_tx 1] ∧
    (∀ t, t ∈ l → reported_missing (W := btc_node) t) ∧
    broadcasts (snd (SendCheckpointToBTC btc_cfg sub_tag 0 [1] (sealed_ckpt 7)
      (restarted after_submission.1.2))).1.2 =
    broadcasts (restarted after_submission.1.2).1.2 ++ l.
Proof.
  split; [vm_compute; reflexivity|]. split; [vm_compute; reflexivity|].
  apply (stored_epoch_not_paid_twice btc_cfg sub_tag 0 [1] (sealed_ckpt 7) (sent_tx 0) (sent_tx 1)
    (restarted after_submission.1.2) (restarted after_submission.1.2).2).
  vm_compute; reflexivity.
Defined.

(** C26: With a configuration that passed validation and a confirmation target
    that fits a [uint32], the fee rate used for every transaction lies between
    the configured minimum and maximum, also when the estimate fails, and asking
    for it is never an error; it panics only if the estimator does. *)
Theorem fee_rate_within_limits {RL : RelayerLib} {W D : Type} {WL : BTCWallet W}
    (btcConfig : BTCConfig) (s : Relayer * W * D) :
  BTCConfig_Validate btcConfig = Ok tt → is_u32 (TargetBlockNum btcConfig) →
  match getFeeRate btcConfig s with
  | (Val f, _) => TxFeeMin btcConfig ≤ f ≤ TxFeeMax btcConfig
  | (Error _, _) => False
  | (Panic _, _) | (Diverge, _) =>
      match EstimateFeePerKW (TargetBlockNum btcConfig) s.1.2 with
      | (Panic _, _) | (Diverge, _) => True
      | _ => False
      end
  end.
Proof. apply getFeeRate_range. Qed.

Lemma fee_rate_within_limits_witness :
  fst (getFeeRate btc_cfg fresh_relayer) = Val 10000 ∧
  match getFeeRate btc_cfg fresh_relayer with
  | (Val f, _) => TxFeeMin btc_cfg ≤ f ≤ TxFeeMax btc_cfg
  | (Error _, _) => False
  | (Panic _, _) | (Diverge, _) =>
      match EstimateFeePerKW (TargetBlockNum btc_cfg) fresh_relayer.1.2 with
      | (Panic _, _) | (Diverge, _) => True
      | _ => False
      end
  end.
Proof.
  split; [vm_compute; reflexivity|]. apply fee_rate_within_limits; [vm_compute; reflexivity|].
  unfold is_u32. cbn. lia.
Defined.

(** C25: A replacement of the second transaction that is paid from its change and
    sent broadcasts one transaction that spends the same outputs and differs
    from the recorded one only in its change, which is lower by the whole bumped
    fee and above the dust limit; the mempool entry of the replaced transaction
    had at most 100 descendants, the new fee is higher than the fees it lists,
    the fee rate is higher, and the increment covers the node's relay fee. *)
Theorem replacement_outbids_mempool
    {BL : BTCLib} {RL : RelayerLib} {W D : Type}
    {WL : BTCWallet W} {CK : Clock W} {LAWS : WalletLaws W}
    (btcConfig : BTCConfig) (tx2 t : BtcTxInfo) (change : TxOutput) (fee : Z)
    (s s' : Relayer * W * D) :
  TxOut (bi_Tx tx2) !! Z.to_nat changePosition = Some change →
  is_i64 (Value change - fee) → dustThreshold ≤ Value change - fee →
  maybeResendSecondTxOfCheckpointToBTC btcConfig tx2 fee s = (Val (Some t), s') →
  bi_Fee t = fee ∧
  (∃ sent, broadcasts s'.1.2 = broadcasts s.1.2 ++ [sent] ∧ TxID t = Some (TxHash sent) ∧
    spends <$> TxIn sent = spends <$> TxIn (bi_Tx tx2) ∧
    TxOut sent = alter (λ o, mkTxOut (Value change - fee) (PkScript o)) (Z.to_nat changePosition)
                   (TxOut (bi_Tx tx2)) ∧
    output_total sent = output_total (bi_Tx tx2) - fee) ∧
  ∃ w entry w', GetMempoolEntry (HashString (TxHash (bi_Tx tx2))) w = (Val (Some entry), w') ∧
    outbids (W := W) entry fee (bi_Size tx2).
Proof.
  intros Hch Hr Hd H. pose proof (i64_id _ Hr) as Hi.
  apply (resend_is_replace _ _ _ _ _ _ _ Hch) in H as (s1 & L1 & _ & H).
  apply (replace_from_change _ _ _ _ _ _ _ Hch) in H
    as (Hf & Ht & (sent & [L _] & [Hout Hin] & Hid) & Hm); [|by rewrite Hi].
  rewrite Hi in Ht. split; [done|]. split; [|done]. exists sent.
  rewrite <-L1. split; [done|]. split; [done|]. rewrite Ht in Hout, Hin. split; [done|].
  split; [done|]. unfold output_total at 1. rewrite Hout.
  pose proof (set_out_value_total (bi_Tx tx2) change (Value change - fee) Hch) as Htot.
  unfold output_total at 1 in Htot. rewrite Htot. lia.
Qed.

(** The second transaction of epoch 7, and a replacement with fee 280. *)
Definition tx2_info : BtcTxInfo :=
  default (mkBtcTxInfo None (sent_tx 1) 0 0) (ci_Tx2 (lastSubmittedCheckpoint after_submission.1.1)).
Definition after_replacement : outcome (option BtcTxInfo) * (Relayer * btc_node * mem_db) :=
  maybeResendSecondTxOfCheckpointToBTC btc_cfg tx2_info 280 after_submission.
Definition replaced : BtcTxInfo :=
  match fst after_replacement with Val (Some t) => t | _ => tx2_info end.

Lemma replacement_outbids_mempool_witness :
  fst after_replacement = Val (Some replaced) ∧
  bi_Fee replaced = 280 ∧
  (∃ sent, broadcasts (snd after_replacement).1.2 = broadcasts after_submission.1.2 ++ [sent] ∧
    TxID replaced = Some (TxHash sent) ∧
    spends <$> TxIn sent = spends <$> TxIn (bi_Tx tx2_info) ∧
    TxOut sent = alter (λ o, mkTxOut (50000 - 280) (PkScript o)) (Z.to_nat changePosition)
                   (TxOut (bi_Tx tx2_info)) ∧
    output_total sent = output_total (bi_Tx tx2_info) - 280) ∧
  ∃ w entry w', GetMempoolEntry (HashString (TxHash (bi_Tx tx2_info))) w = (Val (Some entry), w') ∧
    outbids (W := btc_node) entry 280 (bi_Size tx2_info).
Proof.
  split; [vm_compute; reflexivity|].
  apply (replacement_outbids_mempool btc_cfg tx2_info replaced change_output 280
    after_submission (snd after_replacement)).
  - vm_compute; reflexivity.
  - unfold is_i64. cbn. lia.
  - unfold dustThreshold. cbn. lia.
  - vm_compute; reflexivity.
Defined.

(** A replacement that the fees in the mempool rule out is refused without a
    broadcast, but the change of the transaction the relayer remembers has
    already been reduced by the refused fee, so the next attempt starts from a
    transaction that was never sent. *)
Theorem refused_replacement_shrinks_change
    {BL : BTCLib} {RL : RelayerLib} {W D : Type} {WL : BTCWallet W}
    (btcConfig : BTCConfig) (tx2 : BtcTxInfo) (change : TxOutput) (fee : Z)
    (entry : MempoolEntry) (r : Relayer) (w w1 w2 : W) (d : D) :
  TxOut (bi_Tx tx2) !! Z.to_nat changePosition = Some change →
  is_i64 (Value change - fee) → dustThreshold ≤ Value change - fee →
  TxDetails (TxID tx2) (PkScript change) w = (Val TxInMemPool, w1) →
  GetMempoolEntry (HashString (TxHash (bi_Tx tx2))) w1 = (Val (Some entry), w2) →
  DescendantCount entry ≤ 100 → fee ≤ f64_to_i64 (DescendantFees entry) →
  ∃ e r' t,
    maybeResendSecondTxOfCheckpointToBTC btcConfig tx2 fee (r, w, d) = (Error e, (r', w2, d)) ∧
    errors_Is e ErrInsufficientFee = true ∧
    ci_Tx2 (lastSubmittedCheckpoint r') = Some t ∧
    TxID t = TxID tx2 ∧ bi_Fee t = bi_Fee tx2 ∧
    output_total (bi_Tx t) = output_total (bi_Tx tx2) - fee.
Proof.
  intros Hch Hr Hd Htd Hme Hc Hf. pose proof (i64_id _ Hr) as Hi.
  do 3 eexists. split.
  - apply (rejected_replacement btcConfig tx2 change fee (r, w, d) w1 w2 entry); try done.
    by rewrite Hi.
  - split; [done|]. split; [done|]. split; [done|]. split; [done|]. cbn [bi_Tx].
    rewrite Hi, (set_out_value_total _ change) by done. lia.
Qed.

Lemma refused_replacement_shrinks_change_witness :
  ∃ e r' t,
    maybeResendSecondTxOfCheckpointToBTC btc_cfg tx2_info 80
      (after_submission.1.1, after_submission.1.2, after_submission.2)
      = (Error e, (r', after_submission.1.2, after_submission.2)) ∧
    errors_Is e ErrInsufficientFee = true ∧
    ci_Tx2 (lastSubmittedCheckpoint r') = Some t ∧
    TxID t = TxID tx2_info ∧ bi_Fee t = bi_Fee tx2_info ∧
    output_total (bi_Tx t) = output_total (bi_Tx tx2_info) - 80.
Proof.
  apply (refused_replacement_shrinks_change btc_cfg tx2_info change_output 80
    (mkMempoolEntry (f64_dec 3 6) 5 1 40 (f64_of_int 100)) after_submission.1.1 after_submission.1.2
    after_submission.1.2 after_submission.1.2 after_submission.2).
  - vm_compute; reflexivity.
  - unfold is_i64. cbn. lia.
  - unfold dustThreshold. cbn. lia.
  - vm_compute; reflexivity.
  - vm_compute; reflexivity.
  - cbn. lia.
  - vm_compute; discriminate.
Defined.

(** In every interleaving of the poller and the relayer started by a fresh
    submitter, the branch that sends only the second transaction is never
    taken for an epoch above 0: when a submission failed after its first
    transaction, the next attempt sends a first transaction again. *)
Theorem tx2_only_retry_unreachable
    {BL : BTCLib} {PL : SubmitterStore.ProtoLib} {RL : RelayerLib} {RT : Retry} {W D : Type}
    {WL : BTCWallet W} {CK : Clock W} {CQ : CheckpointQuerier W} {KV : KVDB D}
    (config : SubmitterConfig) (btcConfig : BTCConfig) (tag : list Z) (version : Z)
    (submitterAddress : list Z) (s0 : Relayer * W * D) (x : Submitter (W := W) (D := D)) (e : Z) :
  lastSubmittedCheckpoint s0.1.1 = mkCheckpointInfo 0 0 None None →
  sub_reachable config btcConfig tag version submitterAddress s0 x → 1 ≤ e →
  shouldSendCompleteCkpt (lastSubmittedCheckpoint (sub_relayer x).1.1) e = false →
  shouldSendTx2 (lastSubmittedCheckpoint (sub_relayer x).1.1) e = false.
Proof.
  intros H0 Hx He. apply epoch_set_no_tx2_retry; [|done].
  apply (sub_reachable_epoch config btcConfig tag version submitterAddress s0); [|done]. unfold epoch_set. by rewrite H0.
Qed.

(** A Babylon node whose oldest sealed checkpoint is that of epoch 7. *)
Definition two_sealed : CheckpointQuerier btc_node := {|
  RawCheckpointList _ := mret [sealed_ckpt 8; sealed_ckpt 7];
|}.

(** The submitter after polling, sending and processing it. *)
Definition polled_relayer : Relayer * btc_node * mem_db :=
  with_world fresh_relayer.1.2 fresh_relayer.
Definition processed_once : Submitter (W := btc_node) (D := mem_db) :=
  mkSubmitter (snd (process_checkpoint sub_cfg btc_cfg sub_tag 0 [1] (sealed_ckpt 7) polled_relayer))
    [] None [sealed_ckpt 7] [sealed_ckpt 7].

Lemma processed_once_reachable :
  sub_reachable (CQ := two_sealed) sub_cfg btc_cfg sub_tag 0 [1] fresh_relayer processed_once.
Proof.
  apply reach_step with (mkSubmitter polled_relayer [sealed_ckpt 7] None [sealed_ckpt 7] []).
  - apply reach_step with (mkSubmitter polled_relayer [] (Some (sealed_ckpt 7)) [sealed_ckpt 7] []).
    + apply reach_step with (sub_init fresh_relayer); [apply reach_init|].
      apply (step_poll (CQ := two_sealed) sub_cfg btc_cfg sub_tag 0 [1] fresh_relayer
        fresh_relayer.1.2 [] [] [] (sealed_ckpt 7)).
      reflexivity.
    + apply (step_send (CQ := two_sealed) sub_cfg btc_cfg sub_tag 0 [1] polled_relayer []).
      vm_compute; reflexivity.
  - apply (step_process (CQ := two_sealed) sub_cfg btc_cfg sub_tag 0 [1] polled_relayer _ []
      [sealed_ckpt 7] [] (sealed_ckpt 7) None).
    vm_compute; reflexivity.
Qed.

Lemma tx2_only_retry_unreachable_witness :
  shouldSendCompleteCkpt (lastSubmittedCheckpoint (sub_relayer processed_once).1.1) 7 = false ∧
  shouldSendTx2 (lastSubmittedCheckpoint (sub_relayer processed_once).1.1) 7 = false.
Proof.
  split; [vm_compute; reflexivity|].
  apply (tx2_only_retry_unreachable (CQ := two_sealed) sub_cfg btc_cfg sub_tag 0 [1] fresh_relayer
    processed_once 7).
  - vm_compute; reflexivity.
  - apply processed_once_reachable.
  - lia.
  - vm_compute; reflexivity.
Defined.

(** C27: In every interleaving of the poller and the relayer, the checkpoints
    handed to the relayer, followed by those waiting in the channel and the one
    being sent, are exactly the checkpoints polled, in order; the channel never
    holds more than [BufferSize]; and each was the one with the lowest epoch of
    an answer of Babylon. *)
Theorem checkpoints_relayed_in_order
    {BL : BTCLib} {PL : SubmitterStore.ProtoLib} {RL : RelayerLib} {RT : Retry} {W D : Type}
    {WL : BTCWallet W} {CK : Clock W} {CQ : CheckpointQuerier W} {KV : KVDB D}
    (config : SubmitterConfig) (btcConfig : BTCConfig) (tag : list Z) (version : Z)
    (submitterAddress : list Z) (s0 : Relayer * W * D) (x : Submitter (W := W) (D := D)) :
  SubmitterConfig_Validate config = Ok tt →
  sub_reachable config btcConfig tag version submitterAddress s0 x →
  polled x = processed x ++ rawCkptChan x ++ option_list (sending x) ∧
  len (rawCkptChan x) ≤ BufferSize config ∧
  Forall (λ c, ∃ w cs w', RawCheckpointList Sealed w = (Val cs, w') ∧ oldest_of c cs) (polled x).
Proof.
  intros Hv Hx. refine (sub_reachable_inv _ _ _ _ _ s0 x _ Hx).
  apply SubmitterConfig_valid_buffer in Hv. lia.
Qed.

Lemma checkpoints_relayed_in_order_witness :
  polled processed_once = processed processed_once ++ rawCkptChan processed_once
    ++ option_list (sending processed_once) ∧
  len (rawCkptChan processed_once) ≤ BufferSize sub_cfg ∧
  Forall (λ c, ∃ w cs w', RawCheckpointList (CheckpointQuerier := two_sealed) Sealed w = (Val cs, w')
    ∧ oldest_of c cs) (polled processed_once).
Proof.
  apply (checkpoints_relayed_in_order (CQ := two_sealed) sub_cfg btc_cfg sub_tag 0 [1] fresh_relayer).
  - vm_compute; reflexivity.
  - apply processed_once_reachable.
Defined.
