(* ===== verification/ReporterTheorems.v ===== *)
(** * Theorems about the reporter *)

From S2P Require Import Prelude Blocks BTCCache CkptCache CkptCacheProps Retry BTCClient Window.
From S2P Require Import Reporter ReporterProps ReporterCkpt ReporterBootstrap.
From S2P Require Import ReporterBootstrapProps EpochInfo Stores Scanner Monitor Instances.

(** ** Headers *)

(** For a positive chunk size [chunkBy] terminates, the chunks
    concatenate to the input, all but the last have exactly the chunk size, and
    the last is not longer; a chunk size of zero loops forever on a non-empty
    input. *)
Theorem chunkBy_correct {T : Type} (items : list T) (n : Z) :
  0 < n →
  (∃ chunks l, chunkBy items n = Val (chunks ++ [l]) ∧ concat chunks ++ l = items ∧
     Forall (λ c, len c = n) chunks ∧ len l ≤ n) ∧
  (items ≠ [] → ∀ fuel, chunk_loop fuel items 0 [] = Diverge).
Proof.
  intros Hn. split.
  - destruct (chunkBy_spec items n Hn) as (cs & l & H1 & H2 & H3 & H4 & _). eauto 10.
  - intros Hne fuel. by apply chunk_loop_zero.
Qed.

Lemma chunkBy_correct_witness :
  chunkBy [1; 2; 3; 4; 5] 2 = Val [[1; 2]; [3; 4]; [5]] ∧
  ∀ fuel, chunk_loop fuel [1; 2; 3; 4; 5] 0 [] = Diverge.
Proof.
  split; [reflexivity|]. apply (chunkBy_correct [1; 2; 3; 4; 5] 2); [reflexivity|discriminate].
Defined.

(** On blocks sorted by height, [FilterAlreadyProcessedBlocks] returns
    exactly the blocks above the given height, and asks to retry exactly when
    there are any. *)
Theorem FilterAlreadyProcessedBlocks_exact (ibs : list IndexedBlock) (h : Z) :
  sorted_on Height ibs →
  FilterAlreadyProcessedBlocks ibs h =
  (filter (λ b, h < Height b) ibs,
   match filter (λ b, h < Height b) ibs with [] => false | _ => true end).
Proof. apply FilterAlreadyProcessedBlocks_spec. Qed.

Lemma FilterAlreadyProcessedBlocks_exact_witness :
  FilterAlreadyProcessedBlocks small_blocks 101 =
  (filter (λ b, 101 < Height b) small_blocks, true).
Proof.
  apply (FilterAlreadyProcessedBlocks_exact small_blocks 101).
  apply is_sorted_on_spec. reflexivity.
Defined.

(** C19: the header messages carry, in order and without loss, the headers of
    the given blocks from the first one Babylon does not contain, each message
    with at least one and at most [MaxHeadersInMsg] headers, however the node
    fails and is retried. *)
Theorem header_msgs_cover_missing {BL : BTCLib} {BF : BabylonFormatter} {RT : Retry} {W : Type}
    {BC : BabylonClient W} (r : ReporterParams) (contained : Hash → bool) (signer : string)
    (ibs : list IndexedBlock) (s s' : Reporter * W) (msgs : list MsgInsertHeaders) :
  answers_contained contained → 0 < cfg_MaxHeadersInMsg r →
  getHeaderMsgsToSubmit r signer ibs s = (Val msgs, s') →
  msgs_headers msgs = header_bytes (drop_while (λ ib, contained (BlockHash ib)) ibs) ∧
  Forall (λ m, mih_Signer m = signer ∧ 0 < len (mih_Headers m) ≤ cfg_MaxHeadersInMsg r) msgs.
Proof. intros Ha Hm. by apply getHeaderMsgs_sound. Qed.

Definition small_params : ReporterParams := mkReporterParams 10 2 3 1 2.
Definition fresh_reporter : Reporter := mkReporter (NewCheckpointCache [98; 98; 110] 0) None false None [].

Lemma header_msgs_cover_missing_witness :
  let msgs := [mkMsgInsertHeaders "bbn1" [[1101]; [1102]]; mkMsgInsertHeaders "bbn1" [[1103]]] in
  msgs_headers msgs =
    header_bytes (drop_while (λ ib, one_of [1100] (BlockHash ib)) small_blocks) ∧
  Forall (λ m, mih_Signer m = "bbn1" ∧ 0 < len (mih_Headers m) ≤ 2) msgs.
Proof.
  cbn zeta. apply (header_msgs_cover_missing (BC := babylon [1100] (Some 0) (mkTipHeader 100 "") 100)
    small_params (one_of [1100]) "bbn1" small_blocks
    (fresh_reporter, tt) (fresh_reporter, tt)).
  - intros h w b w' [= <- _]. reflexivity.
  - reflexivity.
  - vm_compute. reflexivity.
Defined.

(** Whatever Babylon answers, the number [ProcessHeaders] returns is what
    it added to the counter of successfully submitted headers, on every return
    path. *)
Theorem ProcessHeaders_accounts {BL : BTCLib} {BF : BabylonFormatter} {RT : Retry} {W : Type}
    {BC : BabylonClient W} (r : ReporterParams) (fuel : nat) (signer : string)
    (ibs : list IndexedBlock) (s s' : Reporter * W) (n : Z) (err : option gerror) :
  ProcessHeaders r fuel signer ibs s = (Val (n, err), s') →
  headers_reported (fst s') = headers_reported (fst s) + n.
Proof. apply ProcessHeaders_count. Qed.

Lemma ProcessHeaders_accounts_witness :
  let x := ProcessHeaders (BC := babylon [1100] (Some 0) (mkTipHeader 100 "") 100)
             small_params 10 "bbn1" small_blocks (fresh_reporter, tt) in
  fst x = Val (3, None) ∧
  headers_reported (fst (snd x)) = headers_reported fresh_reporter + 3.
Proof.
  cbn zeta. split; [vm_compute; reflexivity|].
  apply (ProcessHeaders_accounts (BC := babylon [1100] (Some 0) (mkTipHeader 100 "") 100)
    small_params 10 "bbn1" small_blocks (fresh_reporter, tt) _ 3 None).
  vm_compute. reflexivity.
Defined.

(** The world that records the messages sent; Babylon's answers do not depend
    on it. *)
Definition babylon_log (contained : list Hash) (answer : option Z) (tip : TipHeader) (base : Z)
  : BabylonClient (list BabylonMsg) := {|
  MustGetAddr := mret "bbn1";
  BTCCheckpointParams := mret (mkCkptParams 2 3 "62626e");
  ContainsBTCBlock h := mret (one_of contained h);
  BTCHeaderChainTip := mret tip;
  BTCBaseHeader_Height := mret base;
  ReliablySendMsg m _ _ := λ l, (Val answer, l ++ [m]);
  HeaderBytesHash b := foldr Z.add 0 b;
|}.

Definition babylon_sent contained answer tip base
  : SendLog (list BabylonMsg) (BC := babylon_log contained answer tip base).
Proof. refine {| sent := id |}. by intros m l1 l2 w. Defined.

(** C20: when Babylon answers and accepts every message, [ProcessHeaders]
    terminates without error; the messages it has sent to Babylon carry, in
    order and each header once, every header from the first missing one on,
    each message signed by the reporter and with at most [MaxHeadersInMsg]
    headers, and it returns their number. *)
Theorem ProcessHeaders_submits_all {BL : BTCLib} {BF : BabylonFormatter} {RT : Retry} {W : Type}
    {BC : BabylonClient W} {SL : SendLog W} (r : ReporterParams) (contained : Hash → bool)
    (fuel : nat) (signer : string) (ibs : list IndexedBlock) (s : Reporter * W) :
  0 < cfg_MaxHeadersInMsg r → 0 < maxRetryTimes r → answers_always contained → accepts →
  (length ibs < fuel)%nat →
  ∃ s' msgs, ProcessHeaders r fuel signer ibs s =
    (Val (len (drop_while (λ ib, contained (BlockHash ib)) ibs), None), s') ∧
    sent (snd s') = sent (snd s) ++ (InsertHeadersMsg <$> msgs) ∧
    msgs_headers msgs = header_bytes (drop_while (λ ib, contained (BlockHash ib)) ibs) ∧
    Forall (λ m, mih_Signer m = signer ∧ 0 < len (mih_Headers m) ≤ cfg_MaxHeadersInMsg r) msgs.
Proof. intros H1 H2 H3 H4 H5. by apply ProcessHeaders_accepted. Qed.

Lemma ProcessHeaders_submits_all_witness :
  let BC := babylon_log [1100] (Some 0) (mkTipHeader 100 "") 100 in
  let run := ProcessHeaders small_params 5 "bbn1" small_blocks (fresh_reporter, []) in
  snd (snd run) = InsertHeadersMsg <$> [mkMsgInsertHeaders "bbn1" [[1101]; [1102]];
                                        mkMsgInsertHeaders "bbn1" [[1103]]] ∧
  ∃ s' msgs, run = (Val (3, None), s') ∧ snd s' = InsertHeadersMsg <$> msgs ∧
    msgs_headers msgs = [[1101]; [1102]; [1103]].
Proof.
  cbn zeta. split; [vm_compute; reflexivity|].
  destruct (ProcessHeaders_submits_all (BC := babylon_log [1100] (Some 0) (mkTipHeader 100 "") 100)
    (SL := babylon_sent [1100] (Some 0) (mkTipHeader 100 "") 100)
    small_params (one_of [1100]) 5 "bbn1" small_blocks (fresh_reporter, []))
    as (s' & msgs & Hrun & Hs & Hm & _).
  - reflexivity.
  - reflexivity.
  - intros h w. reflexivity.
  - intros m w. exists 0. eexists. reflexivity.
  - vm_compute. repeat constructor.
  - exists s', msgs. split_and!; [exact Hrun|exact Hs|exact Hm].
Defined.

(** When Babylon refuses every message as starting at a known header while
    its tip stays below the blocks to submit, [ProcessHeaders] never returns: it
    exhausts any number of iterations. *)
Theorem ProcessHeaders_can_loop {BL : BTCLib} {BF : BabylonFormatter} {RT : Retry} {W : Type}
    {BC : BabylonClient W} (r : ReporterParams) (contained : Hash → bool) (tip : TipHeader)
    (signer : string) (ibs : list IndexedBlock) (l : IndexedBlock) (s : Reporter) (w : W) :
  0 < cfg_MaxHeadersInMsg r → 0 < maxRetryTimes r → answers_always contained →
  (∀ h, contained h = false) → refuses_at tip →
  sorted_on Height ibs → last ibs = Some l → tip_Height tip < Height l →
  ∀ fuel, fst (ProcessHeaders r fuel signer ibs (s, w)) = Diverge.
Proof.
  intros H1 H2 H3 Hc Href Hs Hl Ht fuel. unfold ProcessHeaders. rewrite bind_unfold. unfold try.
  destruct (getHeaderMsgs_none_contained r H1 contained H3 signer ibs s w Hc) as (m & ms & ->).
  { by destruct ibs. }
  by destruct (submit_loop_refused r H1 H2 contained H3 tip fuel signer ibs l m ms 0 s w
    Hc Href Hs Hl Ht) as [s' ->].
Qed.

Lemma ProcessHeaders_can_loop_witness :
  len small_blocks = 4 ∧
  ∀ fuel, fst (ProcessHeaders (BC := babylon [] None (mkTipHeader 99 "") 90)
    small_params fuel "bbn1" small_blocks (fresh_reporter, tt)) = Diverge.
Proof.
  split; [reflexivity|].
  apply (ProcessHeaders_can_loop (BC := babylon [] None (mkTipHeader 99 "") 90)
    small_params (λ _, false) (mkTipHeader 99 "") "bbn1" small_blocks
    (NewIndexedBlockFromMsgBlock 103 (block_at 103 [])) fresh_reporter tt).
  - reflexivity.
  - reflexivity.
  - intros h []. reflexivity.
  - reflexivity.
  - split; [intros m []; reflexivity|intros []; reflexivity].
  - apply is_sorted_on_spec. reflexivity.
  - reflexivity.
  - reflexivity.
Defined.

(** ** Checkpoints *)

(** C18: on blocks as the client builds them, [ProcessCheckpoints] returns
    normally whatever Babylon answers.  The extraction loop caches every
    checkpoint segment of the blocks; the messages then sent to Babylon are
    exactly those of the checkpoints [Match] makes of the cache, one each, in
    epoch order; the cache is the matched one without its checkpoints, and no
    pair of segments that belong together is left in it; the number returned is
    the number of messages sent and of attempts counted in the metrics. *)
Theorem ProcessCheckpoints_drains {BL : BTCLib} {BF : BabylonFormatter} {GS : GoSort} {W : Type}
    {BC : BabylonClient W} {CK : Clock W} {SL : SendLog W}
    (ord0 : gmap Hash CkptSegment → list (Hash * CkptSegment))
    (ord1 : Hash → gmap Hash CkptSegment → list (Hash * CkptSegment))
    (signer : string) (ibs : list IndexedBlock) (s : Reporter) (w : W) :
  env_ok → (∀ m, is_range m (ord0 m)) → (∀ h m, is_range m (ord1 h m)) →
  cache_wf (checkpointCache s) → Forall block_wf ibs →
  ∃ nsegs n s1 w1 s' w' msgs,
    ProcessCheckpoints ord0 ord1 signer ibs (s, w) = (Val (nsegs, n), (s', w')) ∧
    for_fold ibs 0 (λ n ib, m ← extractCheckpoints ib; mret (n + m)) (s, w) =
      (Val nsegs, (s1, w1)) ∧
    (extract_keeps s s1 ∧ Forall (λ ib, block_cached ib s1) ibs) ∧
    let c := Match ord0 ord1 (checkpointCache s1) in
    sent w' = sent w ++ msgs ∧
    Forall2 (ckpt_msg signer) (Checkpoints c) msgs ∧ sorted_on Epoch (Checkpoints c) ∧
    checkpointCache s' = with_Checkpoints [] c ∧ cache_wf (checkpointCache s') ∧
    n = len msgs ∧ ckpts_sent s' = ckpts_sent s + n ∧
    ∀ h1 s1 h2 s2, segments 0 c !! h1 = Some s1 → segments 1 c !! h2 = Some s2 →
      connect (cc_Version (checkpointCache s')) s1 s2 = None.
Proof.
  intros He H0 H1 Hwf Hb.
  destruct (ProcessCheckpoints_total He ord0 ord1 H0 H1 signer ibs s w Hwf Hb)
    as (nsegs & n & s1 & w1 & s' & w' & ms & Hrun & Hex & Hk & Hsent & Hms & Hc & Hwf' & Hn & Hcnt).
  destruct (Match_made ord0 ord1 H0 H1 (checkpointCache s1))
    as (_ & _ & _ & (_ & Hv & _) & Hsort & _ & Hno).
  destruct Hk as [Hk Hall].
  exists nsegs, n, s1, w1, s', w', ms. cbn zeta.
  do 2 (split; [done|]). split; [by split|]. split_and!; [done..|].
  intros h1 a1 h2 a2 E1 E2. rewrite Hc. cbn in Hv |- *. rewrite Hv. by eapply Hno.
Qed.

Lemma ProcessCheckpoints_drains_witness :
  let BC := babylon_log [] (Some 0) (mkTipHeader 99 "") 90 in
  let run := ProcessCheckpoints in_order (λ _, in_order) "bbn1" small_blocks (fresh_reporter, []) in
  fst run = Val (2, 1) ∧ snd (snd run) = [InsertSpvProofMsg (mkMsgSpv "bbn1" [0; 0])] ∧
  ∃ nsegs n s' w', run = (Val (nsegs, n), (s', w')) ∧ Checkpoints (checkpointCache s') = [] ∧
    n = len w'.
Proof.
  cbn zeta. split_and!; [vm_compute; reflexivity..|].
  destruct (ProcessCheckpoints_drains (BC := babylon_log [] (Some 0) (mkTipHeader 99 "") 90)
    (SL := babylon_sent [] (Some 0) (mkTipHeader 99 "") 90)
    in_order (λ _, in_order) "bbn1" small_blocks fresh_reporter [])
    as (nsegs & n & s1 & w1 & s' & w' & ms & Hrun & _ & _ & Hs & _ & _ & Hc & _ & Hn & _).
  - split.
    + intros tx. eexists. reflexivity.
    + intros hdr txs i _ _. eexists. reflexivity.
    + intros tag v b d Hb. cbn in Hb. unfold half_of in Hb.
      destruct b as [|x [|y [|]]]; try discriminate. destruct (Z.ltb_spec y 0); [discriminate|].
      injection Hb as <-. cbn. lia.
    + intros w. exists 0, w. split; reflexivity.
    + intros m l1 l2 w. exact I.
  - intros m. apply is_range_refl.
  - intros h m. apply is_range_refl.
  - apply NewCheckpointCache_wf.
  - repeat constructor; apply block_wf_indexed.
  - exists nsegs, n, s', w'. cbn in Hs. subst w'. rewrite Hc. split_and!; [exact Hrun|reflexivity|exact Hn].
Defined.

(** ** Bootstrapping and block events *)

(** Through any sequence of block notifications, any answers of the node
    and of Babylon, and any schedule of the checkpoint goroutine, the reporter's
    block cache holds at most its bound of blocks, they are consecutive blocks of
    one chain that the node accepted, and a bootstrap is marked in progress
    exactly while its goroutine is pending. *)
Theorem reporter_cache_is_chain {BL : BTCLib} {BF : BabylonFormatter} {RT : Retry} {GS : GoSort}
    {W : Type} {BC : BabylonClient W} {CK : Clock W} {BTC : BTCClient W}
    (hexToHash : string → result Hash) (r : ReporterParams)
    (ord0 : gmap Hash CkptSegment → list (Hash * CkptSegment))
    (ord1 : Hash → gmap Hash CkptSegment → list (Hash * CkptSegment))
    (known : Hash → MsgBlock → Z → Prop) {LAWS : BTCClientLaws W known}
    (pollFuel fuel : nat) (evs : list block_event) (s : Reporter * W) :
  params_ok r → base_u32 → Forall (event_ok known) evs → reporter_inv known s →
  reporter_inv known (snd (blockEventHandler hexToHash r ord0 ord1 pollFuel fuel evs s)).
Proof. intros Hp Hb He. by apply (preserves_blockEventHandler hexToHash r ord0 ord1 known Hp Hb). Qed.

Lemma small_params_ok : params_ok small_params.
Proof. split; vm_compute; try done; split; (discriminate || reflexivity). Qed.

(** Bootstrapped on blocks 100 to 102, the reporter is notified of block 103. *)
Definition events_103 : list block_event := [AsyncTurn; NewEpoch 103 (header_at 103)].
Definition reporter_102 : Reporter :=
  mkReporter (NewCheckpointCache [98; 98; 110] 0) (Some (mkBTCCache (take 3 small_blocks) 3))
    false None [].

Lemma header_at_ok i : header_ok small_known (header_at (100 + Z.of_nat i)).
Proof.
  intros mb n (j & Hj & -> & Hh). cbn in Hh. pose proof (small_chain_header _ _ Hj) as (H1 & _).
  assert (i = j) as -> by (cbn in *; lia).
  do 4 (destruct j as [|j]; [cbn in Hj; simplify_eq; reflexivity|]). done.
Qed.

Lemma reporter_cache_is_chain_witness :
  let BC := babylon [1100] (Some 0) (mkTipHeader 100 "") 100 in
  let s' := snd (blockEventHandler (λ _, Ok 0) small_params in_order (λ _, in_order) 5 5
                   events_103 (reporter_102, tt)) in
  (λ c, Height <$> blocks c) <$> btcCache (fst s') = Some [101; 102; 103] ∧
  reporter_inv small_known s'.
Proof.
  cbn zeta. split; [vm_compute; reflexivity|].
  apply (reporter_cache_is_chain (BC := babylon [1100] (Some 0) (mkTipHeader 100 "") 100)
    (λ _, Ok 0) small_params in_order (λ _, in_order) small_known 5 5 events_103 (reporter_102, tt)).
  - exact small_params_ok.
  - intros [] B w' [= <- _]. zrange.
  - repeat constructor. apply (header_at_ok 3).
  - split.
    + cbn. intros c [= <-]. split; [split; vm_compute; discriminate|by vm_compute|].
      exact (Forall_take _ 3 _ small_blocks_known).
    + cbn. split; [discriminate|by intros []].
Defined.

(** After waiting for the goroutine of the previous bootstrap, a new
    bootstrap is never refused as already in progress. *)
Theorem bootstrap_not_refused {BL : BTCLib} {BF : BabylonFormatter} {RT : Retry} {GS : GoSort}
    {W : Type} {BC : BabylonClient W} {CK : Clock W} {BTC : BTCClient W}
    (ord0 : gmap Hash CkptSegment → list (Hash * CkptSegment))
    (ord1 : Hash → gmap Hash CkptSegment → list (Hash * CkptSegment))
    (known : Hash → MsgBlock → Z → Prop) (s s' : Reporter * W) :
  reporter_inv known s → run_async ord0 ord1 s = (Val tt, s') →
  bootstrapInProgress (fst s') = false ∧ reporter_inv known s'.
Proof.
  intros Hs Hr. split; [by eapply run_async_clears|].
  pose proof (preserves_run_async ord0 ord1 known s Hs) as H. by rewrite Hr in H.
Qed.

Definition reporter_pending : Reporter :=
  mkReporter (NewCheckpointCache [98; 98; 110] 0) (Some (mkBTCCache (take 3 small_blocks) 3))
    true (Some ("bbn1", GetAllBlocks 7 (mkBTCCache (take 3 small_blocks) 3))) [].

Lemma bootstrap_not_refused_witness :
  let BC := babylon [1100] (Some 0) (mkTipHeader 100 "") 100 in
  bootstrapInProgress (fst (snd (run_async in_order (λ _, in_order) (reporter_pending, tt)))) = false ∧
  reporter_inv small_known (snd (run_async in_order (λ _, in_order) (reporter_pending, tt))).
Proof.
  cbn zeta. apply (bootstrap_not_refused (BC := babylon [1100] (Some 0) (mkTipHeader 100 "") 100)
    in_order (λ _, in_order) small_known (reporter_pending, tt)).
  - split.
    + cbn. intros c [= <-]. split; [split; vm_compute; discriminate|by vm_compute|].
      exact (Forall_take _ 3 _ small_blocks_known).
    + cbn. split; [intros _; by eexists|done].
  - vm_compute. reflexivity.
Defined.

(** C40: the checkpoint goroutine of a bootstrap works on the cache's own slice of
    blocks.  When its turn comes first, it processes the blocks of the cache.
    When a block that connects to a full cache is handled first, [Add] has set
    the first element of that slice to [nil], and the goroutine dereferences it:
    the process crashes, whatever Babylon answered in between. *)
Theorem goroutine_crashes_after_block {BL : BTCLib} {BF : BabylonFormatter} {RT : Retry}
    {GS : GoSort} {W : Type} {BC : BabylonClient W} {CK : Clock W} {BTC : BTCClient W}
    (r : ReporterParams)
    (ord0 : gmap Hash CkptSegment → list (Hash * CkptSegment))
    (ord1 : Hash → gmap Hash CkptSegment → list (Hash * CkptSegment))
    (fuel : nat) (height : Z) (header : BlockHeader) (s : Reporter) (w w1 : W) (c : BTCCache)
    (signer : string) (spare : Z) (tip ib : IndexedBlock) (mb : MsgBlock) :
  btcCache s = Some c → asyncCheckpoints s = Some (signer, GetAllBlocks spare c) →
  size c = maxEntries c → Tip c = Some tip →
  Height tip < height ≤ u32 (Height tip + 1) → PrevBlock header = BlockHash tip →
  GetBlockByHash (HeaderHash header) w = (Val (ib, mb), w1) →
  run_async ord0 ord1 (s, w) =
    (ProcessCheckpoints ord0 ord1 signer (blocks c) ;;
     self (modify (λ s, set_asyncCheckpoints None (set_bootstrapInProgress false s)))) (s, w) ∧
  fst (run_async ord0 ord1 (snd (ReporterBootstrap.handleNewBlock r ord0 ord1 fuel height header (s, w)))) =
    Panic "nil pointer dereference".
Proof.
  intros Ec Ea Hfull Et Hh Hp Hg. split; [by eapply run_async_shared|].
  destruct (handleNewBlock_nils r ord0 ord1 fuel height header s w c signer spare tip ib mb w1)
    as (sl & rest & Hs & He); try done.
  destruct (snd (ReporterBootstrap.handleNewBlock r ord0 ord1 fuel height header (s, w))) as [s1 w2].
  by eapply run_async_nil.
Qed.

(** A node that knows block 103 but bootstraps the reporter up to block 102. *)
Definition node_102 : BTCClient unit := {|
  GetBestBlock := mret 102;
  GetBlockByHash h := get_at (find_hash h);
  GetBlockByHeight n := get_at (Some (Z.to_nat (n - 100)));
  FindTailBlocksByHeight base := mret (drop (Z.to_nat (base - 100)) (take 3 small_blocks));
|}.

(** [reporter_pending] is the state a bootstrap leaves, but for the metrics. *)
Lemma goroutine_crashes_after_block_witness :
  let BC := babylon [1100; 1101; 1102] (Some 0) (mkTipHeader 102 "") 100 in
  control (fst (snd (bootstrap (BTC := node_102) (λ _, Ok 0) small_params 5 5 (fresh_reporter, tt))))
    = control reporter_pending ∧
  fst (run_async in_order (λ _, in_order)
    (snd (ReporterBootstrap.handleNewBlock (BTC := node_102) small_params in_order (λ _, in_order)
            5 103 (header_at 103) (reporter_pending, tt)))) = Panic "nil pointer dereference".
Proof.
  cbn zeta. split; [vm_compute; reflexivity|].
  apply (goroutine_crashes_after_block (BC := babylon [1100; 1101; 1102] (Some 0) (mkTipHeader 102 "") 100)
    (BTC := node_102) small_params in_order (λ _, in_order) 5 103 (header_at 103)
    reporter_pending tt tt (mkBTCCache (take 3 small_blocks) 3) "bbn1" 7
    (NewIndexedBlockFromMsgBlock 102 (block_at 102 [half_tx 2 7 1]))
    (NewIndexedBlockFromMsgBlock 103 (block_at 103 [])) (block_at 103 []));
    try (vm_compute; reflexivity). split; vm_compute; [reflexivity|discriminate].
Defined.

(** With a finalization timeout of at least one block, the block needed by
    the consistency check of [bootstrap] is in the cache filled for the same
    Babylon tip [T] and base [B], so [checkHeaderConsistency] does not panic for
    lack of it. *)
Theorem consistency_block_cached {BL : BTCLib} (c : BTCCache) (f l : IndexedBlock) (k w T B : Z) :
  0 ≤ k → 1 ≤ w → 0 ≤ B ≤ T → is_u32 T → is_u32 (B + k + w) →
  chained (blocks c) → head (blocks c) = Some f → last (blocks c) = Some l →
  Height f = sync_base k w T B → T ≤ Height l →
  ∃ b, FindBlock c (check_height k T B) = Val (Some b) ∧ Height b = check_height k T B.
Proof. apply consistency_found. Qed.

Lemma consistency_block_cached_witness :
  ∃ b, FindBlock (mkBTCCache (drop 1 small_blocks) 10) (check_height 1 103 90) = Val (Some b) ∧
       Height b = check_height 1 103 90.
Proof.
  apply (consistency_block_cached (mkBTCCache (drop 1 small_blocks) 10)
    (NewIndexedBlockFromMsgBlock 101 (block_at 101 [half_tx 1 7 0]))
    (NewIndexedBlockFromMsgBlock 103 (block_at 103 [])) 1 2 103 90).
  - lia.
  - lia.
  - lia.
  - zrange.
  - zrange.
  - by vm_compute.
  - reflexivity.
  - reflexivity.
  - vm_compute. reflexivity.
  - vm_compute. discriminate.
Defined.

(** When the Bitcoin tip is the very block of the consistency check (as
    when Babylon's light client was just initialised with the Bitcoin tip), there
    is no block to sync and [bootstrap] panics instead of waiting for one. *)
Theorem bootstrap_at_tip_panics :
  let BC := babylon [1103] (Some 0) (mkTipHeader 103 "") 103 in
  fst (bootstrap (λ _, Ok 0) small_params 5 5 (fresh_reporter, tt)) = Panic "GetLastBlocks".
Proof. vm_compute. reflexivity. Qed.
