(* ===== verification/MonitorTheorems.v ===== *)
(** * Theorems about the monitor and its scanner *)

From S2P Require Import Prelude Blocks BTCCache CkptCache Retry BTCClient Window Reporter.
From S2P Require Import EpochInfo Stores Scanner ScannerProps Monitor MonitorProps Instances.

(** ** The scanner *)

(** Through any number of bootstraps and block notifications, whatever the
    node answers, the confirmed blocks the scanner has sent form one chain of
    accepted blocks without gap or repetition, the confirmed tip is the last of
    them, and the unconfirmed cache is a bounded window of a chain. *)
Theorem confirmed_blocks_form_chain {BL : BTCLib} {BF : BabylonFormatter} {W : Type}
    {BTC : BTCClient W} (known : Hash → MsgBlock → Z → Prop) {LAWS : BTCClientLaws W known}
    (fuel : nat) (evs : list scan_event) (s : BtcScanner * W) :
  Forall (scan_event_ok known) evs → scanner_inv known s →
  scanner_inv known (snd (bootstrapAndBlockEventHandler fuel evs s)).
Proof. intros He. by apply handler_inv. Qed.

Definition fresh_scanner (k : Z) : BtcScanner :=
  mkScanner 100 k None [] (NewCheckpointCache [98; 98; 110] 0) (mkBTCCache [] 10) [] [].

Lemma confirmed_blocks_form_chain_witness :
  let s' := snd (bootstrapAndBlockEventHandler 10 [ScanEpoch 103 (header_at 103)]
                   (fresh_scanner 2, tt)) in
  Height <$> confirmedBlocksChan (fst s') = [100; 101] ∧ scanner_inv small_known s'.
Proof.
  cbn zeta. split; [vm_compute; reflexivity|].
  apply (confirmed_blocks_form_chain small_known 10 [ScanEpoch 103 (header_at 103)]
    (fresh_scanner 2, tt)).
  - constructor; [|constructor]. intros mb n (j & Hj & -> & Hh).
    do 4 (destruct j as [|j]; [cbn in Hj; simplify_eq; (reflexivity || (cbn in Hh; lia))|]). done.
  - split.
    + split; cbn; [zrange| |done|done|constructor]. apply window_empty. lia.
    + split; cbn; zrange.
Defined.

(** A connecting block is confirmed correctly: when the cache has room for
    more than [k] blocks, the blocks sent and those kept are together exactly the
    cached blocks and the new one, at most [k] are kept, and every block sent is
    at least [k] below the new tip. *)
Theorem confirmation_depth {BL : BTCLib} {BF : BabylonFormatter} {W : Type} {BTC : BTCClient W}
    (known : Hash → MsgBlock → Z → Prop) {LAWS : BTCClientLaws W known}
    (s s' : BtcScanner) (w w' : W) (ib : IndexedBlock) :
  scan_inv known (s, w) → 0 < scan_k s →
  size (unconfirmedBlockCache s) ≤ scan_k s < maxEntries (unconfirmedBlockCache s) →
  maxEntries (unconfirmedBlockCache s) ≤ MaxInt32 →
  (∀ t, Tip (unconfirmedBlockCache s) = Some t → links t ib) →
  (on_cache (Add ib) ;; confirmBlocks) (s, w) = (Val tt, (s', w')) →
  ∃ sent, confirmedBlocksChan s' = confirmedBlocksChan s ++ sent ∧
    blocks (unconfirmedBlockCache s) ++ [ib] = sent ++ blocks (unconfirmedBlockCache s') ∧
    size (unconfirmedBlockCache s') ≤ scan_k s ∧
    Forall (λ b, Height b + scan_k s ≤ Height ib) sent.
Proof. intros H1 H2 H3 H4 H5. by apply (confirm_step known). Qed.

(** Blocks 100 confirmed, 101 and 102 cached with [k = 2], and block 103 new. *)
Definition scanner_102 : BtcScanner :=
  mkScanner 100 2 (head small_blocks) (take 1 small_blocks) (NewCheckpointCache [98; 98; 110] 0)
    (mkBTCCache (take 2 (drop 1 small_blocks)) 10) [] [].
Definition new_103 : IndexedBlock := NewIndexedBlockFromMsgBlock 103 (block_at 103 []).

Lemma confirmation_depth_witness :
  ∃ sent, confirmedBlocksChan (fst (snd ((on_cache (Add new_103) ;; confirmBlocks) (scanner_102, tt)))) =
    confirmedBlocksChan scanner_102 ++ sent ∧
    Forall (λ b, Height b + 2 ≤ 103) sent.
Proof.
  destruct (confirmation_depth small_known scanner_102
    (fst (snd ((on_cache (Add new_103) ;; confirmBlocks) (scanner_102, tt)))) tt tt new_103)
    as (sent & H1 & _ & _ & H2).
  - split; cbn; [zrange| |by vm_compute|reflexivity|].
    + split; [split; vm_compute; discriminate|by vm_compute|].
      exact (Forall_take _ 2 _ (Forall_drop _ 1 _ small_blocks_known)).
    + exact (Forall_take _ 1 _ small_blocks_known).
  - reflexivity.
  - vm_compute. split; [discriminate|reflexivity].
  - vm_compute. discriminate.
  - intros t Ht. vm_compute in Ht. injection Ht as <-. split; reflexivity.
  - vm_compute. reflexivity.
  - exists sent. split; [exact H1|exact H2].
Defined.

(** If no block was confirmed when the scanner started (its base height is
    above the best confirmed height), the first block that exceeds the cache of
    [k] unconfirmed blocks makes the scanner dereference a nil confirmed tip. *)
Theorem first_confirmation_panics {BL : BTCLib} {BF : BabylonFormatter} {W : Type}
    {BTC : BTCClient W} (s : BtcScanner) (w : W) (ib : IndexedBlock) :
  cache_ok (unconfirmedBlockCache s) → confirmedTipBlock s = None → 0 ≤ scan_k s →
  size (unconfirmedBlockCache s) = scan_k s →
  scan_k s < maxEntries (unconfirmedBlockCache s) ≤ MaxInt32 →
  fst ((on_cache (Add ib) ;; confirmBlocks) (s, w)) = Panic "nil pointer dereference".
Proof. apply confirm_nil_tip. Qed.

(** Started at height 102 with [k = 2] when the best block is 103: blocks 102 and
    103 are cached and none is confirmed. *)
Lemma first_confirmation_panics_witness :
  let s := fst (snd (Bootstrap 10 (mkScanner 102 2 None [] (NewCheckpointCache [] 0)
                                     (mkBTCCache [] 10) [] [], tt))) in
  fst ((on_cache (Add (NewIndexedBlockFromMsgBlock 104 (block_at 104 []))) ;; confirmBlocks) (s, tt)) =
  Panic "nil pointer dereference".
Proof.
  cbn zeta. apply first_confirmation_panics.
  - split; vm_compute; discriminate.
  - vm_compute. reflexivity.
  - vm_compute. discriminate.
  - vm_compute. reflexivity.
  - vm_compute. split; [reflexivity|discriminate].
Defined.

(** ** Checkpoint verification *)

(** C3: the monitor accepts a Bitcoin checkpoint only if it is of the current
    epoch, more than two thirds of the voting power signed it, and Babylon
    answered with a checkpoint of that epoch that is signed in the same way and
    commits to the same block hash. *)
Theorem accepted_checkpoints_are_babylons {BLS : BLSLib} {RT : Retry} {W : Type}
    {BQ : BabylonQueryClient W} (Cfg : MonitorConfig) (btcCkpt : RawCheckpoint) (m : Monitor)
    (w : W) (x' : Monitor * W) :
  0 < MaxRetryTimes Cfg → powers_fit (curEpoch m) →
  VerifyCheckpoint Cfg btcCkpt (m, w) = (Val tt, x') →
  EpochNum btcCkpt = GetCurrentEpoch m ∧ supermajority_signed (curEpoch m) btcCkpt ∧
  ∃ ckpt, babylon_checkpoint (EpochNum btcCkpt) ckpt ∧
    supermajority_signed (curEpoch m) ckpt ∧ rc_BlockHash ckpt = rc_BlockHash btcCkpt.
Proof.
  intros Hat Hp Hr. apply VerifyCheckpoint_sound in Hr as (He & H1 & ckpt & Hb & H2 & Hh); [|done].
  rewrite VerifyMultiSig_spec in H1, H2 by done. eauto 10.
Qed.

Lemma validators_fit e : powers_fit (mkEpochInfo e validators).
Proof.
  split; [vm_compute; split; discriminate|]. intros bm signers power Hs. destruct bm; [done|].
  cbn in Hs. simplify_eq. vm_compute. split; discriminate.
Qed.

Lemma accepted_checkpoints_are_babylons_witness :
  let BQ := bbn_node None in
  EpochNum (ckpt7 [7; 7]) = GetCurrentEpoch (monitor_at 7) ∧
  supermajority_signed (curEpoch (monitor_at 7)) (ckpt7 [7; 7]) ∧
  ∃ ckpt, babylon_checkpoint (EpochNum (ckpt7 [7; 7])) ckpt ∧
    supermajority_signed (curEpoch (monitor_at 7)) ckpt ∧
    rc_BlockHash ckpt = rc_BlockHash (ckpt7 [7; 7]).
Proof.
  cbn zeta. apply (accepted_checkpoints_are_babylons (BQ := bbn_node None) monitor_cfg
    (ckpt7 [7; 7]) (monitor_at 7) monitor_db (monitor_at 7, monitor_db)).
  - reflexivity.
  - exact (validators_fit 7).
  - vm_compute. reflexivity.
Defined.

(** A checkpoint that is properly signed but commits to another block hash
    than Babylon's (a fork) is an error, does not advance the epoch, and, when the
    liveness checker is enabled, is put on its checklist, so that its censorship
    would still raise an alarm. *)
Theorem conflicting_checkpoints_are_kept {BLS : BLSLib} {RT : Retry} {W : Type}
    {BQ : BabylonQueryClient W} {KV : KVDB W} (Cfg : MonitorConfig) (ckpt : CheckpointRecord)
    (m : Monitor) (w : W) (err : gerror) (x1 : Monitor * W) :
  VerifyCheckpoint Cfg (cr_RawCheckpoint ckpt) (m, w) = (Error err, x1) →
  errors_Is err ErrInconsistentBlockHash = true →
  ∃ e m' w', handleNewConfirmedCheckpoint Cfg ckpt (m, w) = (Error e, (m', w')) ∧
    curEpoch m' = curEpoch m ∧ errors_Is e ErrInconsistentBlockHash = true ∧
    (EnableLivenessChecker Cfg = true → listed m' ckpt).
Proof. apply conflicting_checkpoint. Qed.

Lemma conflicting_checkpoints_are_kept_witness :
  let BQ := bbn_node None in
  let ckpt := mkCheckpointRecord (ckpt7 [6; 6]) 101 in
  ∃ e m' w', handleNewConfirmedCheckpoint monitor_cfg ckpt (monitor_at 7, monitor_db) =
    (Error e, (m', w')) ∧
    curEpoch m' = curEpoch (monitor_at 7) ∧ errors_Is e ErrInconsistentBlockHash = true ∧
    (EnableLivenessChecker monitor_cfg = true → listed m' ckpt).
Proof.
  cbn zeta. apply (conflicting_checkpoints_are_kept (BQ := bbn_node None) monitor_cfg
    (mkCheckpointRecord (ckpt7 [6; 6]) 101) (monitor_at 7) monitor_db
    (EWrap "Babylon checkpoint's BlockHash" (ESentinel ErrInconsistentBlockHash))
    (monitor_at 7, monitor_db)).
  - vm_compute. reflexivity.
  - reflexivity.
Defined.

(** C28: the epoch moves by at most one per checkpoint, and only after the
    checkpoint was verified, on every exit of [handleNewConfirmedCheckpoint]. *)
Theorem epoch_advances_by_verified_checkpoints {BLS : BLSLib} {RT : Retry} {W : Type}
    {BQ : BabylonQueryClient W} {KV : KVDB W} (Cfg : MonitorConfig) (ckpt : CheckpointRecord)
    (m : Monitor) (w : W) :
  let '(o, (m', _)) := handleNewConfirmedCheckpoint Cfg ckpt (m, w) in
  GetCurrentEpoch m' = GetCurrentEpoch m ∨
  (GetCurrentEpoch m' = u64 (GetCurrentEpoch m + 1) ∧
   ∃ x, VerifyCheckpoint Cfg (cr_RawCheckpoint ckpt) (m, w) = (Val tt, x)).
Proof. apply handle_checkpoint_epoch. Qed.

(** A monitor that crashes after handling a verified checkpoint and a
    consistent header resumes where it stopped: restarted on the same database it
    expects the next epoch and starts the scanner at the next height. *)
Theorem restart_resumes {BLS : BLSLib} {RT : Retry} {BL : BTCLib} {W : Type}
    {BQ : BabylonQueryClient W} {KV : KVDB W} {LAWS : KVLaws W} (Cfg : MonitorConfig)
    (base e h startHeight : Z) (m m' : Monitor) (w w' : W) :
  0 < MaxRetryTimes Cfg → db_untouched → is_u64 e → is_u64 h →
  stored_epoch w = Some (MonitorStore.uint64ToBytes e) →
  stored_height w = Some (MonitorStore.uint64ToBytes h) →
  start_init Cfg base (m, w) = (Val startHeight, (m', w')) →
  GetCurrentEpoch m' = u64 (e + 1) ∧ startHeight = u32 (h + 1).
Proof. apply start_resumes. Qed.

(** A database left by a monitor that stored height 102 and epoch 7. *)
Definition used_db : mem_db :=
  snd (MonitorStore.PutLatestEpoch 7 (snd (MonitorStore.PutLatestHeight 102 monitor_db))).

Lemma restart_resumes_witness :
  let BQ := bbn_node None in
  let x := start_init monitor_cfg 50 (monitor_at 1, used_db) in
  GetCurrentEpoch (fst (snd x)) = u64 (7 + 1) ∧ 103 = u32 (102 + 1).
Proof.
  cbn zeta. apply (restart_resumes (BQ := bbn_node None) monitor_cfg 50 7 102 103 (monitor_at 1)
    (fst (snd (start_init (BQ := bbn_node None) monitor_cfg 50 (monitor_at 1, used_db))))
    used_db used_db).
  - reflexivity.
  - split; [intros w o w' [= _ <-]; reflexivity|intros e w o w' [= _ <-]; reflexivity].
  - zrange.
  - zrange.
  - vm_compute. reflexivity.
  - vm_compute. reflexivity.
  - vm_compute. reflexivity.
Defined.

(** What an accepted checkpoint leaves behind: the next epoch is current,
    the verified epoch is persisted, and the checkpoint is on the checklist when
    the liveness checker is enabled. *)
Theorem accepted_checkpoint_persists {BLS : BLSLib} {RT : Retry} {W : Type}
    {BQ : BabylonQueryClient W} {KV : KVDB W} {LAWS : KVLaws W} (Cfg : MonitorConfig)
    (ckpt : CheckpointRecord) (m m' : Monitor) (w w' : W) (x : Monitor * W) :
  VerifyCheckpoint Cfg (cr_RawCheckpoint ckpt) (m, w) = (Val tt, x) →
  handleNewConfirmedCheckpoint Cfg ckpt (m, w) = (Val tt, (m', w')) →
  GetCurrentEpoch m' = u64 (GetCurrentEpoch m + 1) ∧
  stored_epoch w' = Some (MonitorStore.uint64ToBytes (GetCurrentEpoch m)) ∧
  (EnableLivenessChecker Cfg = true → listed m' ckpt).
Proof. apply accepted_checkpoint. Qed.

Lemma accepted_checkpoint_persists_witness :
  let BQ := bbn_node None in
  let ckpt := mkCheckpointRecord (ckpt7 [7; 7]) 101 in
  let x := handleNewConfirmedCheckpoint monitor_cfg ckpt (monitor_at 7, monitor_db) in
  GetCurrentEpoch (fst (snd x)) = u64 (7 + 1) ∧
  stored_epoch (snd (snd x)) = Some (MonitorStore.uint64ToBytes 7) ∧
  (true = true → listed (fst (snd x)) ckpt).
Proof.
  cbn zeta. apply (accepted_checkpoint_persists (BQ := bbn_node None) monitor_cfg
    (mkCheckpointRecord (ckpt7 [7; 7]) 101) (monitor_at 7)
    (fst (snd (handleNewConfirmedCheckpoint (BQ := bbn_node None) monitor_cfg
       (mkCheckpointRecord (ckpt7 [7; 7]) 101) (monitor_at 7, monitor_db))))
    monitor_db
    (snd (snd (handleNewConfirmedCheckpoint (BQ := bbn_node None) monitor_cfg
       (mkCheckpointRecord (ckpt7 [7; 7]) 101) (monitor_at 7, monitor_db))))
    (monitor_at 7, monitor_db)).
  - vm_compute. reflexivity.
  - vm_compute. reflexivity.
Defined.

(** ** Liveness *)

(** C29: [CheckLiveness] is the documented rule: with H1 the Bitcoin height at
    which the epoch ended, H2 the height at which the checkpoint was first seen,
    and H3 the height at which it was reported (H4 the current tip if it was
    not), it raises the liveness alarm exactly when the gap to min(H1, H2)
    exceeds the threshold, and passes exactly when the gap is between 0 and the
    threshold. *)
Theorem CheckLiveness_rule {BLS : BLSLib} {RT : Retry} {W : Type} {BQ : BabylonQueryClient W}
    (Cfg : MonitorConfig) (cr : CheckpointRecord) (a : liveness_answers) (m : Monitor) (w : W) :
  0 < MaxRetryTimes Cfg → 0 ≤ MaxLiveBtcHeights Cfg → answers_liveness cr a →
  (fst (CheckLiveness Cfg cr (m, w)) = Val tt ↔
     0 ≤ liveness_gap cr a ≤ MaxLiveBtcHeights Cfg) ∧
  ((∃ e, fst (CheckLiveness Cfg cr (m, w)) = Error e ∧ errors_Is e ErrLivenessAttack = true) ↔
     MaxLiveBtcHeights Cfg < liveness_gap cr a).
Proof.
  intros Hat Hmax Ha. rewrite (CheckLiveness_spec Cfg cr a m w Hat Ha). cbn [fst].
  destruct (Z.ltb_spec (liveness_gap cr a) 0).
  { split; (split; [|lia]); [done|]. intros (e & [= <-] & He). done. }
  destruct (Z.ltb_spec (MaxLiveBtcHeights Cfg) (liveness_gap cr a)).
  - split; (split; [|lia || intros _]); [done|lia|]. eexists. split; [done|]. done.
  - split; (split; [|done || lia]); [intros _; lia|]. by intros (e & ? & _).
Qed.

Lemma CheckLiveness_rule_witness :
  let BQ := bbn_node None in
  let cr := mkCheckpointRecord (ckpt7 [7; 7]) 101 in
  (fst (CheckLiveness monitor_cfg cr (monitor_at 7, monitor_db)) = Val tt ↔ 0 ≤ 10 ≤ 5) ∧
  ((∃ e, fst (CheckLiveness monitor_cfg cr (monitor_at 7, monitor_db)) = Error e ∧
         errors_Is e ErrLivenessAttack = true) ↔ 5 < 10).
Proof.
  cbn zeta. apply (CheckLiveness_rule (BQ := bbn_node None) monitor_cfg
    (mkCheckpointRecord (ckpt7 [7; 7]) 101) (mkAnswers 100 None 110) (monitor_at 7) monitor_db).
  - reflexivity.
  - vm_compute. discriminate.
  - split; [reflexivity|split; reflexivity].
Defined.

(** One tick of the liveness checker, for every iteration order of the
    checklist, removes exactly the records that pass and keeps the others for the
    next tick. *)
Theorem liveness_tick_keeps_attacks {BLS : BLSLib} {RT : Retry} {W : Type}
    {BQ : BabylonQueryClient W} (Cfg : MonitorConfig)
    (ans : CheckpointRecord → liveness_answers)
    (order : Bookkeeper.CheckpointsBookkeeper → list (string * CheckpointRecord))
    (m : Monitor) (w : W) :
  0 < MaxRetryTimes Cfg → (∀ cr, answers_liveness cr (ans cr)) →
  Bookkeeper.book_ok (checkpointChecklist m) → (∀ cb, is_range cb (order cb)) →
  ∃ m', liveness_tick Cfg order (m, w) = (Val tt, (m', w)) ∧ curEpoch m' = curEpoch m ∧
    ∀ id cr, checkpointChecklist m' !! id = Some cr ↔
             checkpointChecklist m !! id = Some cr ∧ live Cfg cr (ans cr) = false.
Proof. intros H1 H2. by apply liveness_tick_spec. Qed.

Definition monitor_listing : Monitor :=
  mkMonitor (mkEpochInfo 8 validators) {[ "seven" := mkCheckpointRecord (ckpt7 [7; 7]) 101 ]} [].

Lemma liveness_tick_keeps_attacks_witness :
  let BQ := bbn_node (Some 104) in
  ∃ m', liveness_tick monitor_cfg map_to_list (monitor_listing, monitor_db) =
          (Val tt, (m', monitor_db)) ∧
    curEpoch m' = curEpoch monitor_listing ∧
    ∀ id cr, checkpointChecklist m' !! id = Some cr ↔
             checkpointChecklist monitor_listing !! id = Some cr ∧
             live monitor_cfg cr (mkAnswers 100 (Some 104) 110) = false.
Proof.
  cbn zeta. apply (liveness_tick_keeps_attacks (BQ := bbn_node (Some 104)) monitor_cfg
    (λ _, mkAnswers 100 (Some 104) 110) map_to_list monitor_listing monitor_db).
  - reflexivity.
  - intros cr. split; [reflexivity|split; reflexivity].
  - cbn. apply map_Forall_singleton. reflexivity.
  - intros cb. apply is_range_refl.
Defined.

(** [FindTipConfirmedEpoch] terminates and returns the highest epoch below
    the current one that Babylon reports as confirmed or finalized, or an error
    when there is none. *)
Theorem FindTipConfirmedEpoch_highest {RT : Retry} {W : Type} {BQ : BabylonQueryClient W}
    (Cfg : MonitorConfig) (st : Z → CheckpointStatus) (cur : Z) (m : Monitor) (w : W) :
  0 < MaxRetryTimes Cfg → 0 ≤ cur → (∀ w, q_CurrentEpoch w = (Val cur, w)) → answers_status st →
  match fst (FindTipConfirmedEpoch Cfg (m, w)) with
  | Val e => 0 ≤ e < cur ∧ status_confirmed (st e) = true ∧
             ∀ e', e < e' < cur → status_confirmed (st e') = false
  | Error _ => ∀ e', 0 ≤ e' < cur → status_confirmed (st e') = false
  | _ => False
  end.
Proof.
  intros Hat Hc Hq Hst. unfold FindTipConfirmedEpoch. rewrite bind_unfold.
  unfold wrap_err, queryCurrentEpochWithRetry.
  rewrite (query_retry_once Cfg 0 _ m w cur w Hat (Hq w)). cbv iota beta.
  pose proof (find_confirmed_spec Cfg st (Z.to_nat cur) m w Hat Hst) as H.
  by rewrite Z2Nat.id in H by done.
Qed.

Lemma FindTipConfirmedEpoch_highest_witness :
  let BQ := bbn_node None in
  let st e := if e <? 6 then Finalized else Sealed in
  match fst (FindTipConfirmedEpoch monitor_cfg (monitor_at 7, monitor_db)) with
  | Val e => 0 ≤ e < 8 ∧ status_confirmed (st e) = true ∧
             ∀ e', e < e' < 8 → status_confirmed (st e') = false
  | Error _ => ∀ e', 0 ≤ e' < 8 → status_confirmed (st e') = false
  | _ => False
  end.
Proof.
  cbn zeta. apply (FindTipConfirmedEpoch_highest (BQ := bbn_node None) monitor_cfg
    (λ e, if e <? 6 then Finalized else Sealed) 8 (monitor_at 7) monitor_db).
  - reflexivity.
  - lia.
  - reflexivity.
  - intros e w. eexists _, w. reflexivity.
Defined.
