(* ===== verification/Interference.v ===== *)
(** * Goroutines that share state

    A goroutine is a computation in [M S A] whose atomic operations (a mutex
    protected call, an atomic load or store, a channel operation, a remote
    call) each start after the other goroutines took any number of steps of a
    relation [step].  [wp step s m Q] says that [m], run from [s], has an effect
    made of such steps itself (what the others may assume of it) and, when it
    returns a value, ends as [Q] says.  The rules below execute a body
    symbolically; facts about earlier states are carried along by [rtc step]. *)

From S2P Require Import Prelude Retry.

(** The successful attempt of a run started from a state its failed attempts led to. *)
Lemma retried_Val_from {T} (I : T → Prop) o (f : M T unit) log (s s' : T) :
  (∀ (s : T) e s1, I s → f s = (Error e, s1) → I s1) → I s → retried o f log s (Val tt, s') →
  ∃ s1, I s1 ∧ f s1 = (Val tt, s').
Proof.
  intros Hf Hs Hr. remember (Val tt, s') as r eqn:Er.
  induction Hr as [log s s2 E| | | | |log s e s1 r E _ _ _ IH|]; simplify_eq; [eauto|]. eauto.
Qed.

Section goroutines.
Context {S : Type} (step : S → S → Prop).
Implicit Types (s : S).

Definition wp {A} (s : S) (m : M S A) (Q : A → S → Prop) : Prop :=
  rtc step s (snd (m s)) ∧
  match fst (m s) with Val a => Q a (snd (m s)) | _ => True end.

(** A body that keeps within [step], whatever it returns. *)
Definition guar {A} (m : M S A) : Prop := ∀ s, wp s m (λ _ _, True).

Lemma wp_mono {A} s (m : M S A) (Q R : A → S → Prop) :
  wp s m Q → (∀ a s', rtc step s s' → Q a s' → R a s') → wp s m R.
Proof. intros [H1 H2] HQ. split; [done|]. destruct (fst (m s)); auto. Qed.

Lemma wp_guar {A} s (m : M S A) : guar m → wp s m (λ _ _, True).
Proof. intros H. apply H. Qed.

Lemma wp_guar_post {A} s (m : M S A) (Q : A → S → Prop) :
  guar m → (∀ a s', rtc step s s' → Q a s') → wp s m Q.
Proof. intros H HQ. eapply wp_mono; [apply H|]. auto. Qed.

Lemma wp_run {A} s (m : M S A) Q a s' :
  wp s m Q → m s = (Val a, s') → rtc step s s' ∧ Q a s'.
Proof. intros [H1 H2] E. rewrite E in H1, H2. done. Qed.

Lemma wp_ret {A} s (a : A) (Q : A → S → Prop) : Q a s → wp s (mret a) Q.
Proof. intros H. split; [apply rtc_refl|done]. Qed.

Lemma wp_fail {A} s e (Q : A → S → Prop) : wp s (fail e) Q.
Proof. split; [apply rtc_refl|done]. Qed.

Lemma wp_panic {A} s p (Q : A → S → Prop) : wp s (panic p) Q.
Proof. split; [apply rtc_refl|done]. Qed.

Lemma wp_diverge {A} s (Q : A → S → Prop) : wp s diverge Q.
Proof. split; [apply rtc_refl|done]. Qed.

Lemma wp_of_outcome {A} s (o : outcome A) (Q : A → S → Prop) :
  (∀ a, o = Val a → Q a s) → wp s (of_outcome o) Q.
Proof. intros H. split; [apply rtc_refl|]. cbn. destruct o; auto. Qed.

Lemma wp_of_result {A} s (o : result A) (Q : A → S → Prop) :
  (∀ a, o = Ok a → Q a s) → wp s (of_result o) Q.
Proof. intros H. destruct o; [apply wp_ret; auto|apply wp_fail]. Qed.

Lemma wp_bind {A B} s (m : M S A) (k : A → M S B) Q :
  wp s m (λ a s1, rtc step s s1 → wp s1 (k a) Q) → wp s (m ≫= k) Q.
Proof.
  intros [H1 H2]. unfold wp. rewrite bind_unfold.
  destruct (m s) as [[a|e|p|] s1]; cbn in *; [|done..].
  destruct (H2 H1) as [H3 H4]. split; [by etrans|done].
Qed.

Lemma wp_try {A} s (m : M S A) (Q : result A → S → Prop) :
  wp s m (λ a s', Q (Ok a) s') → (∀ e s', rtc step s s' → Q (Err e) s') → wp s (try m) Q.
Proof.
  intros [H1 H2] He. unfold wp, try. destruct (m s) as [[a|e|p|] s1]; cbn in *; auto.
Qed.

Lemma wp_wrap_err {A} s msg (m : M S A) Q : wp s m Q → wp s (wrap_err msg m) Q.
Proof. unfold wp, wrap_err. by destruct (m s) as [[]]. Qed.

Lemma wp_for_each {A} (I : S → Prop) s (xs : list A) (body : A → M S unit) :
  (∀ x s', x ∈ xs → rtc step s s' → I s' → wp s' (body x) (λ _, I)) → I s →
  wp s (for_each xs body) (λ _, I).
Proof.
  revert s. induction xs as [|x xs IH]; intros s Hb Hs; [by apply wp_ret|].
  apply wp_bind. eapply wp_mono; [apply Hb; [left|apply rtc_refl|done]|].
  intros [] s1 _ Hi H1. apply IH; [|done]. intros y s' Hy Hr. apply Hb; [by right|by etrans].
Qed.

Lemma guar_for_each {A} (xs : list A) (body : A → M S unit) :
  (∀ x, guar (body x)) → guar (for_each xs body).
Proof.
  intros Hb s. eapply wp_mono; [apply (wp_for_each (λ _, True))|done]; [|done].
  intros x s' _ _ _. apply wp_guar_post; [apply Hb|done].
Qed.

(** Retrying keeps within the steps of the attempts, and a retried call that
    returns normally ended with a successful attempt. *)
Lemma wp_retry {RT : Retry} s o (f : M S unit) (Q : unit → S → Prop) :
  0 ≤ Attempts o → (Attempts o = 0 → WithContext o = true) →
  (∀ s', rtc step s s' → wp s' f Q) → wp s (retry_Do o f) Q.
Proof.
  intros Ha Hc Hf. pose proof (retry_Do_spec o f s Ha Hc) as Hr.
  assert (∀ s', rtc step s s' → rtc step s (snd (f s'))) as Hinv.
  { intros s' Hs. etrans; [exact Hs|]. apply Hf. done. }
  split.
  - apply (retried_inv (rtc step s)) in Hr; [done|done|apply rtc_refl].
  - destruct (retry_Do o f s) as [[[]|e|p|] s'] eqn:E; cbn in *; [|done..].
    apply (retried_Val_inv (rtc step s)) in Hr as (s1 & Hs1 & E1); [|done|apply rtc_refl].
    apply Hf in Hs1. by apply (wp_run _ _ _ _ _ Hs1) in E1 as [_ ?].
Qed.

(** A retried closure that assigns a variable of its caller; [I] is what the
    failed attempts keep of the variable. *)
Lemma wp_capture {RT : Retry} {A} s o (z : A) (f : M (S * A) unit) (I : A → Prop)
    (Q : A → S → Prop) :
  0 ≤ Attempts o → (Attempts o = 0 → WithContext o = true) → I z →
  (∀ s' a, rtc step s s' →
     rtc step s' (fst (snd (f (s', a)))) ∧
     (I a → match fst (f (s', a)) with
            | Val _ => Q (snd (snd (f (s', a)))) (fst (snd (f (s', a))))
            | _ => I (snd (snd (f (s', a))))
            end)) →
  wp s (capture (retry_Do o) z f) Q.
Proof.
  intros Ha Hc Hz Hf. pose proof (retry_Do_spec o f (s, z) Ha Hc) as Hr.
  assert (∀ p : S * A, rtc step s (fst p) → rtc step s (fst (snd (f p)))) as Hinv.
  { intros [s' a] Hs. cbn in Hs. etrans; [exact Hs|]. by apply Hf. }
  unfold wp, capture. split.
  - apply (retried_inv (λ p, rtc step s (fst p))) in Hr; [|done|apply rtc_refl].
    by destruct (retry_Do o f (s, z)) as [[[]|e|p|] [s' a]].
  - destruct (retry_Do o f (s, z)) as [[[]|e|p|] [s' a]] eqn:E; cbn in *; [|done..].
    apply (retried_Val_from (λ p, rtc step s (fst p) ∧ I (snd p))) in Hr
      as ([s1 a1] & [Hs1 Hi1] & E1); [|clear Hr|split; [apply rtc_refl|done]].
    + destruct (Hf s1 a1 Hs1) as [_ H]. specialize (H Hi1). by rewrite E1 in H.
    + intros [s1 a1] e [s2 a2] [H1 H2] E1. pose proof (Hinv (s1, a1) H1) as H3.
      destruct (Hf s1 a1 H1) as [_ H4]. specialize (H4 H2). rewrite E1 in H3, H4. done.
Qed.

(** An invariant of the steps holds wherever a body stops. *)
Lemma rtc_inv (I : S → Prop) s s' :
  (∀ s s', step s s' → I s → I s') → rtc step s s' → I s → I s'.
Proof. intros HI. induction 1 as [|s s1 s' H1 _ IH]; intros Hs; [done|]. eauto. Qed.
End goroutines.

(** Executes the head of a body, leaving the atomic operations. *)
Ltac wp_pure :=
  lazymatch goal with
  | |- wp _ _ (mret _) _ => apply wp_ret
  | |- wp _ _ (fail _) _ => apply wp_fail
  | |- wp _ _ (panic _) _ => apply wp_panic
  | |- wp _ _ diverge _ => apply wp_diverge
  | |- wp _ _ (_ ≫= _) _ => apply wp_bind
  | |- wp _ _ (try _) _ => apply wp_try
  | |- wp _ _ (wrap_err _ _) _ => apply wp_wrap_err
  | |- wp _ _ (match ?x with _ => _ end) _ => destruct x eqn:?
  | |- wp _ _ (let _ := _ in _) _ => cbv zeta
  end.
