(* ===== verification/TrackedDelegations.v ===== *)
(** * Tracked delegations ([btcstaking-tracker/stakingeventwatcher/tracked_delegations.go])

    A map from staking transaction hashes to delegations behind a mutex, with a
    counter beside it.  Every method is one atomic operation on the record.  The
    entries are pointers: [AddEmptyDelegation] stores [nil].  No caller keeps an
    entry's pointer across another operation (the iterator yields clones, and
    the results of [AddDelegation] and [GetDelegation] are dropped), so entries
    are values. *)

From S2P Require Import Prelude Blocks.

(** [StakingTx] and [UnbondingOutput] are pointers; a tracked delegation is only
    built from a parsed transaction and one of its outputs. *)
Record TrackedDelegation := mkTracked {
  StakingTx : MsgTx;
  StakingOutputIdx : Z;
  UnbondingOutput : TxOutput;
  DelegationStartHeight : Z;
  InProgress : bool;
}.
#[global] Instance TrackedDelegation_eq_dec : EqDecision TrackedDelegation.
Proof. solve_decision. Defined.

Definition set_InProgress (b : bool) (td : TrackedDelegation) : TrackedDelegation :=
  mkTracked (StakingTx td) (StakingOutputIdx td) (UnbondingOutput td)
    (DelegationStartHeight td) b.

Record TrackedDelegations := mkTrackedDelegations {
  mapping : gmap Hash (option TrackedDelegation);
  count : Z;                       (** [atomic.Int32] *)
}.

(** 32-bit signed wrap-around of the counter. *)
Definition i32 (z : Z) : Z := (z + 2 ^ 31) mod 2 ^ 32 - 2 ^ 31.

Definition NewTrackedDelegations : TrackedDelegations := mkTrackedDelegations ∅ 0.

Record newDelegation := mkNewDelegation {
  nd_stakingTxHash : Hash;
  nd_stakingTx : MsgTx;
  nd_stakingOutputIdx : Z;
  nd_delegationStartHeight : Z;
  nd_unbondingOutput : TxOutput;
}.

Notation TDM A := (M TrackedDelegations A).

(** [None] when absent; the pointer found may itself be [nil]. *)
Definition GetDelegation (stakingTxHash : Hash) : TDM (option (option TrackedDelegation)) :=
  gets (λ td, mapping td !! stakingTxHash).

(** In the order [range] of the map's iteration. *)
Definition GetDelegations
    (range : gmap Hash (option TrackedDelegation) → list (Hash * option TrackedDelegation))
  : TDM (list (option TrackedDelegation)) :=
  gets (λ td, (range (mapping td)).*2).

(** A deep copy; [nil] is copied to [nil]. *)
Definition Clone (td : option TrackedDelegation) : option TrackedDelegation :=
  match td with
  | None => None
  | Some td =>
      Some (mkTracked (StakingTx td) (StakingOutputIdx td)
              (mkTxOut (Value (UnbondingOutput td)) (PkScript (UnbondingOutput td)))
              (DelegationStartHeight td) (InProgress td))
  end.

(** ** The iterator *)

(** One pass over the map under the read lock: up to [chunkSize] clones of
    entries not yet processed, which become processed. *)
Fixpoint collect (chunkSize : Z) (order : list (Hash * option TrackedDelegation))
    (processed : gset Hash) (buffer : list (option TrackedDelegation))
  : list (option TrackedDelegation) * gset Hash :=
  match order with
  | [] => (buffer, processed)
  | (k, v) :: order =>
      if bool_decide (k ∈ processed) then collect chunkSize order processed buffer
      else
        let buffer := buffer ++ [Clone v] in
        let processed := {[k]} ∪ processed in
        if chunkSize <=? len buffer then (buffer, processed)
        else collect chunkSize order processed buffer
  end.

Section iter.
Context {X R : Type}.
(** What a reader sees of the map, at a moment other goroutines may precede. *)
Context (snapshot : M X (gmap Hash (option TrackedDelegation))).
Context (range : gmap Hash (option TrackedDelegation) → list (Hash * option TrackedDelegation)).
(** The body of [for del := range]; [Some] leaves the loop. *)
Context (yield : option TrackedDelegation → M X (option R)).

Fixpoint iter_loop (fuel : nat) (chunkSize : Z) (processed : gset Hash) : M X (option R) :=
  match fuel with
  | O => diverge
  | S fuel =>
      m ← snapshot;
      let '(buffer, processed) := collect chunkSize (range m) processed [] in
      let mapSize := Z.of_nat (size m) in
      r ← for_until buffer yield;
      match r with
      | Some r => mret (Some r)
      | None =>
          if mapSize <=? Z.of_nat (size processed) then mret None
          else iter_loop fuel chunkSize processed
      end
  end.

Definition DelegationsIter (fuel : nat) (chunkSize : Z) : M X (option R) :=
  let chunkSize := if chunkSize <=? 0 then 100 else chunkSize in
  snapshot ;; iter_loop fuel chunkSize ∅.
End iter.

(** ** Updates *)
Section updates.
Context {BL : BTCLib}.

Definition AddDelegation (stakingTx : MsgTx) (stakingOutputIdx : Z) (unbondingOutput : TxOutput)
    (delegationStartHeight : Z) (shouldUpdate : bool) : TDM TrackedDelegation :=
  let delegation :=
    mkTracked stakingTx stakingOutputIdx unbondingOutput delegationStartHeight false in
  let stakingTxHash := TxHash stakingTx in
  found ← gets (λ td, mapping td !! stakingTxHash);
  match found with
  | Some _ =>
      if shouldUpdate then
        modify (λ td, mkTrackedDelegations (<[stakingTxHash := Some delegation]> (mapping td))
                        (count td)) ;;
        mret delegation
      else fail (ENew "delegation already tracked for staking tx hash")
  | None =>
      modify (λ td, mkTrackedDelegations (<[stakingTxHash := Some delegation]> (mapping td))
                      (i32 (count td + 1))) ;;
      mret delegation
  end.

Definition AddEmptyDelegation (txHash : Hash) : TDM unit :=
  found ← gets (λ td, mapping td !! txHash);
  match found with
  | Some _ => fail (ENew "already tracked staking tx hash")
  | None => modify (λ td, mkTrackedDelegations (<[txHash := None]> (mapping td))
                            (i32 (count td + 1)))
  end.

Definition RemoveDelegation (stakingTxHash : Hash) : TDM unit :=
  modify (λ td,
    match mapping td !! stakingTxHash with
    | Some _ => mkTrackedDelegations (delete stakingTxHash (mapping td)) (i32 (count td - 1))
    | None => td
    end).

(** Changed, and exists; a [nil] entry is dereferenced. *)
Definition HasDelegationChanged (stakingTxHash : Hash) (new : newDelegation) : TDM (bool * bool) :=
  found ← gets (λ td, mapping td !! stakingTxHash);
  match found with
  | None => mret (false, false)
  | Some None => panic "nil pointer dereference"
  | Some (Some existing) =>
      if negb (DelegationStartHeight existing =? nd_delegationStartHeight new)
      then mret (true, true)
      else mret (false, true)
  end.

Definition UpdateActivation (tx : Hash) (inProgress : bool) : TDM unit :=
  found ← gets (λ td, mapping td !! tx);
  match found with
  | None => fail (ENew "delegation with tx hash not found")
  | Some None => panic "nil pointer dereference"
  | Some (Some delegation) =>
      modify (λ td, mkTrackedDelegations
        (<[tx := Some (set_InProgress inProgress delegation)]> (mapping td)) (count td))
  end.

Definition Count : TDM Z := gets count.
End updates.

(** ** The counter and the keys *)
Section invariants.
Context {BL : BTCLib}.

Definition count_ok (td : TrackedDelegations) : Prop :=
  count td = i32 (Z.of_nat (size (mapping td))).

(** Every entry is a delegation stored under the hash of its transaction. *)
Definition keyed (m : gmap Hash (option TrackedDelegation)) : Prop :=
  map_Forall (λ k v, ∃ d, v = Some d ∧ TxHash (StakingTx d) = k) m.

Lemma i32_id z : - 2 ^ 31 ≤ z < 2 ^ 31 → i32 z = z.
Proof. unfold i32. intros H. rewrite Z.mod_small; lia. Qed.

Lemma i32_add z a : i32 (i32 z + a) = i32 (z + a).
Proof.
  unfold i32.
  replace ((z + 2 ^ 31) mod 2 ^ 32 - 2 ^ 31 + a + 2 ^ 31)
    with ((z + 2 ^ 31) mod 2 ^ 32 + a) by lia.
  rewrite Zplus_mod_idemp_l. do 2 f_equal. lia.
Qed.

Lemma count_ok_new : count_ok NewTrackedDelegations.
Proof. reflexivity. Qed.

Lemma count_ok_insert k v td :
  mapping td !! k = None → count_ok td →
  count_ok (mkTrackedDelegations (<[k := v]> (mapping td)) (i32 (count td + 1))).
Proof.
  unfold count_ok. cbn. intros Hk ->. rewrite i32_add, map_size_insert_None by done. f_equal. lia.
Qed.

Lemma count_ok_replace k v v' td :
  mapping td !! k = Some v → count_ok td →
  count_ok (mkTrackedDelegations (<[k := v']> (mapping td)) (count td)).
Proof. unfold count_ok. cbn. intros Hk ->. by rewrite map_size_insert_Some by eauto. Qed.

Lemma count_ok_delete k v td :
  mapping td !! k = Some v → count_ok td →
  count_ok (mkTrackedDelegations (delete k (mapping td)) (i32 (count td - 1))).
Proof.
  unfold count_ok. cbn. intros Hk ->. unfold Z.sub. rewrite i32_add, map_size_delete_Some by eauto.
  assert (size (mapping td) ≠ 0%nat).
  { intros H%map_size_empty_inv. by rewrite H in Hk. }
  f_equal. lia.
Qed.

(** Every update keeps the counter equal to the size of the map. *)
Lemma AddDelegation_count tx i o h b : preserves count_ok (AddDelegation tx i o h b).
Proof.
  intros td Htd. unfold AddDelegation. mrun. destruct (mapping td !! TxHash tx) eqn:E.
  - destruct b; cbn; [by eapply count_ok_replace|done].
  - by apply count_ok_insert.
Qed.
Lemma AddEmptyDelegation_count h : preserves count_ok (AddEmptyDelegation h).
Proof.
  intros td Htd. unfold AddEmptyDelegation. mrun. destruct (mapping td !! h) eqn:E; [done|].
  by apply count_ok_insert.
Qed.
Lemma RemoveDelegation_count h : preserves count_ok (RemoveDelegation h).
Proof.
  intros td Htd. unfold RemoveDelegation. mrun. destruct (mapping td !! h) eqn:E; [|done].
  by eapply count_ok_delete.
Qed.
Lemma UpdateActivation_count h b : preserves count_ok (UpdateActivation h b).
Proof.
  intros td Htd. unfold UpdateActivation. mrun. destruct (mapping td !! h) as [[d|]|] eqn:E; try done.
  by eapply count_ok_replace.
Qed.

(** The updates that do not store [nil] keep the entries keyed. *)
Lemma keyed_insert m k d :
  keyed m → TxHash (StakingTx d) = k → keyed (<[k := Some d]> m).
Proof. intros Hm Hk. apply map_Forall_insert_2; eauto. Qed.

Lemma AddDelegation_keyed tx i o h b : preserves (λ td, keyed (mapping td)) (AddDelegation tx i o h b).
Proof.
  intros td Htd. unfold AddDelegation. mrun. destruct (mapping td !! TxHash tx) eqn:E; [destruct b|];
    cbn; try done; by apply keyed_insert.
Qed.
Lemma RemoveDelegation_keyed h : preserves (λ td, keyed (mapping td)) (RemoveDelegation h).
Proof.
  intros td Htd. unfold RemoveDelegation. mrun. destruct (mapping td !! h) eqn:E; [|done].
  by apply map_Forall_delete.
Qed.
Lemma UpdateActivation_keyed h b : preserves (λ td, keyed (mapping td)) (UpdateActivation h b).
Proof.
  intros td Htd. unfold UpdateActivation. mrun. destruct (mapping td !! h) as [[d|]|] eqn:E; try done.
  cbn. apply keyed_insert; [done|]. destruct (Htd _ _ E) as (? & [= ->] & <-). done.
Qed.
End invariants.

(** ** What the iterator visits *)
Lemma Clone_id td : Clone td = td.
Proof. by destruct td as [[? ? [] ? ?]|]. Qed.

(** One pass takes new entries, in map order, until the chunk is full or the
    map is exhausted. *)
Lemma collect_spec c order p buf buf' p' :
  NoDup order.*1 → collect c order p buf = (buf', p') →
  ∃ new, buf' = buf ++ new.*2 ∧ p' = list_to_set new.*1 ∪ p ∧ NoDup new.*1 ∧
    (∀ kv, kv ∈ new → kv ∈ order ∧ kv.1 ∉ p) ∧
    (new = [] → ∀ k, k ∈ order.*1 → k ∈ p).
Proof.
  revert p buf. induction order as [|[k v] order IH]; cbn [collect]; intros p buf Hnd He.
  { simplify_eq. exists []. cbn. rewrite app_nil_r. split_and!; [done|set_solver|constructor|
      intros kv Hkv; set_solver|intros _ k Hk; set_solver]. }
  cbn in Hnd. apply NoDup_cons in Hnd as [Hk Hnd].
  destruct (bool_decide (k ∈ p)) eqn:Ek.
  - apply bool_decide_eq_true in Ek. destruct (IH _ _ Hnd He) as (new & -> & -> & Hn & Hin & Hall).
    exists new. split_and!; [done..| |].
    + intros kv Hkv. destruct (Hin kv Hkv). split; [by right|done].
    + intros -> k' Hk'. cbn in Hk'. apply elem_of_cons in Hk' as [->|Hk']; [done|]. by apply Hall.
  - apply bool_decide_eq_false in Ek. rewrite Clone_id in He.
    destruct (c <=? _); simplify_eq.
    { exists [(k, v)]. cbn. split_and!; [done|set_solver|apply NoDup_singleton| |done].
      intros kv ->%list_elem_of_singleton. split; [left|done]. }
    destruct (IH _ _ Hnd He) as (new & -> & -> & Hn & Hin & _). exists ((k, v) :: new). cbn.
    split_and!; [by rewrite <-app_assoc|set_solver| | |done].
    + constructor; [|done]. intros Hk'. apply list_elem_of_fmap in Hk' as ([k' v'] & -> & Hkv).
      destruct (Hin _ Hkv) as [_ Hp]. set_solver.
    + intros kv Hkv. apply elem_of_cons in Hkv as [->|Hkv]; [split; [left|done]|].
      destruct (Hin _ Hkv) as [? Hp]. split; [by right|]. set_solver.
Qed.

Section iter_spec.
Context {BL : BTCLib} {X R : Type}.
Context (see : X → gmap Hash (option TrackedDelegation)) (log : X → list (option TrackedDelegation)).
Context (snapshot : M X (gmap Hash (option TrackedDelegation))).
Context (range : gmap Hash (option TrackedDelegation) → list (Hash * option TrackedDelegation)).
Context (yield : option TrackedDelegation → M X (option R)).
Context (I : X → Prop) (n : nat).

Definition key_of (v : option TrackedDelegation) : option Hash :=
  (λ d, TxHash (StakingTx d)) <$> v.

(** The map is keyed, holds at most [n] entries and only grows while the loop
    runs; the body never leaves early and is given the yielded values. *)
Record iter_env := {
  ie_range : ∀ m, is_range m (range m);
  ie_map : ∀ s, I s → keyed (see s) ∧ (size (see s) ≤ n)%nat;
  ie_snapshot : ∀ s, I s → ∃ s', snapshot s = (Val (see s'), s') ∧ I s' ∧
    dom (see s) ⊆ dom (see s') ∧ log s' = log s;
  ie_yield : ∀ v s, I s → ∃ s', yield v s = (Val None, s') ∧ I s' ∧
    dom (see s) ⊆ dom (see s') ∧ log s' = log s ++ [v];
}.

(** The keys visited so far are the processed ones, each once. *)
Definition visited (processed : gset Hash) (s : X) : Prop :=
  ∃ ks, key_of <$> log s = Some <$> ks ∧ NoDup ks ∧ list_to_set ks = processed ∧
    processed ⊆ dom (see s).

Lemma yield_all (E : iter_env) buffer s :
  I s → ∃ s', for_until buffer yield s = (Val None, s') ∧ I s' ∧ dom (see s) ⊆ dom (see s') ∧
    log s' = log s ++ buffer.
Proof.
  revert s. induction buffer as [|v vs IH]; intros s Hs.
  { exists s. by rewrite app_nil_r. }
  cbn [for_until]. destruct (ie_yield E v s Hs) as (s1 & H1 & I1 & D1 & L1).
  rewrite bind_unfold, H1. cbn. destruct (IH s1 I1) as (s2 & H2 & I2 & D2 & L2).
  exists s2. split_and!; [done|done|set_solver|]. by rewrite L2, L1, <-app_assoc.
Qed.

Lemma visited_chunk m new p s s' :
  keyed m → p ⊆ dom m → visited p s → dom m ⊆ dom (see s') →
  (∀ kv, kv ∈ new → m !! kv.1 = Some kv.2 ∧ kv.1 ∉ p) → NoDup new.*1 →
  log s' = log s ++ new.*2 → visited (list_to_set new.*1 ∪ p) s'.
Proof.
  intros Hm Hp (ks & Hl & Hn & <- & _) Hd Hnew Hnn Hlog. exists (ks ++ new.*1). split_and!.
  - rewrite Hlog, !fmap_app, Hl. f_equal. rewrite <-!list_fmap_compose.
    apply list_fmap_ext. intros i [k v] Hi. cbn.
    destruct (Hnew (k, v)) as [Hk _]; [by eapply list_elem_of_lookup_2|]. cbn in Hk.
    destruct (Hm _ _ Hk) as (d & -> & <-). done.
  - apply NoDup_app. split_and!; [done| |done]. intros k Hk Hk'.
    apply list_elem_of_fmap in Hk' as (kv & -> & Hkv). destruct (Hnew _ Hkv) as [_ Hnp].
    apply Hnp. by apply elem_of_list_to_set.
  - rewrite list_to_set_app_L. set_solver.
  - intros k [Hk|Hk]%elem_of_union; [|set_solver].
    apply Hd. apply elem_of_list_to_set, list_elem_of_fmap in Hk as (kv & -> & Hkv).
    destruct (Hnew _ Hkv) as [Hk _]. by apply elem_of_dom_2 in Hk.
Qed.

Lemma is_range_keys m : is_range m (range m) → NoDup (range m).*1 ∧ ∀ k, k ∈ (range m).*1 ↔ k ∈ dom m.
Proof.
  intros Hr. unfold is_range in Hr. split; [rewrite Hr; apply NoDup_fst_map_to_list|].
  intros k. rewrite Hr, elem_of_dom, list_elem_of_fmap. split.
  - intros ([k' v] & -> & Hkv%elem_of_map_to_list). cbn. eauto.
  - intros [v Hv]. exists (k, v). split; [done|]. by apply elem_of_map_to_list.
Qed.

Lemma iter_loop_visits (E : iter_env) fuel c p s :
  0 < c → I s → visited p s → (n < fuel + size p)%nat →
  ∃ s' p', iter_loop snapshot range yield fuel c p s = (Val None, s') ∧ visited p' s' ∧
    dom (see s) ⊆ p'.
Proof.
  revert p s. induction fuel as [|fuel IH]; intros p s Hc Hs Hv Hf.
  { exfalso. destruct Hv as (_ & _ & _ & _ & Hp%subseteq_size). rewrite size_dom in Hp.
    destruct (ie_map E s Hs). lia. }
  cbn [iter_loop]. destruct (ie_snapshot E s Hs) as (s1 & H1 & I1 & D1 & L1).
  rewrite bind_unfold, H1. destruct (collect c (range (see s1)) p []) as [buf p1] eqn:Ec.
  destruct (is_range_keys _ (ie_range E (see s1))) as [Hnd Hkeys].
  apply collect_spec in Ec as (new & -> & -> & Hnn & Hin & Hall); [|done].
  destruct (ie_map E s1 I1) as [Hk1 Hn1].
  destruct (yield_all E new.*2 s1 I1) as (s2 & H2 & I2 & D2 & L2).
  cbn [app]. rewrite bind_unfold, H2.
  assert (∀ kv, kv ∈ new → see s1 !! kv.1 = Some kv.2 ∧ kv.1 ∉ p) as Hnew.
  { intros [k v] Hkv. destruct (Hin _ Hkv). split; [|done]. by apply (is_range_elem _ _ _ _ (ie_range E (see s1))). }
  pose proof Hv as (ks & Hl & Hnk & Hks & Hp).
  assert (visited (list_to_set new.*1 ∪ p) s2) as Hv2.
  { apply (visited_chunk (see s1) new p s s2); [done|set_solver|done|done|done|done|]. by rewrite L2, L1. }
  assert (list_to_set new.*1 ∪ p ⊆ dom (see s1)) as Hsub.
  { apply union_least; [|set_solver]. intros k Hk.
    apply elem_of_list_to_set, list_elem_of_fmap in Hk as (kv & -> & Hkv).
    destruct (Hnew _ Hkv) as [Hk _]. by apply elem_of_dom_2 in Hk. }
  destruct (Z.leb_spec (Z.of_nat (size (see s1))) (Z.of_nat (size (list_to_set new.*1 ∪ p)))) as [Hle|Hgt].
  - exists s2, (list_to_set new.*1 ∪ p). split_and!; [done|done|].
    etrans; [exact D1|]. rewrite <-(size_dom (see s1)) in Hle.
    assert (list_to_set new.*1 ∪ p = dom (see s1)) as ->; [|done].
    apply set_eq. intros k. split; [apply Hsub|]. intros Hk.
    destruct (decide (k ∈ list_to_set new.*1 ∪ p)) as [|Hno]; [done|].
    assert (size (list_to_set new.*1 ∪ p) < size (dom (see s1)))%nat; [|lia].
    apply subset_size. split; [done|]. intros H. apply Hno, H, Hk.
  - assert (new ≠ []) as Hne.
    { intros ->. cbn in Hgt. rewrite union_empty_l_L in Hgt. rewrite <-size_dom in Hgt.
      assert (size (dom (see s1)) ≤ size p)%nat; [|lia].
      apply subseteq_size. intros k Hk. apply Hall; [done|by apply Hkeys]. }
    destruct (IH (list_to_set new.*1 ∪ p) s2) as (s' & p' & H3 & V3 & D3); [done|done|done| |].
    { assert (size p < size (list_to_set new.*1 ∪ p))%nat; [|lia].
      apply subset_size. split; [set_solver|]. intros H.
      destruct new as [|kv new]; [done|]. destruct (Hnew kv) as [_ Hnp]; [left|]. apply Hnp, H. set_solver. }
    exists s', p'. split_and!; [done|done|set_solver].
Qed.

(** Any positive or defaulted chunk size will do, and a chunk per entry is
    enough fuel. *)
Lemma DelegationsIter_visits (E : iter_env) c s :
  I s → log s = [] →
  ∃ s' ks, DelegationsIter snapshot range yield (S n) c s = (Val None, s') ∧
    key_of <$> log s' = Some <$> ks ∧ NoDup ks ∧ ∀ k, k ∈ dom (see s) → k ∈ ks.
Proof.
  intros Hs Hl. unfold DelegationsIter. cbv zeta.
  destruct (ie_snapshot E s Hs) as (s1 & H1 & I1 & D1 & L1).
  rewrite bind_unfold, H1.
  destruct (iter_loop_visits E (S n) (if c <=? 0 then 100 else c) ∅ s1) as (s' & p & H2 & V & D2).
  - destruct (Z.leb_spec c 0); lia.
  - done.
  - exists []. rewrite L1, Hl. split_and!; [done|constructor|done|set_solver].
  - rewrite size_empty. lia.
  - destruct V as (ks & Hk & Hn & <- & _). exists s', ks. split_and!; [done..|].
    intros k Hkd. apply (elem_of_list_to_set (C := gset Hash)). set_solver.
Qed.
End iter_spec.
