(* ===== verification/StakingTypes.v ===== *)
(** * What the staking tracker's parts share

    Formats of Bitcoin and Babylon used by [btcstaking-tracker], the Bitcoin
    node as its parts call it ([btcclient/interface.go]), and the spend indexer
    ([btcstaking-tracker/indexer/indexer.go]). *)

From S2P Require Import Prelude GoFloat Blocks Retry.
From S2P Require Export Relayer.

(** ** Formats *)
Class StakingLib {BL : BTCLib} := {
  hash_String : Hash → string;
  NewHashFromStr : string → result Hash;
  (** [bbn.NewBTCTxFromHex], [bbn.SerializeBTCTx] *)
  NewBTCTxFromHex : string → result MsgTx;
  SerializeBTCTx : MsgTx → result bytes;
  SchnorrSignature : Type;
  ParseSignature : bytes → result SchnorrSignature;
  InclusionProof : Type;
  NewInclusionProofFromSpvProof : BTCSpvProof → InclusionProof;
  (** [strings.Contains(err.Error(), sub)]: the model keeps errors as trees and
      not their full text *)
  ErrorContains : gerror → string → bool;
}.

(** [btcstakingtypes.BTCDelegationStatus_*.String()] *)
Definition VERIFIED : string := "VERIFIED".
Definition ACTIVE : string := "ACTIVE".
Definition UNBONDED : string := "UNBONDED".
Inductive BTCDelegationStatus := Status_PENDING | Status_VERIFIED | Status_ACTIVE
  | Status_UNBONDED | Status_EXPIRED | Status_ANY.

(** ** The Bitcoin node *)

(** [chainntnfs.TxConfirmation] *)
Record TxConfirmation := mkTxConfirmation {
  tc_BlockHeight : Z;
  tc_TxIndex : Z;
  tc_Block : MsgBlock;
}.

Class StakingBTCClient (W : Type) := {
  sb_GetBestBlock : M W Z;
  sb_GetRawTransaction : Hash → M W MsgTx;
  (** the [BlockHash] field of the verbose answer *)
  sb_GetRawTransactionVerbose_BlockHash : Hash → M W string;
  (** details are [nil] unless the transaction is in the chain *)
  sb_TxDetails : Hash → bytes → M W (option TxConfirmation * TxStatus);
  (** [nil] when the output is spent or unknown *)
  sb_GetTxOut : Hash → Z → bool → M W bool;
  sb_SendRawTransactionWithBurnLimit : MsgTx → bool → float64 → M W Hash;
}.

(** ** The spend indexer *)
Record OutspendResponse := mkOutspend { Spent : bool; os_TxID : string }.

Class SpendChecker (W : Type) := { GetOutspend : string → Z → M W OutspendResponse }.

Module HTTPIndexerClient.
(** One HTTP exchange and the decoding of its body are the transport's. *)
Record HTTPResponse := mkHTTPResponse { StatusCode : Z; Body : string }.
Class HTTP (W : Type) := {
  http_Get : string → M W HTTPResponse;
  (** [json.NewDecoder(limited).Decode(&response)]: the variable's new value,
      which a failed decode may have changed in part, and the error *)
  json_Decode : string → OutspendResponse → OutspendResponse * option gerror;
  outspend_url : string → string → Z → string;
}.
Definition EOF : gerror := ESentinel "io.EOF".
Definition StatusOK : Z := 200.
Definition maxResponseSize : Z := 512 * 1024.

(** [io.LimitReader(resp.Body, maxResponseSize)] *)
Definition LimitReader (body : string) : string :=
  String.substring 0 (Z.to_nat maxResponseSize) body.

Section get_outspend.
Context {RT : Retry} {W : Type} {H : HTTP W}.

(** One attempt; [response] is a variable of the caller. *)
Definition attempt_outspend (url : string) : M (W * OutspendResponse) unit :=
  resp ← zoom fst (λ w s, (w, snd s)) (http_Get url);
  if negb (StatusCode resp =? StatusOK) then fail (ENew "unexpected status code")
  else
    response ← gets snd;
    let '(response, err) := json_Decode (LimitReader (Body resp)) response in
    modify (λ s, (fst s, response)) ;;
    match err with
    | None => mret tt
    | Some e =>
        if bool_decide (e = EOF) then fail (ENew "response exceeded maximum size")
        else fail e
    end.

Definition GetOutspend_impl (baseURL : string) (txID : string) (vout : Z) : M W OutspendResponse :=
  capture (retry_Do (mkRetryOpts DefaultAttempts (λ _, true) true true))
    (mkOutspend false "") (attempt_outspend (outspend_url baseURL txID vout)).

#[export] Instance http_indexer (baseURL : string) : SpendChecker W :=
  {| GetOutspend := GetOutspend_impl baseURL |}.

(** An answer comes from a successful exchange whose body decoded to it. *)
Lemma GetOutspend_sound baseURL txID vout w r w' :
  GetOutspend_impl baseURL txID vout w = (Val r, w') →
  ∃ w1 resp r0, http_Get (outspend_url baseURL txID vout) w1 = (Val resp, w') ∧
    StatusCode resp = StatusOK ∧ json_Decode (LimitReader (Body resp)) r0 = (r, None).
Proof.
  unfold GetOutspend_impl, capture. intros E.
  pose proof (retry_Do_spec (mkRetryOpts DefaultAttempts (λ _, true) true true)
    (attempt_outspend (outspend_url baseURL txID vout)) (w, mkOutspend false "")
    ltac:(done) ltac:(done)) as Hr.
  destruct (retry_Do _ _ _) as [[[]|e|p|] [w1 r1]]; simplify_eq.
  apply (retried_Val_inv (λ _, True)) in Hr as ([w1 r0] & _ & Hf); [|done..].
  unfold attempt_outspend in Hf. rewrite bind_unfold in Hf. unfold zoom in Hf. cbn [fst snd] in Hf.
  destruct (http_Get _ w1) as [[resp|e|p|] w2] eqn:Eg; try done.
  destruct (Z.eqb_spec (StatusCode resp) StatusOK) as [Hs|Hs]; cbn [negb] in Hf; [|done].
  rewrite bind_unfold in Hf. unfold gets in Hf. cbn [fst snd] in Hf.
  destruct (json_Decode _ r0) as [r2 err] eqn:Ej. rewrite bind_unfold in Hf. unfold modify in Hf.
  destruct err as [e|]; [by case_bool_decide|]. unfold mret, M_ret in Hf. cbn in Hf.
  simplify_eq. eauto 10.
Qed.
End get_outspend.
End HTTPIndexerClient.
