(* ===== verification/BabylonAdapter.v ===== *)
(** * The watcher's view of Babylon

    [btcstaking-tracker/stakingeventwatcher/expected_babylon_client.go].
    [BabylonNodeAdapter] is the interface the watcher uses and
    [BabylonClientAdapter] its implementation over Babylon's client and the
    CometBFT RPC. *)

From S2P Require Import Prelude Blocks Retry StakingTypes.

Definition stakingTxHashKey : string := "staking_tx_hash".
Definition ErrHeaderNotKnownToBabylon : string := "btc header not known to babylon".
Definition ErrHeaderOnBabylonLCFork : string := "btc header is on babylon btc light client fork".
Definition ErrBabylonBtcLightClientNotReady : string :=
  "babylon btc light client is not ready to receive delegation".

Record Delegation := mkDelegation {
  d_StakingTx : MsgTx;
  d_StakingOutputIdx : Z;
  d_DelegationStartHeight : Z;
  d_UnbondingOutput : TxOutput;
  d_HasProof : bool;
  d_Status : string;
  d_IsStakeExpansion : bool;
  d_IsUnbonded : bool;
}.
#[global] Instance Delegation_eq_dec : EqDecision Delegation.
Proof. solve_decision. Defined.

Section interface.
Context {BL : BTCLib} {SL : StakingLib}.

(** A cursor is [nil] or the key of the next page. *)
Class BabylonNodeAdapter (W : Type) := {
  DelegationsByStatus : BTCDelegationStatus → option bytes → Z →
    M W (list Delegation * option bytes);
  IsDelegationActive : Hash → M W bool;
  IsDelegationVerified : Hash → M W bool;
  ReportUnbonding : Hash → MsgTx → InclusionProof → list bytes → M W unit;
  BtcClientTipHeight : M W Z;
  ActivateDelegation : Hash → BTCSpvProof → M W unit;
  QueryHeaderDepth : Hash → M W Z;
  (** the [ConfirmationTimeBlocks] of [Params] *)
  Params_ConfirmationTimeBlocks : M W Z;
  CometBFTTipHeight : M W Z;
  DelegationsModifiedInBlock : Z → list string → M W (list string);
  (** a pointer, which may be [nil] *)
  BTCDelegation : string → M W (option Delegation);
}.
End interface.

(** ** The implementation *)
Module BabylonClientAdapter.

(** [abci.Event] *)
Record Event := mkEvent { ev_Type : string; ev_Attributes : list (string * string) }.
Record BlockResults := mkBlockResults {
  TxsResults : list (list Event);       (** the events of each transaction *)
  FinalizeBlockEvents : list Event;
}.

(** [btcstakingtypes.BTCUndelegationResponse], [BTCDelegationResponse]; pointers
    are options, an option of [unit] one that is only compared with [nil]. *)
Record BTCUndelegationResponse := mkUndelegation {
  UnbondingTxHex : string;
  DelegatorUnbondingInfoResponse : option unit;
}.
Record BTCDelegationResponse := mkBTCDelegationResponse {
  StakingTxHex : string;
  br_StakingOutputIdx : Z;
  StartHeight : Z;
  UndelegationResponse : option BTCUndelegationResponse;
  StatusDesc : string;
  Active : bool;
  StkExp : option unit;
}.

Section adapter.
Context {BL : BTCLib} {SL : StakingLib} {RT : Retry} {W : Type}.

Inductive StakingMsg :=
| MsgBTCUndelegate (Signer StakingTxHash : string) (StakeSpendingTx : bytes)
    (proof : InclusionProof) (FundingTransactions : list bytes)
| MsgAddBTCDelegationInclusionProof (Signer StakingTxHash : string) (proof : InclusionProof).

(** [bbnclient.Client] and its [RPCClient].  [ReliablySendMsg] may answer with
    both a response (its code) and an error. *)
Class BBNClient := {
  bbn_BTCDelegations : BTCDelegationStatus → option bytes → Z →
    M W (list BTCDelegationResponse * option bytes);
  bbn_BTCDelegation : string → M W BTCDelegationResponse;
  bbn_MustGetAddr : M W string;
  bbn_ReliablySendMsg : StakingMsg → M W (option Z * option gerror);
  bbn_BTCHeaderChainTip_Height : M W Z;
  bbn_HeaderDepth : string → M W Z;
  bbn_BTCCheckpointParams_BtcConfirmationDepth : M W Z;
  rpc_Status_LatestBlockHeight : M W Z;
  rpc_TxSearch : string → option Z → option Z → M W (list (list Event));
  rpc_BlockResults : Z → M W BlockResults;
}.
Context {BC : BBNClient}.

Definition ErrHeaderDoesNotExist : string := "btclctypes.ErrHeaderDoesNotExist".

(** The fields shared by [DelegationsByStatus] and [BTCDelegation]; the nested
    response is read before it is compared with [nil], and so is the first
    output of the unbonding transaction. *)
Definition parse_delegation (stkExp : bool) (delegation : BTCDelegationResponse) : M W Delegation :=
  stakingTx ← of_result (NewBTCTxFromHex (StakingTxHex delegation));
  match UndelegationResponse delegation with
  | None => panic "nil pointer dereference"
  | Some undel =>
      unbondingTx ← of_result (NewBTCTxFromHex (UnbondingTxHex undel));
      out ← of_outcome (slice_index (TxOut unbondingTx) 0);
      mret (mkDelegation stakingTx (br_StakingOutputIdx delegation) (StartHeight delegation) out
              (0 <? StartHeight delegation) (StatusDesc delegation) stkExp
              (bool_decide (DelegatorUnbondingInfoResponse undel ≠ None)))
  end.

Definition DelegationsByStatus (status : BTCDelegationStatus) (cursor : option bytes) (limit : Z)
  : M W (list Delegation * option bytes) :=
  resp ← wrap_err "failed to retrieve delegations from babylon"
           (bbn_BTCDelegations status cursor limit);
  delegations ← for_fold (fst resp) [] (λ acc delegation,
    d ← parse_delegation false delegation; mret (acc ++ [d]));
  mret (delegations, snd resp).

Definition IsDelegationActive (stakingTxHash : Hash) : M W bool :=
  resp ← wrap_err "failed to retrieve delegation from babyln"
           (bbn_BTCDelegation (hash_String stakingTxHash));
  mret (Active resp).

Definition IsDelegationVerified (stakingTxHash : Hash) : M W bool :=
  resp ← wrap_err "failed to retrieve delegation from babyln"
           (bbn_BTCDelegation (hash_String stakingTxHash));
  mret (bool_decide (StatusDesc resp = VERIFIED)).

(** The two error branches that follow a [ReliablySendMsg]. *)
Definition send_msg (failed failed_with_code : string) (msg : StakingMsg) : M W unit :=
  r ← bbn_ReliablySendMsg msg;
  match r with
  | (Some _, Some err) => fail (EWrap failed_with_code err)
  | (None, Some err) => fail (EWrap failed err)
  | (_, None) => mret tt
  end.

Definition ReportUnbonding (stakingTxHash : Hash) (stakeSpendingTx : MsgTx)
    (inclusionProof : InclusionProof) (fundingTxs : list bytes) : M W unit :=
  signer ← bbn_MustGetAddr;
  stakeSpendingBytes ← of_result (SerializeBTCTx stakeSpendingTx);
  send_msg "failed to report unbonding" "msg MsgBTCUndelegate failed exeuction with code"
    (MsgBTCUndelegate signer (hash_String stakingTxHash) stakeSpendingBytes inclusionProof fundingTxs).

Definition BtcClientTipHeight : M W Z :=
  wrap_err "failed to retrieve btc light client tip from babyln" bbn_BTCHeaderChainTip_Height.

Definition ActivateDelegation (stakingTxHash : Hash) (proof : BTCSpvProof) : M W unit :=
  signer ← bbn_MustGetAddr;
  send_msg "failed to report MsgAddBTCDelegationInclusionProof"
    "msg MsgAddBTCDelegationInclusionProof failed execution with code"
    (MsgAddBTCDelegationInclusionProof signer (hash_String stakingTxHash)
       (NewInclusionProofFromSpvProof proof)).

(** Five attempts whose closure assigns [response] on success only. *)
Definition five_attempts {A} (call : M W A) : M W A :=
  response ← capture (retry_Do (mkRetryOpts 5 (λ _, true) true false)) None
               (assign_ok (r ← call; mret (Some r)));
  match response with
  | Some r => mret r
  | None => panic "nil pointer dereference"
  end.

Definition QueryHeaderDepth (headerHash : Hash) : M W Z :=
  response ← try (five_attempts (bbn_HeaderDepth (hash_String headerHash)));
  match response with
  | Ok depth => mret depth
  | Err err =>
      if ErrorContains err ErrHeaderDoesNotExist
      then fail (EWrap "" (ESentinel ErrHeaderNotKnownToBabylon))
      else fail err
  end.

Definition Params : M W Z := five_attempts bbn_BTCCheckpointParams_BtcConfirmationDepth.

Definition CometBFTTipHeight : M W Z :=
  wrap_err "failed to retrieve cometbft tip height" rpc_Status_LatestBlockHeight.

(** [strings.ReplaceAll(s, <double quote>, <empty>)] *)
Fixpoint remove_quotes (s : string) : string :=
  match s with
  | EmptyString => EmptyString
  | String c s =>
      if bool_decide (Ascii.N_of_ascii c = 34%N) then remove_quotes s
      else String c (remove_quotes s)
  end.

(** The loop over the attributes of one event. *)
Fixpoint append_hashes (attrs : list (string * string)) (stakingTxHashes : list string)
  : list string :=
  match attrs with
  | [] => stakingTxHashes
  | (Key, Value) :: attrs =>
      append_hashes attrs
        (if bool_decide (Key = stakingTxHashKey)
         then stakingTxHashes ++ [remove_quotes Value] else stakingTxHashes)
  end.

Fixpoint scan_events (wanted : string → bool) (events : list Event) (stakingTxHashes : list string)
  : list string :=
  match events with
  | [] => stakingTxHashes
  | event :: events =>
      scan_events wanted events
        (if wanted (ev_Type event) then append_hashes (ev_Attributes event) stakingTxHashes
         else stakingTxHashes)
  end.

Fixpoint scan_txs (wanted : string → bool) (txs : list (list Event)) (stakingTxHashes : list string)
  : list string :=
  match txs with
  | [] => stakingTxHashes
  | events :: txs => scan_txs wanted txs (scan_events wanted events stakingTxHashes)
  end.

Definition StakingTxHashesByEvent (eventType criteria : string) (page count : option Z)
  : M W (list string) :=
  res ← wrap_err "failed to do tx_search" (rpc_TxSearch criteria page count);
  mret (scan_txs (λ t, bool_decide (t = eventType)) res []).

Definition DelegationsModifiedInBlock (height : Z) (eventTypes : list string) : M W (list string) :=
  let events : gset string := list_to_set eventTypes in
  res ← wrap_err "failed to do block_results" (rpc_BlockResults height);
  let wanted t := bool_decide (t ∈ events) in
  mret (scan_events wanted (FinalizeBlockEvents res) (scan_txs wanted (TxsResults res) [])).

Definition BTCDelegation (stakingTxHash : string) : M W (option Delegation) :=
  delegation ← wrap_err "failed to retrieve delegation from babylon"
                 (bbn_BTCDelegation stakingTxHash);
  d ← parse_delegation (bool_decide (StkExp delegation ≠ None)) delegation;
  mret (Some d).

#[global] Instance adapter : BabylonNodeAdapter W := {|
  BabylonAdapter.DelegationsByStatus := DelegationsByStatus;
  BabylonAdapter.IsDelegationActive := IsDelegationActive;
  BabylonAdapter.IsDelegationVerified := IsDelegationVerified;
  BabylonAdapter.ReportUnbonding := ReportUnbonding;
  BabylonAdapter.BtcClientTipHeight := BtcClientTipHeight;
  BabylonAdapter.ActivateDelegation := ActivateDelegation;
  BabylonAdapter.QueryHeaderDepth := QueryHeaderDepth;
  BabylonAdapter.Params_ConfirmationTimeBlocks := Params;
  BabylonAdapter.CometBFTTipHeight := CometBFTTipHeight;
  BabylonAdapter.DelegationsModifiedInBlock := DelegationsModifiedInBlock;
  BabylonAdapter.BTCDelegation := BTCDelegation;
|}.

(** ** What a block's events name *)
Definition event_hashes (event : Event) : list string :=
  omap (λ '(k, v), if bool_decide (k = stakingTxHashKey) then Some (remove_quotes v) else None)
    (ev_Attributes event).

Lemma append_hashes_app attrs acc :
  append_hashes attrs acc =
  acc ++ omap (λ '(k, v), if bool_decide (k = stakingTxHashKey) then Some (remove_quotes v) else None)
           attrs.
Proof.
  revert acc. induction attrs as [|[k v] attrs IH]; intros acc; cbn; [by rewrite app_nil_r|].
  rewrite IH. case_bool_decide; cbn; [by rewrite <-app_assoc|done].
Qed.

Lemma scan_events_app wanted events acc :
  scan_events wanted events acc =
  acc ++ mjoin (event_hashes <$> filter (λ e, wanted (ev_Type e) = true) events).
Proof.
  revert acc. induction events as [|e events IH]; intros acc; [by cbn; rewrite app_nil_r|].
  cbn [scan_events]. rewrite IH. destruct (wanted (ev_Type e)) eqn:E.
  - rewrite filter_cons_True by done. cbn. by rewrite append_hashes_app, app_assoc.
  - by rewrite filter_cons_False by congruence.
Qed.

Lemma scan_txs_app wanted txs acc :
  scan_txs wanted txs acc =
  acc ++ mjoin (event_hashes <$> filter (λ e, wanted (ev_Type e) = true) (mjoin txs)).
Proof.
  revert acc. induction txs as [|es txs IH]; intros acc; [by cbn; rewrite app_nil_r|].
  cbn [scan_txs]. change (mjoin (es :: txs)) with (es ++ mjoin txs). rewrite IH, scan_events_app, filter_app, fmap_app, join_app. by rewrite app_assoc.
Qed.

(** The hashes reported for a block are those of the wanted events of its
    transactions and of its end, in order. *)
Lemma DelegationsModifiedInBlock_exact height eventTypes w res w' :
  rpc_BlockResults height w = (Val res, w') →
  DelegationsModifiedInBlock height eventTypes w =
  (Val (mjoin (event_hashes <$>
     filter (λ e, ev_Type e ∈ eventTypes) (mjoin (TxsResults res) ++ FinalizeBlockEvents res))), w').
Proof.
  intros Hr. unfold DelegationsModifiedInBlock. cbv zeta. rewrite bind_unfold.
  unfold wrap_err. rewrite Hr. cbn [fst snd]. unfold mret, M_ret. do 2 f_equal.
  rewrite scan_events_app, scan_txs_app. cbn [app].
  rewrite <-join_app, <-fmap_app, <-filter_app. do 2 f_equal.
  apply list_filter_iff. intros e. rewrite bool_decide_eq_true. apply elem_of_list_to_set.
Qed.

(** A page never marks a delegation as a stake expansion. *)
Lemma parse_delegation_stkExp b r w d w' :
  parse_delegation b r w = (Val d, w') → d_IsStakeExpansion d = b.
Proof.
  unfold parse_delegation. intros H. inv_bind.
  destruct (UndelegationResponse r); [|done]. inv_bind. done.
Qed.

Lemma DelegationsByStatus_no_expansion status cursor limit w ds cur w' :
  DelegationsByStatus status cursor limit w = (Val (ds, cur), w') →
  Forall (λ d, d_IsStakeExpansion d = false) ds.
Proof.
  unfold DelegationsByStatus. intros H.
  apply bind_Val_inv in H as (resp & w1 & _ & H). apply bind_Val_inv in H as (l & w2 & Hl & H).
  unfold mret, M_ret in H. simplify_eq.
  assert (∀ rs acc w w', for_fold rs acc
    (λ acc delegation, d ← parse_delegation false delegation; mret (acc ++ [d])) w = (Val ds, w') →
    Forall (λ d, d_IsStakeExpansion d = false) acc → Forall (λ d, d_IsStakeExpansion d = false) ds)
    as Hfold; [|by eapply Hfold].
  clear. induction rs as [|r rs IH]; cbn [for_fold]; intros acc w w' H Ha.
  - unfold mret, M_ret in H. by simplify_eq.
  - apply bind_Val_inv in H as (acc' & w1 & H1 & H). apply bind_Val_inv in H1 as (d & w2 & Hd & H1).
    unfold mret, M_ret in H1. simplify_eq. eapply IH; [exact H|]. apply Forall_app. split; [done|].
    constructor; [|done]. by eapply parse_delegation_stkExp.
Qed.
End adapter.
Arguments BBNClient {BL SL} W.
End BabylonClientAdapter.
