(* ===== verification/Watcher.v ===== *)
(** * The staking event watcher
      ([btcstaking-tracker/stakingeventwatcher/stakingeventwatcher.go])

    The state shared by the watcher's goroutines and the body of each goroutine.
    Every atomic operation (a tracker call under its mutex, a metric, an atomic
    variable, a channel operation, a remote call) starts after the other
    goroutines ran ([others], see Interference).  The calls the watcher makes and
    the answers it uses are kept in order in [calls].  A send on an unbuffered
    channel appends to the channel's pending messages; a goroutine spawned with
    [go] is added to [goroutines] and runs as a body of its own. *)

From S2P Require Import Prelude Blocks Retry StakingTypes BabylonAdapter.
From S2P Require Import TrackedDelegations Interference.
From S2P Require Reporter.
Import Reporter (metric_event(..)).

Definition ErrSpendPathNotUnbonding : string := "spending tx is not unbonding path".
Definition maxConcurrentActivations : Z := 1500.
Definition ErrTimeoutAfterWaitingForTxBroadcast : string :=
  Reporter.ErrTimeoutAfterWaitingForTxBroadcast.

(** The five trackers of the watcher. *)
Inductive tracker :=
| unbondingTracker
| pendingTracker
| verifiedNotInChainTracker
| verifiedInsufficientConfTracker
| verifiedSufficientConfTracker.
#[global] Instance tracker_eq_dec : EqDecision tracker.
Proof. solve_decision. Defined.

(** What a goroutine waiting for blocks sees next. *)
Inductive epoch_event := Epoch (height : Z) | EpochsClosed | EpochTimeout | EpochQuit.

(** [notifier.ChainNotifier]; without a timer the wait ends with a block, the
    close of the channel or the shutdown. *)
Class ChainNotifier (W : Type) := {
  RegisterBlockEpochNtfn : M W unit;
  select_epoch : bool → M W epoch_event;
}.

Section state.
Context {BL : BTCLib} {SL : StakingLib}.

Inductive call :=
| CTxDetails (h : Hash) (details : option TxConfirmation) (status : TxStatus)
| CRawTx (h : Hash) (tx : MsgTx)
| CRawTxBlock (h : Hash) (blockHash : string)
| COutspend (txID : string) (vout : Z) (r : OutspendResponse)
| CDelegation (key : string) (d : option Delegation)
| CActive (h : Hash) (b : bool)
| CVerified (h : Hash) (b : bool)
| CDepth (blockHash : Hash) (depth : Z)
| CBlockHashes (height : Z) (hashes : list string)
| CPage (cursor : option bytes) (delegations : list Delegation)
| CActivate (h : Hash) (proof : BTCSpvProof)
| CReport (h : Hash) (tx : MsgTx) (proof : InclusionProof) (fundingTxs : list bytes).

Inductive goroutine :=
| GHandleNewBlocks
| GHandleUnbondedDelegations
| GFetchDelegations
| GHandlerVerifiedDelegations
| GFetchCometBftBlockForever
| GSpend (del : TrackedDelegation) (TxID : string)
| GActivate (stakingTxHash : Hash) (proof : BTCSpvProof) (inclusionBlockHash : Hash)
    (requiredDepth : Z).

Record Watcher := mkWatcher {
  trackers : tracker → TrackedDelegations;
  unbondingDelegationChan : list newDelegation;
  unbondingRemovalChan : list Hash;
  currentBestBlockHeight : Z;
  currentCometTipHeight : Z;
  delegationRetrievalInProgress : bool;
  activationLimiter : Z;                       (** acquired units *)
  babylonConfirmationTimeBlocks : Z;
  quit : bool;
  goroutines : list goroutine;
  wt_metrics : list metric_event;
  calls : list call;
}.

Definition set_tracker (t : tracker) (x : TrackedDelegations) (w : Watcher) : Watcher :=
  mkWatcher (λ t', if bool_decide (t' = t) then x else trackers w t') (unbondingDelegationChan w)
    (unbondingRemovalChan w) (currentBestBlockHeight w) (currentCometTipHeight w)
    (delegationRetrievalInProgress w) (activationLimiter w) (babylonConfirmationTimeBlocks w)
    (quit w) (goroutines w) (wt_metrics w) (calls w).
Definition set_chans (c : list newDelegation) (r : list Hash) (w : Watcher) : Watcher :=
  mkWatcher (trackers w) c r (currentBestBlockHeight w) (currentCometTipHeight w)
    (delegationRetrievalInProgress w) (activationLimiter w) (babylonConfirmationTimeBlocks w)
    (quit w) (goroutines w) (wt_metrics w) (calls w).
Definition set_best (h : Z) (w : Watcher) : Watcher :=
  mkWatcher (trackers w) (unbondingDelegationChan w) (unbondingRemovalChan w) h
    (currentCometTipHeight w) (delegationRetrievalInProgress w) (activationLimiter w)
    (babylonConfirmationTimeBlocks w) (quit w) (goroutines w) (wt_metrics w) (calls w).
Definition set_comet (h : Z) (w : Watcher) : Watcher :=
  mkWatcher (trackers w) (unbondingDelegationChan w) (unbondingRemovalChan w)
    (currentBestBlockHeight w) h (delegationRetrievalInProgress w) (activationLimiter w)
    (babylonConfirmationTimeBlocks w) (quit w) (goroutines w) (wt_metrics w) (calls w).
Definition set_retrieval (b : bool) (w : Watcher) : Watcher :=
  mkWatcher (trackers w) (unbondingDelegationChan w) (unbondingRemovalChan w)
    (currentBestBlockHeight w) (currentCometTipHeight w) b (activationLimiter w)
    (babylonConfirmationTimeBlocks w) (quit w) (goroutines w) (wt_metrics w) (calls w).
Definition set_limiter (n : Z) (w : Watcher) : Watcher :=
  mkWatcher (trackers w) (unbondingDelegationChan w) (unbondingRemovalChan w)
    (currentBestBlockHeight w) (currentCometTipHeight w) (delegationRetrievalInProgress w) n
    (babylonConfirmationTimeBlocks w) (quit w) (goroutines w) (wt_metrics w) (calls w).
Definition set_confirmations (n : Z) (w : Watcher) : Watcher :=
  mkWatcher (trackers w) (unbondingDelegationChan w) (unbondingRemovalChan w)
    (currentBestBlockHeight w) (currentCometTipHeight w) (delegationRetrievalInProgress w)
    (activationLimiter w) n (quit w) (goroutines w) (wt_metrics w) (calls w).
Definition set_quit (w : Watcher) : Watcher :=
  mkWatcher (trackers w) (unbondingDelegationChan w) (unbondingRemovalChan w)
    (currentBestBlockHeight w) (currentCometTipHeight w) (delegationRetrievalInProgress w)
    (activationLimiter w) (babylonConfirmationTimeBlocks w) true (goroutines w) (wt_metrics w)
    (calls w).
Definition add_goroutines (gs : list goroutine) (w : Watcher) : Watcher :=
  mkWatcher (trackers w) (unbondingDelegationChan w) (unbondingRemovalChan w)
    (currentBestBlockHeight w) (currentCometTipHeight w) (delegationRetrievalInProgress w)
    (activationLimiter w) (babylonConfirmationTimeBlocks w) (quit w) (goroutines w ++ gs)
    (wt_metrics w) (calls w).
Definition add_metric (m : metric_event) (w : Watcher) : Watcher :=
  mkWatcher (trackers w) (unbondingDelegationChan w) (unbondingRemovalChan w)
    (currentBestBlockHeight w) (currentCometTipHeight w) (delegationRetrievalInProgress w)
    (activationLimiter w) (babylonConfirmationTimeBlocks w) (quit w) (goroutines w)
    (wt_metrics w ++ [m]) (calls w).
Definition add_call (c : call) (w : Watcher) : Watcher :=
  mkWatcher (trackers w) (unbondingDelegationChan w) (unbondingRemovalChan w)
    (currentBestBlockHeight w) (currentCometTipHeight w) (delegationRetrievalInProgress w)
    (activationLimiter w) (babylonConfirmationTimeBlocks w) (quit w) (goroutines w)
    (wt_metrics w) (calls w ++ [c]).

Definition NewStakingEventWatcher : Watcher :=
  mkWatcher (λ _, NewTrackedDelegations) [] [] 0 0 false 0 0 false [] [] [].
End state.

Section watcher.
Context {BL : BTCLib} {SL : StakingLib} {RT : Retry} {W : Type}.
Context {BA : BabylonNodeAdapter W} {BTC : StakingBTCClient W} {IX : SpendChecker W}
  {CN : ChainNotifier W}.

Notation St := (Watcher * W)%type.
Notation WM A := (M St A).

(** What the other goroutines do before an atomic operation, the choice of a
    [select] between a ready send and the shutdown, the order of map ranges. *)
Context (others : St → St) (choose : St → bool).
Context (range : gmap Hash (option TrackedDelegation) → list (Hash * option TrackedDelegation)).
(** [cfg.NewDelegationsBatchSize] *)
Context (NewDelegationsBatchSize : Z).

(** ** Atomic operations *)
Definition atomic {A} (m : WM A) : WM A := λ s, m (others s).
Definition self {A} (m : M Watcher A) : WM A := zoom fst (λ t s, (t, snd s)) m.
Definition world {A} (m : M W A) : WM A := zoom snd (λ w s, (fst s, w)) m.
Definition load {A} (f : Watcher → A) : WM A := atomic (self (gets f)).
Definition store (f : Watcher → Watcher) : WM unit := atomic (self (modify f)).
Definition emit (m : metric_event) : WM unit := store (add_metric m).

(** A query whose answer is used. *)
Definition ask {A} (m : M W A) (c : A → call) : WM A :=
  atomic (a ← world m; self (modify (add_call (c a))) ;; mret a).
(** A message sent, whatever the answer. *)
Definition tell (c : call) (m : M W unit) : WM unit :=
  atomic (self (modify (add_call c)) ;; world m).

Definition on_tracker {A} (t : tracker) (m : TDM A) : WM A :=
  atomic (self (zoom (λ w, trackers w t) (set_tracker t) m)).

Definition PushOrQuit (push : Watcher → Watcher) : WM unit := λ s,
  let s := others s in
  if quit (fst s) && choose s then (Val tt, s) else (Val tt, (push (fst s), snd s)).

Definition spawn (g : goroutine) : WM unit := store (add_goroutines [g]).

Definition iterate {R} (t : tracker) (fuel : nat) (yield : option TrackedDelegation → WM (option R))
  : WM (option R) :=
  DelegationsIter (load (λ w, mapping (trackers w t))) range yield fuel 1000.

(** ** Retry options *)
Definition retryForever : retry_opts := mkRetryOpts 0 (λ _, true) false true.
Definition attempts5 : retry_opts := mkRetryOpts 5 (λ _, true) false true.
Definition attempts5_last : retry_opts := mkRetryOpts 5 (λ _, true) true true.
Definition attempts20_last : retry_opts := mkRetryOpts 20 (λ _, true) true true.

(** ** Start *)
Definition Start : WM unit :=
  world RegisterBlockEpochNtfn ;;
  ev ← world (select_epoch false);
  match ev with
  | Epoch height =>
      if height <? 0 then panic "received negative block height"
      else
        self (modify (set_best (u32 height))) ;;
        latestHeight ← wrap_err "error getting comet tip height" (world CometBFTTipHeight);
        params ← wrap_err "error getting tx params" (world Params_ConfirmationTimeBlocks);
        self (modify (set_confirmations params)) ;;
        self (modify (set_comet latestHeight)) ;;
        self (modify (set_retrieval true)) ;;
        self (modify (add_goroutines
          [ GHandleNewBlocks; GHandleUnbondedDelegations; GFetchDelegations;
            GHandlerVerifiedDelegations; GFetchCometBftBlockForever ]))
  | EpochsClosed => panic "nil pointer dereference"
  | EpochQuit => fail (ENew "watcher quit before finishing start")
  | EpochTimeout => diverge
  end.

Definition Stop : WM unit := store set_quit.

(** ** Helpers *)
Fixpoint input_idx (stakingTxHash : Hash) (outputIdx : Z) (i : Z) (ins : list TxInput) : option Z :=
  match ins with
  | [] => None
  | txIn :: ins =>
      if bool_decide (op_Hash (PreviousOutPoint txIn) = stakingTxHash ∧
                      op_Index (PreviousOutPoint txIn) = outputIdx)
      then Some i else input_idx stakingTxHash outputIdx (i + 1) ins
  end.
Definition getStakingTxInputIdx (tx : MsgTx) (td : TrackedDelegation) : outcome Z :=
  match input_idx (TxHash (StakingTx td)) (StakingOutputIdx td) 0 (TxIn tx) with
  | Some i => Val i
  | None => Error (ENew "transaction does not point to staking output")
  end.

(** Reads no state. *)
Definition tryParseStakerSignatureFromSpentTx (tx : MsgTx) (td : TrackedDelegation)
  : M unit SchnorrSignature :=
  if negb (len (TxOut tx) =? 1) then fail (ENew "unbonding tx must have exactly one output")
  else
    out ← of_outcome (slice_index (TxOut tx) 0);
    if negb (Value out =? Value (UnbondingOutput td)) ||
       negb (bool_decide (PkScript out = PkScript (UnbondingOutput td)))
    then fail (ENew "unbonding tx must have output which matches unbonding output")
    else
      stakingTxInputIdx ← wrap_err "unbonding tx does not spend staking output"
                            (of_outcome (getStakingTxInputIdx tx td));
      stakingTxInput ← of_outcome (slice_index (TxIn tx) stakingTxInputIdx);
      let witnessLen := len (Witness stakingTxInput) in
      if witnessLen <? 4 then
        fail (EWrap "spending tx has too few witness elements" (ESentinel ErrSpendPathNotUnbonding))
      else
        stakerSignature ← of_outcome (slice_index (Witness stakingTxInput) (witnessLen - 3));
        of_result (ParseSignature stakerSignature).

Definition syncedWithBabylon : WM bool :=
  btcLightClientTipHeight ← atomic (world BtcClientTipHeight);
  emit (MSet "BtcLightClientHeight" btcLightClientTipHeight) ;;
  currentBtcNodeHeight ← load currentBestBlockHeight;
  if currentBtcNodeHeight <? btcLightClientTipHeight then mret false else mret true.

Definition getFundingTxs (tx : MsgTx) : WM (list bytes) :=
  match TxIn tx with
  | [] => fail (ENew "no inputs in tx")
  | _ =>
      fundingTxs ← for_fold (TxIn tx) [] (λ fundingTxs txIn,
        let h := op_Hash (PreviousOutPoint txIn) in
        rawTransaction ← wrap_err "error getting rawTransaction"
                           (ask (sb_GetRawTransaction h) (CRawTx h));
        serializedTx ← wrap_err "error serializing rawTransaction"
                         (of_result (SerializeBTCTx rawTransaction));
        mret (fundingTxs ++ [serializedTx]));
      match fundingTxs with
      | [] => fail (ENew "no funding txs found for tx")
      | _ => mret fundingTxs
      end
  end.

(** [deduplicateStrings] *)
Fixpoint dedup_loop (seen : gset string) (slice deduped : list string) : list string :=
  match slice with
  | [] => deduped
  | s :: slice =>
      if bool_decide (s ∈ seen) then dedup_loop seen slice deduped
      else dedup_loop ({[s]} ∪ seen) slice (deduped ++ [s])
  end.
Definition deduplicateStrings (slice : list string) : list string := dedup_loop ∅ slice [].

(** ** Feeding the trackers *)
Definition addToUnbondingFunc (delegation : Delegation) : WM unit :=
  let del := mkNewDelegation (TxHash (d_StakingTx delegation)) (d_StakingTx delegation)
    (d_StakingOutputIdx delegation) (d_DelegationStartHeight delegation)
    (d_UnbondingOutput delegation) in
  let push := PushOrQuit (λ w, set_chans (unbondingDelegationChan w ++ [del])
                                 (unbondingRemovalChan w) w) in
  r ← on_tracker unbondingTracker (HasDelegationChanged (TxHash (d_StakingTx delegation)) del);
  let '(changed, exists_) := r in
  if exists_ && changed then push
  else if negb exists_ then push
  else mret tt.

Definition addToPendingFunc (delegation : Delegation) : WM unit :=
  let stkTxHash := TxHash (d_StakingTx delegation) in
  if d_IsStakeExpansion delegation then mret tt
  else
    found ← on_tracker pendingTracker (GetDelegation stkTxHash);
    match found with
    | Some _ => mret tt
    | None =>
        if d_HasProof delegation then mret tt
        else
          try (on_tracker pendingTracker
            (AddDelegation (d_StakingTx delegation) (d_StakingOutputIdx delegation)
               (d_UnbondingOutput delegation) (d_DelegationStartHeight delegation) false)) ;;
          emit (MInc "NumberOfVerifiedDelegations")
    end.

(** The [switch] on the status in [checkBabylonDelegations] and in
    [fetchDelegationsByEvents]. *)
Definition track_delegation (delegation : Delegation) : WM unit :=
  if bool_decide (d_Status delegation = ACTIVE) then addToUnbondingFunc delegation
  else if bool_decide (d_Status delegation = VERIFIED) then
    addToPendingFunc delegation ;; addToUnbondingFunc delegation
  else mret tt.

Fixpoint checkBabylonDelegations_loop (fuel : nat) (cursor : option bytes) : WM unit :=
  match fuel with
  | O => diverge
  | S fuel =>
      r ← wrap_err "error fetching delegations"
            (ask (DelegationsByStatus Status_ANY cursor NewDelegationsBatchSize)
               (λ r, CPage cursor (fst r)));
      let '(delegations, nextCursor) := r in
      for_each delegations track_delegation ;;
      match nextCursor with
      | None => mret tt
      | Some _ => checkBabylonDelegations_loop fuel nextCursor
      end
  end.
Definition checkBabylonDelegations (fuel : nat) : WM unit :=
  checkBabylonDelegations_loop fuel None.

Definition fetchDelegations (fuel : nat) : WM unit :=
  store (set_retrieval true) ;;
  try (checkBabylonDelegations fuel) ;;
  store (set_retrieval false).

(** ** Spends of staking outputs *)
Definition buildSpendingTxProof (spendingTx : MsgTx) : WM (option InclusionProof) :=
  match TxOut spendingTx with
  | [] => panic "stake spending tx has no outputs"
  | out :: _ =>
      let txHash := TxHash spendingTx in
      r ← ask (sb_TxDetails txHash (PkScript out)) (λ r, CTxDetails txHash (fst r) (snd r));
      match r with
      | (details, TxInChain) =>
          match details with
          | None => panic "nil pointer dereference"
          | Some details =>
              let btcTxs := GetWrappedTxs (tc_Block details) in
              let ib := NewIndexedBlock (tc_BlockHeight details) (blk_Header (tc_Block details)) btcTxs in
              proof ← of_outcome (GenSPVProof ib (tc_TxIndex details));
              mret (Some (NewInclusionProofFromSpvProof proof))
          end
      | _ => mret None
      end
  end.

(** The closure assigns [proof] at every attempt; the error of the retries is
    dropped and the last value of [proof] returned. *)
Definition assign_proof (spendingTx : MsgTx) : M (St * option InclusionProof) unit := λ '(s, _),
  match buildSpendingTxProof spendingTx s with
  | (Val (Some proof), s') => (Val tt, (s', Some proof))
  | (Val None, s') => (Error (ENew "proof not yet built"), (s', None))
  | (Error e, s') => (Error e, (s', None))
  | (Panic p, s') => (Panic p, (s', None))
  | (Diverge, s') => (Diverge, (s', None))
  end.
Definition waitForStakeSpendInclusionProof (spendingTx : MsgTx) : WM (option InclusionProof) := λ s,
  match retry_Do retryForever (assign_proof spendingTx) (s, None) with
  | (Val _, (s', proof)) | (Error _, (s', proof)) => (Val proof, s')
  | (Panic p, (s', _)) => (Panic p, s')
  | (Diverge, (s', _)) => (Diverge, s')
  end.

Fixpoint check_aborts (abortFns : list (WM bool)) : WM bool :=
  match abortFns with
  | [] => mret false
  | abortFn :: abortFns =>
      abort ← abortFn;
      if (abort : bool) then mret true else check_aborts abortFns
  end.

Definition waitForRequiredDepth (inclusionBlockHash : Hash) (requiredDepth : Z)
    (abortFns : list (WM bool)) : WM unit :=
  retry_Do attempts20_last
    (abort ← check_aborts abortFns;
     if (abort : bool) then mret tt
     else
       r ← try (ask (QueryHeaderDepth inclusionBlockHash) (CDepth inclusionBlockHash));
       match r with
       | Err err =>
           if errors_Is err ErrHeaderNotKnownToBabylon || errors_Is err ErrHeaderOnBabylonLCFork
           then fail (EWrap "btc light client error" (ESentinel ErrBabylonBtcLightClientNotReady))
           else fail (EWrap "error while getting delegation data" err)
       | Ok depth =>
           if depth <? requiredDepth
           then fail (EWrap "btc lc not ready" (ESentinel ErrBabylonBtcLightClientNotReady))
           else mret tt
       end).

(** One attempt of [reportUnbondingToBabylon]. *)
Definition report_attempt (stakingTxHash : Hash) (stakeSpendingTx : MsgTx) (proof : InclusionProof)
  : WM unit :=
  active ← wrap_err "error checking if delegation is active"
             (ask (IsDelegationActive stakingTxHash) (CActive stakingTxHash));
  verified ← wrap_err "error checking if delegation is verified"
               (ask (IsDelegationVerified stakingTxHash) (CVerified stakingTxHash));
  if negb active && negb verified then mret tt
  else
    fundingTxs ← wrap_err "error getting funding txs" (getFundingTxs stakeSpendingTx);
    r ← try (tell (CReport stakingTxHash stakeSpendingTx proof fundingTxs)
               (ReportUnbonding stakingTxHash stakeSpendingTx proof fundingTxs));
    match r with
    | Ok _ => emit (MInc "ReportedUnbondingTransactionsCounter")
    | Err err =>
        (if negb (ErrorContains err "cannot unbond an unbonded BTC delegation") then
           del ← wrap_err "error fetching delegation from babylon"
                   (ask (BTCDelegation (hash_String stakingTxHash))
                      (CDelegation (hash_String stakingTxHash)));
           match del with
           | None => panic "nil pointer dereference"
           | Some del =>
               if bool_decide (d_Status del = UNBONDED) then mret tt
               else emit (MInc "FailedReportedUnbondingTransactions")
           end
         else mret tt) ;;
        (if errors_Is err ErrTimeoutAfterWaitingForTxBroadcast
         then emit (MIncLabels "UnbondingCensorshipGaugeVec" [stakingTxHash])
         else mret tt) ;;
        fail (EWrap "error reporting unbonding tx to babylon" err)
    end.
Definition reportUnbondingToBabylon (stakingTxHash : Hash) (stakeSpendingTx : MsgTx)
    (proof : InclusionProof) : WM unit :=
  try (retry_Do retryForever (report_attempt stakingTxHash stakeSpendingTx proof)) ;; mret tt.

Definition push_removal (h : Hash) : WM unit :=
  PushOrQuit (λ w, set_chans (unbondingDelegationChan w) (unbondingRemovalChan w ++ [h]) w).

(** The abort of the wait for a stake expansion: its delegation got unbonded. *)
Definition abortIfChildUnbonded (spendingTxHash : Hash) : WM bool :=
  r ← try (ask (BTCDelegation (hash_String spendingTxHash))
             (CDelegation (hash_String spendingTxHash)));
  match r with
  | Err _ => mret false
  | Ok None => mret false
  | Ok (Some child) => mret (d_IsUnbonded child)
  end.

(** The branch of [handleSpend] for a stake expansion: [false] returns early. *)
Definition wait_expansion (spendingTxHash : Hash) : WM bool :=
  emit (MInc "DetectedUnbondedStakeExpansionCounter") ;;
  r ← try (capture (retry_Do attempts5_last) None
             (assign_ok (blk ← ask (sb_GetRawTransactionVerbose_BlockHash spendingTxHash)
                                 (CRawTxBlock spendingTxHash);
                         mret (Some blk))));
  match r with
  | Err _ => mret false
  | Ok None => panic "nil pointer dereference"
  | Ok (Some blockHash) =>
      match NewHashFromStr blockHash with
      | Err _ => mret false
      | Ok blkHashInclusion =>
          requiredDepth ← load babylonConfirmationTimeBlocks;
          r ← try (waitForRequiredDepth blkHashInclusion requiredDepth
                     [abortIfChildUnbonded spendingTxHash]);
          match r with
          | Ok _ => mret true
          | Err _ => mret false
          end
      end
  end.

Definition handleSpend (spendingTx : MsgTx) (td : TrackedDelegation) : WM unit :=
  let delegationID := TxHash (StakingTx td) in
  let spendingTxHash := TxHash spendingTx in
  errParseStkSig ← try (of_outcome (fst (tryParseStakerSignatureFromSpentTx spendingTx td tt)));
  stakeExpansion ← try (ask (BTCDelegation (hash_String spendingTxHash))
                          (CDelegation (hash_String spendingTxHash)));
  let isStakeExpansionAndNotUnbonded :=
    match stakeExpansion with
    | Ok (Some d) => d_IsStakeExpansion d && negb (d_IsUnbonded d)
    | _ => false
    end in
  proceed ←
    (if isStakeExpansionAndNotUnbonded then wait_expansion spendingTxHash
     else match errParseStkSig with
          | Err _ => emit (MInc "DetectedNonUnbondingTransactionsCounter") ;; mret true
          | Ok _ => emit (MInc "DetectedUnbondingTransactionsCounter") ;; mret true
          end);
  if negb proceed then mret tt
  else
    let timelock := match errParseStkSig with
                    | Err e => errors_Is e ErrSpendPathNotUnbonding
                    | Ok _ => false
                    end in
    if timelock then push_removal delegationID
    else
      proof ← waitForStakeSpendInclusionProof spendingTx;
      match proof with
      | None => mret tt
      | Some proof =>
          reportUnbondingToBabylon delegationID spendingTx proof ;;
          push_removal delegationID
      end.

(** The goroutine of [checkSpend]; the deferred update runs on every exit. *)
Definition spend_goroutine (del : TrackedDelegation) (TxID : string) : WM unit :=
  (match NewHashFromStr TxID with
   | Err _ => mret tt
   | Ok txHash =>
       r ← try (ask (sb_GetRawTransaction txHash) (CRawTx txHash));
       match r with
       | Err _ => mret tt
       | Ok spendingTx => handleSpend spendingTx del
       end
   end) ;;
  try (on_tracker unbondingTracker (UpdateActivation (TxHash (StakingTx del)) false)) ;; mret tt.

(** The body of the loop of [checkSpend]: [Some err] returns. *)
Definition check_one_spend (del : option TrackedDelegation) : WM (option gerror) :=
  match del with
  | None => panic "nil pointer dereference"
  | Some del =>
      if InProgress del then mret None
      else
        let txid := hash_String (TxHash (StakingTx del)) in
        response ← try (ask (GetOutspend txid (StakingOutputIdx del))
                          (COutspend txid (StakingOutputIdx del)));
        match response with
        | Err _ => mret None
        | Ok response =>
            if negb (Spent response) then mret None
            else
              r ← try (on_tracker unbondingTracker
                         (UpdateActivation (TxHash (StakingTx del)) true));
              match r with
              | Err err => mret (Some err)
              | Ok _ => spawn (GSpend del (os_TxID response)) ;; mret None
              end
        end
  end.
Definition checkSpend (fuel : nat) : WM unit :=
  r ← iterate unbondingTracker fuel check_one_spend;
  match r with
  | Some err => fail err
  | None => mret tt
  end.

(** ** Blocks *)
Fixpoint block_loop (fuel : nat) : WM unit :=
  match fuel with
  | O => diverge
  | S fuel =>
      ev ← atomic (world (select_epoch true));
      match ev with
      | EpochsClosed => fail (ENew "block notifier channel closed")
      | EpochTimeout => fail (ENew "no block received from notifier")
      | EpochQuit => mret tt
      | Epoch height =>
          if height <? 0 then panic "received negative block height"
          else
            store (set_best (u32 height)) ;;
            emit (MSet "BestBlockHeight" height) ;;
            try (checkSpend fuel) ;;
            block_loop fuel
      end
  end.
Definition runBlockNotifier (fuel : nat) : WM unit :=
  wrap_err "failed to register block notifier" (atomic (world RegisterBlockEpochNtfn)) ;;
  block_loop fuel.

Fixpoint handleNewBlocks (fuel : nat) : WM unit :=
  match fuel with
  | O => diverge
  | S fuel =>
      stop ← load quit;
      if (stop : bool) then mret tt
      else try (runBlockNotifier fuel) ;; handleNewBlocks fuel
  end.

(** ** The unbonding tracker's writer *)
Definition handle_new_delegation (activeDel : newDelegation) : WM unit :=
  r ← try (on_tracker unbondingTracker
             (AddDelegation (nd_stakingTx activeDel) (nd_stakingOutputIdx activeDel)
                (nd_unbondingOutput activeDel) (nd_delegationStartHeight activeDel) true));
  match r with
  | Err _ => mret tt
  | Ok _ => emit (MInc "NumberOfTrackedActiveDelegations")
  end.
Definition handle_removal (stakingTxHash : Hash) : WM unit :=
  on_tracker unbondingTracker (RemoveDelegation stakingTxHash) ;;
  emit (MDec "NumberOfTrackedActiveDelegations").

(** A receive takes the message off its channel. *)
Definition receive : WM (newDelegation + Hash + unit) := atomic (λ s,
  let w := fst s in
  match unbondingDelegationChan w, unbondingRemovalChan w with
  | d :: ds, r :: rs =>
      if choose s then (Val (inl (inr r)), (set_chans (d :: ds) rs w, snd s))
      else (Val (inl (inl d)), (set_chans ds (r :: rs) w, snd s))
  | d :: ds, [] => (Val (inl (inl d)), (set_chans ds [] w, snd s))
  | [], r :: rs => (Val (inl (inr r)), (set_chans [] rs w, snd s))
  | [], [] => (Val (inr tt), s)
  end).

(** With no message the goroutine ends on shutdown or waits. *)
Fixpoint handleUnbondedDelegations (fuel : nat) : WM unit :=
  match fuel with
  | O => diverge
  | S fuel =>
      msg ← receive;
      match msg with
      | inl (inl activeDel) => handle_new_delegation activeDel ;; handleUnbondedDelegations fuel
      | inl (inr h) => handle_removal h ;; handleUnbondedDelegations fuel
      | inr _ =>
          stop ← load quit;
          if (stop : bool) then mret tt else handleUnbondedDelegations fuel
      end
  end.

(** ** Activation of verified delegations *)

(** One attempt to activate. *)
Definition activate_attempt (stakingTxHash : Hash) (proof : BTCSpvProof) : WM unit :=
  del ← wrap_err "error checking if delegation is active"
          (ask (BTCDelegation (hash_String stakingTxHash))
             (CDelegation (hash_String stakingTxHash)));
  match del with
  | None => panic "nil pointer dereference"
  | Some del =>
      if negb (bool_decide (d_Status del = VERIFIED)) then
        on_tracker pendingTracker (RemoveDelegation stakingTxHash) ;;
        on_tracker verifiedSufficientConfTracker (RemoveDelegation stakingTxHash) ;;
        emit (MDec "NumberOfVerifiedDelegations")
      else
        r ← try (tell (CActivate stakingTxHash proof) (ActivateDelegation stakingTxHash proof));
        match r with
        | Err err =>
            (if negb (ErrorContains err "already has inclusion proof") then
               verified ← wrap_err "error checking if delegation is active"
                 (ask (IsDelegationVerified stakingTxHash) (CVerified stakingTxHash));
               if (verified : bool) then emit (MInc "FailedReportedActivateDelegations") else mret tt
             else mret tt) ;;
            (if errors_Is err ErrTimeoutAfterWaitingForTxBroadcast
             then emit (MIncLabels "InclusionProofCensorshipGaugeVec" [stakingTxHash])
             else mret tt) ;;
            fail (EWrap "error reporting activate delegation tx to babylon" err)
        | Ok _ =>
            emit (MInc "ReportedActivateDelegationsCounter") ;;
            on_tracker pendingTracker (RemoveDelegation stakingTxHash) ;;
            emit (MDec "NumberOfVerifiedDelegations") ;;
            found ← on_tracker verifiedSufficientConfTracker (GetDelegation stakingTxHash);
            match found with
            | None => mret tt
            | Some _ =>
                on_tracker verifiedSufficientConfTracker (RemoveDelegation stakingTxHash) ;;
                n ← on_tracker verifiedSufficientConfTracker Count;
                emit (MSet "NumberOfVerifiedInsufficientConfDelegations" n)
            end
        end
  end.

(** [AddEmptyDelegation] of one of the metric trackers, setting its gauge when
    the hash is new. *)
Definition count_empty (t : tracker) (gauge : string) (h : Hash) : WM unit :=
  r ← try (on_tracker t (AddEmptyDelegation h));
  match r with
  | Ok _ => n ← on_tracker t Count; emit (MSet gauge n)
  | Err _ => mret tt
  end.

(** Removal from a metric tracker if present, setting its gauge. *)
Definition uncount (t : tracker) (gauge : string) (h : Hash) : WM unit :=
  found ← on_tracker t (GetDelegation h);
  match found with
  | Some _ =>
      on_tracker t (RemoveDelegation h) ;;
      n ← on_tracker t Count; emit (MSet gauge n)
  | None => mret tt
  end.

(** The deferred updates run when the body returns; a panic ends the program. *)
Definition activateBtcDelegation (stakingTxHash : Hash) (proof : BTCSpvProof)
    (inclusionBlockHash : Hash) (requiredDepth : Z) : WM unit :=
  emit (MInc "NumberOfActivationInProgress") ;;
  (r ← try (waitForRequiredDepth inclusionBlockHash requiredDepth []);
   match r with
   | Err _ =>
       count_empty verifiedInsufficientConfTracker
         "NumberOfVerifiedInsufficientConfDelegations" stakingTxHash
   | Ok _ =>
       uncount verifiedInsufficientConfTracker
         "NumberOfVerifiedInsufficientConfDelegations" stakingTxHash ;;
       count_empty verifiedSufficientConfTracker
         "NumberOfVerifiedSufficientConfDelegations" stakingTxHash ;;
       try (retry_Do attempts5 (activate_attempt stakingTxHash proof)) ;; mret tt
   end) ;;
  try (on_tracker pendingTracker (UpdateActivation stakingTxHash false)) ;;
  emit (MDec "NumberOfActivationInProgress").

(** [Acquire(context.Background(), 1)]: waits while all units are taken. *)
Definition Acquire : WM unit := atomic (λ s,
  let n := activationLimiter (fst s) in
  if n + 1 <=? maxConcurrentActivations then (Val tt, (set_limiter (n + 1) (fst s), snd s))
  else (Diverge, s)).
Definition Release : WM unit := atomic (λ s,
  let n := activationLimiter (fst s) in
  if n - 1 <? 0 then (Panic "semaphore: released more than held", s)
  else (Val tt, (set_limiter (n - 1) (fst s), snd s))).

Definition activate_goroutine (txHash : Hash) (proof : BTCSpvProof) (blockHash : Hash) (depth : Z)
  : WM unit :=
  activateBtcDelegation txHash proof blockHash depth ;; Release.

(** The body of the loop of [checkBtcForStakingTx]; it never leaves early. *)
Definition check_one_staking_tx (del : option TrackedDelegation) : WM (option Empty_set) :=
  match del with
  | None => panic "nil pointer dereference"
  | Some del =>
      if InProgress del then mret None
      else
        let txHash := TxHash (StakingTx del) in
        out ← of_outcome (slice_index (TxOut (StakingTx del)) (StakingOutputIdx del));
        r ← try (ask (sb_TxDetails txHash (PkScript out)) (λ r, CTxDetails txHash (fst r) (snd r)));
        match r with
        | Err _ => mret None
        | Ok (details, TxInChain) =>
            uncount verifiedNotInChainTracker "NumberOfVerifiedNotInChainDelegations" txHash ;;
            match details with
            | None => panic "nil pointer dereference"
            | Some details =>
                let btcTxs := GetWrappedTxs (tc_Block details) in
                let ib := NewIndexedBlock (tc_BlockHeight details)
                            (blk_Header (tc_Block details)) btcTxs in
                proof ← try (of_outcome (GenSPVProof ib (tc_TxIndex details)));
                match proof with
                | Err _ => mret None
                | Ok proof =>
                    Acquire ;;
                    r ← try (on_tracker pendingTracker (UpdateActivation txHash true));
                    match r with
                    | Err _ => Release ;; mret None
                    | Ok _ =>
                        requiredDepth ← load babylonConfirmationTimeBlocks;
                        spawn (GActivate txHash proof (HeaderHash (blk_Header (tc_Block details)))
                                 requiredDepth) ;;
                        mret None
                    end
                end
            end
        | Ok (_, _) =>
            count_empty verifiedNotInChainTracker "NumberOfVerifiedNotInChainDelegations" txHash ;;
            mret None
        end
  end.
Definition checkBtcForStakingTx (fuel : nat) : WM unit :=
  iterate pendingTracker fuel check_one_staking_tx ;; mret tt.

(** Each turn is a tick or the shutdown. *)
Fixpoint handlerVerifiedDelegations (fuel : nat) : WM unit :=
  match fuel with
  | O => diverge
  | S fuel =>
      stop ← load quit;
      if (stop : bool) then mret tt
      else checkBtcForStakingTx fuel ;; handlerVerifiedDelegations fuel
  end.

(** ** Babylon blocks *)
Definition fetchDelegationsModifiedByEvents (height : Z) (eventTypes : list string)
  : WM (list string) :=
  capture (retry_Do attempts5_last) []
    (λ '(s, stakingTxHashes),
      match wrap_err "error fetching staking tx hashes by event from babylon"
              (ask (DelegationsModifiedInBlock height eventTypes) (CBlockHashes height)) s with
      | (Val stkTxs, s') => (Val tt, (s', stakingTxHashes ++ stkTxs))
      | (Error e, s') => (Error e, (s', stakingTxHashes))
      | (Panic p, s') => (Panic p, (s', stakingTxHashes))
      | (Diverge, s') => (Diverge, (s', stakingTxHashes))
      end).

Definition delegation_events : list string :=
  [ "babylon.btcstaking.v1.EventCovenantQuorumReached";
    "babylon.btcstaking.v1.EventBTCDelegationInclusionProofReceived";
    "babylon.btcstaking.v1.EventBTCDelegationStateUpdate" ].

(** [for i := startHeight; i <= endHeight; i++], [n] iterations. *)
Fixpoint fetch_heights (i : Z) (n : nat) (stakingTxHashes : list string) : WM (list string) :=
  match n with
  | O => mret stakingTxHashes
  | S n =>
      hashes ← wrap_err "error fetching modified delegations by events"
                 (fetchDelegationsModifiedByEvents i delegation_events);
      fetch_heights (i + 1) n (stakingTxHashes ++ hashes)
  end.

Definition fetch_delegation (stakingTxHash : string) : WM unit :=
  delegation ← wrap_err "error getting delegation"
                 (ask (BTCDelegation stakingTxHash) (CDelegation stakingTxHash));
  match delegation with
  | None => panic "nil pointer dereference"
  | Some delegation => track_delegation delegation
  end.

Definition fetchDelegationsByEvents (startHeight endHeight : Z) : WM unit :=
  stakingTxHashes ← fetch_heights startHeight (Z.to_nat (endHeight - startHeight + 1)) [];
  for_each (deduplicateStrings stakingTxHashes) fetch_delegation.

Definition fetchCometBftBlockOnce : WM unit :=
  latestHeight ← wrap_err "error querying comet bft for new blocks" (atomic (world CometBFTTipHeight));
  currentHeight ← load currentCometTipHeight;
  if latestHeight <? currentHeight then fail (ENew "non-monotonic block height detected")
  else if latestHeight =? currentHeight then mret tt
  else
    wrap_err "error fetching delegations by events"
      (fetchDelegationsByEvents currentHeight latestHeight) ;;
    store (set_comet (i64 (latestHeight + 1))).

(** One tick. *)
Definition comet_tick : WM unit :=
  busy ← load delegationRetrievalInProgress;
  if (busy : bool) then mret tt
  else
    nodeSynced ← try syncedWithBabylon;
    match nodeSynced with
    | Ok true => try fetchCometBftBlockOnce ;; mret tt
    | _ => mret tt
    end.
Fixpoint fetchCometBftBlockForever (fuel : nat) : WM unit :=
  match fuel with
  | O => diverge
  | S fuel =>
      stop ← load quit;
      if (stop : bool) then mret tt else comet_tick ;; fetchCometBftBlockForever fuel
  end.

(** The body of each goroutine; [fuel] bounds the turns of its loops. *)
Definition run_goroutine (fuel : nat) (g : goroutine) : WM unit :=
  match g with
  | GHandleNewBlocks => handleNewBlocks fuel
  | GHandleUnbondedDelegations => handleUnbondedDelegations fuel
  | GFetchDelegations => fetchDelegations fuel
  | GHandlerVerifiedDelegations => handlerVerifiedDelegations fuel
  | GFetchCometBftBlockForever => fetchCometBftBlockForever fuel
  | GSpend del TxID => spend_goroutine del TxID
  | GActivate h proof b d => activate_goroutine h proof b d
  end.
End watcher.
