(* ===== verification/WatcherProps.v ===== *)
(** * What the watcher's goroutines may do to the shared state

    [step] lists the atomic effects of the goroutines.  Its rules carry the
    conditions the code establishes before it spawns a goroutine, sends an
    inclusion proof or an unbonding to Babylon, or moves the height up to which
    Babylon's blocks were read.  Every goroutine body makes only such steps,
    provided the others do; what the steps keep, the watcher keeps. *)

From S2P Require Import Prelude Blocks Retry StakingTypes BabylonAdapter.
From S2P Require Import TrackedDelegations Interference Watcher.

Section props.
Context {BL : BTCLib} {SL : StakingLib}.
Implicit Types (cs : list call).

(** ** The evidence in the calls made *)

(** Bitcoin answered that [h] is in a block with hash [blk], of which [p] is the
    proof. *)
Definition in_chain_proof cs (h : Hash) (p : BTCSpvProof) (blk : Hash) : Prop :=
  ∃ details, CTxDetails h (Some details) TxInChain ∈ cs ∧
    GenSPVProof (NewIndexedBlock (tc_BlockHeight details) (blk_Header (tc_Block details))
      (GetWrappedTxs (tc_Block details))) (tc_TxIndex details) = Val p ∧
    HeaderHash (blk_Header (tc_Block details)) = blk.

(** The staking transaction is in a block that is deep enough, and Babylon
    answered that the delegation is verified. *)
Definition activate_ok conf cs (h : Hash) (p : BTCSpvProof) : Prop :=
  ∃ blk depth del, in_chain_proof cs h p blk ∧ CDepth blk depth ∈ cs ∧ conf ≤ depth ∧
    CDelegation (hash_String h) (Some del) ∈ cs ∧ d_Status del = VERIFIED.

(** The indexer answered that the staking output is spent by [TxID]. *)
Definition spent_by cs (td : TrackedDelegation) (TxID : string) : Prop :=
  ∃ r, COutspend (hash_String (TxHash (StakingTx td))) (StakingOutputIdx td) r ∈ cs ∧
    Spent r = true ∧ os_TxID r = TxID.

Definition timelock_spend (tx : MsgTx) (td : TrackedDelegation) : Prop :=
  ∃ e, fst (tryParseStakerSignatureFromSpentTx tx td tt) = Error e ∧
    errors_Is e ErrSpendPathNotUnbonding = true.

(** The funding transactions are the serialised answers for every input. *)
Definition funding_of cs (tx : MsgTx) (funding : list (list Z)) : Prop :=
  Forall2 (λ i b, ∃ t, CRawTx (op_Hash (PreviousOutPoint i)) t ∈ cs ∧ SerializeBTCTx t = Ok b)
    (TxIn tx) funding.

Definition report_ok cs (h : Hash) (tx : MsgTx) (proof : InclusionProof) (funding : list (list Z))
  : Prop :=
  ∃ td TxID txHash, TxHash (StakingTx td) = h ∧ spent_by cs td TxID ∧
    NewHashFromStr TxID = Ok txHash ∧ CRawTx txHash tx ∈ cs ∧ ¬ timelock_spend tx td ∧
    (∃ p blk, in_chain_proof cs (TxHash tx) p blk ∧ proof = NewInclusionProofFromSpvProof p) ∧
    (CActive h true ∈ cs ∨ CVerified h true ∈ cs) ∧ funding_of cs tx funding ∧ funding ≠ [].

(** Babylon's blocks from [a] up to but excluding [b] were read and every
    delegation they name was fetched. *)
Definition scanned cs (a b : Z) : Prop :=
  ∀ i, a ≤ i < b → ∃ hs, CBlockHashes i hs ∈ cs ∧
    ∀ k, k ∈ hs → ∃ d, CDelegation k (Some d) ∈ cs.

Definition goroutine_ok conf cs (g : goroutine) : Prop :=
  match g with
  | GSpend td TxID => spent_by cs td TxID
  | GActivate h p blk d => in_chain_proof cs h p blk ∧ d = conf
  | _ => True
  end.

Definition is_query (c : call) : Prop :=
  match c with CActivate _ _ | CReport _ _ _ _ => False | _ => True end.

(** More calls keep the evidence. *)
Lemma in_chain_proof_mono cs cs' h p blk :
  cs ⊆ cs' → in_chain_proof cs h p blk → in_chain_proof cs' h p blk.
Proof. intros Hs (d & H1 & H2). exists d. auto. Qed.
Lemma spent_by_mono cs cs' td i : cs ⊆ cs' → spent_by cs td i → spent_by cs' td i.
Proof. intros Hs (r & H1 & H2). exists r. auto. Qed.
Lemma scanned_mono cs cs' a b : cs ⊆ cs' → scanned cs a b → scanned cs' a b.
Proof.
  intros Hs H i Hi. destruct (H i Hi) as (hs & H1 & H2). exists hs. split; [auto|].
  intros k Hk. destruct (H2 k Hk) as [d Hd]. eauto.
Qed.
Lemma funding_of_mono cs cs' tx f : cs ⊆ cs' → funding_of cs tx f → funding_of cs' tx f.
Proof. intros Hs H. eapply Forall2_impl; [exact H|]. intros i b (t & H1 & H2). eauto. Qed.
Lemma activate_ok_mono conf cs cs' h p : cs ⊆ cs' → activate_ok conf cs h p → activate_ok conf cs' h p.
Proof.
  intros Hs (blk & d & del & H1 & H2 & H3 & H4 & H5). exists blk, d, del.
  split_and!; eauto using in_chain_proof_mono.
Qed.
Lemma report_ok_mono cs cs' h tx p f : cs ⊆ cs' → report_ok cs h tx p f → report_ok cs' h tx p f.
Proof.
  intros Hs (td & i & x & H1 & H2 & H3 & H4 & H5 & (p' & blk & H6 & H7) & H8 & H9 & H10).
  exists td, i, x. split_and!; eauto using spent_by_mono, funding_of_mono.
  - exists p', blk. eauto using in_chain_proof_mono.
  - destruct H8; eauto.
Qed.
Lemma goroutine_ok_mono conf cs cs' g : cs ⊆ cs' → goroutine_ok conf cs g → goroutine_ok conf cs' g.
Proof.
  intros Hs. destruct g; cbn; [done..|by apply spent_by_mono|].
  intros [H ->]. eauto using in_chain_proof_mono.
Qed.

(** ** The steps *)

(** The metric trackers hold [nil] entries, the others delegations. *)
Definition metric_tracker (t : tracker) : bool :=
  match t with unbondingTracker | pendingTracker => false | _ => true end.

Inductive tracker_op (t : tracker) (td : TrackedDelegations) : TrackedDelegations → Prop :=
| op_read : tracker_op t td td
| op_add tx i o h b : metric_tracker t = false → (b = true → t = unbondingTracker) →
    tracker_op t td (snd (AddDelegation tx i o h b td))
| op_update h b : metric_tracker t = false → tracker_op t td (snd (UpdateActivation h b td))
| op_empty h : metric_tracker t = true → tracker_op t td (snd (AddEmptyDelegation h td))
| op_remove h : tracker_op t td (snd (RemoveDelegation h td)).

Context {W : Type} (start : Z).
Notation St := (Watcher * W)%type.

Inductive step : St → St → Prop :=
| st_world x w w' : step (x, w) (x, w')
| st_metric m x w : step (x, w) (add_metric m x, w)
| st_best h x w : step (x, w) (set_best h x, w)
| st_retrieval b x w : step (x, w) (set_retrieval b x, w)
| st_quit x w : step (x, w) (set_quit x, w)
| st_chans c r x w : step (x, w) (set_chans c r x, w)
| st_limiter n x w : 0 ≤ n ≤ maxConcurrentActivations → step (x, w) (set_limiter n x, w)
| st_tracker t td' x w : tracker_op t (trackers x t) td' → step (x, w) (set_tracker t td' x, w)
| st_spawn g x w : goroutine_ok (babylonConfirmationTimeBlocks x) (calls x) g →
    step (x, w) (add_goroutines [g] x, w)
| st_query c x w : is_query c → step (x, w) (add_call c x, w)
| st_activate h p x w : activate_ok (babylonConfirmationTimeBlocks x) (calls x) h p →
    step (x, w) (add_call (CActivate h p) x, w)
| st_report h tx p f x w : report_ok (calls x) h tx p f →
    step (x, w) (add_call (CReport h tx p f) x, w)
| st_comet h x w : scanned (calls x) start h → step (x, w) (set_comet h x, w).

Lemma step_calls s s' :
  step s s' → calls s.1 ⊆ calls s'.1 ∧
    babylonConfirmationTimeBlocks s'.1 = babylonConfirmationTimeBlocks s.1.
Proof. destruct 1; cbn; split; try done; set_solver. Qed.

Lemma reach_calls s s' :
  rtc step s s' → calls s.1 ⊆ calls s'.1 ∧
    babylonConfirmationTimeBlocks s'.1 = babylonConfirmationTimeBlocks s.1.
Proof.
  induction 1 as [|s s1 s' H _ [IH1 IH2]]; [done|]. apply step_calls in H as [H1 H2].
  split; [set_solver|congruence].
Qed.

(** ** What the steps keep *)

(** Every message sent to Babylon was justified by the calls before it. *)
Definition justified (conf : Z) cs : Prop :=
  (∀ pre h p post, cs = pre ++ CActivate h p :: post → activate_ok conf pre h p) ∧
  (∀ pre h tx p f post, cs = pre ++ CReport h tx p f :: post → report_ok pre h tx p f).

Record watcher_ok (s : St) : Prop := {
  wo_justified : justified (babylonConfirmationTimeBlocks s.1) (calls s.1);
  wo_goroutines : Forall (goroutine_ok (babylonConfirmationTimeBlocks s.1) (calls s.1))
                    (goroutines s.1);
  wo_comet : scanned (calls s.1) start (currentCometTipHeight s.1);
  wo_limiter : 0 ≤ activationLimiter s.1 ≤ maxConcurrentActivations;
  wo_count : ∀ t, count_ok (trackers s.1 t);
  wo_keyed : ∀ t, metric_tracker t = false → keyed (mapping (trackers s.1 t));
  wo_empty : ∀ t, metric_tracker t = true →
    map_Forall (λ _ v, v = None) (mapping (trackers s.1 t));
}.

Lemma justified_snoc conf cs c :
  justified conf cs →
  (∀ h p, c = CActivate h p → activate_ok conf cs h p) →
  (∀ h tx p f, c = CReport h tx p f → report_ok cs h tx p f) → justified conf (cs ++ [c]).
Proof.
  intros [H1 H2] Ha Hr.
  assert (∀ x pre post, cs ++ [c] = pre ++ x :: post →
    (post = [] ∧ cs = pre ∧ c = x) ∨ ∃ post', cs = pre ++ x :: post') as Hsplit.
  { intros x pre post E. destruct post as [|y post' _] using rev_ind.
    - apply app_inj_tail in E as [-> ->]. by left.
    - right. rewrite app_comm_cons, app_assoc in E. apply app_inj_tail in E as [-> _]. by eexists. }
  split.
  - intros pre h p post E. destruct (Hsplit _ _ _ E) as [(_ & <- & ->)|[post' E']]; eauto.
  - intros pre h tx p f post E. destruct (Hsplit _ _ _ E) as [(_ & <- & ->)|[post' E']]; eauto.
Qed.

Lemma tracker_op_count t td td' : tracker_op t td td' → count_ok td → count_ok td'.
Proof.
  destruct 1; intros Hc; [done| | | |].
  - by apply AddDelegation_count.
  - by apply UpdateActivation_count.
  - by apply AddEmptyDelegation_count.
  - by apply RemoveDelegation_count.
Qed.

Lemma tracker_op_keyed t td td' :
  metric_tracker t = false → tracker_op t td td' → keyed (mapping td) → keyed (mapping td').
Proof.
  intros Ht. destruct 1; intros Hk; try congruence.
  - done.
  - by apply (AddDelegation_keyed _ _ _ _ _ td).
  - by apply (UpdateActivation_keyed _ _ td).
  - by apply (RemoveDelegation_keyed _ td).
Qed.

Lemma tracker_op_empty t td td' :
  metric_tracker t = true → tracker_op t td td' →
  map_Forall (λ _ v, v = None) (mapping td) → map_Forall (λ _ v, v = None) (mapping td').
Proof.
  intros Ht. destruct 1 as [| | |h|h]; intros Hk; try congruence.
  - done.
  - unfold AddEmptyDelegation. mrun. destruct (mapping td !! h); [done|].
    cbn. by apply map_Forall_insert_2.
  - unfold RemoveDelegation. mrun. destruct (mapping td !! h); [|done]. by apply map_Forall_delete.
Qed.

Lemma set_tracker_lookup t td x t' :
  trackers (set_tracker t td x) t' = if bool_decide (t' = t) then td else trackers x t'.
Proof. reflexivity. Qed.

Lemma watcher_ok_tracker t td' x w :
  tracker_op t (trackers x t) td' → watcher_ok (x, w) → watcher_ok (set_tracker t td' x, w).
Proof.
  intros Hop []. split; try done.
  - intros t'. cbn [fst]. rewrite set_tracker_lookup. case_bool_decide; subst; [|done].
    by eapply tracker_op_count.
  - intros t' Ht'. cbn [fst]. rewrite set_tracker_lookup. case_bool_decide; subst; [|by auto].
    eapply tracker_op_keyed; [done|done|by auto].
  - intros t' Ht'. cbn [fst]. rewrite set_tracker_lookup. case_bool_decide; subst; [|by auto].
    eapply tracker_op_empty; [done|done|by auto].
Qed.

Lemma watcher_ok_call c x w :
  (∀ h p, c = CActivate h p → activate_ok (babylonConfirmationTimeBlocks x) (calls x) h p) →
  (∀ h tx p f, c = CReport h tx p f → report_ok (calls x) h tx p f) →
  watcher_ok (x, w) → watcher_ok (add_call c x, w).
Proof.
  intros Ha Hr []. assert (calls x ⊆ calls x ++ [c]) by set_solver.
  split; try done; cbn in *.
  - by apply justified_snoc.
  - eapply Forall_impl; [done|]. intros g. by apply goroutine_ok_mono.
  - by eapply scanned_mono.
Qed.

Lemma step_ok s s' : step s s' → watcher_ok s → watcher_ok s'.
Proof.
  destruct 1; intros Hok; try (destruct Hok; split; done).
  - by apply watcher_ok_tracker.
  - destruct Hok. split; try done. cbn. apply Forall_app. split; [done|]. by constructor.
  - apply watcher_ok_call; [by intros ? ? ->|by intros ? ? ? ? ->|done].
  - apply watcher_ok_call; [intros ? ? E; by simplify_eq|done|done].
  - apply watcher_ok_call; [done|intros ? ? ? ? E; by simplify_eq|done].
Qed.

Lemma reach_ok s s' : rtc step s s' → watcher_ok s → watcher_ok s'.
Proof. apply rtc_inv, step_ok. Qed.

(** The state after [Start] is well formed. *)
Lemma fresh_ok x w :
  calls x = [] → start = currentCometTipHeight x → activationLimiter x = 0 →
  trackers x = (λ _, NewTrackedDelegations) →
  Forall (λ g, goroutine_ok (babylonConfirmationTimeBlocks x) [] g) (goroutines x) →
  watcher_ok (x, w).
Proof.
  intros Hc Hs Hl Ht Hg. split; cbn.
  - rewrite Hc. by split; intros [].
  - by rewrite Hc.
  - intros i Hi. lia.
  - rewrite Hl. unfold maxConcurrentActivations. lia.
  - intros t. by rewrite Ht.
  - intros t _. rewrite Ht. apply map_Forall_empty.
  - intros t _. rewrite Ht. apply map_Forall_empty.
Qed.
End props.

(** Deduplication keeps the elements. *)
Lemma dedup_loop_elem seen xs acc k :
  k ∈ dedup_loop seen xs acc ↔ k ∈ acc ∨ (k ∈ xs ∧ k ∉ seen).
Proof.
  revert seen acc. induction xs as [|x xs IH]; cbn [dedup_loop]; intros seen acc; [set_solver|].
  case_bool_decide; rewrite IH; [set_solver|]. destruct (decide (k = x)); set_solver.
Qed.

Lemma deduplicateStrings_elem xs k : k ∈ deduplicateStrings xs ↔ k ∈ xs.
Proof. unfold deduplicateStrings. rewrite dedup_loop_elem. set_solver. Qed.
