(* ===== verification/WatcherGuarantee.v ===== *)
(** * Every goroutine of the watcher makes only the steps of [WatcherProps]

    The bodies of [Watcher] are executed with the rules of [Interference],
    assuming of the other goroutines that they make such steps too. *)

From S2P Require Import Prelude Blocks Retry StakingTypes BabylonAdapter.
From S2P Require Import TrackedDelegations Interference Watcher WatcherProps.

Section guarantee.
Context {BL : BTCLib} {SL : StakingLib} {RT : Retry} {W : Type}.
Context {BA : BabylonNodeAdapter W} {BTC : StakingBTCClient W} {IX : SpendChecker W}
  {CN : ChainNotifier W}.
Notation St := (Watcher * W)%type.
Context (others : St → St) (choose : St → bool).
Context (range : gmap Hash (option TrackedDelegation) → list (Hash * option TrackedDelegation)).
Context (NewDelegationsBatchSize : Z) (start : Z).
Hypothesis others_steps : ∀ s, rtc (step start) s (others s).

Notation reach := (rtc (step start)).
Notation wps := (wp (step start)).
Notation guars := (guar (step start)).

(** ** Atomic operations *)
Lemma wp_atomic {A} s (m : M St A) Q :
  (∀ s1, reach s s1 → wps s1 m Q) → wps s (atomic others m) Q.
Proof.
  intros H. destruct (H (others s) (others_steps s)) as [H1 H2].
  split; [etrans; [apply others_steps|exact H1]|exact H2].
Qed.

Lemma wp_self_modify s (f : Watcher → Watcher) (Q : unit → St → Prop) :
  step start s (f s.1, s.2) → Q tt (f s.1, s.2) → wps s (self (modify f)) Q.
Proof. intros Hs HQ. split; [by apply rtc_once|done]. Qed.

Lemma wp_world {A} s (m : M W A) (Q : A → St → Prop) :
  (∀ a w', m s.2 = (Val a, w') → reach s (s.1, w') → Q a (s.1, w')) → wps s (world m) Q.
Proof.
  intros HQ. unfold wp, world, zoom. destruct s as [x w]. cbn in *.
  assert (∀ w', reach (x, w) (x, w')) as Hw by (intros w'; apply rtc_once; constructor).
  destruct (m w) as [[a|e|p|] w'] eqn:E; cbn; auto.
Qed.

Lemma wp_load {A} s (f : Watcher → A) Q :
  (∀ s1, reach s s1 → Q (f s1.1) s1) → wps s (load others f) Q.
Proof.
  intros HQ. apply wp_atomic. intros [x w] H1. split; [apply rtc_refl|]. by apply (HQ (x, w)).
Qed.

Lemma wp_store s (f : Watcher → Watcher) (Q : unit → St → Prop) :
  (∀ s1, reach s s1 → step start s1 (f s1.1, s1.2)) →
  (∀ s1, reach s s1 → Q tt s1) → wps s (store others f) Q.
Proof.
  intros Hf HQ. apply wp_atomic. intros s1 H1. apply wp_self_modify; [by apply Hf|].
  apply HQ. etrans; [exact H1|]. by apply rtc_once, Hf.
Qed.

Lemma wp_emit s m (Q : unit → St → Prop) : (∀ s1, reach s s1 → Q tt s1) → wps s (emit others m) Q.
Proof. intros HQ. apply wp_store; [|done]. intros [x w] _. apply st_metric. Qed.

Lemma wp_ask {A} s (m : M W A) (c : A → call) (Q : A → St → Prop) :
  (∀ a, is_query (c a)) →
  (∀ a s1, reach s s1 → c a ∈ calls s1.1 → Q a s1) → wps s (ask others m c) Q.
Proof.
  intros Hc HQ. apply wp_atomic. intros s1 H1. apply wp_bind, wp_world. intros a w' _ Hr H2.
  apply wp_bind, wp_self_modify; [apply st_query, Hc|]. intros H3. apply wp_ret, HQ.
  - etrans; [exact H1|]. by etrans.
  - cbn. set_solver.
Qed.

Lemma wp_tell s c (m : M W unit) (Q : unit → St → Prop) :
  (∀ s1, reach s s1 → step start s1 (add_call c s1.1, s1.2)) →
  (∀ s1, reach s s1 → Q tt s1) → wps s (tell others c m) Q.
Proof.
  intros Hc HQ. apply wp_atomic. intros s1 H1. apply wp_bind, wp_self_modify; [by apply Hc|].
  intros H2. apply wp_world. intros [] w' _ H3. apply HQ. etrans; [exact H1|]. by etrans.
Qed.

Lemma wp_on_tracker {A} s t (m : TDM A) (Q : A → St → Prop) :
  (∀ td, tracker_op t td (snd (m td))) →
  (∀ a s1, reach s s1 → Q a s1) → wps s (on_tracker others t m) Q.
Proof.
  intros Hop HQ. apply wp_atomic. intros [x w] H1.
  assert (reach (x, w) (set_tracker t (snd (m (trackers x t))) x, w)) as H2
    by apply rtc_once, st_tracker, Hop.
  unfold wp, self, zoom. cbn.
  destruct (m (trackers x t)) as [[a|e|p|] td']; cbn in *; [|done..].
  split; [done|]. apply HQ. by etrans.
Qed.

Lemma wp_PushOrQuit s c r (Q : unit → St → Prop) :
  (∀ s1, reach s s1 → Q tt s1) →
  wps s (PushOrQuit others choose (λ w, set_chans (c w) (r w) w)) Q.
Proof.
  intros HQ. unfold wp, PushOrQuit. cbv zeta. pose proof (others_steps s) as H.
  destruct (others s) as [x w]. destruct (_ && _); cbn; [auto|].
  assert (reach s (set_chans (c x) (r x) x, w)); [|auto].
  etrans; [exact H|]. apply rtc_once. constructor.
Qed.

Lemma wp_spawn s g (Q : unit → St → Prop) :
  goroutine_ok (babylonConfirmationTimeBlocks s.1) (calls s.1) g →
  (∀ s1, reach s s1 → Q tt s1) → wps s (spawn others g) Q.
Proof.
  intros Hg HQ. apply wp_store; [|done]. intros [x w] [Hc Hk]%reach_calls. apply st_spawn.
  cbn in *. rewrite Hk. by eapply goroutine_ok_mono.
Qed.

Lemma wp_get_tracker s t h (Q : _ → St → Prop) :
  (∀ a s1, reach s s1 → Q a s1) → wps s (on_tracker others t (GetDelegation h)) Q.
Proof. apply wp_on_tracker. intros td. apply op_read. Qed.

Lemma wp_count_tracker s t (Q : _ → St → Prop) :
  (∀ a s1, reach s s1 → Q a s1) → wps s (on_tracker others t Count) Q.
Proof. apply wp_on_tracker. intros td. apply op_read. Qed.

Lemma wp_remove_tracker s t h (Q : _ → St → Prop) :
  (∀ a s1, reach s s1 → Q a s1) → wps s (on_tracker others t (RemoveDelegation h)) Q.
Proof. apply wp_on_tracker. intros td. apply op_remove. Qed.

Lemma wp_empty_tracker s t h (Q : _ → St → Prop) :
  metric_tracker t = true → (∀ a s1, reach s s1 → Q a s1) →
  wps s (on_tracker others t (AddEmptyDelegation h)) Q.
Proof. intros Ht. apply wp_on_tracker. intros td. by apply op_empty. Qed.

Lemma wp_update_tracker s t h b (Q : _ → St → Prop) :
  metric_tracker t = false → (∀ a s1, reach s s1 → Q a s1) →
  wps s (on_tracker others t (UpdateActivation h b)) Q.
Proof. intros Ht. apply wp_on_tracker. intros td. by apply op_update. Qed.

Lemma wp_add_tracker s t tx i o h b (Q : _ → St → Prop) :
  metric_tracker t = false → (b = true → t = unbondingTracker) → (∀ a s1, reach s s1 → Q a s1) →
  wps s (on_tracker others t (AddDelegation tx i o h b)) Q.
Proof. intros Ht Hb. apply wp_on_tracker. intros td. by apply op_add. Qed.

Lemma wp_changed_tracker s t h d (Q : _ → St → Prop) :
  (∀ a s1, reach s s1 → Q a s1) → wps s (on_tracker others t (HasDelegationChanged h d)) Q.
Proof.
  apply wp_on_tracker. intros td. unfold HasDelegationChanged. mrun.
  destruct (mapping td !! h) as [[d'|]|]; try apply op_read. destruct (negb _); apply op_read.
Qed.

(** Executes a body up to the operations that need evidence. *)
Ltac wp_op :=
  lazymatch goal with
  | |- wp _ _ (load _ _) _ => apply wp_load; intros ? ?
  | |- wp _ _ (emit _ _) _ => apply wp_emit; intros ? ?
  | |- wp _ _ (ask _ _ _) _ => apply wp_ask; [done|]; intros ? ? ? ?
  | |- wp _ _ (atomic _ (world _)) _ => apply wp_atomic; intros ? ?; apply wp_world; intros ? ? ? ?
  | |- wp _ _ (on_tracker _ _ (GetDelegation _)) _ => apply wp_get_tracker; intros ? ? ?
  | |- wp _ _ (on_tracker _ _ Count) _ => apply wp_count_tracker; intros ? ? ?
  | |- wp _ _ (on_tracker _ _ (RemoveDelegation _)) _ => apply wp_remove_tracker; intros ? ? ?
  | |- wp _ _ (on_tracker _ _ (AddEmptyDelegation _)) _ =>
      apply wp_empty_tracker; [done|]; intros ? ? ?
  | |- wp _ _ (on_tracker _ _ (UpdateActivation _ _)) _ =>
      apply wp_update_tracker; [done|]; intros ? ? ?
  | |- wp _ _ (on_tracker _ _ (AddDelegation _ _ _ _ _)) _ =>
      apply wp_add_tracker; [done|done|]; intros ? ? ?
  | |- wp _ _ (on_tracker _ _ (HasDelegationChanged _ _)) _ => apply wp_changed_tracker; intros ? ? ?
  | |- wp _ _ (PushOrQuit _ _ _) _ => apply wp_PushOrQuit; intros ? ?
  | |- wp _ _ (of_outcome _) _ => apply wp_of_outcome; intros ? ?
  | |- wp _ _ (of_result _) _ => apply wp_of_result; intros ? ?
  | |- rtc _ _ _ → _ => intros ?
  | |- ∀ (_ : gerror) (_ : _), rtc _ _ _ → _ => intros ? ? ?
  | |- True => exact I
  end.
Ltac wp_go := repeat first [wp_op | wp_pure].

(** ** Bodies that need no evidence *)
Lemma count_empty_guar t g h : metric_tracker t = true → guars (count_empty others t g h).
Proof. intros Ht s. unfold count_empty. wp_go. Qed.

Lemma uncount_guar t g h : guars (uncount others t g h).
Proof. intros s. unfold uncount. wp_go. Qed.

Lemma addToUnbondingFunc_guar d : guars (addToUnbondingFunc others choose d).
Proof. intros s. unfold addToUnbondingFunc. wp_go. Qed.

Lemma addToPendingFunc_guar d : guars (addToPendingFunc others d).
Proof. intros s. unfold addToPendingFunc. wp_go. Qed.

Lemma track_delegation_guar d : guars (track_delegation others choose d).
Proof.
  intros s. unfold track_delegation. wp_go; try apply addToUnbondingFunc_guar.
  apply wp_guar_post; [apply addToPendingFunc_guar|]. intros. apply addToUnbondingFunc_guar.
Qed.

Lemma checkBabylonDelegations_guar fuel cursor :
  guars (checkBabylonDelegations_loop others choose NewDelegationsBatchSize fuel cursor).
Proof.
  revert cursor. induction fuel as [|fuel IH]; intros cursor s; cbn [checkBabylonDelegations_loop].
  { apply wp_diverge. }
  apply wp_bind, wp_wrap_err. wp_op. intros _. destruct a as [ds next]. apply wp_bind, wp_guar_post.
  { apply guar_for_each. intros d. apply track_delegation_guar. }
  intros _ s2 _ _. destruct next; [apply IH|by apply wp_ret].
Qed.

Lemma fetchDelegations_guar fuel :
  guars (fetchDelegations others choose NewDelegationsBatchSize fuel).
Proof.
  intros s. unfold fetchDelegations. apply wp_bind, wp_store; [intros [x w] _; apply st_retrieval|].
  intros s1 _ _. apply wp_bind, wp_try.
  - apply wp_guar_post; [apply checkBabylonDelegations_guar|]. intros _ s2 _ _.
    apply wp_store; [intros [x w] _; apply st_retrieval|done].
  - intros e s2 _ _. apply wp_store; [intros [x w] _; apply st_retrieval|done].
Qed.

Lemma handle_new_delegation_guar d : guars (handle_new_delegation others d).
Proof. intros s. unfold handle_new_delegation. wp_go. Qed.

Lemma handle_removal_guar h : guars (handle_removal others h).
Proof. intros s. unfold handle_removal. wp_go. Qed.

Lemma wp_receive s (Q : _ → St → Prop) :
  (∀ a s1, reach s s1 → Q a s1) → wps s (receive others choose) Q.
Proof.
  intros HQ. apply wp_atomic. intros [x w] H1.
  assert (∀ c r, reach s (set_chans c r x, w)) as Hc.
  { intros c r. etrans; [exact H1|]. apply rtc_once. constructor. }
  assert (∀ c r, reach (x, w) (set_chans c r x, w)) as Hc'
    by (intros c r; apply rtc_once; constructor).
  unfold wp. cbn. destruct (unbondingDelegationChan x), (unbondingRemovalChan x); try destruct (choose _);
    cbn; auto using rtc_refl.
Qed.

Lemma handleUnbondedDelegations_guar fuel : guars (handleUnbondedDelegations others choose fuel).
Proof.
  induction fuel as [|fuel IH]; intros s; cbn [handleUnbondedDelegations]; [apply wp_diverge|].
  apply wp_bind, wp_receive. intros [[d|h]|[]] s1 _ _.
  - apply wp_bind, wp_guar_post; [apply handle_new_delegation_guar|]. intros. apply IH.
  - apply wp_bind, wp_guar_post; [apply handle_removal_guar|]. intros. apply IH.
  - wp_go. apply IH.
Qed.

Lemma syncedWithBabylon_guar : guars (syncedWithBabylon others).
Proof. intros s. unfold syncedWithBabylon. wp_go. Qed.

(** ** Waiting for depth and activating *)
Lemma abortIfChildUnbonded_guar h : guars (abortIfChildUnbonded others h).
Proof. intros s. unfold abortIfChildUnbonded. wp_go. Qed.

Lemma check_aborts_guar (fs : list (M St bool)) : Forall (λ f, guars f) fs → guars (check_aborts fs).
Proof.
  induction 1 as [|f fs Hf _ IH]; intros s; cbn [check_aborts]; [by apply wp_ret|].
  apply wp_bind, wp_guar_post; [done|]. intros b s1 _ _. wp_go. apply IH.
Qed.

(** A wait without abort conditions ends with an answer of enough depth. *)
Lemma waitForRequiredDepth_deep s blk d :
  wps s (waitForRequiredDepth others blk d [])
    (λ _ s1, ∃ depth, CDepth blk depth ∈ calls s1.1 ∧ d ≤ depth).
Proof.
  unfold waitForRequiredDepth. apply wp_retry; [done|done|]. intros s' _. cbn [check_aborts].
  wp_go. eexists. split; [eassumption|]. lia.
Qed.

Lemma waitForRequiredDepth_guar blk d (fs : list (M St bool)) :
  Forall (λ f, guars f) fs → guars (waitForRequiredDepth others blk d fs).
Proof.
  intros Hf s. unfold waitForRequiredDepth. apply wp_retry; [done|done|]. intros s' _.
  apply wp_bind, wp_guar_post; [by apply check_aborts_guar|]. intros b s1 _ _. wp_go.
Qed.

Definition deep_proof (s : St) (h : Hash) (p : BTCSpvProof) : Prop :=
  ∃ blk depth, in_chain_proof (calls s.1) h p blk ∧ CDepth blk depth ∈ calls s.1 ∧
    babylonConfirmationTimeBlocks s.1 ≤ depth.

Lemma deep_proof_reach s s' h p : reach s s' → deep_proof s h p → deep_proof s' h p.
Proof.
  intros [Hc Hk]%reach_calls (blk & d & H1 & H2 & H3). exists blk, d. rewrite Hk.
  split_and!; eauto using in_chain_proof_mono.
Qed.

Lemma activate_attempt_guar s h p :
  deep_proof s h p → wps s (activate_attempt others h p) (λ _ _, True).
Proof.
  intros Hd. unfold activate_attempt. wp_go.
  apply wp_tell; [|intros; wp_go]. intros [x w] Hr. apply st_activate.
  assert (deep_proof (x, w) h p) as (blk & depth & H4 & H5 & H6).
  { eapply deep_proof_reach; [|exact Hd]. etrans; [eassumption|]. done. }
  apply reach_calls in Hr as [Hc _]. exists blk, depth. eexists. split_and!; [done|done|done| |].
  - apply Hc. eassumption.
  - by destruct (bool_decide_reflect (d_Status d = VERIFIED)).
Qed.

Lemma wp_release s (Q : unit → St → Prop) :
  watcher_ok start s → (∀ s1, reach s s1 → Q tt s1) → wps s (Release others) Q.
Proof.
  intros Hok HQ. apply wp_atomic. intros [x w] H1. apply (reach_ok start _ _ H1) in Hok.
  pose proof (wo_limiter _ _ Hok) as Hl. cbn in Hl. unfold wp. cbn.
  destruct (Z.ltb_spec (activationLimiter x - 1) 0); cbn; [split; [apply rtc_refl|done]|].
  assert (step start (x, w) (set_limiter (activationLimiter x - 1) x, w)) by (constructor; lia).
  split; [by apply rtc_once|]. apply HQ. etrans; [exact H1|]. by apply rtc_once.
Qed.

Lemma wp_acquire s (Q : unit → St → Prop) :
  watcher_ok start s → (∀ s1, reach s s1 → Q tt s1) → wps s (Acquire others) Q.
Proof.
  intros Hok HQ. apply wp_atomic. intros [x w] H1. apply (reach_ok start _ _ H1) in Hok.
  pose proof (wo_limiter _ _ Hok) as Hl. cbn in Hl. unfold wp. cbn -[maxConcurrentActivations].
  destruct (Z.leb_spec (activationLimiter x + 1) maxConcurrentActivations);
    cbn; [|split; [apply rtc_refl|done]].
  assert (step start (x, w) (set_limiter (activationLimiter x + 1) x, w)) by (constructor; lia).
  split; [by apply rtc_once|]. apply HQ. etrans; [exact H1|]. by apply rtc_once.
Qed.

Lemma activateBtcDelegation_guar s h p blk d :
  goroutine_ok (babylonConfirmationTimeBlocks s.1) (calls s.1) (GActivate h p blk d) →
  wps s (activateBtcDelegation others h p blk d) (λ _ _, True).
Proof.
  intros [Hp ->]. unfold activateBtcDelegation. apply wp_bind, wp_emit. intros s1 R1 _.
  apply wp_bind. eapply wp_mono; [|intros [] s2 _ _ _; wp_go]. apply wp_bind, wp_try.
  2:{ intros e s2 _ _. by apply count_empty_guar. }
  eapply wp_mono; [apply waitForRequiredDepth_deep|]. intros [] s2 R2 (depth & Hd & Hge) _.
  assert (deep_proof s2 h p) as Hdeep.
  { assert (reach s s2) as [Hc Hk]%reach_calls by by etrans. exists blk, depth. rewrite Hk.
    split_and!; eauto using in_chain_proof_mono. }
  apply wp_bind, wp_guar_post; [apply uncount_guar|]. intros [] s3 R3 _.
  apply wp_bind, wp_guar_post; [by apply count_empty_guar|]. intros [] s4 R4 _.
  apply wp_bind, wp_try; [|intros; by apply wp_ret].
  apply wp_retry; [done|done|]. intros s5 R5. eapply wp_mono; [apply activate_attempt_guar|].
  - eapply deep_proof_reach; [|exact Hdeep]. etrans; [exact R3|]. by etrans.
  - intros. by apply wp_ret.
Qed.

Lemma activate_goroutine_guar s h p blk d :
  watcher_ok start s →
  goroutine_ok (babylonConfirmationTimeBlocks s.1) (calls s.1) (GActivate h p blk d) →
  wps s (activate_goroutine others h p blk d) (λ _ _, True).
Proof.
  intros Hok Hg. unfold activate_goroutine. apply wp_bind.
  eapply wp_mono; [by apply activateBtcDelegation_guar|]. intros [] s1 R1 _ _.
  apply wp_release; [|done]. by eapply (reach_ok start).
Qed.

(** ** Iterating over a tracker *)
Lemma for_until_guar {R} (xs : list (option TrackedDelegation)) (body : _ → M St (option R)) s :
  watcher_ok start s →
  (∀ x s1, watcher_ok start s1 → wps s1 (body x) (λ _ _, True)) →
  wps s (for_until xs body) (λ _ _, True).
Proof.
  intros Hok Hb. revert s Hok. induction xs as [|x xs IH]; intros s Hok; cbn [for_until].
  { by apply wp_ret. }
  apply wp_bind. eapply wp_mono; [by apply Hb|]. intros [r|] s1 R1 _ _; [by apply wp_ret|].
  apply IH. by eapply (reach_ok start).
Qed.

Lemma iterate_guar {R} t fuel (body : _ → M St (option R)) s :
  watcher_ok start s →
  (∀ x s1, watcher_ok start s1 → wps s1 (body x) (λ _ _, True)) →
  wps s (iterate others range t fuel body) (λ _ _, True).
Proof.
  intros Hok Hb. unfold iterate, DelegationsIter. cbv zeta.
  apply wp_bind, wp_load. intros s1 R1 _. apply (reach_ok start _ _ R1) in Hok. clear s R1.
  generalize (∅ : gset Hash) as p. generalize (if 1000 <=? 0 then 100 else 1000) as c.
  revert s1 Hok. induction fuel as [|fuel IH]; intros s Hok c p; cbn [iter_loop]; [apply wp_diverge|].
  apply wp_bind, wp_load. intros s1 R1 _. destruct (collect _ _ _ _) as [buf p'].
  apply (reach_ok start _ _ R1) in Hok.
  apply wp_bind. eapply wp_mono; [by apply for_until_guar|]. intros [r|] s2 R2 _ _; [by apply wp_ret|].
  case_match; [by apply wp_ret|]. apply IH. by eapply (reach_ok start).
Qed.

Lemma check_one_staking_tx_guar del s :
  watcher_ok start s → wps s (check_one_staking_tx others del) (λ _ _, True).
Proof.
  intros Hok. unfold check_one_staking_tx. destruct del as [del|]; [|apply wp_panic].
  destruct (InProgress del); [by apply wp_ret|]. cbv zeta. apply wp_bind, wp_of_outcome.
  intros out _ _. apply wp_bind, wp_try; [|intros; by apply wp_ret].
  apply wp_ask; [done|]. intros [details status] s1 R1 Hcall _. cbn [fst snd] in Hcall.
  destruct status; [wp_go; apply wp_guar_post; [by apply count_empty_guar|intros; by apply wp_ret]..|].
  apply wp_bind, wp_guar_post; [apply uncount_guar|]. intros [] s2 R2 _.
  destruct details as [details|]; [|apply wp_panic]. cbv zeta.
  apply wp_bind, wp_try; [|intros; by apply wp_ret].
  apply wp_of_outcome. intros proof Hproof _.
  assert (reach s s2) as Rs by by etrans. apply (reach_ok start _ _ Rs) in Hok.
  apply wp_bind, wp_acquire; [done|]. intros s3 R3 _. apply (reach_ok start _ _ R3) in Hok.
  apply wp_bind, wp_try.
  2:{ intros e s4 R4 _. apply wp_bind, wp_release; [by eapply (reach_ok start)|].
      intros. by apply wp_ret. }
  apply wp_update_tracker; [done|]. intros [] s4 R4 _. apply wp_bind, wp_load. intros s5 R5 _.
  apply wp_bind, wp_spawn; [|intros; by apply wp_ret]. cbn. split; [|done].
  assert (reach s1 s5) as [Hc _]%reach_calls.
  { etrans; [exact R2|]. etrans; [exact R3|]. by etrans. }
  exists details. split_and!; [by apply Hc|done|done].
Qed.

Lemma checkBtcForStakingTx_guar fuel s :
  watcher_ok start s → wps s (checkBtcForStakingTx others range fuel) (λ _ _, True).
Proof.
  intros Hok. apply wp_bind. eapply wp_mono; [apply iterate_guar; [done|]|intros; by apply wp_ret].
  intros x s1. apply check_one_staking_tx_guar.
Qed.

Lemma handlerVerifiedDelegations_guar fuel s :
  watcher_ok start s → wps s (handlerVerifiedDelegations others range fuel) (λ _ _, True).
Proof.
  revert s. induction fuel as [|fuel IH]; intros s Hok; cbn [handlerVerifiedDelegations];
    [apply wp_diverge|].
  apply wp_bind, wp_load. intros s1 R1 _. case_match; [by apply wp_ret|].
  apply (reach_ok start _ _ R1) in Hok.
  apply wp_bind. eapply wp_mono; [by apply checkBtcForStakingTx_guar|]. intros [] s2 R2 _ _.
  apply IH. by eapply (reach_ok start).
Qed.

(** ** Spends *)
Lemma getFundingTxs_spec s tx :
  wps s (getFundingTxs others tx) (λ f s1, funding_of (calls s1.1) tx f ∧ f ≠ []).
Proof.
  unfold getFundingTxs. destruct (TxIn tx) as [|i0 ins0] eqn:E; [apply wp_fail|].
  rewrite <-E. apply wp_bind.
  assert (∀ ins pre acc s0, reach s s0 → TxIn tx = pre ++ ins →
    Forall2 (λ i b, ∃ t, CRawTx (op_Hash (PreviousOutPoint i)) t ∈ calls s0.1 ∧ SerializeBTCTx t = Ok b)
      pre acc →
    wps s0 (for_fold ins acc (λ fundingTxs txIn,
      rawTransaction ← wrap_err "error getting rawTransaction"
        (ask others (sb_GetRawTransaction (op_Hash (PreviousOutPoint txIn)))
           (CRawTx (op_Hash (PreviousOutPoint txIn))));
      serializedTx ← wrap_err "error serializing rawTransaction"
        (of_result (SerializeBTCTx rawTransaction));
      mret (fundingTxs ++ [serializedTx])))
      (λ f s1, funding_of (calls s1.1) tx f)) as Hfold.
  { induction ins as [|i ins IH]; intros pre acc s0 R0 Etx Hacc; cbn [for_fold].
    { apply wp_ret. unfold funding_of. by rewrite Etx, app_nil_r. }
    wp_go. eapply IH with (pre := pre ++ [i]).
    - etrans; [exact R0|]. done.
    - by rewrite <-app_assoc.
    - apply Forall2_app; [|constructor; [|done]; eauto].
      eapply Forall2_impl; [exact Hacc|]. intros j b (t & Ht & Hb). exists t. split; [|done].
      apply reach_calls in H as [Hc _]. by apply Hc. }
  eapply wp_mono; [by apply (Hfold _ [] [] s); [apply rtc_refl| |constructor]|].
  intros f s1 R1 Hf _. destruct f as [|b f]; [apply wp_fail|]. by apply wp_ret.
Qed.

Definition spend_proof (s : St) (tx : MsgTx) (proof : InclusionProof) : Prop :=
  ∃ p blk, in_chain_proof (calls s.1) (TxHash tx) p blk ∧ proof = NewInclusionProofFromSpvProof p.

Lemma spend_proof_reach s s' tx proof : reach s s' → spend_proof s tx proof → spend_proof s' tx proof.
Proof.
  intros [Hc _]%reach_calls (p & blk & H1 & H2). exists p, blk. eauto using in_chain_proof_mono.
Qed.

Lemma buildSpendingTxProof_spec s tx :
  wps s (buildSpendingTxProof others tx) (λ o s1, ∀ proof, o = Some proof → spend_proof s1 tx proof).
Proof.
  unfold buildSpendingTxProof. destruct (TxOut tx) as [|out outs]; [apply wp_panic|]. cbv zeta.
  apply wp_bind, wp_ask; [done|]. intros [details status] s1 R1 Hcall _. cbn [fst snd] in Hcall.
  destruct status; [by apply wp_ret..|]. destruct details as [details|]; [|apply wp_panic].
  cbv zeta. apply wp_bind, wp_of_outcome. intros p Hp _. apply wp_ret. intros ? [= <-].
  exists p. eexists. split; [|done]. by exists details.
Qed.

Lemma waitForStakeSpendInclusionProof_spec s tx :
  wps s (waitForStakeSpendInclusionProof others tx)
    (λ o s1, ∀ proof, o = Some proof → spend_proof s1 tx proof).
Proof.
  assert (∀ q : St * option InclusionProof, reach s q.1 →
    reach s (assign_proof others tx q).2.1 ∧
    (∀ proof, (assign_proof others tx q).2.2 = Some proof →
       spend_proof (assign_proof others tx q).2.1 tx proof)) as Hf.
  { intros [s' o] Hr. unfold assign_proof.
    destruct (buildSpendingTxProof_spec s' tx) as [H1 H2].
    destruct (buildSpendingTxProof others tx s') as [[[pr|]|e|p|] s2]; cbn in *;
      (split; [by etrans|done || naive_solver]). }
  pose proof (retry_Do_spec retryForever (assign_proof others tx) (s, None) ltac:(done) ltac:(done)) as Hr.
  apply (retried_inv (λ q, reach s q.1 ∧ (∀ proof, q.2 = Some proof → spend_proof q.1 tx proof))) in Hr.
  - unfold wp, waitForStakeSpendInclusionProof.
    destruct (retry_Do _ _ _) as [[[]|e|p|] [s' o]]; cbn in *; tauto.
  - intros q [Hq _]. by apply Hf.
  - split; [apply rtc_refl|done].
Qed.

Section report.
Context (td : TrackedDelegation) (TxID : string) (txHash : Hash) (tx : MsgTx).

(** What is known when the spend of [td] by [tx] is handled. *)
Definition spend_seen (s : St) : Prop :=
  spent_by (calls s.1) td TxID ∧ NewHashFromStr TxID = Ok txHash ∧ CRawTx txHash tx ∈ calls s.1.

Lemma spend_seen_reach s s' : reach s s' → spend_seen s → spend_seen s'.
Proof.
  intros [Hc _]%reach_calls (H1 & H2 & H3). split_and!; eauto using spent_by_mono.
Qed.

Lemma report_attempt_guar s proof :
  spend_seen s → ¬ timelock_spend tx td → spend_proof s tx proof →
  wps s (report_attempt others (TxHash (StakingTx td)) tx proof) (λ _ _, True).
Proof.
  intros Hs Ht Hp. unfold report_attempt. apply wp_bind, wp_wrap_err, wp_ask; [done|].
  intros active s1 R1 Ha _. apply wp_bind, wp_wrap_err, wp_ask; [done|]. intros verified s2 R2 Hv _.
  destruct (negb active && negb verified) eqn:Eav; [by apply wp_ret|].
  apply wp_bind, wp_wrap_err. eapply wp_mono; [apply getFundingTxs_spec|].
  intros f s3 R3 [Hf Hne] _. apply wp_bind, wp_try.
  - apply wp_tell; [|intros; wp_go]. intros [x w] R4. apply st_report.
    assert (reach s (x, w)) as Rs by (etrans; [exact R1|]; etrans; [exact R2|]; by etrans).
    apply (spend_seen_reach _ _ Rs) in Hs as (S1 & S2 & S3). cbn in S1, S3.
    apply (spend_proof_reach _ _ _ _ Rs) in Hp.
    exists td, TxID, txHash. split_and!; [done..| | |done].
    + assert (reach s1 (x, w)) as [Hc1 _]%reach_calls by (etrans; [exact R2|]; by etrans).
      assert (reach s2 (x, w)) as [Hc2 _]%reach_calls by by etrans. cbn in *.
      destruct active, verified; cbn in Eav; auto; done.
    + apply reach_calls in R4 as [Hc _]. by eapply funding_of_mono.
  - intros e s4 R4 _. wp_go.
Qed.

Lemma handleSpend_guar s :
  spend_seen s → wps s (handleSpend others choose tx td) (λ _ _, True).
Proof.
  intros Hs. unfold handleSpend. cbv zeta. apply wp_bind.
  apply wp_mono with (Q := λ r s1, s1 = s ∧
    (match r with Err e => errors_Is e ErrSpendPathNotUnbonding | Ok _ => false end = false →
       ¬ timelock_spend tx td)).
  { unfold wp, try, of_outcome, timelock_spend.
    destruct (fst (tryParseStakerSignatureFromSpentTx tx td tt)) as [sig|e|p|] eqn:Ep; cbn;
      (split; [apply rtc_refl|]); try done; (split; [done|]); intros He (e' & Ee & Ht); congruence. }
  intros r s1 _ [-> Htl] _. apply wp_bind. apply wp_mono with (Q := λ _ _, True); [by wp_go|].
  intros exp s2 R2 _ _. apply wp_bind. apply wp_mono with (Q := λ _ _, True).
  { destruct exp as [[d|]|e]; [destruct (d_IsStakeExpansion d && negb (d_IsUnbonded d))|..];
      try (by wp_go).
    unfold wait_expansion. apply wp_bind, wp_emit. intros s3 R3 _. apply wp_bind, wp_try; [|by wp_go].
    eapply wp_capture with (I := λ _, True); [done|done|done|].
    - intros s' a Rs. unfold assign_ok.
      assert (guars (blk ← ask others (sb_GetRawTransactionVerbose_BlockHash (TxHash tx))
        (CRawTxBlock (TxHash tx)); mret (Some blk))) as Hg by (intros ?; wp_go).
      destruct (Hg s') as [Hg1 _].
      destruct ((blk ← ask others _ _; mret (Some blk)) s') as [[b|e|p|] s5]; cbn in *;
        (split; [done|]); intros _; [|done..]. intros R5.
      destruct b as [b|]; [|apply wp_panic]. destruct (NewHashFromStr b) as [hh|]; [|by apply wp_ret].
      apply wp_bind, wp_load. intros s6 R6 _. apply wp_bind, wp_try; [|by wp_go].
      apply wp_guar_post; [|by wp_go]. apply waitForRequiredDepth_guar.
      constructor; [apply abortIfChildUnbonded_guar|done]. }
  intros [] s3 R3 _ _; cbn [negb]; [|by apply wp_ret].
  destruct (match r with Ok _ => false | Err e => errors_Is e ErrSpendPathNotUnbonding end) eqn:Et.
  { unfold push_removal. by apply wp_PushOrQuit. }
  apply wp_bind. eapply wp_mono; [apply waitForStakeSpendInclusionProof_spec|].
  intros [proof|] s4 R4 Hproof _; [|by apply wp_ret].
  apply wp_bind. apply wp_mono with (Q := λ _ _, True).
  2:{ intros. unfold push_removal. by apply wp_PushOrQuit. }
  unfold reportUnbondingToBabylon. apply wp_bind, wp_try; [|intros; by apply wp_ret].
  apply wp_retry; [done|done|]. intros s5 R5. eapply wp_mono; [apply report_attempt_guar|].
  - eapply spend_seen_reach; [|exact Hs]. etrans; [exact R2|]. etrans; [exact R3|]. by etrans.
  - apply Htl. by destruct r.
  - eapply spend_proof_reach; [exact R5|]. by apply Hproof.
  - intros. by apply wp_ret.
Qed.
End report.

Lemma spend_goroutine_guar s del TxID :
  goroutine_ok (babylonConfirmationTimeBlocks s.1) (calls s.1) (GSpend del TxID) →
  wps s (spend_goroutine others choose del TxID) (λ _ _, True).
Proof.
  intros Hg. cbn in Hg. unfold spend_goroutine. apply wp_bind.
  apply wp_mono with (Q := λ _ _, True); [|intros; by wp_go].
  destruct (NewHashFromStr TxID) as [txHash|] eqn:Eh; [|by apply wp_ret].
  apply wp_bind, wp_try; [|by wp_go]. apply wp_ask; [done|]. intros tx s1 R1 Htx _.
  apply (handleSpend_guar del TxID txHash tx). split_and!; [|done|done].
  apply reach_calls in R1 as [Hc _]. by eapply spent_by_mono.
Qed.

Lemma check_one_spend_guar del s : wps s (check_one_spend others del) (λ _ _, True).
Proof.
  unfold check_one_spend. destruct del as [del|]; [|apply wp_panic].
  destruct (InProgress del); [by apply wp_ret|]. cbv zeta. apply wp_bind, wp_try; [|by wp_go].
  apply wp_ask; [done|]. intros r s1 R1 Hr _. destruct (Spent r) eqn:Es; cbn [negb]; [|by apply wp_ret].
  apply wp_bind, wp_try; [|by wp_go]. apply wp_update_tracker; [done|]. intros [] s2 R2 _.
  apply wp_bind, wp_spawn; [|intros; by apply wp_ret]. cbn. exists r.
  apply reach_calls in R2 as [Hc _]. auto.
Qed.

Lemma checkSpend_guar fuel s :
  watcher_ok start s → wps s (checkSpend others range fuel) (λ _ _, True).
Proof.
  intros Hok. apply wp_bind. eapply wp_mono; [apply iterate_guar; [done|]|].
  - intros x s1 _. apply check_one_spend_guar.
  - intros [e|] s1 _ _ _; [apply wp_fail|by apply wp_ret].
Qed.

Lemma block_loop_guar fuel s :
  watcher_ok start s → wps s (block_loop others range fuel) (λ _ _, True).
Proof.
  revert s. induction fuel as [|fuel IH]; intros s Hok; cbn [block_loop]; [apply wp_diverge|].
  apply wp_bind, wp_atomic. intros s1 R1. apply wp_world. intros ev w' _ R2 R3.
  destruct ev as [h| | |]; [|apply wp_fail|apply wp_fail|by apply wp_ret].
  destruct (h <? 0); [apply wp_panic|].
  apply wp_bind, wp_store; [intros [x w] _; apply st_best|]. intros s2 R4 _.
  apply wp_bind, wp_emit. intros s3 R5 _.
  assert (watcher_ok start s3) as Hok3.
  { eapply (reach_ok start); [|exact Hok]. etrans; [exact R3|]. by etrans. }
  apply wp_bind, wp_try.
  - eapply wp_mono; [by apply checkSpend_guar|]. intros [] s4 R6 _ _. apply IH.
    by eapply (reach_ok start).
  - intros e s4 R6 _. apply IH. by eapply (reach_ok start).
Qed.

Lemma handleNewBlocks_guar fuel s :
  watcher_ok start s → wps s (handleNewBlocks others range fuel) (λ _ _, True).
Proof.
  revert s. induction fuel as [|fuel IH]; intros s Hok; cbn [handleNewBlocks]; [apply wp_diverge|].
  apply wp_bind, wp_load. intros s1 R1 _. apply (reach_ok start _ _ R1) in Hok.
  case_match; [by apply wp_ret|]. apply wp_bind, wp_try.
  - unfold runBlockNotifier. apply wp_bind, wp_wrap_err, wp_atomic. intros s2 R2.
    apply wp_world. intros [] w' _ R3 R4. apply (reach_ok start _ _ R4) in Hok.
    eapply wp_mono; [by apply block_loop_guar|]. intros [] s3 R5 _ _. apply IH.
    by eapply (reach_ok start).
  - intros e s2 R2 _. apply IH. by eapply (reach_ok start).
Qed.

(** ** Babylon's blocks *)
Lemma fetchDelegationsModifiedByEvents_spec s height evs :
  wps s (fetchDelegationsModifiedByEvents others height evs)
    (λ hs s1, CBlockHashes height hs ∈ calls s1.1).
Proof.
  unfold fetchDelegationsModifiedByEvents. eapply wp_capture with (I := λ l, l = []); [done..|].
  intros s' a _.
  assert (wps s' (wrap_err "error fetching staking tx hashes by event from babylon"
    (ask others (DelegationsModifiedInBlock height evs) (CBlockHashes height)))
    (λ hs s1, CBlockHashes height hs ∈ calls s1.1)) as [H1 H2] by (by wp_go).
  destruct (wrap_err _ _ s') as [[hs|e|p|] s1]; cbn in *; (split; [done|]); intros ->; done.
Qed.

Lemma fetch_heights_spec s i n acc :
  wps s (fetch_heights others i n acc)
    (λ hs s1, (∀ k, k ∈ acc → k ∈ hs) ∧
      ∀ j, i ≤ j < i + Z.of_nat n → ∃ l, CBlockHashes j l ∈ calls s1.1 ∧ ∀ k, k ∈ l → k ∈ hs).
Proof.
  revert s i acc. induction n as [|n IH]; intros s i acc; cbn [fetch_heights].
  { apply wp_ret. split; [done|]. lia. }
  apply wp_bind, wp_wrap_err. eapply wp_mono; [apply fetchDelegationsModifiedByEvents_spec|].
  intros hs s1 R1 Hhs _. eapply wp_mono; [apply IH|]. intros hs' s2 R2 [Hacc Hj].
  split; [set_solver|]. intros j Hij. destruct (decide (j = i)) as [->|Hne].
  - exists hs. split; [apply reach_calls in R2 as [Hc _]; by apply Hc|]. set_solver.
  - apply Hj. lia.
Qed.

Lemma fetch_delegation_spec s k :
  wps s (fetch_delegation others choose k) (λ _ s1, ∃ d, CDelegation k (Some d) ∈ calls s1.1).
Proof.
  unfold fetch_delegation. apply wp_bind, wp_wrap_err, wp_ask; [done|]. intros [d|] s1 R1 Hc _.
  - apply wp_guar_post; [apply track_delegation_guar|]. intros _ s2 [H _]%reach_calls. eauto.
  - apply wp_panic.
Qed.

Lemma fetchDelegationsByEvents_spec s a b :
  wps s (fetchDelegationsByEvents others choose a b) (λ _ s1, scanned (calls s1.1) a (b + 1)).
Proof.
  unfold fetchDelegationsByEvents. apply wp_bind. eapply wp_mono; [apply fetch_heights_spec|].
  intros hs s1 R1 [_ Hj] _.
  assert (∀ xs s0, wps s0 (for_each xs (fetch_delegation others choose))
    (λ _ s2, ∀ k, k ∈ xs → ∃ d, CDelegation k (Some d) ∈ calls s2.1)) as Hall.
  { induction xs as [|x xs IH]; intros s0; cbn [for_each]; [apply wp_ret; set_solver|].
    apply wp_bind. eapply wp_mono; [apply fetch_delegation_spec|]. intros [] s2 R2 [d Hd] _.
    eapply wp_mono; [apply IH|]. intros [] s3 [Hc _]%reach_calls Hk k [->|Hin]%elem_of_cons; eauto. }
  eapply wp_mono; [apply Hall|]. intros [] s2 [Hc _]%reach_calls Hd i Hi.
  destruct (Hj i ltac:(lia)) as (l & Hl & Hin). exists l. split; [by apply Hc|].
  intros k Hk. apply Hd, deduplicateStrings_elem. auto.
Qed.

(** Heights are [int64]s. *)
Hypothesis tip_is_int64 : ∀ w h w', CometBFTTipHeight w = (Val h, w') → is_i64 h.

Lemma fetchCometBftBlockOnce_guar s :
  watcher_ok start s → wps s (fetchCometBftBlockOnce others choose) (λ _ _, True).
Proof.
  intros Hok. unfold fetchCometBftBlockOnce. apply wp_bind, wp_wrap_err, wp_atomic. intros s1 R1.
  apply wp_world. intros h w' Hh R2 R3. apply tip_is_int64 in Hh. apply wp_bind, wp_load.
  intros s2 R4 _. assert (reach s s2) as Rs by by etrans.
  pose proof (wo_comet _ _ (reach_ok start _ _ Rs Hok)) as Hsc.
  destruct (h <? _) eqn:E1; [apply wp_fail|]. destruct (h =? _) eqn:E2; [by apply wp_ret|].
  apply wp_bind, wp_wrap_err. eapply wp_mono; [apply fetchDelegationsByEvents_spec|].
  intros [] s3 R5 Hnew _. apply wp_store; [|done]. intros [x w] R6. apply st_comet.
  assert (i64 (h + 1) ≤ h + 1) as Hle.
  { unfold i64. assert ((h + 1 + 2 ^ 63) mod 2 ^ 64 ≤ h + 1 + 2 ^ 63) by (apply Z.mod_le; zrange). lia. }
  assert (reach s2 (x, w)) as [Hc _]%reach_calls by by etrans.
  apply reach_calls in R6 as [Hc' _]. intros i Hi.
  destruct (decide (i < currentCometTipHeight s2.1)).
  - eapply (scanned_mono _ _ start); [exact Hc|exact Hsc|lia].
  - eapply (scanned_mono _ _ (currentCometTipHeight s2.1)); [exact Hc'|exact Hnew|lia].
Qed.

Lemma fetchCometBftBlockForever_guar fuel s :
  watcher_ok start s → wps s (fetchCometBftBlockForever others choose fuel) (λ _ _, True).
Proof.
  revert s. induction fuel as [|fuel IH]; intros s Hok; cbn [fetchCometBftBlockForever];
    [apply wp_diverge|].
  apply wp_bind, wp_load. intros s1 R1 _. apply (reach_ok start _ _ R1) in Hok.
  case_match; [by apply wp_ret|]. apply wp_bind. apply wp_mono with (Q := λ _ _, True).
  2:{ intros [] s2 R2 _ _. apply IH. by eapply (reach_ok start). }
  unfold comet_tick. apply wp_bind, wp_load. intros s2 R2 _. case_match; [by apply wp_ret|].
  apply (reach_ok start _ _ R2) in Hok.
  apply wp_bind, wp_try; [|intros; by apply wp_ret].
  apply wp_guar_post; [apply syncedWithBabylon_guar|].
  intros [] s3 R3 _; [|by apply wp_ret]. apply (reach_ok start _ _ R3) in Hok.
  apply wp_bind, wp_try; [|intros; by apply wp_ret].
  eapply wp_mono; [by apply fetchCometBftBlockOnce_guar|]. intros. by apply wp_ret.
Qed.

(** Every goroutine, whatever the others do in the meantime. *)
Lemma goroutine_guar fuel g s :
  watcher_ok start s → goroutine_ok (babylonConfirmationTimeBlocks s.1) (calls s.1) g →
  wps s (run_goroutine others choose range NewDelegationsBatchSize fuel g) (λ _ _, True).
Proof.
  intros Hok Hg. destruct g; cbn [run_goroutine].
  - by apply handleNewBlocks_guar.
  - apply handleUnbondedDelegations_guar.
  - apply fetchDelegations_guar.
  - by apply handlerVerifiedDelegations_guar.
  - by apply fetchCometBftBlockForever_guar.
  - by apply spend_goroutine_guar.
  - by apply activate_goroutine_guar.
Qed.
End guarantee.
