(* ===== verification/WatcherInstances.v ===== *)
(** * A small Babylon, Bitcoin and indexer for the staking event watcher

    One verified delegation whose staking transaction (hash 50) is in block 103
    of the chain of Instances.v, spent by transaction 60.  The other goroutines
    are idle between the operations of the one that runs. *)

From S2P Require Import Prelude Blocks Retry StakingTypes BabylonAdapter.
From S2P Require Import TrackedDelegations Interference Watcher WatcherProps Instances.

#[global] Instance small_staking : StakingLib := {|
  hash_String h := if bool_decide (h = 50) then "50" else "60";
  NewHashFromStr s := if bool_decide (s = "50") then Ok 50 else Ok 60;
  NewBTCTxFromHex s :=
    if bool_decide (s = "stake") then Ok (mkMsgTx 2 [] [mkTxOut 1000 [1]] 50)
    else Ok (mkMsgTx 2 [] [mkTxOut 900 [2]] 51);
  SerializeBTCTx t := Ok [LockTime t];
  SchnorrSignature := list Z;
  ParseSignature b := Ok b;
  InclusionProof := Z;
  NewInclusionProofFromSpvProof p := p;
  ErrorContains _ _ := false;
|}.

Definition staking_tx : MsgTx := mkMsgTx 2 [] [mkTxOut 1000 [1]] 50.
Definition spending_tx (witness : list (list Z)) : MsgTx :=
  mkMsgTx 2 [mkTxIn (mkOutPoint 50 0) [] witness 0] [mkTxOut 900 [2]] 60.
Definition unbonding_witness : list (list Z) := [[9]; [7]; [5]; [4]].

(** The delegation as Babylon reports it. *)
Definition small_delegation (status : string) : Delegation :=
  mkDelegation staking_tx 0 0 (mkTxOut 900 [2]) false status false false.

#[global] Instance small_adapter : BabylonNodeAdapter Z := {|
  DelegationsByStatus _ cursor _ :=
    mret (match cursor with None => ([small_delegation VERIFIED], None) | Some _ => ([], None) end);
  IsDelegationActive _ := mret false;
  IsDelegationVerified _ := mret true;
  ReportUnbonding _ _ _ _ := mret tt;
  BtcClientTipHeight := mret 100;
  ActivateDelegation _ _ := mret tt;
  QueryHeaderDepth _ := mret 10;
  Params_ConfirmationTimeBlocks := mret 6;
  CometBFTTipHeight := λ n, (Val (if n =? 0 then 7 else 8), n);
  DelegationsModifiedInBlock h _ := mret (if h =? 8 then ["50"; "50"] else []);
  BTCDelegation k :=
    if bool_decide (k = "50") then mret (Some (small_delegation VERIFIED))
    else fail (ENew "delegation not found");
|}.

#[global] Instance small_btc : StakingBTCClient Z := {|
  sb_GetBestBlock := mret 103;
  sb_GetRawTransaction h :=
    mret (if h =? 60 then spending_tx unbonding_witness else staking_tx);
  sb_GetRawTransactionVerbose_BlockHash _ := mret "60";
  sb_TxDetails h _ :=
    mret (Some (mkTxConfirmation 103 0
      (block_at 103 [if h =? 60 then spending_tx unbonding_witness else staking_tx])), TxInChain);
  sb_GetTxOut _ _ _ := mret true;
  sb_SendRawTransactionWithBurnLimit t _ _ := mret (TxHash t);
|}.

#[global] Instance small_indexer : SpendChecker Z :=
  {| GetOutspend _ _ := mret (mkOutspend true "60") |}.

#[global] Instance small_notifier : ChainNotifier Z := {|
  RegisterBlockEpochNtfn := mret tt;
  select_epoch timer := mret (if (timer : bool) then EpochQuit else Epoch 103);
|}.

Definition idle (s : Watcher * Z) : Watcher * Z := s.
Definition never (s : Watcher * Z) : bool := false.
Definition small_range (m : gmap Z (option TrackedDelegation)) : list (Z * option TrackedDelegation) :=
  map_to_list m.

(** After [Start], the fetch of all delegations, their receipt, a check of the
    pending ones and a check of spends. *)
Definition watcher_fresh : Watcher * Z := (NewStakingEventWatcher, 0).
Definition watcher_started : Watcher * Z := snd (Start watcher_fresh).
Definition watcher_fetched : Watcher * Z :=
  snd (run_goroutine idle never small_range 10 3 GFetchDelegations watcher_started).
Definition watcher_tracking : Watcher * Z :=
  snd (run_goroutine idle never small_range 10 3 GHandleUnbondedDelegations watcher_fetched).
Definition watcher_pending : Watcher * Z :=
  snd (run_goroutine idle never small_range 10 3 GHandlerVerifiedDelegations watcher_tracking).
Definition watcher_spent : Watcher * Z := snd (checkSpend idle small_range 3 watcher_tracking).

Lemma idle_steps start s : rtc (step start) s (idle s).
Proof. apply rtc_refl. Qed.

Lemma small_tip (w : Z) h w' : CometBFTTipHeight w = (Val h, w') → is_i64 h.
Proof. cbn. intros [= <- _]. destruct (w =? 0); zrange. Qed.
