(* ===== verification/WatcherTheorems.v ===== *)
(** * Properties of the staking event watcher

    Stated for every goroutine of a started watcher, whatever the others do
    meanwhile, and for the watcher's view of Babylon. *)

From S2P Require Import Prelude Blocks Retry StakingTypes BabylonAdapter.
From S2P Require Import TrackedDelegations Interference Watcher WatcherProps WatcherGuarantee.
From S2P Require Import Instances WatcherInstances.
From S2P Require Reporter.

Section started.
Context {BL : BTCLib} {SL : StakingLib} {RT : Retry} {W : Type}.
Context {BA : BabylonNodeAdapter W} {BTC : StakingBTCClient W} {IX : SpendChecker W}
  {CN : ChainNotifier W}.
Notation St := (Watcher * W)%type.

(** [Start] on a new watcher ends in a well-formed state whose five goroutines
    need no evidence. *)
Lemma Start_ok w s0 :
  Start (NewStakingEventWatcher, w) = (Val tt, s0) →
  watcher_ok (currentCometTipHeight s0.1) s0.
Proof.
  unfold Start. intros H.
  apply bind_Val_inv in H as ([] & s1 & H1 & H). apply bind_Val_inv in H as (ev & s2 & H2 & H).
  destruct ev as [h| | |]; [|done..]. destruct (h <? 0); [done|].
  apply bind_Val_inv in H as ([] & s3 & H3 & H). apply bind_Val_inv in H as (tip & s4 & H4 & H).
  apply bind_Val_inv in H as (c & s5 & H5 & H).
  apply wrap_err_Val in H4, H5. unfold world, zoom in H1, H2, H4, H5. cbn in H1.
  destruct (RegisterBlockEpochNtfn w) as [o1 w1]. injection H1 as -> <-. cbn in H2.
  destruct (select_epoch false w1) as [o2 w2]. injection H2 as -> <-. cbn in H3. injection H3 as <-.
  cbn in H4. destruct (CometBFTTipHeight w2) as [o4 w4]. injection H4 as -> <-. cbn in H5.
  destruct (Params_ConfirmationTimeBlocks w4) as [o5 w5]. injection H5 as -> <-.
  rewrite !bind_unfold in H. cbn in H. rewrite !bind_unfold in H. cbn in H.
  rewrite ?bind_unfold in H. cbn in H. injection H as <-.
  apply fresh_ok; try done. cbn. repeat constructor.
Qed.

(** A started watcher with other goroutines that make its steps. *)
Record started_watcher (others : St → St) (s0 s : St) : Prop := {
  sw_start : ∃ w, Start (NewStakingEventWatcher, w) = (Val tt, s0);
  sw_others : ∀ x, rtc (step (currentCometTipHeight s0.1)) x (others x);
  sw_reached : rtc (step (currentCometTipHeight s0.1)) s0 s;
  sw_tip : ∀ w h w', CometBFTTipHeight w = (Val h, w') → is_i64 h;
}.

Lemma started_run_ok others choose range batch fuel g s0 s :
  started_watcher others s0 s → g ∈ goroutines s.1 →
  watcher_ok (currentCometTipHeight s0.1) (snd (run_goroutine others choose range batch fuel g s)).
Proof.
  intros [[w Hs] Ho Hr Ht] Hg. pose proof (reach_ok _ _ _ Hr (Start_ok _ _ Hs)) as Hok.
  eapply reach_ok; [|exact Hok]. eapply (goroutine_guar others choose range batch); [done|done|done|].
  pose proof (wo_goroutines _ _ Hok) as Hall. rewrite Forall_forall in Hall. by apply Hall.
Qed.
End started.

(** C4: a delegation is activated only with a justified proof.  Whatever the
    interleaving, before each inclusion proof the watcher sends to Babylon it
    was told by Bitcoin that the staking transaction is in a block, built the
    proof from that block, was told by Babylon's light client that the block is
    at least [babylonConfirmationTimeBlocks] deep, and that the delegation is
    verified. *)
Theorem activations_are_justified {BL : BTCLib} {SL : StakingLib} {RT : Retry} {W : Type}
    {BA : BabylonNodeAdapter W} {BTC : StakingBTCClient W} {IX : SpendChecker W}
    {CN : ChainNotifier W} (others : Watcher * W → Watcher * W) choose range batch fuel g s0 s s' :
  started_watcher others s0 s → g ∈ goroutines s.1 →
  s' = snd (run_goroutine others choose range batch fuel g s) →
  ∀ pre h p post, calls s'.1 = pre ++ CActivate h p :: post →
  activate_ok (babylonConfirmationTimeBlocks s'.1) pre h p.
Proof.
  intros Hs Hg ->. eapply wo_justified. by apply started_run_ok.
Qed.

(** C5: an unbonding is reported only with justification.  Before each report
    the indexer named the spend of a tracked delegation's staking output, the
    node returned that transaction and a block containing it, from which the
    proof was built, Babylon answered that the delegation is active or verified,
    and the funding transactions are those of all inputs; a spend recognised as
    the timelock path is never reported. *)
Theorem unbonding_reports_are_justified {BL : BTCLib} {SL : StakingLib} {RT : Retry} {W : Type}
    {BA : BabylonNodeAdapter W} {BTC : StakingBTCClient W} {IX : SpendChecker W}
    {CN : ChainNotifier W} (others : Watcher * W → Watcher * W) choose range batch fuel g s0 s s' :
  started_watcher others s0 s → g ∈ goroutines s.1 →
  s' = snd (run_goroutine others choose range batch fuel g s) →
  ∀ pre h tx p f post, calls s'.1 = pre ++ CReport h tx p f :: post → report_ok pre h tx p f.
Proof.
  intros Hs Hg ->. eapply wo_justified. by apply started_run_ok.
Qed.

(** C23: the trackers are well typed.  In every state a goroutine leaves behind,
    the unbonding and pending trackers hold delegations under the hash of their
    own staking transaction, never [nil], the metric trackers hold only [nil]
    entries, and every counter is the size of its map (as an [int32]). *)
Theorem trackers_are_typed {BL : BTCLib} {SL : StakingLib} {RT : Retry} {W : Type}
    {BA : BabylonNodeAdapter W} {BTC : StakingBTCClient W} {IX : SpendChecker W}
    {CN : ChainNotifier W} (others : Watcher * W → Watcher * W) choose range batch fuel g s0 s s' t :
  started_watcher others s0 s → g ∈ goroutines s.1 →
  s' = snd (run_goroutine others choose range batch fuel g s) →
  count (trackers s'.1 t) = i32 (Z.of_nat (size (mapping (trackers s'.1 t)))) ∧
  map_Forall (λ k v, if metric_tracker t then v = None
                     else ∃ d, v = Some d ∧ TxHash (StakingTx d) = k) (mapping (trackers s'.1 t)).
Proof.
  intros Hs Hg ->. pose proof (started_run_ok _ choose range batch fuel _ _ _ Hs Hg) as Hok.
  split; [apply (wo_count _ _ Hok)|].
  destruct (metric_tracker t) eqn:E; [by apply (wo_empty _ _ Hok)|by apply (wo_keyed _ _ Hok)].
Qed.

(** C15: no Babylon block is skipped.  At any time, every block from the tip seen
    at the start up to the height the watcher will read next had its events
    read, and every delegation they name was fetched. *)
Theorem babylon_blocks_without_gaps {BL : BTCLib} {SL : StakingLib} {RT : Retry} {W : Type}
    {BA : BabylonNodeAdapter W} {BTC : StakingBTCClient W} {IX : SpendChecker W}
    {CN : ChainNotifier W} (others : Watcher * W → Watcher * W) choose range batch fuel g s0 s s' :
  started_watcher others s0 s → g ∈ goroutines s.1 →
  s' = snd (run_goroutine others choose range batch fuel g s) →
  ∀ i, currentCometTipHeight s0.1 ≤ i < currentCometTipHeight s'.1 →
  ∃ hs, CBlockHashes i hs ∈ calls s'.1 ∧ ∀ k, k ∈ hs → ∃ d, CDelegation k (Some d) ∈ calls s'.1.
Proof.
  intros Hs Hg ->. eapply wo_comet. by apply started_run_ok.
Qed.

(** The runs of WatcherInstances are runs of a started watcher. *)
Lemma small_reach g fuel s :
  watcher_ok 7 s → goroutine_ok (babylonConfirmationTimeBlocks s.1) (calls s.1) g →
  rtc (step 7) s (snd (run_goroutine idle never small_range 10 fuel g s)).
Proof.
  intros Hok Hg. by apply (goroutine_guar idle never small_range 10 7 (idle_steps 7) small_tip).
Qed.

Lemma started_ok : watcher_ok 7 watcher_started.
Proof. exact (Start_ok 0 watcher_started eq_refl). Qed.

Lemma fetched_reached : rtc (step 7) watcher_started watcher_fetched.
Proof. apply small_reach; [apply started_ok|done]. Qed.

Lemma tracking_reached : rtc (step 7) watcher_started watcher_tracking.
Proof.
  etrans; [apply fetched_reached|]. apply small_reach; [|done].
  eapply reach_ok; [apply fetched_reached|apply started_ok].
Qed.

Lemma pending_reached : rtc (step 7) watcher_started watcher_pending.
Proof.
  etrans; [apply tracking_reached|]. apply small_reach; [|done].
  eapply reach_ok; [apply tracking_reached|apply started_ok].
Qed.

Lemma spent_reached : rtc (step 7) watcher_started watcher_spent.
Proof.
  etrans; [apply tracking_reached|].
  apply (checkSpend_guar idle never small_range 7 (idle_steps 7)).
  eapply reach_ok; [apply tracking_reached|apply started_ok].
Qed.

Lemma small_started s : rtc (step 7) watcher_started s → started_watcher idle watcher_started s.
Proof. intros H. split; [by exists 0|apply idle_steps|exact H|apply small_tip]. Qed.

Definition small_run (g : goroutine) (s : Watcher * Z) : Watcher * Z :=
  snd (run_goroutine idle never small_range 10 3 g s).
Definition small_activation : goroutine := GActivate 50 0 1103 6.
Definition small_spend : goroutine :=
  GSpend (mkTracked staking_tx 0 (mkTxOut 900 [2]) 0 false) "60".

Lemma activation_spawned : small_activation ∈ goroutines watcher_pending.1.
Proof. apply list_elem_of_In. vm_compute. tauto. Qed.
Lemma spend_spawned : small_spend ∈ goroutines watcher_spent.1.
Proof. apply list_elem_of_In. vm_compute. tauto. Qed.
Lemma receiver_spawned : GHandleUnbondedDelegations ∈ goroutines watcher_fetched.1.
Proof. apply list_elem_of_In. vm_compute. tauto. Qed.
Lemma comet_spawned : GFetchCometBftBlockForever ∈ goroutines (watcher_tracking.1, 1).1.
Proof. apply list_elem_of_In. vm_compute. tauto. Qed.

Lemma activations_are_justified_witness :
  drop 4 (calls (small_run small_activation watcher_pending).1) = [CActivate 50 0] ∧
  ∀ pre h p post, calls (small_run small_activation watcher_pending).1 = pre ++ CActivate h p :: post →
    activate_ok (babylonConfirmationTimeBlocks (small_run small_activation watcher_pending).1) pre h p.
Proof.
  split; [vm_compute; reflexivity|].
  exact (activations_are_justified idle never small_range 10 3 small_activation watcher_started
    watcher_pending _ (small_started _ pending_reached) activation_spawned eq_refl).
Defined.

Lemma unbonding_reports_are_justified_witness :
  drop 7 (calls (small_run small_spend watcher_spent).1) =
    [CReport 50 (spending_tx unbonding_witness) 0 [[50]]] ∧
  ∀ pre h tx p f post, calls (small_run small_spend watcher_spent).1 = pre ++ CReport h tx p f :: post →
    report_ok pre h tx p f.
Proof.
  split; [vm_compute; reflexivity|].
  exact (unbonding_reports_are_justified idle never small_range 10 3 small_spend watcher_started
    watcher_spent _ (small_started _ spent_reached) spend_spawned eq_refl).
Defined.

Lemma tracking_run :
  watcher_tracking = snd (run_goroutine idle never small_range 10 3 GHandleUnbondedDelegations
    watcher_fetched).
Proof. unfold watcher_tracking. reflexivity. Qed.

Lemma trackers_are_typed_witness :
  size (mapping (trackers watcher_tracking.1 unbondingTracker)) = 1%nat ∧
  count (trackers watcher_tracking.1 unbondingTracker) =
    i32 (Z.of_nat (size (mapping (trackers watcher_tracking.1 unbondingTracker)))).
Proof.
  split; [vm_compute; reflexivity|].
  exact (proj1 (trackers_are_typed idle never small_range 10 3 GHandleUnbondedDelegations
    watcher_started watcher_fetched watcher_tracking unbondingTracker
    (small_started _ fetched_reached) receiver_spawned tracking_run)).
Defined.

Lemma ticked_reached : rtc (step 7) watcher_started (watcher_tracking.1, 1).
Proof.
  eapply rtc_r; [apply tracking_reached|]. destruct watcher_tracking as [x w]. apply st_world.
Qed.

Lemma babylon_blocks_without_gaps_witness :
  currentCometTipHeight (small_run GFetchCometBftBlockForever (watcher_tracking.1, 1)).1 = 9 ∧
  ∀ i, currentCometTipHeight watcher_started.1 ≤ i <
       currentCometTipHeight (small_run GFetchCometBftBlockForever (watcher_tracking.1, 1)).1 →
  ∃ hs, CBlockHashes i hs ∈ calls (small_run GFetchCometBftBlockForever (watcher_tracking.1, 1)).1 ∧
    ∀ k, k ∈ hs →
      ∃ d, CDelegation k (Some d) ∈ calls (small_run GFetchCometBftBlockForever (watcher_tracking.1, 1)).1.
Proof.
  split; [vm_compute; reflexivity|].
  exact (babylon_blocks_without_gaps idle never small_range 10 3 GFetchCometBftBlockForever
    watcher_started (watcher_tracking.1, 1) _ (small_started _ ticked_reached) comet_spawned eq_refl).
Defined.

(** C24: the iterator over tracked delegations visits every delegation once.
    While the map only grows and stays keyed and below [n] entries, the loop
    ends (a chunk per entry is enough fuel), yields no delegation twice, and
    yields every delegation that was tracked when it began, for every chunk size
    and every order of the map's ranges. *)
Theorem iterator_visits_each_once {BL : BTCLib} {X R : Type}
    (see : X → gmap Z (option TrackedDelegation)) (log : X → list (option TrackedDelegation))
    (snapshot : M X (gmap Z (option TrackedDelegation))) range
    (yield : option TrackedDelegation → M X (option R)) (Inv : X → Prop) (n : nat) chunkSize s :
  iter_env see log snapshot range yield Inv n → Inv s → log s = [] →
  ∃ s' ks, DelegationsIter snapshot range yield (S n) chunkSize s = (Val None, s') ∧
    key_of <$> log s' = Some <$> ks ∧ NoDup ks ∧ ∀ k, k ∈ dom (see s) → k ∈ ks.
Proof. intros HE Hs Hl. by apply (DelegationsIter_visits see log snapshot range yield Inv n HE). Qed.

(** A loop that records what it visits over a fixed map of two delegations. *)
Definition two_tracked : gmap Z (option TrackedDelegation) :=
  <[50 := Some (mkTracked staking_tx 0 (mkTxOut 900 [2]) 0 false)]>
  (<[60 := Some (mkTracked (spending_tx []) 0 (mkTxOut 900 [2]) 0 false)]> ∅).
Definition record_visit (v : option TrackedDelegation)
  : M (gmap Z (option TrackedDelegation) * list (option TrackedDelegation)) (option unit) :=
  modify (λ s, (fst s, snd s ++ [v])) ;; mret None.

Lemma two_tracked_env :
  iter_env (X := gmap Z (option TrackedDelegation) * list (option TrackedDelegation)) fst snd
    (gets fst) small_range record_visit (λ s, fst s = two_tracked) 2.
Proof.
  split.
  - intros m. apply is_range_refl.
  - intros [m l]. cbn. intros ->. split; [|vm_compute; lia].
    apply map_Forall_insert_2; [by eexists|]. apply map_Forall_insert_2; [by eexists|].
    apply map_Forall_empty.
  - intros s Hs. exists s. done.
  - intros v [m l]. cbn. intros ->. by eexists.
Qed.

Lemma iterator_visits_each_once_witness :
  length (snd (snd (DelegationsIter (gets fst) small_range record_visit 3 1 (two_tracked, [])))) = 2%nat ∧
  ∃ s' ks, DelegationsIter (gets fst) small_range record_visit 3 1 (two_tracked, []) = (Val None, s') ∧
    key_of <$> snd s' = Some <$> ks ∧ NoDup ks ∧ ∀ k, k ∈ dom two_tracked → k ∈ ks.
Proof.
  split; [vm_compute; reflexivity|].
  exact (iterator_visits_each_once _ _ _ _ _ _ _ 1 (two_tracked, []) two_tracked_env eq_refl eq_refl).
Defined.

Lemma filter_all {A} (P : A → Prop) `{∀ x, Decision (P x)} l : Forall P l → filter P l = l.
Proof. induction 1; [done|]. rewrite filter_cons_True by done. by f_equal. Qed.

Lemma dedup_loop_spec seen xs acc :
  dedup_loop seen xs acc = acc ++ filter (λ x, x ∉ seen) (reverse (remove_dups (reverse xs))).
Proof.
  revert seen acc. induction xs as [|x xs IH]; intros seen acc; cbn [dedup_loop].
  { cbn. by rewrite app_nil_r. }
  assert (∀ (ys : list string) z, reverse (remove_dups (ys ++ [z])) =
    z :: filter (λ y, y ≠ z) (reverse (remove_dups ys))) as Hsnoc.
  { intros ys z. induction ys as [|y ys IHy]; [done|]. cbn [app remove_dups].
    destruct (decide_rel elem_of y (ys ++ [z])) as [Hin|Hin], (decide_rel elem_of y ys) as [Hin'|Hin'].
    - done.
    - assert (y = z) as -> by set_solver. rewrite IHy, reverse_cons, filter_app.
      rewrite filter_cons_False by auto. by rewrite filter_nil, app_nil_r.
    - set_solver.
    - rewrite reverse_cons, IHy, reverse_cons, filter_app, filter_cons_True by set_solver. done. }
  rewrite reverse_cons, Hsnoc. case_bool_decide as Hx; rewrite IH.
  - rewrite filter_cons_False by auto. f_equal. rewrite list_filter_filter. apply list_filter_iff.
    intros y. split; [|tauto]. intros Hy. split; [done|]. intros ->. done.
  - rewrite filter_cons_True by done. rewrite <-app_assoc. cbn [app]. do 2 f_equal.
    rewrite list_filter_filter. apply list_filter_iff. set_solver.
Qed.

(** Deduplication keeps first occurrences.  [deduplicateStrings] is the
    library's duplicate removal, which keeps last occurrences, on the reversed
    list. *)
Theorem deduplicateStrings_reference xs :
  deduplicateStrings xs = reverse (remove_dups (reverse xs)) ∧ NoDup (deduplicateStrings xs) ∧
  ∀ k, k ∈ deduplicateStrings xs ↔ k ∈ xs.
Proof.
  assert (deduplicateStrings xs = reverse (remove_dups (reverse xs))) as E.
  { unfold deduplicateStrings. rewrite dedup_loop_spec. cbn [app]. apply filter_all.
    apply Forall_forall. set_solver. }
  split_and!; [done| |apply deduplicateStrings_elem].
  rewrite E, reverse_Permutation. apply NoDup_remove_dups.
Qed.

(** The delegations a block modified are read exactly.  The adapter returns,
    in order, the staking transaction hashes of every event of a wanted type,
    those of the transactions and those of the end of the block. *)
Theorem modified_delegations_exact {BL : BTCLib} {SL : StakingLib} {W : Type}
    {BC : BabylonClientAdapter.BBNClient W} height eventTypes w res w' :
  BabylonClientAdapter.rpc_BlockResults height w = (Val res, w') →
  BabylonClientAdapter.DelegationsModifiedInBlock height eventTypes w =
  (Val (mjoin (BabylonClientAdapter.event_hashes <$>
     filter (λ e, BabylonClientAdapter.ev_Type e ∈ eventTypes)
       (mjoin (BabylonClientAdapter.TxsResults res) ++
        BabylonClientAdapter.FinalizeBlockEvents res))), w').
Proof. apply BabylonClientAdapter.DelegationsModifiedInBlock_exact. Qed.

(** A Babylon client with one block and one delegation that is a stake expansion. *)
Definition expansion_response : BabylonClientAdapter.BTCDelegationResponse :=
  BabylonClientAdapter.mkBTCDelegationResponse "stake" 0 0
    (Some (BabylonClientAdapter.mkUndelegation "unbond" None)) VERIFIED false (Some tt).
#[local] Instance small_bbn : BabylonClientAdapter.BBNClient Z := {|
  BabylonClientAdapter.bbn_BTCDelegations _ _ _ := mret ([expansion_response], None);
  BabylonClientAdapter.bbn_BTCDelegation _ := mret expansion_response;
  BabylonClientAdapter.bbn_MustGetAddr := mret "bbn1";
  BabylonClientAdapter.bbn_ReliablySendMsg _ := mret (Some 0, None);
  BabylonClientAdapter.bbn_BTCHeaderChainTip_Height := mret 100;
  BabylonClientAdapter.bbn_HeaderDepth _ := mret 10;
  BabylonClientAdapter.bbn_BTCCheckpointParams_BtcConfirmationDepth := mret 6;
  BabylonClientAdapter.rpc_Status_LatestBlockHeight := mret 8;
  BabylonClientAdapter.rpc_TxSearch _ _ _ := mret [];
  BabylonClientAdapter.rpc_BlockResults _ := mret (BabylonClientAdapter.mkBlockResults
    [[BabylonClientAdapter.mkEvent "a" [("staking_tx_hash", "50"); ("other", "1")]];
     [BabylonClientAdapter.mkEvent "b" [("staking_tx_hash", "60")]]]
    [BabylonClientAdapter.mkEvent "a" [("staking_tx_hash", "70")]]);
|}.

Lemma modified_delegations_exact_witness :
  fst (BabylonClientAdapter.DelegationsModifiedInBlock 8 ["a"] 0) = Val ["50"; "70"] ∧
  BabylonClientAdapter.DelegationsModifiedInBlock 8 ["a"] 0 =
  (Val (mjoin (BabylonClientAdapter.event_hashes <$>
     filter (λ e, BabylonClientAdapter.ev_Type e ∈ ["a"])
       [BabylonClientAdapter.mkEvent "a" [("staking_tx_hash", "50"); ("other", "1")];
        BabylonClientAdapter.mkEvent "b" [("staking_tx_hash", "60")];
        BabylonClientAdapter.mkEvent "a" [("staking_tx_hash", "70")]])), 0).
Proof.
  split; [vm_compute; reflexivity|].
  exact (modified_delegations_exact 8 ["a"] 0 _ 0 eq_refl).
Defined.

(** A stake expansion fetched at the start is activated like any other
    delegation.  The adapter never marks the delegations of a page as stake
    expansions, so [addToPendingFunc], which would skip them, tracks a verified
    one for activation; fetched by its hash, the same delegation is skipped. *)
Theorem expansion_pages_reach_pending {BL : BTCLib} {SL : StakingLib} {W : Type}
    {BC : BabylonClientAdapter.BBNClient W} status cursor limit w ds next w' d x :
  BabylonClientAdapter.DelegationsByStatus status cursor limit w = (Val (ds, next), w') →
  d ∈ ds → d_HasProof d = false →
  mapping (trackers x pendingTracker) !! TxHash (d_StakingTx d) = None →
  mapping (trackers (snd (addToPendingFunc id d (x, w'))).1 pendingTracker)
    !! TxHash (d_StakingTx d) =
  Some (Some (mkTracked (d_StakingTx d) (d_StakingOutputIdx d) (d_UnbondingOutput d)
                (d_DelegationStartHeight d) false)) ∧
  ∀ d' key v v', BabylonClientAdapter.BTCDelegation key v = (Val (Some d'), v') →
    (∃ r, BabylonClientAdapter.bbn_BTCDelegation key v = (Val r, v') ∧
          BabylonClientAdapter.StkExp r ≠ None) →
    addToPendingFunc id d' (x, v') = (Val tt, (x, v')).
Proof.
  intros Hp Hd Hproof Hnone. split.
  - apply BabylonClientAdapter.DelegationsByStatus_no_expansion in Hp.
    rewrite Forall_forall in Hp. specialize (Hp d Hd).
    unfold addToPendingFunc. cbv zeta. rewrite Hp, bind_unfold.
    unfold on_tracker, atomic, self, zoom, GetDelegation, gets, id. cbn -[lookup insert].
    rewrite Hnone, Hproof. rewrite bind_unfold. unfold try, AddDelegation.
    rewrite bind_unfold. unfold gets. cbn -[lookup insert].
    rewrite !(bool_decide_eq_true_2 (pendingTracker = pendingTracker)) by done.
    rewrite Hnone. cbn -[lookup insert].
    rewrite bind_unfold. cbn -[lookup insert].
    rewrite (bool_decide_eq_true_2 (pendingTracker = pendingTracker)) by done. apply lookup_insert_eq.
  - intros d' key v v' Hb (r & Hr & Hexp). unfold BabylonClientAdapter.BTCDelegation in Hb.
    apply bind_Val_inv in Hb as (r' & v1 & Hr' & Hb). apply wrap_err_Val in Hr'.
    rewrite Hr in Hr'. simplify_eq. apply bind_Val_inv in Hb as (d1 & v2 & Hd1 & Hb).
    unfold mret, M_ret in Hb. simplify_eq.
    apply BabylonClientAdapter.parse_delegation_stkExp in Hd1.
    unfold addToPendingFunc. cbv zeta. rewrite Hd1. by rewrite bool_decide_eq_true_2.
Qed.

Definition expansion_delegation : Delegation :=
  mkDelegation staking_tx 0 0 (mkTxOut 900 [2]) false VERIFIED false false.

Lemma expansion_pages_reach_pending_witness :
  BabylonClientAdapter.StkExp expansion_response = Some tt ∧
  mapping (trackers (snd (addToPendingFunc id expansion_delegation (NewStakingEventWatcher, 0))).1
    pendingTracker) !! 50 = Some (Some (mkTracked staking_tx 0 (mkTxOut 900 [2]) 0 false)).
Proof.
  split; [reflexivity|].
  exact (proj1 (expansion_pages_reach_pending Status_ANY None 10 0 [expansion_delegation] None 0
    expansion_delegation NewStakingEventWatcher eq_refl ltac:(left) eq_refl eq_refl)).
Defined.

(** When a spend counts as the timelock path.  It does exactly when the
    transaction has one output, equal to the delegation's unbonding output, and
    spends the staking output with fewer than four witness elements: a
    withdrawal through the timelock path that pays anywhere else is not
    recognised and is reported to Babylon as an unbonding. *)
Theorem timelock_spend_recognised {BL : BTCLib} {SL : StakingLib} (tx : MsgTx) (td : TrackedDelegation) :
  (∀ b e, ParseSignature b = Err e → errors_Is e ErrSpendPathNotUnbonding = false) →
  timelock_spend tx td ↔
  TxOut tx = [UnbondingOutput td] ∧
  ∃ i txIn, input_idx (TxHash (StakingTx td)) (StakingOutputIdx td) 0 (TxIn tx) = Some i ∧
    slice_index (TxIn tx) i = Val txIn ∧ len (Witness txIn) < 4.
Proof.
  intros Hparse. unfold timelock_spend, tryParseStakerSignatureFromSpentTx.
  destruct (Z.eqb_spec (len (TxOut tx)) 1) as [Hl1|Hl1]; cbn [negb].
  2:{ split; [intros (e & He & Hi); cbn in He; by simplify_eq/=|]. intros [E _]. by rewrite E in Hl1. }
  destruct (TxOut tx) as [|out [|out2 outs]] eqn:Eo; [done| |unfold len in Hl1; cbn in Hl1; lia].
  rewrite bind_unfold. unfold of_outcome at 1.
  assert (slice_index [out] 0 = Val out) as -> by reflexivity.
  destruct (Z.eqb_spec (Value out) (Value (UnbondingOutput td))) as [Hv|Hv]; cbn [negb orb].
  2:{ split; [intros (e & He & Hi); cbn in He; by simplify_eq/=|]. intros [[= ->] _]. done. }
  case_bool_decide as Hs; cbn [negb].
  2:{ split; [intros (e & He & Hi); cbn in He; by simplify_eq/=|]. intros [[= ->] _]. done. }
  assert (out = UnbondingOutput td) as -> by (destruct out, (UnbondingOutput td); cbn in *; congruence).
  rewrite bind_unfold. unfold wrap_err, of_outcome, getStakingTxInputIdx.
  destruct (input_idx _ _ _ _) as [i|] eqn:Ei; cbn.
  2:{ split; [intros (e & He & Hi); cbn in He; by simplify_eq/=|]. intros (_ & i & txIn & Hi & _). done. }
  rewrite bind_unfold. destruct (slice_index (TxIn tx) i) as [txIn|e|p|] eqn:Ex.
  2-4: (split; [intros (e' & He & Hi)|intros (_ & j & t & [= <-] & Ht & _); congruence]).
  2:{ unfold slice_index in Ex. repeat case_match; done. }
  2-3: done.
  destruct (Z.ltb_spec (len (Witness txIn)) 4) as [Hl|Hl].
  - split; [|intros _; by eexists]. intros _. split; [done|]. by exists i, txIn.
  - split.
    + intros (e & He & Hi). exfalso. rewrite bind_unfold in He.
      destruct (slice_index (Witness txIn) _) as [sg|e'|p|] eqn:Es; cbn in He; try done.
      * destruct (ParseSignature sg) as [|e0] eqn:Ep; cbn in He; [done|]. simplify_eq.
        apply Hparse in Ep. congruence.
      * unfold slice_index in Es. repeat case_match; done.
    + intros (_ & j & t & Hj & Ht & Hl'). assert (j = i) as -> by congruence. assert (t = txIn) as -> by congruence. lia.
Qed.

(** A withdrawal after the timelock pays an address of the staker's own. *)
Definition withdrawal_tx : MsgTx :=
  mkMsgTx 2 [mkTxIn (mkOutPoint 50 0) [] [[7]; [5]; [4]] 0] [mkTxOut 950 [8]] 60.
Definition small_tracked : TrackedDelegation := mkTracked staking_tx 0 (mkTxOut 900 [2]) 0 false.

Lemma timelock_spend_recognised_witness :
  timelock_spend (spending_tx [[7]; [5]; [4]]) small_tracked ∧
  (timelock_spend withdrawal_tx small_tracked → False).
Proof.
  split.
  - apply (timelock_spend_recognised (spending_tx [[7]; [5]; [4]]) small_tracked); [done|].
    split; [reflexivity|]. exists 0. eexists. split; [reflexivity|]. split; [reflexivity|].
    vm_compute. reflexivity.
  - intros H. apply (timelock_spend_recognised withdrawal_tx small_tracked) in H; [|done].
    destruct H as [H _]. discriminate H.
Defined.

(** A poll at an unchanged height is refused.  [currentCometTipHeight] is
    the next height to read, one above the tip of the last poll, so when Babylon
    has produced no block since, the poll fails with the error that is meant for
    a tip that moved backwards. *)
Theorem unchanged_tip_is_non_monotonic {BL : BTCLib} {SL : StakingLib} {RT : Retry} {W : Type}
    {BA : BabylonNodeAdapter W} choose s w1 s1 w2 tip :
  is_i64 (tip + 1) → CometBFTTipHeight s.2 = (Val tip, w1) → currentCometTipHeight s.1 < tip →
  fetchCometBftBlockOnce id choose s = (Val tt, s1) →
  CometBFTTipHeight s1.2 = (Val tip, w2) →
  fetchCometBftBlockOnce id choose s1 =
    (Error (ENew "non-monotonic block height detected"), (s1.1, w2)).
Proof.
  intros Hi Htip Hlt Hrun Htip2.
  assert (currentCometTipHeight s1.1 = tip + 1) as Hcur.
  { unfold fetchCometBftBlockOnce in Hrun. rewrite bind_unfold in Hrun.
    unfold wrap_err at 1, atomic, world, zoom, id in Hrun. rewrite Htip in Hrun.
    rewrite bind_unfold in Hrun. unfold load at 1, atomic, self, zoom, gets, id in Hrun.
    cbn -[i64 fetchDelegationsByEvents] in Hrun.
    destruct (Z.ltb_spec tip (currentCometTipHeight s.1)); [lia|].
    destruct (Z.eqb_spec tip (currentCometTipHeight s.1)); [lia|].
    apply bind_Val_inv in Hrun as ([] & s2 & _ & Hst). injection Hst as <-. cbn -[i64].
    by apply i64_id. }
  unfold fetchCometBftBlockOnce. rewrite bind_unfold.
  unfold wrap_err, atomic, world, zoom, id. rewrite Htip2. cbn -[i64].
  rewrite bind_unfold. unfold load, atomic, self, zoom, gets, id. cbn -[i64].
  rewrite Hcur. by destruct (Z.ltb_spec tip (tip + 1)); [|lia].
Qed.

Definition comet_polled : Watcher * Z :=
  snd (fetchCometBftBlockOnce idle never (watcher_tracking.1, 1)).

Lemma unchanged_tip_is_non_monotonic_witness :
  currentCometTipHeight comet_polled.1 = 9 ∧
  fetchCometBftBlockOnce id never comet_polled =
    (Error (ENew "non-monotonic block height detected"), (comet_polled.1, 1)).
Proof.
  split; [vm_compute; reflexivity|].
  apply (unchanged_tip_is_non_monotonic never (watcher_tracking.1, 1) 1 comet_polled 1 8);
    [zrange|vm_compute; reflexivity|vm_compute; reflexivity|vm_compute; reflexivity|].
  vm_compute. reflexivity.
Defined.

(** An update of a delegation whose spend is being handled lets a second
    goroutine handle the same spend.  Receiving a changed delegation replaces
    the entry by one that is not in progress, so the next check of spends starts
    another goroutine while the first still runs. *)
Theorem update_restarts_spend {BL : BTCLib} {SL : StakingLib} {W : Type} {IX : SpendChecker W}
    (nd : newDelegation) (d : TrackedDelegation) x w r w1 :
  mapping (trackers x unbondingTracker) !! TxHash (nd_stakingTx nd) = Some (Some d) →
  InProgress d = true →
  GetOutspend (hash_String (TxHash (nd_stakingTx nd))) (nd_stakingOutputIdx nd) w = (Val r, w1) →
  Spent r = true →
  ∃ d' s1, handle_new_delegation id nd (x, w) = (Val tt, s1) ∧
    mapping (trackers s1.1 unbondingTracker) !! TxHash (nd_stakingTx nd) = Some (Some d') ∧
    InProgress d' = false ∧ goroutines s1.1 = goroutines x ∧
    goroutines (snd (check_one_spend id (Some d') s1)).1 =
      goroutines x ++ [GSpend d' (os_TxID r)].
Proof.
  intros Hd Hp Hr Hs.
  set (d' := mkTracked (nd_stakingTx nd) (nd_stakingOutputIdx nd) (nd_unbondingOutput nd)
               (nd_delegationStartHeight nd) false).
  set (td' := mkTrackedDelegations (<[TxHash (nd_stakingTx nd) := Some d']>
                (mapping (trackers x unbondingTracker))) (count (trackers x unbondingTracker))).
  set (x1 := add_metric (Reporter.MInc "NumberOfTrackedActiveDelegations")
               (set_tracker unbondingTracker td' x)).
  assert (handle_new_delegation id nd (x, w) = (Val tt, (x1, w))) as Hrun.
  { unfold handle_new_delegation. rewrite bind_unfold. unfold try, on_tracker, atomic, self, zoom, id.
    cbn [fst]. unfold AddDelegation. rewrite bind_unfold. unfold gets. rewrite Hd. reflexivity. }
  assert (mapping (trackers x1 unbondingTracker) !! TxHash (nd_stakingTx nd) = Some (Some d')) as Hl.
  { cbn -[lookup insert]. rewrite bool_decide_eq_true_2 by done. apply lookup_insert_eq. }
  exists d', (x1, w). split_and!; [done|exact Hl|done|done|].
  unfold check_one_spend. cbn [InProgress d']. cbv zeta. rewrite bind_unfold.
  unfold try, ask, atomic, id. rewrite bind_unfold. unfold world, zoom. cbn [snd fst].
  cbn [StakingTx StakingOutputIdx d']. rewrite Hr. rewrite bind_unfold. cbn. rewrite Hs. cbn.
  rewrite bind_unfold. unfold on_tracker, atomic, self, zoom, id, UpdateActivation. cbn [fst snd].
  rewrite bind_unfold. unfold gets.
  change (trackers (add_call _ x1) unbondingTracker) with (trackers x1 unbondingTracker).
  cbn [StakingTx d']. rewrite Hl. reflexivity.
Qed.

Definition busy_watcher : Watcher :=
  set_tracker unbondingTracker
    (mkTrackedDelegations {[50 := Some (set_InProgress true small_tracked)]} 1) NewStakingEventWatcher.

Lemma update_restarts_spend_witness :
  ∃ d' s1, handle_new_delegation id (mkNewDelegation 50 staking_tx 0 90 (mkTxOut 900 [2]))
      (busy_watcher, 0) = (Val tt, s1) ∧
    mapping (trackers s1.1 unbondingTracker) !! 50 = Some (Some d') ∧
    InProgress d' = false ∧ goroutines s1.1 = [] ∧
    goroutines (snd (check_one_spend id (Some d') s1)).1 = [GSpend d' "60"].
Proof.
  exact (update_restarts_spend (mkNewDelegation 50 staking_tx 0 90 (mkTxOut 900 [2]))
    (set_InProgress true small_tracked) busy_watcher 0 (mkOutspend true "60") 0
    eq_refl eq_refl eq_refl eq_refl).
Defined.
