(* ===== verification/Slasher.v ===== *)
(** * The BTC slasher ([btcstaking-tracker/btcslasher])

    [slasher.go], [slasher_utils.go], [bootstrapping.go] and [btc_utils.go].
    Babylon's and btcd's cryptography is the interface [SlashingLib]; Babylon's
    queries are [SlasherQuery].  [SlashFinalityProvider] spawns one goroutine per
    delegation: they are kept in [slashings] and their body is
    [slashBTCDelegation].  Each of its rounds starts two goroutines, one per path of
    the delegation, that race: a schedule tells which of them takes its next step
    (a step makes at most one call) and what the round receives; those that are left
    running when a round ends are kept in [strays].  The calls whose order the
    properties speak about are kept in [sl_calls].  The per-provider semaphore only
    delays goroutines and is left out (SlasherShutdown.v has it); the shutdown is
    modelled where its cancellation ends a round or a retry, and not for the push of a
    result. *)

From S2P Require Import Prelude GoFloat Blocks Retry StakingTypes Stores.
From S2P Require Reporter.
Import Reporter (metric_event(..)).

Definition defaultPaginationLimit : Z := 100.
Definition maxBurnAmountBTC : float64 := f64_of_int 50000.
Definition ErrNotSlashable : string := "delegation is not slashable".
Definition context_Canceled : string := "context.Canceled".

(** ** Data *)
Class SlashingKeys := {
  PrivKey : Type;                        (** [*btcec.PrivateKey] *)
  PubKey : Type;                         (** [bbn.BIP340PubKey] *)
  PubKey_eq_dec :: EqDecision PubKey;    (** [Equals] *)
  (** [bbn.NewBIP340PubKeyFromBTCPK(sk.PubKey())] *)
  pub_of : PrivKey → PubKey;
  MarshalHex : PubKey → string;
  NewBIP340PubKeyFromHex : string → result PubKey;
  CovenantSig : Type;                    (** [CovenantAdaptorSignatures] *)
}.

Section data.
Context {SK : SlashingKeys}.

Record Undelegation := mkUndel {
  un_UnbondingTxHex : string;
  un_SlashingTxHex : string;
  un_DelegatorSlashingSigHex : string;
  CovenantSlashingSigs : list CovenantSig;
}.

(** [bstypes.BTCDelegationResponse] *)
Record DelegationResponse := mkDelResponse {
  dr_BtcPk : PubKey;
  FpBtcPkList : list PubKey;
  dr_StartHeight : Z;
  EndHeight : Z;
  TotalSat : Z;
  dr_StakingTxHex : string;
  SlashingTxHex : string;
  DelegatorSlashSigHex : string;
  CovenantSigs : list CovenantSig;
  dr_StakingOutputIdx : Z;
  dr_Active : bool;
  dr_StatusDesc : string;
  UnbondingTime : Z;
  dr_Undelegation : option Undelegation;
  ParamsVersion : Z;
}.

(** [bstypes.Params] *)
Record StakingParams := mkStakingParams { CovenantQuorum : Z; CovenantPks : list PubKey }.

(** [ftypes.EvidenceResponse]; the signatures and hashes are one value. *)
Record EvidenceResponse := mkEvidence {
  FpBtcPkHex : string;
  BlockHeight : Z;
  ev_Proof : list Z;
}.

Record SlashResult := mkSlashResult {
  sr_Del : DelegationResponse;
  SlashingTxHash : option Hash;
  sr_Err : option gerror;
}.
End data.

Class SlashingLib {BL : BTCLib} {SL : StakingLib} {SK : SlashingKeys} := {
  (** [Evidence.ExtractBTCSK] of the evidence with its parsed key *)
  ExtractBTCSK : PubKey → EvidenceResponse → result PrivKey;
  BTCSlashingTx : Type;
  NewBTCSlashingTxFromHex : string → result BTCSlashingTx;
  MustGetTxHash : BTCSlashingTx → Hash;
  NewBTCTxFromBytes : bytes → result MsgTx;
  BTCPK : Type;
  NewBTCPKsFromBIP340PKs : list PubKey → result (list BTCPK);
  MustToBTCPK : PubKey → BTCPK;
  StakingInfo : Type;
  SpendInfo : Type;
  (** staker, finality providers, covenants, quorum, timelock, amount *)
  BuildStakingInfo : BTCPK → list BTCPK → list BTCPK → Z → Z → Z → result StakingInfo;
  BuildUnbondingInfo : BTCPK → list BTCPK → list BTCPK → Z → Z → Z → result StakingInfo;
  SlashingPathSpendInfo : StakingInfo → result SpendInfo;
  AdaptorSig : Type;
  GetOrderedCovenantSignatures : Z → list CovenantSig → StakingParams → result (list AdaptorSig);
  BIP340Signature : Type;
  NewBIP340SignatureFromHex : string → result BIP340Signature;
  slashTx_BuildSlashingTxWithWitness : BTCSlashingTx → PrivKey → list PubKey → MsgTx → Z →
    BIP340Signature → list AdaptorSig → Z → SpendInfo → result MsgTx;
  EqualFold : string → string → bool;    (** [strings.EqualFold] *)
}.

(** [BabylonQueryClient]; a page ends the listing when its key is [nil]. *)
Class SlasherQuery {SK : SlashingKeys} (W : Type) := {
  sq_CheckpointFinalizationTimeout : M W Z;
  sq_BtcConfirmationDepth : M W Z;
  sq_BTCStakingParamsByVersion : Z → M W StakingParams;
  (** the delegations of each delegator *)
  sq_FinalityProviderDelegations : string → option bytes →
    M W (list (list DelegationResponse) * option bytes);
  sq_ListEvidences : Z → option bytes → M W (list EvidenceResponse * option bytes);
}.

(** ** State *)
Section state.
Context {SK : SlashingKeys}.

Inductive sl_call :=
(** pages received, with the key of the next page *)
| SEvidences (startHeight : Z) (evidences : list EvidenceResponse) (next : option bytes)
| SDelegations (fpBTCPKHex : string) (dels : list DelegationResponse) (next : option bytes)
(** [GetRawTransaction] failed: the node does not have the transaction, or the call
    itself failed *)
| SNotReturned (slashingTxHash : Hash)
| STxOut (txHash : Hash) (idx : Z) (unspent : bool)
| SSend (tx : MsgTx).

(** Where an attempt of [sendSlashingTx] is: before it asks for the slashing
    transaction, before it asks for the output, before it asks for the parameters,
    before the broadcast, after it, waiting for the depth, ended, and in a call that
    never returns. *)
Inductive attempt_pc :=
| PcStart
| PcNotReturned
| PcSpendable
| PcParams (bsParams : StakingParams)
| PcSent (tx : MsgTx) (txHash : Hash)
| PcWait (tx : MsgTx) (txHash : Hash) (depth : Z)
| PcDone (r : result Hash)
| PcStuck.

(** An attempt that its round left running. *)
Record stray := mkStray {
  st_key : PrivKey;
  st_del : DelegationResponse;
  st_unbonding : bool;
  st_pc : attempt_pc;
}.

Record BTCSlasher := mkSlasher {
  btcFinalizationTimeout : Z;
  height : Z;
  slashResultChan : list SlashResult;
  slashings : list (PrivKey * DelegationResponse);
  strays : list stray;
  sl_metrics : list metric_event;
  sl_calls : list sl_call;
}.
Definition set_timeout (t : Z) (b : BTCSlasher) : BTCSlasher :=
  mkSlasher t (height b) (slashResultChan b) (slashings b) (strays b) (sl_metrics b) (sl_calls b).
Definition set_height (h : Z) (b : BTCSlasher) : BTCSlasher :=
  mkSlasher (btcFinalizationTimeout b) h (slashResultChan b) (slashings b) (strays b)
    (sl_metrics b) (sl_calls b).
Definition set_results (r : list SlashResult) (b : BTCSlasher) : BTCSlasher :=
  mkSlasher (btcFinalizationTimeout b) (height b) r (slashings b) (strays b) (sl_metrics b)
    (sl_calls b).
Definition add_slashings (l : list (PrivKey * DelegationResponse)) (b : BTCSlasher) : BTCSlasher :=
  mkSlasher (btcFinalizationTimeout b) (height b) (slashResultChan b) (slashings b ++ l)
    (strays b) (sl_metrics b) (sl_calls b).
Definition set_strays (l : list stray) (b : BTCSlasher) : BTCSlasher :=
  mkSlasher (btcFinalizationTimeout b) (height b) (slashResultChan b) (slashings b) l
    (sl_metrics b) (sl_calls b).
Definition sl_add_metric (m : metric_event) (b : BTCSlasher) : BTCSlasher :=
  mkSlasher (btcFinalizationTimeout b) (height b) (slashResultChan b) (slashings b) (strays b)
    (sl_metrics b ++ [m]) (sl_calls b).
Definition sl_add_call (c : sl_call) (b : BTCSlasher) : BTCSlasher :=
  mkSlasher (btcFinalizationTimeout b) (height b) (slashResultChan b) (slashings b) (strays b)
    (sl_metrics b) (sl_calls b ++ [c]).
End state.

Section slasher.
Context {BL : BTCLib} {SL : StakingLib} {RT : Retry} {SK : SlashingKeys} {SLB : SlashingLib}
  {W D : Type} {BTC : StakingBTCClient W} {BQ : SlasherQuery W} {KV : KVDB D}.

Notation St := (BTCSlasher * D * W)%type.
Notation SM A := (M St A).

Definition sl_self {A} (m : M BTCSlasher A) : SM A :=
  zoom (λ s, fst (fst s)) (λ b s, (b, snd (fst s), snd s)) m.
Definition sl_store {A} (m : M D A) : SM A :=
  zoom (λ s, snd (fst s)) (λ d s, (fst (fst s), d, snd s)) m.
Definition sl_world {A} (m : M W A) : SM A := zoom snd (λ w s, (fst s, w)) m.
Definition sl_emit (m : metric_event) : SM unit := sl_self (modify (sl_add_metric m)).
Definition sl_note (c : sl_call) : SM unit := sl_self (modify (sl_add_call c)).

(** [New] *)
Definition New : M D BTCSlasher :=
  SlasherStore.NewSlasherStore ;; mret (mkSlasher 0 0 [] [] [] [] []).

Definition LoadParams : SM unit :=
  t ← sl_self (gets btcFinalizationTimeout);
  if negb (t =? 0) then mret tt
  else
    timeout ← sl_world sq_CheckpointFinalizationTimeout;
    sl_self (modify (set_timeout timeout)).

(** [Start]: the goroutines it spawns. *)
Inductive slasher_routine := FetchEvidences | SlashingEnforcer.
Definition Slasher_Start : SM (list slasher_routine) :=
  LoadParams ;; mret [FetchEvidences; SlashingEnforcer].

(** ** Which delegations are slashed *)

(** The body of the inner loop.  [paramsMap] is read and never written, so the
    parameters are queried for every delegation. *)
Definition classify (acc : list DelegationResponse * list DelegationResponse)
    (del : DelegationResponse) : SM (list DelegationResponse * list DelegationResponse) :=
  let '(activeDels, unbondedDels) := acc in
  r ← try (sl_world (sq_BTCStakingParamsByVersion (ParamsVersion del)));
  match r with
  | Err _ => fail (ENew "failed to get BTC staking parameter at version")
  | Ok bsParams =>
      let activeDels := if dr_Active del then activeDels ++ [del] else activeDels in
      if EqualFold (dr_StatusDesc del) UNBONDED then
        match dr_Undelegation del with
        | None => panic "nil pointer dereference"
        | Some undel =>
            if CovenantQuorum bsParams <=? len (CovenantSlashingSigs undel)
            then mret (activeDels, unbondedDels ++ [del])
            else mret (activeDels, unbondedDels)
        end
      else mret (activeDels, unbondedDels)
  end.

Fixpoint delegations_loop (fuel : nat) (pkHex : string) (key : option bytes)
    (acc : list DelegationResponse * list DelegationResponse)
  : SM (list DelegationResponse * list DelegationResponse) :=
  match fuel with
  | O => diverge
  | S fuel =>
      resp ← wrap_err "failed to get BTC delegations under finality provider"
               (sl_world (sq_FinalityProviderDelegations pkHex key));
      sl_note (SDelegations pkHex (mjoin (fst resp)) (snd resp)) ;;
      acc ← for_fold (fst resp) acc (λ acc dels, for_fold dels acc classify);
      match snd resp with
      | None => mret acc
      | Some key => delegations_loop fuel pkHex (Some key) acc
      end
  end.
Definition getAllActiveAndUnbondedBTCDelegations (fuel : nat) (fpBTCPK : PubKey)
  : SM (list DelegationResponse * list DelegationResponse) :=
  delegations_loop fuel (MarshalHex fpBTCPK) None ([], []).

Definition SlashFinalityProvider (fuel : nat) (extractedFpBTCSK : PrivKey) : SM unit :=
  let fpBTCPK := pub_of extractedFpBTCSK in
  dels ← wrap_err "failed to get BTC delegations under finality provider"
           (getAllActiveAndUnbondedBTCDelegations fuel fpBTCPK);
  let delegations := fst dels ++ snd dels in
  sl_self (modify (add_slashings ((λ d, (extractedFpBTCSK, d)) <$> delegations))) ;;
  sl_emit (MInc "SlashedFinalityProvidersCounter").

(** ** Evidences *)

(** [multierror.Append(accumulatedErrs, err)] *)
Definition append_err (acc : option gerror) (err : gerror) : option gerror :=
  match acc with None => Some err | Some e => Some (EJoin e err) end.

(** The body of the loop of [processEvidencesFromHeight] on its variables
    [lastSlashedHeight] and [accumulatedErrs]. *)
Definition process_evidence (fuel : nat) (vars : Z * option gerror) (evidence : EvidenceResponse)
  : SM (Z * option gerror) :=
  let '(lastSlashedHeight, accumulatedErrs) := vars in
  match NewBIP340PubKeyFromHex (FpBtcPkHex evidence) with
  | Err err => mret (lastSlashedHeight, append_err accumulatedErrs (EWrap "err parsing fp btc" err))
  | Ok btcPK =>
      match ExtractBTCSK btcPK evidence with
      | Err err => mret (lastSlashedHeight, append_err accumulatedErrs err)
      | Ok fpBTCSK =>
          r ← try (SlashFinalityProvider fuel fpBTCSK);
          match r with
          | Err err => mret (lastSlashedHeight, append_err accumulatedErrs err)
          | Ok _ =>
              mret (if lastSlashedHeight <? BlockHeight evidence then BlockHeight evidence
                    else lastSlashedHeight, accumulatedErrs)
          end
      end
  end.

(** The pages of [handleAllEvidences]; the error of the handler is logged. *)
Fixpoint handleAllEvidences (fuel : nat) (startHeight : Z) (key : option bytes)
    (handleFunc : Z * option gerror → list EvidenceResponse → SM (Z * option gerror))
    (vars : Z * option gerror) : SM (Z * option gerror) :=
  match fuel with
  | O => diverge
  | S fuel =>
      resp ← wrap_err "failed to get evidences" (sl_world (sq_ListEvidences startHeight key));
      sl_note (SEvidences startHeight (fst resp) (snd resp)) ;;
      vars ← handleFunc vars (fst resp);
      match snd resp with
      | None => mret vars
      | Some key => handleAllEvidences fuel startHeight (Some key) handleFunc vars
      end
  end.

Definition processEvidencesFromHeight (fuel : nat) (startHeight : Z) : SM Z :=
  vars ← wrap_err "failed to process evidences from height"
           (handleAllEvidences fuel startHeight None
              (λ vars evidences, for_fold evidences vars (process_evidence fuel)) (0, None));
  match snd vars with
  | None => mret (fst vars)
  | Some accumulatedErrs => fail accumulatedErrs
  end.

Definition LastEvidencesHeight : SM (option Z) := sl_store SlasherStore.LastProcessedHeight.

Definition Bootstrap (fuel : nat) (startHeight : Z) : SM unit :=
  (if 0 <? startHeight then sl_self (modify (set_height startHeight)) else mret tt) ;;
  LoadParams ;;
  lastSlashedHeight ← wrap_err "failed to bootstrap BTC slasher"
                        (processEvidencesFromHeight fuel startHeight);
  if 0 <? lastSlashedHeight then
    sl_self (modify (set_height (u64 (lastSlashedHeight + 1)))) ;;
    wrap_err "failed to store last processed height"
      (sl_store (SlasherStore.PutHeight lastSlashedHeight))
  else mret tt.

(** A tick of [fetchEvidences]. *)
Definition fetchEvidences_tick (fuel : nat) : SM unit :=
  h ← sl_self (gets height);
  r ← try (processEvidencesFromHeight fuel h);
  match r with
  | Err _ => mret tt
  | Ok lastSlashedHeight =>
      if 0 <? lastSlashedHeight then
        sl_self (modify (set_height (u64 (lastSlashedHeight + 1)))) ;;
        try (sl_store (SlasherStore.PutHeight lastSlashedHeight)) ;; mret tt
      else mret tt
  end.

(** [BTCStakingTracker.Bootstrap]: resumes at the stored height. *)
Definition tracker_Bootstrap (fuel : nat) (startHeight : Z) : SM unit :=
  last ← wrap_err "failed to get last processed evidences height" LastEvidencesHeight;
  let startHeight := match last with Some h => h | None => startHeight end in
  wrap_err "failed to bootstrap BTC staking tracker" (Bootstrap fuel startHeight).

(** ** Building the slashing transaction *)
Record SlashingConfig := mkSlashingConfig {
  cfg_TxHex : string;
  cfg_SlashingTxHex : string;
  cfg_SlashingSigHex : string;
  cfg_CovenantSigs : list CovenantSig;
  cfg_OutputIdx : Z;
  InfoBuilder : outcome StakingInfo;
}.

Fixpoint find_fp (fpBTCPK : PubKey) (i : Z) (pks : list PubKey) : option Z :=
  match pks with
  | [] => None
  | pk :: pks => if bool_decide (pk = fpBTCPK) then Some i else find_fp fpBTCPK (i + 1) pks
  end.
Definition findFPIdxForCovenantSignatures (fpBTCPK : PubKey) (fpBtcPkList : list PubKey) : outcome Z :=
  match find_fp fpBTCPK 0 fpBtcPkList with
  | Some i => Val i
  | None => Error (ENew "the given finality provider's PK is not found in the BTC delegation")
  end.

Definition buildSlashingTxWithWitness (d : DelegationResponse) (bsParams : StakingParams)
    (fpSK : PrivKey) (config : SlashingConfig) : outcome MsgTx :=
  obind (owrap "failed to convert tx to wire.MsgTx" (oresult (NewBTCTxFromHex (cfg_TxHex config)))) (λ msgTx,
  obind (owrap "could not create staking info" (InfoBuilder config)) (λ stakingInfo,
  obind (owrap "could not get slashing spend info" (oresult (SlashingPathSpendInfo stakingInfo)))
    (λ slashingSpendInfo,
  obind (findFPIdxForCovenantSignatures (pub_of fpSK) (FpBtcPkList d)) (λ fpIdx,
  obind (owrap "failed to get ordered covenant adaptor signatures"
    (oresult (GetOrderedCovenantSignatures fpIdx (cfg_CovenantSigs config) bsParams))) (λ covAdaptorSigs,
  obind (owrap "failed to parse delegator slashing signature"
    (oresult (NewBIP340SignatureFromHex (cfg_SlashingSigHex config)))) (λ delSlashingSig,
  obind (oresult (NewBTCSlashingTxFromHex (cfg_SlashingTxHex config))) (λ slashTx,
  owrap "failed to build witness for BTC delegation"
    (oresult (slashTx_BuildSlashingTxWithWitness slashTx fpSK (FpBtcPkList d) msgTx
       (cfg_OutputIdx config) delSlashingSig covAdaptorSigs (CovenantQuorum bsParams)
       slashingSpendInfo))))))))).

Definition u16 (z : Z) : Z := z mod 2 ^ 16.

Definition BuildUnbondingSlashingTxWithWitness (d : DelegationResponse) (bsParams : StakingParams)
    (fpSK : PrivKey) : outcome MsgTx :=
  if 2 ^ 16 - 1 <? UnbondingTime d then Panic "unbondingTime exceeds maximum for uint16"
  else
    match dr_Undelegation d with
    | None => Panic "nil pointer dereference"
    | Some undel =>
        buildSlashingTxWithWitness d bsParams fpSK
          (mkSlashingConfig (un_UnbondingTxHex undel) (un_SlashingTxHex undel)
             (un_DelegatorSlashingSigHex undel) (CovenantSlashingSigs undel) 0
             (obind (oresult (NewBTCTxFromHex (un_UnbondingTxHex undel))) (λ unbondingMsgTx,
              obind (oresult (NewBTCPKsFromBIP340PKs (FpBtcPkList d))) (λ fpBtcPkList,
              obind (oresult (NewBTCPKsFromBIP340PKs (CovenantPks bsParams))) (λ covenantBtcPkList,
              obind (slice_index (TxOut unbondingMsgTx) 0) (λ out,
              oresult (BuildUnbondingInfo (MustToBTCPK (dr_BtcPk d)) fpBtcPkList covenantBtcPkList
                (CovenantQuorum bsParams) (u16 (UnbondingTime d)) (Value out))))))))
    end.

(** The staking time is the difference of two [uint32]s, cut to 16 bits. *)
Definition BuildSlashingTxWithWitness (d : DelegationResponse) (bsParams : StakingParams)
    (fpSK : PrivKey) : outcome MsgTx :=
  if 2 ^ 63 - 1 <? TotalSat d then Panic "TotalSat exceeds int64 range"
  else
    buildSlashingTxWithWitness d bsParams fpSK
      (mkSlashingConfig (dr_StakingTxHex d) (SlashingTxHex d) (DelegatorSlashSigHex d)
         (CovenantSigs d) (dr_StakingOutputIdx d)
         (obind (oresult (NewBTCPKsFromBIP340PKs (FpBtcPkList d))) (λ fpBtcPkList,
          obind (oresult (NewBTCPKsFromBIP340PKs (CovenantPks bsParams))) (λ covenantBtcPkList,
          oresult (BuildStakingInfo (MustToBTCPK (dr_BtcPk d)) fpBtcPkList covenantBtcPkList
            (CovenantQuorum bsParams) (u16 (u32 (EndHeight d - dr_StartHeight d))) (TotalSat d)))))).

(** ** Sending it *)

(** Every error of [GetRawTransaction] is taken to mean that the transaction was not
    submitted. *)
Definition isTxSubmittedToBitcoin (txHash : Hash) : SM bool :=
  r ← try (sl_world (sb_GetRawTransaction txHash));
  match r with
  | Ok _ => mret true
  | Err _ => sl_note (SNotReturned txHash) ;; mret false
  end.

Definition isTaprootOutputSpendable (txBytes : bytes) (outIdx : Z) : SM bool :=
  stakingMsgTx ← wrap_err "failed to convert staking tx to MsgTx" (of_result (NewBTCTxFromBytes txBytes));
  let stakingMsgTxHash := TxHash stakingMsgTx in
  unspent ← wrap_err "failed to get the output of tx" (sl_world (sb_GetTxOut stakingMsgTxHash outIdx true));
  sl_note (STxOut stakingMsgTxHash outIdx unspent) ;;
  mret unspent.

(** One attempt of [waitForTxKDeep]; the depth is computed on [uint32]s. *)
Definition k_deep (txHash : Hash) (pkScript : bytes) (k : Z) : SM unit :=
  r ← wrap_err "failed to get tx details" (sl_world (sb_TxDetails txHash pkScript));
  match r with
  | (details, TxInChain) =>
      tip ← wrap_err "failed to get best block" (sl_world sb_GetBestBlock);
      match details with
      | None => panic "nil pointer dereference"
      | Some details =>
          if k <=? u32 (tip - tc_BlockHeight details) then mret tt
          else fail (ENew "not deep enough")
      end
  | _ => fail (ENew "tx not in chain")
  end.
Definition waitForTxKDeep (txHash : Hash) (pkScript : bytes) (k : Z) : SM unit :=
  retry_Do (mkRetryOpts 0 (λ _, true) true true) (k_deep txHash pkScript k).

(** The slashing transaction of the staking or of the unbonding path. *)
Definition slashing_tx_of (del : DelegationResponse) (isUnbondingSlashingTx : bool)
  : outcome BTCSlashingTx :=
  if isUnbondingSlashingTx then
    match dr_Undelegation del with
    | None => Panic "nil pointer dereference"
    | Some undel => oresult (NewBTCSlashingTxFromHex (un_SlashingTxHex undel))
    end
  else oresult (NewBTCSlashingTxFromHex (SlashingTxHex del)).

(** The output it spends: the bytes of the transaction and the index. *)
Definition slashed_output (del : DelegationResponse) (isUnbondingSlashingTx : bool)
  : outcome (list Z * Z) :=
  if isUnbondingSlashingTx then
    match dr_Undelegation del with
    | None => Panic "nil pointer dereference"
    | Some undel => obind (oresult (hex_DecodeString (un_UnbondingTxHex undel))) (λ b, Val (b, 0))
    end
  else obind (oresult (hex_DecodeString (dr_StakingTxHex del))) (λ b, Val (b, dr_StakingOutputIdx del)).

Definition build_with_witness (sk : PrivKey) (del : DelegationResponse) (isUnbondingSlashingTx : bool)
    (bsParams : StakingParams) : outcome MsgTx :=
  if isUnbondingSlashingTx then BuildUnbondingSlashingTxWithWitness del bsParams sk
  else BuildSlashingTxWithWitness del bsParams sk.

(** The end of [sendSlashingTx]: build, broadcast and wait. *)
Definition submit_slashing_tx (sk : PrivKey) (del : DelegationResponse) (isUnbondingSlashingTx : bool)
    (bsParams : StakingParams) : SM Hash :=
  tx ← wrap_err "failed to build witness for BTC delegation"
         (of_outcome (build_with_witness sk del isUnbondingSlashingTx bsParams));
  sl_note (SSend tx) ;;
  txHash ← wrap_err "failed to submit slashing tx"
             (sl_world (sb_SendRawTransactionWithBurnLimit tx true maxBurnAmountBTC));
  r ← try (sl_world sq_BtcConfirmationDepth);
  match r with
  | Err _ => fail (ENew "failed to get BTC staking parameter at version")
  | Ok depth =>
      out ← of_outcome (slice_index (TxOut tx) 0);
      waitForTxKDeep txHash (PkScript out) depth ;;
      mret txHash
  end.

Definition sendSlashingTx (extractedfpBTCSK : PrivKey) (del : DelegationResponse)
    (isUnbondingSlashingTx : bool) : SM Hash :=
  slashTx ← of_outcome (slashing_tx_of del isUnbondingSlashingTx);
  let txHash := MustGetTxHash slashTx in
  submitted ← isTxSubmittedToBitcoin txHash;
  if (submitted : bool) then mret txHash
  else
    output ← of_outcome (slashed_output del isUnbondingSlashingTx);
    spendable ← wrap_err "failed to check if BTC delegation is slashable"
                  (isTaprootOutputSpendable (fst output) (snd output));
    if negb spendable
    then fail (EWrap "the staking/unbonding tx is not slashable" (ESentinel ErrNotSlashable))
    else
      r ← try (sl_world (sq_BTCStakingParamsByVersion (ParamsVersion del)));
      match r with
      | Err _ => fail (ENew "failed to get BTC staking parameter at version")
      | Ok bsParams => submit_slashing_tx extractedfpBTCSK del isUnbondingSlashingTx bsParams
      end.

(** ** Slashing one delegation *)

(** One step of an attempt: the code of [sendSlashingTx] up to and including its next
    call. *)
Definition attempt_step (sk : PrivKey) (del : DelegationResponse) (isUnbonding : bool)
    (pc : attempt_pc) : SM attempt_pc :=
  match pc with
  | PcStart =>
      slashTx ← of_outcome (slashing_tx_of del isUnbonding);
      let txHash := MustGetTxHash slashTx in
      submitted ← isTxSubmittedToBitcoin txHash;
      mret (if (submitted : bool) then PcDone (Ok txHash) else PcNotReturned)
  | PcNotReturned =>
      output ← of_outcome (slashed_output del isUnbonding);
      spendable ← wrap_err "failed to check if BTC delegation is slashable"
                    (isTaprootOutputSpendable (fst output) (snd output));
      if negb spendable
      then fail (EWrap "the staking/unbonding tx is not slashable" (ESentinel ErrNotSlashable))
      else mret PcSpendable
  | PcSpendable =>
      r ← try (sl_world (sq_BTCStakingParamsByVersion (ParamsVersion del)));
      match r with
      | Err _ => fail (ENew "failed to get BTC staking parameter at version")
      | Ok bsParams => mret (PcParams bsParams)
      end
  | PcParams bsParams =>
      tx ← wrap_err "failed to build witness for BTC delegation"
             (of_outcome (build_with_witness sk del isUnbonding bsParams));
      sl_note (SSend tx) ;;
      txHash ← wrap_err "failed to submit slashing tx"
                 (sl_world (sb_SendRawTransactionWithBurnLimit tx true maxBurnAmountBTC));
      mret (PcSent tx txHash)
  | PcSent tx txHash =>
      r ← try (sl_world sq_BtcConfirmationDepth);
      match r with
      | Err _ => fail (ENew "failed to get BTC staking parameter at version")
      | Ok depth => mret (PcWait tx txHash depth)
      end
  | PcWait tx txHash depth =>
      out ← of_outcome (slice_index (TxOut tx) 0);
      waitForTxKDeep txHash (PkScript out) depth ;;
      mret (PcDone (Ok txHash))
  | PcDone r => mret (PcDone r)
  | PcStuck => mret PcStuck
  end.

(** An error ends the attempt, a call that never returns holds only its goroutine, a
    panic ends the process. *)
Definition attempt_run (sk : PrivKey) (del : DelegationResponse) (isUnbonding : bool)
    (pc : attempt_pc) : SM attempt_pc := λ s,
  match attempt_step sk del isUnbonding pc s with
  | (Error e, s') => (Val (PcDone (Err e)), s')
  | (Diverge, s') => (Val PcStuck, s')
  | r => r
  end.

Definition running (pc : attempt_pc) : bool :=
  match pc with PcDone _ | PcStuck => false | _ => true end.

(** A step of an attempt that was left running. *)
Definition stray_step (i : nat) : SM unit :=
  l ← sl_self (gets strays);
  match l !! i with
  | None => mret tt
  | Some st =>
      pc ← attempt_run (st_key st) (st_del st) (st_unbonding st) (st_pc st);
      sl_self (modify (λ b, set_strays
        (<[i := mkStray (st_key st) (st_del st) (st_unbonding st) pc]> (strays b)) b))
  end.

(** One round: its two attempts, [txHashChan] (buffer of one), [errChan] (buffer of
    two) and [err1]. *)
Record round := mkRound {
  rd_pcs : attempt_pc * attempt_pc;      (** staking, unbonding *)
  rd_hash : option Hash;
  rd_errs : list gerror;
  rd_err1 : option gerror;
}.
Definition new_round : round := mkRound (PcStart, PcStart) None [] None.

(** What happens next: a step of an attempt, a step of one left by an earlier round,
    and what the [select] of the round takes. *)
Inductive race_event :=
| RunAttempt (isUnbonding : bool)
| RunStray (i : nat)
| TakeHash
| TakeErr
| TakeQuit.                              (** [<-ctx.Done()] *)

(** How the closure returns: with a hash, with [nil], with an error. *)
Inductive round_end := EndHash (h : Hash) | EndNil | EndErr (e : gerror).

Definition set_pc (isUnbonding : bool) (pc : attempt_pc) (rd : round) : round :=
  let pcs := if isUnbonding then (fst (rd_pcs rd), pc) else (pc, snd (rd_pcs rd)) in
  match pc with
  | PcDone (Ok h) =>
      mkRound pcs (match rd_hash rd with None => Some h | Some h' => Some h' end)
        (rd_errs rd) (rd_err1 rd)
  | PcDone (Err e) => mkRound pcs (rd_hash rd) (rd_errs rd ++ [e]) (rd_err1 rd)
  | _ => mkRound pcs (rd_hash rd) (rd_errs rd) (rd_err1 rd)
  end.

(** The end of a round with two errors. *)
Definition two_errors (err1 err2 : gerror) : round_end :=
  if errors_Is err1 ErrNotSlashable && errors_Is err2 ErrNotSlashable then EndNil
  else
    let accumulatedErr := EJoin err1 err2 in
    if errors_Is accumulatedErr context_Canceled then EndNil else EndErr accumulatedErr.

(** The round on its events; [None]: it has not returned.  An event that is not
    possible does nothing. *)
Fixpoint run_round (sk : PrivKey) (del : DelegationResponse) (evs : list race_event) (rd : round)
  : SM (option round_end * round) :=
  match evs with
  | [] => mret (None, rd)
  | RunAttempt isUnbonding :: evs =>
      let pc := (if isUnbonding then snd else fst) (rd_pcs rd) in
      if running pc then
        pc ← attempt_run sk del isUnbonding pc;
        run_round sk del evs (set_pc isUnbonding pc rd)
      else run_round sk del evs rd
  | RunStray i :: evs => stray_step i ;; run_round sk del evs rd
  | TakeHash :: evs =>
      match rd_hash rd with
      | Some h => mret (Some (EndHash h), rd)
      | None => run_round sk del evs rd
      end
  | TakeErr :: evs =>
      match rd_errs rd, rd_err1 rd with
      | [], _ => run_round sk del evs rd
      | e :: errs, None => run_round sk del evs (mkRound (rd_pcs rd) (rd_hash rd) errs (Some e))
      | err2 :: _, Some err1 => mret (Some (two_errors err1 err2), rd)
      end
  | TakeQuit :: evs =>
      match rd_err1 rd with
      | None => mret (Some EndNil, rd)
      | Some _ => run_round sk del evs rd
      end
  end.

(** The attempts a round leaves running. *)
Definition left_running (sk : PrivKey) (del : DelegationResponse) (rd : round) : list stray :=
  filter (λ st, running (st_pc st) = true)
    [mkStray sk del false (fst (rd_pcs rd)); mkStray sk del true (snd (rd_pcs rd))].

(** The retried closure on its variable [txHash], with the schedules of this and the
    further rounds; a schedule that ends before the round is one in which it never
    returns. *)
Definition slash_attempt (sk : PrivKey) (del : DelegationResponse)
  : M (St * (option Hash * list (list race_event))) unit := λ '(s, (txHash, scheds)),
  match run_round sk del (default [] (head scheds)) new_round s with
  | (Val (end_, rd), s1) =>
      let s2 := (set_strays (strays (fst (fst s1)) ++ left_running sk del rd) (fst (fst s1)),
                 snd (fst s1), snd s1) in
      match end_ with
      | None => (Diverge, (s2, (txHash, tail scheds)))
      | Some (EndHash h) => (Val tt, (s2, (Some h, tail scheds)))
      | Some EndNil => (Val tt, (s2, (txHash, tail scheds)))
      | Some (EndErr e) => (Error e, (s2, (txHash, tail scheds)))
      end
  | (Error e, s1) => (Error e, (s1, (txHash, tail scheds)))
  | (Panic p, s1) => (Panic p, (s1, (txHash, tail scheds)))
  | (Diverge, s1) => (Diverge, (s1, (txHash, tail scheds)))
  end.

Definition push_result (res : SlashResult) : SM unit :=
  sl_self (modify (λ b, set_results (slashResultChan b ++ [res]) b)).

Definition slashBTCDelegation (scheds : list (list race_event)) (sk : PrivKey)
    (del : DelegationResponse) : SM unit := λ s,
  match retry_Do (mkRetryOpts 0 (λ _, true) false true) (slash_attempt sk del)
          (s, (None, scheds)) with
  | (Val _, (s', (txHash, _))) => push_result (mkSlashResult del txHash None) s'
  | (Error e, (s', (txHash, _))) => push_result (mkSlashResult del txHash (Some e)) s'
  | (Panic p, (s', _)) => (Panic p, s')
  | (Diverge, (s', _)) => (Diverge, s')
  end.

(** ** The slashing enforcer *)

(** [metrics.RecordSlashedDelegation]; labels are not kept. *)
Definition RecordSlashedDelegation (del : DelegationResponse) : SM unit :=
  for_each (FpBtcPkList del) (λ _, sl_emit (MTouch "SlashedDelegationGaugeVec" [])) ;;
  sl_emit (MAdd "SlashedSatsCounter" (TotalSat del)) ;;
  sl_emit (MInc "SlashedDelegationsCounter").

(** A key received on [slashedFPSKChan]; its error is logged. *)
Definition enforce_key (fuel : nat) (sk : PrivKey) : SM unit :=
  try (SlashFinalityProvider fuel sk) ;; mret tt.
(** A result received on [slashResultChan]; the first finality provider is
    looked up for the log. *)
Definition enforce_result : SM unit :=
  rs ← sl_self (gets slashResultChan);
  match rs with
  | [] => mret tt
  | slashRes :: rs =>
      sl_self (modify (set_results rs)) ;;
      of_outcome (slice_index (FpBtcPkList (sr_Del slashRes)) 0) ;;
      match sr_Err slashRes with
      | Some _ => mret tt
      | None => RecordSlashedDelegation (sr_Del slashRes)
      end
  end.
End slasher.
