(* ===== verification/SlasherProps.v ===== *)
(** * Lemmas on the BTC slasher *)

From S2P Require Import Prelude Blocks Retry StakingTypes Stores Slasher.

(** A complete listing of a finality provider's delegations: pages up to the
    one without a next key. *)
Inductive dels_listing {SK : SlashingKeys} (hex : string)
  : list sl_call → list DelegationResponse → Prop :=
| dl_last ds : dels_listing hex [SDelegations hex ds None] ds
| dl_more ds k pages rest : dels_listing hex pages rest →
    dels_listing hex (SDelegations hex ds (Some k) :: pages) (ds ++ rest).

(** The evidences in a sequence of calls. *)
Definition evidences_in {SK : SlashingKeys} (cs : list sl_call) : list EvidenceResponse :=
  mjoin ((λ c, match c with SEvidences _ es _ => es | _ => [] end) <$> cs).

Section props.
Context {BL : BTCLib} {SL : StakingLib} {RT : Retry} {SK : SlashingKeys} {SLB : SlashingLib}
  {W D : Type} {BTC : StakingBTCClient W} {BQ : SlasherQuery W} {KV : KVDB D}.
Notation St := (BTCSlasher * D * W)%type.

Definition slasher_of (s : St) : BTCSlasher := s.1.1.
Definition db_of (s : St) : D := s.1.2.

Lemma evidences_in_app cs cs' : evidences_in (cs ++ cs') = evidences_in cs ++ evidences_in cs'.
Proof. unfold evidences_in. by rewrite fmap_app, join_app. Qed.

(** ** Frames *)
Lemma sl_world_self {A} (m : M W A) (s : St) o s' : sl_world m s = (o, s') → s'.1 = s.1.
Proof. unfold sl_world, zoom. destruct (m s.2) as [o' w']. intros [= _ <-]. done. Qed.

Lemma sl_note_run c (s : St) :
  sl_note c s = (Val tt, (sl_add_call c (slasher_of s), db_of s, s.2)).
Proof. reflexivity. Qed.

(** What the classification of the listed delegations keeps. *)
Lemma classify_self acc d (s : St) o s' : classify acc d s = (o, s') → s'.1 = s.1.
Proof.
  unfold classify. destruct acc as [a u]. rewrite bind_unfold. unfold try.
  destruct (sl_world _ s) as [[p|e|p|] s1] eqn:E; apply sl_world_self in E; intros H.
  - destruct (EqualFold _ _); [destruct (dr_Undelegation d); [case_match|]|];
      unfold mret, M_ret, panic in H; by simplify_eq.
  - unfold fail in H. by simplify_eq.
  - by simplify_eq.
  - by simplify_eq.
Qed.

Lemma fold_self {A B} (body : B → A → M St B) xs acc (s : St) o s' :
  (∀ b x (s : St) o s', body b x s = (o, s') → s'.1 = s.1) →
  for_fold xs acc body s = (o, s') → s'.1 = s.1.
Proof.
  intros Hb. revert acc s. induction xs as [|x xs IH]; intros acc s; cbn [for_fold].
  { unfold mret, M_ret. intros H. by simplify_eq. }
  rewrite bind_unfold. destruct (body acc x s) as [[b|e|p|] s1] eqn:E; apply Hb in E; intros H.
  - apply IH in H. congruence.
  - by simplify_eq.
  - by simplify_eq.
  - by simplify_eq.
Qed.

(** ** The classification is a filter *)
Section classification.
(** Babylon's parameters of a version never change. *)
Context (params : Z → StakingParams).
Hypothesis params_law : ∀ v w p w', sq_BTCStakingParamsByVersion v w = (Val p, w') → p = params v.

Definition unbonded_quorum (d : DelegationResponse) : Prop :=
  EqualFold (dr_StatusDesc d) UNBONDED = true ∧
  match dr_Undelegation d with
  | Some undel => CovenantQuorum (params (ParamsVersion d)) ≤ len (CovenantSlashingSigs undel)
  | None => False
  end.
#[global] Instance unbonded_quorum_dec d : Decision (unbonded_quorum d).
Proof. unfold unbonded_quorum. destruct (dr_Undelegation d); apply _. Defined.

Lemma classify_spec a u d (s : St) a' u' s' :
  classify (a, u) d s = (Val (a', u'), s') →
  a' = a ++ filter (λ d, dr_Active d = true) [d] ∧ u' = u ++ filter unbonded_quorum [d].
Proof.
  unfold classify. intros H. apply bind_Val_inv in H as (r & s1 & Hr & H).
  destruct r as [p|e]; [|done].
  assert (p = params (ParamsVersion d)) as ->.
  { unfold try, sl_world, zoom in Hr.
    destruct (sq_BTCStakingParamsByVersion _ _) as [[p'|e|pp|] w'] eqn:E; simplify_eq.
    by eapply params_law. }
  assert ((if dr_Active d then a ++ [d] else a) = a ++ filter (λ d, dr_Active d = true) [d]) as Ha.
  { rewrite filter_cons. destruct (dr_Active d); cbn; [done|by rewrite app_nil_r]. }
  rewrite Ha in H. clear Ha.
  assert (∀ b : bool, b = true ↔ unbonded_quorum d →
    u ++ filter unbonded_quorum [d] = if b then u ++ [d] else u) as Hu.
  { intros [] Hb; rewrite filter_cons; destruct (decide (unbonded_quorum d)); cbn; try done.
    - naive_solver.
    - naive_solver.
    - by rewrite app_nil_r. }
  unfold unbonded_quorum in Hu.
  destruct (EqualFold (dr_StatusDesc d) UNBONDED).
  - destruct (dr_Undelegation d) as [undel|]; [|done].
    destruct (Z.leb_spec (CovenantQuorum (params (ParamsVersion d))) (len (CovenantSlashingSigs undel)));
      unfold mret, M_ret in H; simplify_eq; (split; [done|]).
    + symmetry. apply (Hu true). naive_solver.
    + symmetry. apply (Hu false). split; [done|]. intros []. lia.
  - unfold mret, M_ret in H. simplify_eq. split; [done|]. symmetry. apply (Hu false). naive_solver.
Qed.

Lemma classify_fold a u ds (s : St) a' u' s' :
  for_fold ds (a, u) classify s = (Val (a', u'), s') →
  a' = a ++ filter (λ d, dr_Active d = true) ds ∧ u' = u ++ filter unbonded_quorum ds.
Proof.
  revert a u s. induction ds as [|d ds IH]; intros a u s H; cbn [for_fold] in H.
  { unfold mret, M_ret in H. simplify_eq. cbn. by rewrite !app_nil_r. }
  apply bind_Val_inv in H as ([a1 u1] & s1 & H1 & H). apply classify_spec in H1 as [-> ->].
  apply IH in H as [-> ->]. rewrite (filter_cons _ d ds), (filter_cons unbonded_quorum d ds).
  rewrite !(filter_cons _ d []), !filter_nil.
  destruct (decide (dr_Active d = true)), (decide (unbonded_quorum d)); cbn;
    rewrite ?app_nil_r, <-?app_assoc; done.
Qed.

Lemma classify_pages a u dss (s : St) a' u' s' :
  for_fold dss (a, u) (λ acc dels, for_fold dels acc classify) s = (Val (a', u'), s') →
  a' = a ++ filter (λ d, dr_Active d = true) (mjoin dss) ∧
  u' = u ++ filter unbonded_quorum (mjoin dss).
Proof.
  revert a u s. induction dss as [|ds dss IH]; intros a u s H; cbn [for_fold] in H.
  { unfold mret, M_ret in H. simplify_eq. cbn. by rewrite !app_nil_r. }
  apply bind_Val_inv in H as ([a1 u1] & s1 & H1 & H). apply classify_fold in H1 as [-> ->].
  apply IH in H as [-> ->]. change (mjoin (ds :: dss)) with (ds ++ mjoin dss).
  by rewrite !filter_app, <-!app_assoc.
Qed.

(** What a listing leaves of the slasher. *)
Definition only_calls (s s' : St) (cs : list sl_call) : Prop :=
  sl_calls (slasher_of s') = sl_calls (slasher_of s) ++ cs ∧
  slashings (slasher_of s') = slashings (slasher_of s) ∧
  height (slasher_of s') = height (slasher_of s) ∧ db_of s' = db_of s.

Lemma delegations_loop_spec fuel hex key a u (s : St) a' u' s' :
  delegations_loop fuel hex key (a, u) s = (Val (a', u'), s') →
  ∃ pages ds, dels_listing hex pages ds ∧ only_calls s s' pages ∧
    a' = a ++ filter (λ d, dr_Active d = true) ds ∧ u' = u ++ filter unbonded_quorum ds.
Proof.
  revert key a u s. induction fuel as [|fuel IH]; intros key a u s H; cbn [delegations_loop] in H; [done|].
  apply bind_Val_inv in H as (resp & s1 & H1 & H). apply wrap_err_Val, sl_world_self in H1.
  rewrite bind_unfold, sl_note_run in H. apply bind_Val_inv in H as ([a1 u1] & s2 & H2 & H).
  pose proof H2 as H2'. apply classify_pages in H2 as [-> ->].
  apply fold_self in H2'; [|intros b x t o t'; apply fold_self, classify_self].
  assert (s2.1 = (sl_add_call (SDelegations hex (mjoin (fst resp)) (snd resp)) s.1.1, s.1.2)) as E2.
  { rewrite H2'. unfold slasher_of, db_of. cbn. by rewrite H1. }
  clear H1 H2'. destruct resp as [dss [k|]]; cbn [fst snd] in *.
  - apply IH in H as (pages & ds & Hl & (C1 & C2 & C3 & C4) & -> & ->).
    exists (SDelegations hex (mjoin dss) (Some k) :: pages), (mjoin dss ++ ds).
    split_and!; [by constructor| |by rewrite filter_app, app_assoc..].
    unfold only_calls, slasher_of, db_of in *. rewrite E2 in C1, C2, C3, C4. cbn in *.
    split_and!; [by rewrite C1, <-app_assoc|done..].
  - unfold mret, M_ret in H. simplify_eq.
    exists [SDelegations hex (mjoin dss) None], (mjoin dss). split_and!; [constructor| |done|done].
    unfold only_calls, slasher_of, db_of. by rewrite E2.
Qed.

Lemma SlashFinalityProvider_spec fuel sk (s s' : St) :
  SlashFinalityProvider fuel sk s = (Val tt, s') →
  ∃ pages ds, dels_listing (MarshalHex (pub_of sk)) pages ds ∧
    sl_calls (slasher_of s') = sl_calls (slasher_of s) ++ pages ∧
    slashings (slasher_of s') = slashings (slasher_of s) ++
      ((λ d, (sk, d)) <$> (filter (λ d, dr_Active d = true) ds ++ filter unbonded_quorum ds)) ∧
    height (slasher_of s') = height (slasher_of s) ∧ db_of s' = db_of s.
Proof.
  unfold SlashFinalityProvider. intros H. apply bind_Val_inv in H as ([a u] & s1 & H1 & H).
  apply wrap_err_Val in H1. apply delegations_loop_spec in H1 as (pages & ds & Hl & (C1 & C2 & C3 & C4) & -> & ->).
  rewrite bind_unfold in H. injection H as <-. exists pages, ds. split_and!; [done|exact C1| |exact C3|exact C4].
  cbn. unfold slasher_of in C2. by rewrite C2.
Qed.

(** The delegations of [sk]'s provider were listed and every slashable one has
    a slashing goroutine. *)
Definition provider_slashed (b : BTCSlasher) (sk : PrivKey) : Prop :=
  ∃ pre pages ds post, sl_calls b = pre ++ pages ++ post ∧
    dels_listing (MarshalHex (pub_of sk)) pages ds ∧
    ∀ d, d ∈ ds → dr_Active d = true ∨ unbonded_quorum d → (sk, d) ∈ slashings b.

(** An evidence was handed to slashing. *)
Definition handed (b : BTCSlasher) (e : EvidenceResponse) : Prop :=
  ∃ pk sk, NewBIP340PubKeyFromHex (FpBtcPkHex e) = Ok pk ∧ ExtractBTCSK pk e = Ok sk ∧
    provider_slashed b sk.

(** [b'] is [b] with more calls and slashings. *)
Definition grown (b b' : BTCSlasher) : Prop :=
  (∃ cs, sl_calls b' = sl_calls b ++ cs) ∧ slashings b ⊆ slashings b' ∧ height b' = height b.

Lemma grown_refl b : grown b b.
Proof. split_and!; [exists []; by rewrite app_nil_r|done|done]. Qed.
Lemma grown_trans b1 b2 b3 : grown b1 b2 → grown b2 b3 → grown b1 b3.
Proof.
  intros ((c & H1) & H2 & H3) ((c' & H4) & H5 & H6). split_and!; [|set_solver|congruence].
  exists (c ++ c'). by rewrite H4, H1, app_assoc.
Qed.
Lemma handed_grown b b' e : grown b b' → handed b e → handed b' e.
Proof.
  intros ((cs & Hc) & Hs & _) (pk & sk & H1 & H2 & (pre & pages & ds & post & H3 & H4 & H5)).
  exists pk, sk. split_and!; [done|done|]. exists pre, pages, ds, (post ++ cs).
  split_and!; [by rewrite Hc, H3, <-!app_assoc|done|]. intros d Hd Hq. by apply Hs, H5.
Qed.

Lemma SlashFinalityProvider_slashed fuel sk (s s' : St) :
  SlashFinalityProvider fuel sk s = (Val tt, s') →
  provider_slashed (slasher_of s') sk ∧ grown (slasher_of s) (slasher_of s') ∧ db_of s' = db_of s ∧
  evidences_in (sl_calls (slasher_of s')) = evidences_in (sl_calls (slasher_of s)).
Proof.
  intros H. apply SlashFinalityProvider_spec in H as (pages & ds & Hl & Hc & Hs & Hh & Hd).
  split_and!; [| |done|].
  - exists (sl_calls (slasher_of s)), pages, ds, []. split_and!; [by rewrite app_nil_r|done|].
    intros d Hin Hq. rewrite Hs. apply elem_of_app. right. apply list_elem_of_fmap. exists d.
    split; [done|]. rewrite elem_of_app, !list_elem_of_filter. tauto.
  - split_and!; [by eexists|rewrite Hs; set_solver|done].
  - rewrite Hc, evidences_in_app.
    assert (evidences_in pages = []) as ->; [|by rewrite app_nil_r].
    clear -Hl. induction Hl; [done|]. done.
Qed.

(** A run that fails leaves the height and the store alone. *)
Definition same_progress (s s' : St) : Prop :=
  grown (slasher_of s) (slasher_of s') ∧ db_of s' = db_of s ∧
  evidences_in (sl_calls (slasher_of s')) = evidences_in (sl_calls (slasher_of s)).

Lemma same_progress_self (s s' : St) : s'.1 = s.1 → same_progress s s'.
Proof.
  intros H. unfold same_progress, slasher_of, db_of. rewrite H. split_and!; [apply grown_refl|done|done].
Qed.
Lemma same_progress_trans (s1 s2 s3 : St) :
  same_progress s1 s2 → same_progress s2 s3 → same_progress s1 s3.
Proof.
  intros (H1 & H2 & H3) (H4 & H5 & H6). split_and!; [by eapply grown_trans|congruence|congruence].
Qed.

Lemma delegations_loop_progress fuel hex key acc (s : St) o s' :
  delegations_loop fuel hex key acc s = (o, s') → same_progress s s'.
Proof.
  revert key acc s. induction fuel as [|fuel IH]; intros key acc s H; cbn [delegations_loop] in H.
  { unfold diverge in H. simplify_eq. by apply same_progress_self. }
  rewrite bind_unfold in H. unfold wrap_err in H.
  destruct (sl_world _ s) as [[resp|e|p|] s1] eqn:E; apply sl_world_self in E; cbn in H;
    try (simplify_eq; by apply same_progress_self).
  rewrite bind_unfold, sl_note_run, bind_unfold in H.
  set (s2 := (sl_add_call _ _, _, _) : St) in H.
  assert (same_progress s s2) as P2.
  { unfold same_progress, s2, slasher_of, db_of. cbn [fst snd]. rewrite E. split_and!; [|done|].
    - split_and!; cbn; [by eexists|set_solver|done].
    - cbn [sl_calls sl_add_call]. rewrite evidences_in_app. cbn. by rewrite app_nil_r. }
  destruct (for_fold _ _ _ s2) as [o3 s3] eqn:E3. pose proof E3 as E3'.
  apply fold_self in E3'; [|intros b x t o' t'; apply fold_self, classify_self].
  assert (same_progress s s3) as P3 by (eapply same_progress_trans; [exact P2|by apply same_progress_self]).
  destruct o3 as [acc'|e|p|]; try (by simplify_eq).
  destruct (snd resp); [|unfold mret, M_ret in H; by simplify_eq].
  apply IH in H. by eapply same_progress_trans.
Qed.

Lemma SlashFinalityProvider_progress fuel sk (s : St) o s' :
  SlashFinalityProvider fuel sk s = (o, s') → same_progress s s'.
Proof.
  unfold SlashFinalityProvider. intros H. rewrite bind_unfold in H. unfold wrap_err in H.
  destruct (getAllActiveAndUnbondedBTCDelegations _ _ s) as [o1 s1] eqn:E.
  apply delegations_loop_progress in E. destruct o1 as [[a u]|e|p|]; try (by simplify_eq).
  rewrite bind_unfold in H. injection H as _ <-. eapply same_progress_trans; [exact E|].
  split_and!; [|done|done]. split_and!; [exists []; cbn; by rewrite app_nil_r|cbn; set_solver|done].
Qed.
(** ** Evidences *)
Lemma process_evidence_progress fuel vars e (s : St) o s' :
  process_evidence fuel vars e s = (o, s') → same_progress s s'.
Proof.
  unfold process_evidence. destruct vars as [l errs]. intros H.
  destruct (NewBIP340PubKeyFromHex _) as [pk|]; [|unfold mret, M_ret in H; simplify_eq; by apply same_progress_self].
  destruct (ExtractBTCSK pk e) as [sk|]; [|unfold mret, M_ret in H; simplify_eq; by apply same_progress_self].
  rewrite bind_unfold in H. unfold try in H.
  destruct (SlashFinalityProvider fuel sk s) as [[[]|err|p|] s1] eqn:E;
    apply SlashFinalityProvider_progress in E; unfold mret, M_ret in H; by simplify_eq.
Qed.

Lemma process_evidence_spec fuel l errs e (s : St) l' errs' s' :
  process_evidence fuel (l, errs) e s = (Val (l', errs'), s') → errs' = None →
  errs = None ∧ handed (slasher_of s') e ∧ l' = Z.max l (BlockHeight e).
Proof.
  unfold process_evidence. intros H ->.
  assert (∀ err, append_err errs err ≠ None) as Hne by (intros err; by destruct errs).
  destruct (NewBIP340PubKeyFromHex _) as [pk|] eqn:Epk;
    [|unfold mret, M_ret in H; simplify_eq; exfalso; by eapply Hne].
  destruct (ExtractBTCSK pk e) as [sk|] eqn:Esk;
    [|unfold mret, M_ret in H; simplify_eq; exfalso; by eapply Hne].
  apply bind_Val_inv in H as (r & s1 & Hr & H). unfold try in Hr.
  destruct (SlashFinalityProvider fuel sk s) as [[[]|err|p|] s2] eqn:E; simplify_eq.
  - apply SlashFinalityProvider_slashed in E as (Hs & _).
    unfold mret, M_ret in H. injection H as <- -> <-. split_and!; [done| |].
    + by exists pk, sk.
    + destruct (Z.ltb_spec l (BlockHeight e)); lia.
  - unfold mret, M_ret in H. simplify_eq. exfalso; by eapply Hne.
Qed.

Lemma fold_progress fuel es vars (s : St) o s' :
  for_fold es vars (process_evidence fuel) s = (o, s') → same_progress s s'.
Proof.
  revert vars s. induction es as [|e es IH]; intros vars s H; cbn [for_fold] in H.
  { unfold mret, M_ret in H. simplify_eq. by apply same_progress_self. }
  rewrite bind_unfold in H. destruct (process_evidence fuel vars e s) as [o1 s1] eqn:E.
  apply process_evidence_progress in E. destruct o1 as [v|err|p|]; try (by simplify_eq).
  apply IH in H. by eapply same_progress_trans.
Qed.

Definition max_height (l : Z) (es : list EvidenceResponse) : Z := foldl Z.max l (BlockHeight <$> es).

Lemma fold_spec fuel es l errs (s : St) l' errs' s' :
  for_fold es (l, errs) (process_evidence fuel) s = (Val (l', errs'), s') → errs' = None →
  errs = None ∧ (∀ e, e ∈ es → handed (slasher_of s') e) ∧ l' = max_height l es.
Proof.
  revert l errs s. induction es as [|e es IH]; intros l errs s H He; cbn [for_fold] in H.
  { unfold mret, M_ret in H. simplify_eq. split_and!; [done|set_solver|done]. }
  apply bind_Val_inv in H as ([l1 errs1] & s1 & H1 & H).
  pose proof (fold_progress _ _ _ _ _ _ H) as (Hg & _). apply IH in H as (-> & Hall & ->); [|done].
  apply process_evidence_spec in H1 as (-> & Hh & ->); [|done].
  split_and!; [done| |done]. intros e' [->|Hin]%elem_of_cons; [|auto]. by eapply handed_grown.
Qed.

Definition handle_page (fuel : nat) (vars : Z * option gerror) (es : list EvidenceResponse) :=
  for_fold es vars (process_evidence (W := W) (D := D) fuel).

Lemma handleAll_spec fuel fuel' start key l errs (s : St) o s' :
  handleAllEvidences fuel start key (handle_page fuel') (l, errs) s = (o, s') →
  grown (slasher_of s) (slasher_of s') ∧ db_of s' = db_of s ∧
  ∀ l', o = Val (l', None) →
    ∃ new, sl_calls (slasher_of s') = sl_calls (slasher_of s) ++ new ∧ errs = None ∧
      (∀ e, e ∈ evidences_in new → handed (slasher_of s') e) ∧
      l' = max_height l (evidences_in new) ∧ ∃ es, SEvidences start es None ∈ new.
Proof.
  revert key l errs s. induction fuel as [|fuel IH]; intros key l errs s H; cbn [handleAllEvidences] in H.
  { unfold diverge in H. simplify_eq. split_and!; [apply grown_refl|done|done]. }
  rewrite bind_unfold in H. unfold wrap_err in H.
  destruct (sl_world _ s) as [[[es next]|e|p|] s1] eqn:E; apply sl_world_self in E; cbn in H.
  2-4: (injection H as <- <-; unfold slasher_of, db_of; rewrite E; split_and!; [apply grown_refl|done|done]).
  rewrite bind_unfold, sl_note_run, bind_unfold in H. cbn [fst snd] in H.
  set (s2 := (sl_add_call _ _, _, _) : St) in H.
  assert (grown (slasher_of s) (slasher_of s2) ∧ db_of s2 = db_of s ∧
    sl_calls (slasher_of s2) = sl_calls (slasher_of s) ++ [SEvidences start es next]) as (G2 & D2 & C2).
  { unfold s2, slasher_of, db_of. cbn [fst snd]. rewrite E. split_and!; [|done|done].
    split_and!; cbn; [by eexists|set_solver|done]. }
  destruct (for_fold es (l, errs) (process_evidence fuel') s2) as [o3 s3] eqn:E3.
  pose proof (fold_progress _ _ _ _ _ _ E3) as (G3 & D3 & Ev3).
  assert (grown (slasher_of s) (slasher_of s3)) as Gs by (by eapply grown_trans).
  destruct o3 as [[l3 errs3]|e|p|].
  2-4: (injection H as <- <-; split_and!; [exact Gs|by rewrite D3, D2|done]).
  pose proof G3 as G3'. destruct G3 as ((c3 & C3) & G3). rewrite C3, evidences_in_app in Ev3.
  assert (evidences_in c3 = []) as Hc3.
  { apply (app_inv_head (evidences_in (sl_calls (slasher_of s2)))). by rewrite Ev3, app_nil_r. }
  assert (evidences_in ([SEvidences start es next] ++ c3) = es) as Hes.
  { rewrite evidences_in_app, Hc3. cbn. by rewrite !app_nil_r. }
  destruct next as [k|].
  - apply IH in H as (G4 & D4 & Hfin). split_and!; [by eapply grown_trans|by rewrite D4, D3, D2|].
    intros l' ->. destruct (Hfin l' eq_refl) as (new & C4 & -> & Hh & -> & es' & Hl).
    apply fold_spec in E3 as (-> & Hh3 & ->); [|done].
    exists (([SEvidences start es (Some k)] ++ c3) ++ new).
    split_and!; [by rewrite C4, C3, C2, <-!app_assoc|done| | |exists es'; set_solver].
    + intros e. rewrite evidences_in_app, Hes, elem_of_app. intros [Hin|Hin]; [|auto].
      eapply handed_grown; [exact G4|]. auto.
    + unfold max_height. by rewrite evidences_in_app, Hes, fmap_app, foldl_app.
  - unfold mret, M_ret in H. injection H as <- <-. split_and!; [exact Gs|by rewrite D3, D2|].
    intros l' [= -> ->].
    apply fold_spec in E3 as (-> & Hh3 & ->); [|done].
    exists ([SEvidences start es None] ++ c3).
    split_and!; [by rewrite C3, C2, <-!app_assoc|done| | |exists es; set_solver]; by rewrite Hes.
Qed.

(** Every evidence listed from [start] on was handed to slashing, up to the
    last page, and [last] is their greatest height. *)
Definition all_handed (b b' : BTCSlasher) (start last : Z) : Prop :=
  ∃ new, sl_calls b' = sl_calls b ++ new ∧ (∀ e, e ∈ evidences_in new → handed b' e) ∧
    last = max_height 0 (evidences_in new) ∧ ∃ es, SEvidences start es None ∈ new.

Lemma processEvidences_spec fuel start (s : St) o s' :
  processEvidencesFromHeight fuel start s = (o, s') →
  grown (slasher_of s) (slasher_of s') ∧ db_of s' = db_of s ∧
  ∀ last, o = Val last → all_handed (slasher_of s) (slasher_of s') start last.
Proof.
  unfold processEvidencesFromHeight. intros H. rewrite bind_unfold in H. unfold wrap_err in H.
  change (λ vars evidences, for_fold evidences vars (process_evidence fuel)) with (handle_page fuel) in H.
  destruct (handleAllEvidences fuel start None (handle_page fuel) (0, None) s) as [o1 s1] eqn:E.
  apply handleAll_spec in E as (G & Dd & Hh).
  destruct o1 as [[l [err|]]|e|p|]; cbn in H; unfold mret, M_ret, fail in H; simplify_eq;
    (split_and!; [done|done|]); try done.
  intros last [= <-]. destruct (Hh l eq_refl) as (new & C & _ & Hall & Hmax & Hlast). by exists new.
Qed.
End classification.
End props.
