(* ===== verification/SlasherTheorems.v ===== *)
(** * Properties of the BTC slasher *)

From S2P Require Import Prelude Blocks Retry StakingTypes Stores Slasher SlasherProps.
From S2P Require Import Instances WatcherInstances.
From S2P Require Reporter.
Import Reporter (metric_event(..)).

(** ** Small instances: keys are numbers, one provider with two delegations *)
#[global] Instance small_keys : SlashingKeys := {|
  PrivKey := Z; PubKey := Z; PubKey_eq_dec := _;
  pub_of k := k;
  MarshalHex _ := "pk";
  NewBIP340PubKeyFromHex _ := Ok 5;
  CovenantSig := unit;
|}.
#[global] Instance small_slashing : SlashingLib := {|
  ExtractBTCSK pk _ := Ok pk;
  BTCSlashingTx := Z;
  NewBTCSlashingTxFromHex s := Ok (if bool_decide (s = "slash") then 70 else 71);
  MustGetTxHash t := t;
  NewBTCTxFromBytes _ := Ok staking_tx;
  BTCPK := Z;
  NewBTCPKsFromBIP340PKs l := Ok l;
  MustToBTCPK k := k;
  StakingInfo := unit; SpendInfo := unit;
  BuildStakingInfo _ _ _ _ _ _ := Ok tt;
  BuildUnbondingInfo _ _ _ _ _ _ := Ok tt;
  SlashingPathSpendInfo _ := Ok tt;
  AdaptorSig := unit;
  GetOrderedCovenantSignatures _ _ _ := Ok [];
  BIP340Signature := unit;
  NewBIP340SignatureFromHex _ := Ok tt;
  slashTx_BuildSlashingTxWithWitness t _ _ _ _ _ _ _ _ := Ok (mkMsgTx 2 [] [mkTxOut 900 [6]] t);
  EqualFold a b := bool_decide (a = b);
|}.

Definition small_dels (active : bool) (status : string) : DelegationResponse :=
  mkDelResponse 9 [5] 100 200 1000 "aa" "slash" "sig" [tt] 0 active status 10
    (Some (mkUndel "bb" "unslash" "usig" [tt; tt])) 1.
Definition small_params (v : Z) : StakingParams := mkStakingParams 2 [1; 2; 3].
Definition small_evidence (h : Z) : EvidenceResponse := mkEvidence "pk" h [].

(** Evidences at heights 20 and 30, on two pages; two slashable delegations. *)
#[global] Instance small_queries : SlasherQuery Z := {|
  sq_CheckpointFinalizationTimeout := mret 100;
  sq_BtcConfirmationDepth := mret 6;
  sq_BTCStakingParamsByVersion v := mret (small_params v);
  sq_FinalityProviderDelegations _ key :=
    mret (match key with
          | None => ([[small_dels true ACTIVE]; [small_dels false "EXPIRED"]], Some [1])
          | Some _ => ([[small_dels false UNBONDED]], None)
          end);
  sq_ListEvidences start key :=
    mret (match key with
          | None => (if start <=? 30 then [small_evidence 30] else [], Some [1])
          | Some _ => (if start <=? 20 then [small_evidence 20] else [], None)
          end);
|}.

(** Bitcoin without the slashing transactions; outputs are unspent if the world
    is 0. *)
#[local] Instance slash_btc : StakingBTCClient Z := {|
  sb_GetBestBlock := mret 120;
  sb_GetRawTransaction _ := fail (ENew "not found");
  sb_GetRawTransactionVerbose_BlockHash _ := fail (ENew "not found");
  sb_TxDetails _ _ := mret (Some (mkTxConfirmation 110 0 (block_at 103 [])), TxInChain);
  sb_GetTxOut _ _ _ := λ w, (Val (w =? 0), w);
  sb_SendRawTransactionWithBurnLimit t _ _ := mret (TxHash t);
|}.

Definition slasher_new : BTCSlasher := mkSlasher 0 10 [] [] [] [] [].
Definition slasher_db : mem_db := snd (SlasherStore.NewSlasherStore (∅ : mem_db)).

Lemma small_params_law v (w : Z) p w' :
  sq_BTCStakingParamsByVersion v w = (Val p, w') → p = small_params v.
Proof. cbn. unfold mret, M_ret. intros H. by simplify_eq. Qed.

(** C8: the evidence height advances only past slashed evidences.  A tick of the
    evidence loop either leaves the height to resume from and the store alone, or
    every evidence of every page listed from the old height was handed to
    slashing (its key extracted, its provider's delegations listed to the last
    page, a slashing goroutine started for each active or unbonded one with
    enough covenant signatures), and the height becomes one above the greatest
    of them, which is what is stored. *)
Theorem evidence_height_advances_only_when_slashed
    {BL : BTCLib} {SL : StakingLib} {SK : SlashingKeys} {SLB : SlashingLib}
    {W D : Type} {BQ : SlasherQuery W} {KV : KVDB D} (params : Z → StakingParams) fuel
    (b : BTCSlasher) (d : D) (w : W) o b' d' w' :
  (∀ v w p w', sq_BTCStakingParamsByVersion v w = (Val p, w') → p = params v) →
  fetchEvidences_tick fuel (b, d, w) = (o, (b', d', w')) →
  (height b' = height b ∧ d' = d) ∨
  ∃ last, 0 < last ∧ all_handed params b b' (height b) last ∧
    height b' = u64 (last + 1) ∧ d' = snd (SlasherStore.PutHeight last d).
Proof.
  intros Hp H. unfold fetchEvidences_tick in H. rewrite bind_unfold in H. cbn [fst snd sl_self zoom gets] in H.
  unfold sl_self at 1, zoom at 1, gets in H. cbn [fst snd] in H.
  rewrite bind_unfold in H. unfold try at 1 in H.
  destruct (processEvidencesFromHeight fuel (height b) (b, d, w)) as [o1 [[b1 d1] w1]] eqn:E.
  apply (processEvidences_spec params Hp) in E as ((_ & _ & Hh) & Hd & Hall). cbn in Hh, Hd, Hall.
  assert (height b1 = height b ∧ d1 = d) as Hsame by done.
  destruct o1 as [last|e|p|]; cbn in H; try (unfold mret, M_ret in H; simplify_eq; by left).
  destruct (Z.ltb_spec 0 last) as [Hpos|Hpos]; [|unfold mret, M_ret in H; simplify_eq; by left].
  right. exists last. split; [done|]. destruct (Hall last eq_refl) as (new & C1 & C2 & C3 & C4).
  rewrite bind_unfold in H. cbn -[SlasherStore.PutHeight] in H. rewrite bind_unfold in H.
  unfold try, sl_store, zoom in H. cbn -[SlasherStore.PutHeight] in H.
  destruct Hsame as [_ ->].
  destruct (SlasherStore.PutHeight last d) as [[[]|e|p|] d2]; unfold mret, M_ret in H; simplify_eq; cbn;
    (split; [|done]); by exists new.
Qed.

Definition slasher_ticked : BTCSlasher * mem_db * Z :=
  snd (fetchEvidences_tick 3 (slasher_new, slasher_db, 0)).

Lemma slasher_tick_run :
  fetchEvidences_tick 3 (slasher_new, slasher_db, 0) =
  (fst (fetchEvidences_tick 3 (slasher_new, slasher_db, 0)),
   (slasher_ticked.1.1, slasher_ticked.1.2, slasher_ticked.2)).
Proof. unfold slasher_ticked. by destruct (fetchEvidences_tick 3 _) as [o [[b d] w]]. Qed.

Lemma evidence_height_advances_only_when_slashed_witness :
  height slasher_ticked.1.1 = 31 ∧
  slashings slasher_ticked.1.1 =
    [(5, small_dels true ACTIVE); (5, small_dels false UNBONDED);
     (5, small_dels true ACTIVE); (5, small_dels false UNBONDED)] ∧
  ((height slasher_ticked.1.1 = 10 ∧ slasher_ticked.1.2 = slasher_db) ∨
   ∃ last, 0 < last ∧ all_handed small_params slasher_new slasher_ticked.1.1 10 last ∧
     height slasher_ticked.1.1 = u64 (last + 1) ∧
     slasher_ticked.1.2 = snd (SlasherStore.PutHeight last slasher_db)).
Proof.
  split; [vm_compute; reflexivity|]. split; [vm_compute; reflexivity|].
  exact (evidence_height_advances_only_when_slashed small_params 3 slasher_new slasher_db 0
    _ _ _ _ small_params_law slasher_tick_run).
Defined.

(** A restart resumes at the evidence height that was stored.  After a height
    was stored, the tracker's bootstrap reads it back and processes the evidences
    from that height, whatever start height it is given. *)
Theorem restart_resumes_at_stored_evidence
    {BL : BTCLib} {SL : StakingLib} {SK : SlashingKeys} {SLB : SlashingLib}
    {W D : Type} {BQ : SlasherQuery W} {KV : KVDB D} {LAWS : KVLaws D} fuel last d d1 r d2
    (b : BTCSlasher) (w : W) startHeight :
  is_u64 last → SlasherStore.PutHeight last d = (Val tt, d1) →
  SlasherStore.LastProcessedHeight d1 = (Val r, d2) →
  tracker_Bootstrap fuel startHeight (b, d1, w) =
  wrap_err "failed to bootstrap BTC staking tracker" (Bootstrap fuel last) (b, d2, w).
Proof.
  intros Hl Hput Hget. pose proof (SlasherStore.height_put_get last d d1 r d2 Hl Hput Hget) as ->.
  unfold tracker_Bootstrap. rewrite bind_unfold.
  unfold wrap_err at 1, LastEvidencesHeight, sl_store, zoom. cbn [fst snd]. by rewrite Hget.
Qed.

Definition slasher_db25 : mem_db := snd (SlasherStore.PutHeight 25 slasher_db).
Lemma small_put : SlasherStore.PutHeight 25 slasher_db = (Val tt, slasher_db25).
Proof. vm_compute. reflexivity. Qed.
Lemma small_get : SlasherStore.LastProcessedHeight slasher_db25 = (Val (Some 25), slasher_db25).
Proof. vm_compute. reflexivity. Qed.

Lemma restart_resumes_at_stored_evidence_witness :
  height (fst (fst (snd (tracker_Bootstrap 3 0 (slasher_new, slasher_db25, 0))))) = 31 ∧
  tracker_Bootstrap 3 0 (slasher_new, slasher_db25, 0) =
  wrap_err "failed to bootstrap BTC staking tracker" (Bootstrap 3 25) (slasher_new, slasher_db25, 0).
Proof.
  split; [vm_compute; reflexivity|].
  exact (restart_resumes_at_stored_evidence 3 25 slasher_db slasher_db25 (Some 25) slasher_db25
    slasher_new 0 0 ltac:(zrange) small_put small_get).
Defined.

(** C17: the slashed delegations are exactly the slashable ones.  When
    [SlashFinalityProvider] returns without error, it has listed the delegations of
    the key's provider page by page to the last one, and the slashing goroutines it
    started are, each with the extracted key and in this order, one for every active
    delegation of the listing and one for every unbonded one whose unbonding slashing
    transaction has a covenant quorum of signatures; a delegation that is both has
    two.  It changes neither the height nor the store. *)
Theorem slashable_delegations_exact
    {BL : BTCLib} {SL : StakingLib} {SK : SlashingKeys} {SLB : SlashingLib}
    {W D : Type} {BQ : SlasherQuery W} (params : Z → StakingParams) fuel sk
    (s s' : BTCSlasher * D * W) :
  (∀ v w p w', sq_BTCStakingParamsByVersion v w = (Val p, w') → p = params v) →
  SlashFinalityProvider fuel sk s = (Val tt, s') →
  ∃ pages ds, dels_listing (MarshalHex (pub_of sk)) pages ds ∧
    sl_calls (slasher_of s') = sl_calls (slasher_of s) ++ pages ∧
    slashings (slasher_of s') = slashings (slasher_of s) ++
      ((λ d, (sk, d)) <$>
         (filter (λ d, dr_Active d = true) ds ++ filter (unbonded_quorum params) ds)) ∧
    height (slasher_of s') = height (slasher_of s) ∧ db_of s' = db_of s.
Proof. intros Hp H. by apply (SlashFinalityProvider_spec params Hp) in H. Qed.

Lemma slashable_delegations_exact_witness :
  let s' := snd (SlashFinalityProvider 3 5 (slasher_new, slasher_db, 0)) in
  slashings (slasher_of s') = [(5, small_dels true ACTIVE); (5, small_dels false UNBONDED)] ∧
  ∃ pages ds, dels_listing "pk" pages ds ∧
    sl_calls (slasher_of s') = sl_calls slasher_new ++ pages ∧
    slashings (slasher_of s') = slashings slasher_new ++
      ((λ d, (5, d)) <$>
         (filter (λ d, dr_Active d = true) ds ++ filter (unbonded_quorum small_params) ds)) ∧
    height (slasher_of s') = height slasher_new ∧ db_of s' = slasher_db.
Proof.
  cbn zeta. split; [vm_compute; reflexivity|].
  exact (slashable_delegations_exact small_params 3 5 (slasher_new, slasher_db, 0)
    (snd (SlashFinalityProvider 3 5 (slasher_new, slasher_db, 0))) small_params_law
    ltac:(vm_compute; reflexivity)).
Defined.

(** ** Broadcasting *)
Section broadcast.
Context {BL : BTCLib} {SL : StakingLib} {RT : Retry} {SK : SlashingKeys} {SLB : SlashingLib}
  {W D : Type} {BTC : StakingBTCClient W} {BQ : SlasherQuery W}.
Notation St := (BTCSlasher * D * W)%type.

Lemma k_deep_self h pk k (s : St) o s' : k_deep h pk k s = (o, s') → s'.1 = s.1.
Proof.
  unfold k_deep. intros H. rewrite bind_unfold in H. unfold wrap_err in H.
  destruct (sl_world (sb_TxDetails h pk) s) as [[[details status]|e|p|] s1] eqn:E;
    apply sl_world_self in E; try (by simplify_eq).
  destruct status; try (unfold fail in H; by simplify_eq).
  rewrite bind_unfold in H. destruct (sl_world sb_GetBestBlock s1) as [[tip|e|p|] s2] eqn:E2;
    apply sl_world_self in E2; rewrite E in E2; try (by simplify_eq).
  destruct details; [case_match|]; unfold mret, M_ret, fail, panic in H; by simplify_eq.
Qed.

Lemma waitForTxKDeep_self h pk k (s : St) o s' : waitForTxKDeep h pk k s = (o, s') → s'.1 = s.1.
Proof.
  intros H. unfold waitForTxKDeep in H.
  pose proof (retry_Do_spec (mkRetryOpts 0 (λ _, true) true true) (k_deep h pk k) s
    ltac:(done) ltac:(done)) as Hr. rewrite H in Hr.
  apply (retried_inv (λ s2, s2.1 = s.1)) in Hr; [done| |done].
  intros s2 Hs2. destruct (k_deep h pk k s2) as [o2 s3] eqn:E. apply k_deep_self in E. cbn. congruence.
Qed.

(** The calls of an attempt that broadcast [tx]. *)
Definition broadcast_calls (sk : PrivKey) (del : DelegationResponse) (unbonding : bool) (tx : MsgTx)
    (cs : list sl_call) : Prop :=
  ∃ slashTx bytes idx outTx bsParams,
    slashing_tx_of del unbonding = Val slashTx ∧ slashed_output del unbonding = Val (bytes, idx) ∧
    NewBTCTxFromBytes bytes = Ok outTx ∧ build_with_witness sk del unbonding bsParams = Val tx ∧
    cs = [SNotReturned (MustGetTxHash slashTx); STxOut (TxHash outTx) idx true; SSend tx].

Lemma isTxSubmitted_run h (s : St) o s' :
  isTxSubmittedToBitcoin h s = (o, s') →
  (o ≠ Val false ∧ s'.1 = s.1) ∨ (o = Val false ∧ s'.1 = (sl_add_call (SNotReturned h) s.1.1, s.1.2)).
Proof.
  unfold isTxSubmittedToBitcoin. rewrite bind_unfold. unfold try.
  destruct (sl_world _ s) as [[t|e|p|] s1] eqn:E; apply sl_world_self in E; intros H.
  - unfold mret, M_ret in H. simplify_eq. by left.
  - rewrite bind_unfold, sl_note_run in H. unfold mret, M_ret in H. simplify_eq. right.
    split; [done|]. unfold slasher_of, db_of. cbn. by rewrite E.
  - simplify_eq. by left.
  - simplify_eq. by left.
Qed.

Lemma spendable_run bytes i (s : St) o s' :
  isTaprootOutputSpendable bytes i s = (o, s') →
  ((∀ u, o ≠ Val u) ∧ s'.1 = s.1) ∨
  ∃ u outTx, o = Val u ∧ NewBTCTxFromBytes bytes = Ok outTx ∧
    s'.1 = (sl_add_call (STxOut (TxHash outTx) i u) s.1.1, s.1.2).
Proof.
  unfold isTaprootOutputSpendable. rewrite bind_unfold. unfold wrap_err.
  destruct (NewBTCTxFromBytes bytes) as [outTx|e]; cbn; intros H; [|simplify_eq; by left].
  rewrite bind_unfold in H.
  destruct (sl_world _ s) as [[u|e|p|] s1] eqn:E; apply sl_world_self in E;
    [|simplify_eq; by left..].
  rewrite bind_unfold, sl_note_run in H. unfold mret, M_ret in H. simplify_eq. right.
  exists u, outTx. split_and!; [done|done|]. unfold slasher_of, db_of. cbn. by rewrite E.
Qed.

Lemma submit_run sk del unbonding bsParams (s : St) o s' :
  submit_slashing_tx sk del unbonding bsParams s = (o, s') →
  s'.1 = s.1 ∨ ∃ tx, build_with_witness sk del unbonding bsParams = Val tx ∧
    s'.1 = (sl_add_call (SSend tx) s.1.1, s.1.2).
Proof.
  unfold submit_slashing_tx. intros H. rewrite bind_unfold in H. unfold wrap_err at 1, of_outcome at 1 in H.
  destruct (build_with_witness sk del unbonding bsParams) as [tx|e|p|]; [|simplify_eq; by left..].
  right. exists tx. split; [done|]. rewrite bind_unfold, sl_note_run, bind_unfold in H.
  unfold wrap_err at 1 in H.
  destruct (sl_world (sb_SendRawTransactionWithBurnLimit _ _ _) _) as [[h|e|p|] s6] eqn:E6; apply sl_world_self in E6; cbn in E6;
    [|simplify_eq; exact E6..].
  rewrite bind_unfold in H. unfold try at 1 in H.
  destruct (sl_world sq_BtcConfirmationDepth s6) as [[dep|e|p|] s7] eqn:E7; apply sl_world_self in E7; rewrite E6 in E7;
    [|try unfold fail in H; simplify_eq; exact E7..].
  rewrite bind_unfold in H. unfold of_outcome in H.
  destruct (slice_index (TxOut tx) 0) as [out|e|p|]; [|simplify_eq; exact E7..].
  rewrite bind_unfold in H. destruct (waitForTxKDeep _ _ _ s7) as [o8 s8] eqn:E8.
  apply waitForTxKDeep_self in E8. rewrite E7 in E8.
  destruct o8; unfold mret, M_ret in H; simplify_eq; exact E8.
Qed.

(** An attempt that stopped before a broadcast. *)
Definition no_broadcast (s s' : St) : Prop :=
  ∃ cs, sl_calls s'.1.1 = sl_calls s.1.1 ++ cs ∧ ∀ tx, SSend tx ∉ cs.

Lemma no_broadcast_intro cs (s s1 s' : St) :
  s'.1 = s1.1 → sl_calls s1.1.1 = sl_calls s.1.1 ++ cs → (∀ tx, SSend tx ∉ cs) → no_broadcast s s'.
Proof. intros H Hc Hn. exists cs. by rewrite H. Qed.

Lemma sendSlashingTx_run sk del unbonding (s : St) o s' :
  sendSlashingTx sk del unbonding s = (o, s') →
  no_broadcast s s' ∨
  ∃ cs tx, sl_calls s'.1.1 = sl_calls s.1.1 ++ cs ∧ broadcast_calls sk del unbonding tx cs.
Proof.
  unfold sendSlashingTx. intros H. rewrite bind_unfold in H. unfold of_outcome at 1 in H.
  assert (no_broadcast s s) as Hno by (apply (no_broadcast_intro [] s s); [done|by rewrite app_nil_r|set_solver]).
  destruct (slashing_tx_of del unbonding) as [slashTx|e|p|] eqn:Esl; [|simplify_eq; by left..].
  cbv zeta in H. rewrite bind_unfold in H.
  destruct (isTxSubmittedToBitcoin _ s) as [o2 s2] eqn:E2.
  apply isTxSubmitted_run in E2 as [[Ho2 S2]|[-> S2]].
  { left. apply (no_broadcast_intro [] s s); [|by rewrite app_nil_r|set_solver].
    destruct o2 as [[]|e|p|]; try done; unfold mret, M_ret in H; by simplify_eq. }
  assert (sl_calls s2.1.1 = sl_calls s.1.1 ++ [SNotReturned (MustGetTxHash slashTx)]) as C2 by by rewrite S2.
  rewrite bind_unfold in H. unfold of_outcome at 1 in H.
  destruct (slashed_output del unbonding) as [[bytes i]|e|p|] eqn:Eo;
    [|simplify_eq; left; eapply no_broadcast_intro; [done|exact C2|set_solver]..].
  cbn [fst snd] in H. rewrite bind_unfold in H. unfold wrap_err at 1 in H.
  destruct (isTaprootOutputSpendable _ _ s2) as [o4 s4] eqn:E4.
  apply spendable_run in E4 as [[Ho4 S4]|(u & outTx & -> & Hot & S4)].
  { left. eapply no_broadcast_intro; [|exact C2|set_solver].
    destruct o4 as [u|e|p|]; [by destruct (Ho4 u)|..]; by simplify_eq. }
  assert (sl_calls s4.1.1 = sl_calls s.1.1 ++
    [SNotReturned (MustGetTxHash slashTx); STxOut (TxHash outTx) i u]) as C4.
  { rewrite S4. cbn. by rewrite C2, <-app_assoc. }
  destruct u; cbn [negb] in H;
    [|unfold fail in H; simplify_eq; left; eapply no_broadcast_intro; [done|exact C4|set_solver]].
  rewrite bind_unfold in H. unfold try at 1 in H.
  destruct (sl_world _ s4) as [o5 s5] eqn:E5. apply sl_world_self in E5.
  destruct o5 as [bsParams|e|p|];
    [|try unfold fail in H; simplify_eq; left; eapply no_broadcast_intro; [exact E5|exact C4|set_solver]..].
  apply submit_run in H as [S'|(tx & Hb & S')].
  - left. eapply (no_broadcast_intro _ s s4); [by rewrite S', E5|exact C4|set_solver].
  - right. eexists _, tx. split; [rewrite S'; cbn; rewrite E5, C4, <-app_assoc; reflexivity|].
    exists slashTx, bytes, i, outTx, bsParams. split_and!; done.
Qed.
End broadcast.

(** ** The steps of an attempt *)
Section attempts.
Context {BL : BTCLib} {SL : StakingLib} {RT : Retry} {SK : SlashingKeys} {SLB : SlashingLib}
  {W D : Type} {BTC : StakingBTCClient W} {BQ : SlasherQuery W}.
Notation St := (BTCSlasher * D * W)%type.

Fixpoint attempt_iter (n : nat) (sk : PrivKey) (del : DelegationResponse) (unbonding : bool)
    (pc : attempt_pc) : M St attempt_pc :=
  match n with
  | O => mret pc
  | S n => pc ← attempt_run sk del unbonding pc; attempt_iter n sk del unbonding pc
  end.

(** How [sendSlashingTx] shows in the place an attempt ends at. *)
Definition attempt_end (r : outcome Hash * St) : outcome attempt_pc * St :=
  match r with
  | (Val h, s) => (Val (PcDone (Ok h)), s)
  | (Error e, s) => (Val (PcDone (Err e)), s)
  | (Panic p, s) => (Panic p, s)
  | (Diverge, s) => (Val PcStuck, s)
  end.

Lemma attempt_iter_ended n sk del unbonding pc (s : St) :
  running pc = false → attempt_iter n sk del unbonding pc s = (Val pc, s).
Proof. intros Hpc. induction n as [|n IH]; [done|]. cbn. rewrite bind_unfold. by destruct pc. Qed.

Lemma attempt_iter_S n sk del unbonding pc (s : St) :
  attempt_iter (S n) sk del unbonding pc s =
  match attempt_step sk del unbonding pc s with
  | (Val pc', s') => attempt_iter n sk del unbonding pc' s'
  | (Error e, s') => (Val (PcDone (Err e)), s')
  | (Panic p, s') => (Panic p, s')
  | (Diverge, s') => (Val PcStuck, s')
  end.
Proof.
  cbn [attempt_iter]. rewrite bind_unfold. unfold attempt_run.
  destruct (attempt_step sk del unbonding pc s) as [[]]; try done; by rewrite attempt_iter_ended.
Qed.

Lemma attempt_submit sk del unbonding bsParams (s : St) :
  attempt_iter 3 sk del unbonding (PcParams bsParams) s =
  attempt_end (submit_slashing_tx sk del unbonding bsParams s).
Proof.
  rewrite attempt_iter_S. cbn [attempt_step]. unfold submit_slashing_tx. rewrite !bind_unfold.
  destruct (wrap_err _ (of_outcome (build_with_witness _ _ _ _)) s) as [[tx|e|p|] s1]; [|done..].
  rewrite !bind_unfold, sl_note_run, !bind_unfold.
  destruct (wrap_err _ _ _) as [[h|e|p|] s2]; [|done..]. unfold mret at 1, M_ret at 1.
  rewrite attempt_iter_S. cbn [attempt_step]. rewrite !bind_unfold.
  destruct (try _ s2) as [[[depth|e]|e|p|] s3]; [|done..]. unfold mret at 1, M_ret at 1.
  rewrite attempt_iter_S. cbn [attempt_step]. rewrite !bind_unfold.
  destruct (of_outcome (slice_index (TxOut tx) 0) s3) as [[out|e|p|] s4]; [|done..].
  rewrite !bind_unfold. by destruct (waitForTxKDeep _ _ _ s4) as [[[]|e|p|] s5].
Qed.

(** Run alone, the steps are [sendSlashingTx]. *)
Lemma attempt_alone sk del unbonding (s : St) :
  attempt_iter 6 sk del unbonding PcStart s = attempt_end (sendSlashingTx sk del unbonding s).
Proof.
  rewrite attempt_iter_S. cbn [attempt_step]. unfold sendSlashingTx. rewrite !bind_unfold.
  destruct (of_outcome (slashing_tx_of del unbonding) s) as [[slashTx|e|p|] s1]; [|done..].
  cbv zeta. rewrite !bind_unfold.
  destruct (isTxSubmittedToBitcoin _ s1) as [[[]|e|p|] s2]; [|..|done|done|done]; unfold mret at 1, M_ret at 1.
  { by rewrite attempt_iter_ended. }
  rewrite attempt_iter_S. cbn [attempt_step]. rewrite !bind_unfold.
  destruct (of_outcome (slashed_output del unbonding) s2) as [[output|e|p|] s3]; [|done..].
  rewrite !bind_unfold. destruct (wrap_err _ _ s3) as [[[]|e|p|] s4]; [|done..].
  cbn [negb]. unfold mret at 1, M_ret at 1.
  rewrite attempt_iter_S. cbn [attempt_step]. rewrite !bind_unfold.
  destruct (try _ s4) as [[[bsParams|e]|e|p|] s5]; [|done..]. unfold mret at 1, M_ret at 1.
  apply attempt_submit.
Qed.

(** ** Broadcasts under any interleaving *)
Implicit Types (cs : list sl_call).
Definition not_returned cs (del : DelegationResponse) (unbonding : bool) : Prop :=
  ∃ slashTx, slashing_tx_of del unbonding = Val slashTx ∧ SNotReturned (MustGetTxHash slashTx) ∈ cs.
Definition unspent cs (del : DelegationResponse) (unbonding : bool) : Prop :=
  ∃ bytes idx outTx, slashed_output del unbonding = Val (bytes, idx) ∧
    NewBTCTxFromBytes bytes = Ok outTx ∧ STxOut (TxHash outTx) idx true ∈ cs.

(** Whom attempts may be made for. *)
Context (owner : PrivKey → DelegationResponse → Prop).
(** The broadcast of [tx] is justified by the calls before it. *)
Definition send_ok cs (tx : MsgTx) : Prop :=
  ∃ sk del unbonding bsParams, owner sk del ∧ not_returned cs del unbonding ∧
    unspent cs del unbonding ∧ build_with_witness sk del unbonding bsParams = Val tx.
(** What an attempt has established where it is. *)
Definition pc_ok cs (del : DelegationResponse) (unbonding : bool) (pc : attempt_pc) : Prop :=
  match pc with
  | PcNotReturned => not_returned cs del unbonding
  | PcSpendable | PcParams _ => not_returned cs del unbonding ∧ unspent cs del unbonding
  | _ => True
  end.
Record broadcasts_ok (s : St) : Prop := {
  bo_sends : ∀ pre tx post, sl_calls s.1.1 = pre ++ SSend tx :: post → send_ok pre tx;
  bo_strays : Forall (λ st, owner (st_key st) (st_del st) ∧
    pc_ok (sl_calls s.1.1) (st_del st) (st_unbonding st) (st_pc st)) (strays s.1.1);
}.

Lemma pc_ok_mono cs cs' del unbonding pc :
  pc_ok cs del unbonding pc → pc_ok (cs ++ cs') del unbonding pc.
Proof.
  assert (not_returned cs del unbonding → not_returned (cs ++ cs') del unbonding) as H1.
  { intros (t & ? & ?). exists t. set_solver. }
  assert (unspent cs del unbonding → unspent (cs ++ cs') del unbonding) as H2.
  { intros (b & i & o & ? & ? & ?). exists b, i, o. set_solver. }
  destruct pc; cbn; tauto.
Qed.

(** The state after a step: more calls, the same strays. *)
Definition adds (s s' : St) cs : Prop :=
  sl_calls s'.1.1 = sl_calls s.1.1 ++ cs ∧ strays s'.1.1 = strays s.1.1.

Lemma adds_nil (s s' : St) : s'.1 = s.1 → adds s s' [].
Proof. intros H. unfold adds. by rewrite H, app_nil_r. Qed.

Lemma broadcasts_ok_adds (s s' : St) cs :
  broadcasts_ok s → adds s s' cs →
  (∀ pre tx post, cs = pre ++ SSend tx :: post → send_ok (sl_calls s.1.1 ++ pre) tx) →
  broadcasts_ok s'.
Proof.
  intros [Hs Hst] [Hc Hstr] Hnew. split; rewrite Hc, ?Hstr.
  - intros pre tx post E. destruct (app_eq_inv _ _ _ _ E) as [(k & E1 & E2)|(k & E1 & E2)].
    + destruct k as [|c k]; cbn in E2.
      * rewrite app_nil_r in E1. subst pre. specialize (Hnew [] tx post). rewrite app_nil_r in Hnew.
        by apply Hnew.
      * injection E2 as <- E2. by eapply Hs.
    + subst pre. by eapply Hnew.
  - eapply Forall_impl; [exact Hst|]. cbn. intros st [? ?]. split; [done|]. by apply pc_ok_mono.
Qed.

Lemma no_sends_ok cs0 cs :
  (∀ tx, SSend tx ∉ cs) → ∀ pre tx post, cs = pre ++ SSend tx :: post → send_ok (cs0 ++ pre) tx.
Proof. intros Hno pre tx post ->. destruct (Hno tx). set_solver. Qed.

Lemma waits_self {A} (m : M W A) (s : St) o s' : sl_world m s = (o, s') → adds s s' [].
Proof. intros H. by apply adds_nil, (sl_world_self m s o). Qed.

(** What a step of an attempt adds, and where it gets to. *)
Lemma attempt_step_adds sk del unbonding pc (s : St) o s' :
  owner sk del → pc_ok (sl_calls s.1.1) del unbonding pc →
  attempt_step sk del unbonding pc s = (o, s') →
  ∃ cs, adds s s' cs ∧
    (∀ pre tx post, cs = pre ++ SSend tx :: post → send_ok (sl_calls s.1.1 ++ pre) tx) ∧
    ∀ pc', o = Val pc' → pc_ok (sl_calls s'.1.1) del unbonding pc'.
Proof.
  intros Hown Hpc H.
  assert (∀ t : St, adds s t [] → t = s' → (∀ pc', o = Val pc' → pc_ok (sl_calls s.1.1) del unbonding pc') →
    ∃ cs, adds s s' cs ∧
      (∀ pre tx post, cs = pre ++ SSend tx :: post → send_ok (sl_calls s.1.1 ++ pre) tx) ∧
      ∀ pc', o = Val pc' → pc_ok (sl_calls s'.1.1) del unbonding pc') as Hquiet.
  { intros t Ht -> Hend. exists []. split_and!; [done|by apply no_sends_ok; set_solver|].
    intros pc' ->. destruct Ht as [-> _]. rewrite app_nil_r. by apply Hend. }
  assert (adds s s []) as Hs by by apply adds_nil.
  destruct pc as [| | |bsParams|tx h|tx h depth|r|]; cbn [attempt_step] in H.
  - rewrite bind_unfold in H. unfold of_outcome in H.
    destruct (slashing_tx_of del unbonding) as [slashTx|e|p|] eqn:Et; [|simplify_eq; by apply (Hquiet s')..].
    cbv zeta in H. rewrite bind_unfold in H.
    destruct (isTxSubmittedToBitcoin _ s) as [o1 s1] eqn:E1.
    apply isTxSubmitted_run in E1 as [[Hn S1]|[-> S1]].
    + apply (Hquiet s1); [by apply adds_nil|destruct o1 as [[]| | |]; try done; unfold mret, M_ret in H; by simplify_eq|].
      intros pc' ->. destruct o1 as [[]| | |]; try done; unfold mret, M_ret in H; by simplify_eq.
    + unfold mret, M_ret in H. simplify_eq. exists [SNotReturned (MustGetTxHash slashTx)].
      unfold adds. rewrite S1. cbn. split_and!; [done|done|apply no_sends_ok; set_solver|].
      intros pc' [= <-]. exists slashTx. set_solver.
  - rewrite bind_unfold in H. unfold of_outcome in H.
    destruct (slashed_output del unbonding) as [[bytes i]|e|p|] eqn:Eo; [|simplify_eq; by apply (Hquiet s')..].
    cbn [fst snd] in H. rewrite bind_unfold in H. unfold wrap_err in H.
    destruct (isTaprootOutputSpendable _ _ s) as [o1 s1] eqn:E1.
    apply spendable_run in E1 as [[Hn S1]|(u & outTx & -> & Hot & S1)].
    + apply (Hquiet s1); [by apply adds_nil|destruct o1 as [u| | |]; [by destruct (Hn u)|..]; by simplify_eq|].
      intros pc' ->. destruct o1 as [u| | |]; [by destruct (Hn u)|..]; by simplify_eq.
    + exists [STxOut (TxHash outTx) i u].
      assert (s' = s1 ∧ ∀ pc', o = Val pc' → u = true ∧ pc' = PcSpendable) as [-> Hend].
      { destruct u; cbn [negb] in H; unfold mret, M_ret, fail in H; simplify_eq; (split; [done|]).
        - by intros pc' [= <-].
        - done. }
      unfold adds. rewrite S1. cbn. split_and!; [done|done|apply no_sends_ok; set_solver|].
      intros pc' [-> ->]%Hend. split; [by apply (pc_ok_mono _ _ _ _ PcNotReturned)|].
      exists bytes, i, outTx. set_solver.
  - rewrite bind_unfold in H. unfold try in H.
    destruct (sl_world _ s) as [o1 s1] eqn:E1. apply waits_self in E1.
    apply (Hquiet s1); [done|destruct o1; unfold mret, M_ret, fail in H; by simplify_eq|].
    intros pc' ->. destruct o1; unfold mret, M_ret, fail in H; by simplify_eq.
  - rewrite bind_unfold in H. unfold wrap_err at 1, of_outcome in H.
    destruct (build_with_witness sk del unbonding bsParams) as [tx|e|p|] eqn:Eb;
      [|simplify_eq; by apply (Hquiet s')..].
    rewrite bind_unfold, sl_note_run, bind_unfold in H. unfold wrap_err in H.
    destruct (sl_world _ _) as [o1 s1] eqn:E1. apply sl_world_self in E1. cbn in E1.
    assert (s' = s1 ∧ ∀ pc', o = Val pc' → ∃ h, pc' = PcSent tx h) as [-> Hend].
    { destruct o1; unfold mret, M_ret in H; simplify_eq; (split; [done|]); try done.
      intros pc' [= <-]. eauto. }
    exists [SSend tx]. unfold adds. rewrite E1. cbn. split_and!; [done|done| |].
    + intros [|c pre] tx' post Heq; [|by destruct pre]. injection Heq as <- _. rewrite app_nil_r.
      exists sk, del, unbonding, bsParams. destruct Hpc. done.
    + intros pc' [h ->]%Hend. done.
  - rewrite bind_unfold in H. unfold try in H.
    destruct (sl_world _ s) as [o1 s1] eqn:E1. apply waits_self in E1.
    apply (Hquiet s1); [done|destruct o1; unfold mret, M_ret, fail in H; by simplify_eq|].
    intros pc' ->. destruct o1; unfold mret, M_ret, fail in H; by simplify_eq.
  - rewrite bind_unfold in H. unfold of_outcome in H.
    destruct (slice_index (TxOut tx) 0) as [out|e|p|]; [|simplify_eq; by apply (Hquiet s')..].
    rewrite bind_unfold in H. destruct (waitForTxKDeep _ _ _ s) as [o1 s1] eqn:E1.
    apply waitForTxKDeep_self, adds_nil in E1.
    apply (Hquiet s1); [done|destruct o1; unfold mret, M_ret in H; by simplify_eq|].
    intros pc' ->. destruct o1; unfold mret, M_ret in H; by simplify_eq.
  - unfold mret, M_ret in H. simplify_eq. apply (Hquiet s'); [done|done|]. by intros pc' [= <-].
  - unfold mret, M_ret in H. simplify_eq. apply (Hquiet s'); [done|done|]. by intros pc' [= <-].
Qed.

Lemma attempt_run_ok sk del unbonding pc (s : St) o s' :
  owner sk del → pc_ok (sl_calls s.1.1) del unbonding pc → broadcasts_ok s →
  attempt_run sk del unbonding pc s = (o, s') →
  broadcasts_ok s' ∧ (∃ cs, adds s s' cs) ∧
  ∀ pc', o = Val pc' → pc_ok (sl_calls s'.1.1) del unbonding pc'.
Proof.
  intros Hown Hpc Hs H. unfold attempt_run in H.
  destruct (attempt_step sk del unbonding pc s) as [o1 s1] eqn:E.
  apply attempt_step_adds in E as (cs & Ha & Hsend & Hend); [|done|done].
  assert (s' = s1) as -> by (destruct o1; by simplify_eq).
  split_and!; [by eapply broadcasts_ok_adds|by eexists|].
  intros pc' ->. destruct o1; simplify_eq; try done. by apply Hend.
Qed.

Lemma stray_step_ok i (s : St) : broadcasts_ok s → broadcasts_ok (snd (stray_step i s)).
Proof.
  intros Hs. unfold stray_step. rewrite bind_unfold. unfold sl_self at 1, zoom at 1, gets.
  cbn [fst snd]. replace ((s.1.1, s.1.2, s.2) : St) with s by (by destruct s as [[] ]).
  destruct (strays s.1.1 !! i) as [st|] eqn:Ei; [|done].
  pose proof (bo_strays _ Hs) as Hst. rewrite Forall_lookup in Hst. destruct (Hst _ _ Ei) as [Ho Hpc].
  rewrite bind_unfold. destruct (attempt_run _ _ _ _ s) as [o s1] eqn:E.
  apply attempt_run_ok in E as (H1 & (cs & Hc & Hstr) & Hend); [|done..].
  destruct o as [pc|e|p|]; try done. split; cbn.
  - apply H1.
  - apply Forall_insert; [apply H1|]. cbn. split; [done|]. by apply Hend.
Qed.

(** A round keeps what its own attempts have established, too. *)
Definition round_ok (s : St) (del : DelegationResponse) (rd : round) : Prop :=
  pc_ok (sl_calls s.1.1) del false (fst (rd_pcs rd)) ∧ pc_ok (sl_calls s.1.1) del true (snd (rd_pcs rd)).

Lemma set_pc_pcs unbonding pc rd :
  rd_pcs (set_pc unbonding pc rd) = if unbonding then (fst (rd_pcs rd), pc) else (pc, snd (rd_pcs rd)).
Proof. unfold set_pc. destruct pc as [| | | | | |[]|]; done. Qed.

Lemma stray_step_calls i (s : St) o s' :
  broadcasts_ok s → stray_step i s = (o, s') → ∃ cs, sl_calls s'.1.1 = sl_calls s.1.1 ++ cs.
Proof.
  intros Hs H. unfold stray_step in H. rewrite bind_unfold in H. unfold sl_self at 1, zoom at 1, gets in H.
  cbn [fst snd] in H. replace ((s.1.1, s.1.2, s.2) : St) with s in H by (by destruct s as [[] ]).
  destruct (strays s.1.1 !! i) as [st|] eqn:Ei.
  2:{ unfold mret, M_ret in H. simplify_eq. exists []. by rewrite app_nil_r. }
  pose proof (bo_strays _ Hs) as Hst. rewrite Forall_lookup in Hst. destruct (Hst _ _ Ei) as [Ho Hpc].
  rewrite bind_unfold in H. destruct (attempt_run _ _ _ _ s) as [o1 s1] eqn:E.
  apply attempt_run_ok in E as (_ & (cs & Hc & _) & _); [|done..].
  exists cs. destruct o1; unfold sl_self, zoom, modify in H; simplify_eq; done.
Qed.

Lemma run_round_ok sk del evs rd (s : St) o s' :
  owner sk del → broadcasts_ok s → round_ok s del rd →
  run_round sk del evs rd s = (o, s') →
  broadcasts_ok s' ∧ ∀ e rd', o = Val (e, rd') → round_ok s' del rd'.
Proof.
  intros Hown. revert rd s. induction evs as [|ev evs IH]; intros rd s Hs Hrd H; cbn [run_round] in H.
  { unfold mret, M_ret in H. simplify_eq. split; [done|]. by intros e rd' [= _ <-]. }
  destruct ev as [unb|i| | |].
  - destruct (running _); [|by eapply IH].
    rewrite bind_unfold in H. destruct (attempt_run _ _ _ _ s) as [o1 s1] eqn:E.
    apply attempt_run_ok in E as (H1 & (cs & Hc & _) & Hend); [|done|destruct unb; apply Hrd|done].
    destruct o1 as [pc|e|p|]; [|by simplify_eq..]. specialize (Hend pc eq_refl).
    eapply IH; [exact H1| |exact H]. unfold round_ok. rewrite set_pc_pcs, Hc.
    destruct Hrd as [Hr1 Hr2]. rewrite Hc in Hend.
    destruct unb; cbn; split; first [exact Hend | by apply pc_ok_mono].
  - rewrite bind_unfold in H. pose proof (stray_step_ok i s Hs) as H1.
    destruct (stray_step i s) as [o1 s1] eqn:E. cbn in H1.
    apply stray_step_calls in E as [cs Hc]; [|done].
    destruct o1 as [[]|e|p|]; [|by simplify_eq..]. eapply IH; [exact H1| |exact H].
    destruct Hrd as [Hr1 Hr2]. split; rewrite Hc; by apply pc_ok_mono.
  - destruct (rd_hash rd); [|by eapply IH].
    unfold mret, M_ret in H. simplify_eq. split; [done|]. by intros e rd' [= _ <-].
  - destruct (rd_errs rd) as [|e errs]; [by eapply IH|]. destruct (rd_err1 rd); [|by apply IH in H].
    unfold mret, M_ret in H. simplify_eq. split; [done|]. by intros e' rd' [= _ <-].
  - destruct (rd_err1 rd); [by eapply IH|].
    unfold mret, M_ret in H. simplify_eq. split; [done|]. by intros e' rd' [= _ <-].
Qed.

Lemma slash_attempt_ok sk del q :
  owner sk del → broadcasts_ok (fst q) → broadcasts_ok (fst (snd (slash_attempt sk del q))).
Proof.
  intros Hown. destruct q as [s [h scheds]]. cbn [fst]. intros Hs. unfold slash_attempt.
  destruct (run_round sk del _ new_round s) as [o s1] eqn:E.
  apply run_round_ok in E as [H1 Hrd]; [|done..|by split].
  destruct o as [[e rd]|e|p|]; [|done..]. destruct (Hrd e rd eq_refl) as [Hr1 Hr2].
  assert (broadcasts_ok (set_strays (strays s1.1.1 ++ left_running sk del rd) s1.1.1, s1.1.2, s1.2)) as H2.
  { split; cbn -[left_running]; [apply H1|]. apply Forall_app. split; [apply H1|].
    apply Forall_forall. intros st. unfold left_running.
    rewrite list_elem_of_filter, !elem_of_cons, elem_of_nil. intros [_ [->|[->|[]]]]; done. }
  destruct e as [[]|]; exact H2.
Qed.

Lemma slashBTCDelegation_ok scheds sk del (s : St) :
  owner sk del → broadcasts_ok s → broadcasts_ok (snd (slashBTCDelegation scheds sk del s)).
Proof.
  intros Hown Hs. unfold slashBTCDelegation.
  pose proof (retry_Do_spec (mkRetryOpts 0 (λ _, true) false true) (slash_attempt sk del)
    (s, (None, scheds)) ltac:(done) ltac:(done)) as Hr.
  apply (retried_inv (λ q, broadcasts_ok (fst q))) in Hr;
    [|intros; by apply slash_attempt_ok|done].
  assert (∀ res (t : St), broadcasts_ok t → broadcasts_ok (snd (push_result res t))) as Hpush.
  { intros res t []. by split. }
  destruct (retry_Do _ _ _) as [[[]|e|p|] [s1 [h sc]]]; cbn [fst snd] in *; auto.
Qed.
End attempts.

(** C16: a slashing transaction is broadcast only when its output is unspent.  An
    attempt that runs alone broadcasts at most once, after the node did not return the
    slashing transaction ([GetRawTransaction] failed, for whatever reason: the
    transaction is unknown or the call itself failed) and answered that the staking
    (or unbonding) output is unspent, and what it broadcasts is the slashing
    transaction of that path built with the provider's key.  And if every broadcast
    so far was justified in this way by calls made before it, this still holds after
    a delegation was slashed, however the steps of the two attempts of each round, of
    the attempts that earlier rounds left running, the retries and the shutdown
    interleave, and after any further step of an attempt left running. *)
Theorem slashing_broadcast_is_justified
    {BL : BTCLib} {SL : StakingLib} {RT : Retry} {SK : SlashingKeys} {SLB : SlashingLib}
    {W D : Type} {BTC : StakingBTCClient W} {BQ : SlasherQuery W} sk del (s : BTCSlasher * D * W) :
  (∀ unbonding o s', sendSlashingTx sk del unbonding s = (o, s') →
     ∃ cs, sl_calls s'.1.1 = sl_calls s.1.1 ++ cs ∧
       ((∀ tx, SSend tx ∉ cs) ∨ ∃ tx, broadcast_calls sk del unbonding tx cs)) ∧
  (∀ (owner : PrivKey → DelegationResponse → Prop) scheds i,
     owner sk del → broadcasts_ok owner s →
     let s' := snd (slashBTCDelegation scheds sk del s) in
     broadcasts_ok owner s' ∧ broadcasts_ok owner (snd (stray_step i s'))).
Proof.
  split.
  - intros unbonding o s' [(cs & Hc & Hn)|(cs & tx & Hc & Hb)]%sendSlashingTx_run;
      exists cs; (split; [done|]); [by left|right; by exists tx].
  - intros owner scheds i Ho Hs. cbn zeta.
    pose proof (slashBTCDelegation_ok owner scheds sk del s Ho Hs) as H.
    split; [exact H|by apply stray_step_ok].
Qed.

(** The shutdown is seen when the staking attempt is before its broadcast; it
    broadcasts afterwards. *)
Definition quit_schedule : list race_event :=
  [RunAttempt false; RunAttempt false; RunAttempt true; RunAttempt false; TakeQuit].
Lemma slashing_broadcast_is_justified_witness :
  sl_calls (snd (sendSlashingTx 5 (small_dels true ACTIVE) false (slasher_new, slasher_db, 0))).1.1 =
    [SNotReturned 70; STxOut 50 0 true; SSend (mkMsgTx 2 [] [mkTxOut 900 [6]] 70)] ∧
  (∃ cs, sl_calls (snd (sendSlashingTx 5 (small_dels true ACTIVE) false (slasher_new, slasher_db, 0))).1.1 =
      sl_calls slasher_new ++ cs ∧
    ((∀ tx, SSend tx ∉ cs) ∨ ∃ tx, broadcast_calls 5 (small_dels true ACTIVE) false tx cs)) ∧
  let s' := snd (slashBTCDelegation [quit_schedule] 5 (small_dels true ACTIVE) (slasher_new, slasher_db, 0)) in
  sl_calls s'.1.1 = [SNotReturned 70; STxOut 50 0 true; SNotReturned 71] ∧
  sl_calls (snd (stray_step 0 s')).1.1 =
    [SNotReturned 70; STxOut 50 0 true; SNotReturned 71; SSend (mkMsgTx 2 [] [mkTxOut 900 [6]] 70)] ∧
  broadcasts_ok (λ sk del, sk = 5 ∧ del = small_dels true ACTIVE) s' ∧
  broadcasts_ok (λ sk del, sk = 5 ∧ del = small_dels true ACTIVE) (snd (stray_step 0 s')).
Proof.
  cbn zeta. split; [vm_compute; reflexivity|].
  destruct (slashing_broadcast_is_justified (SK := small_keys) 5 (small_dels true ACTIVE)
    (slasher_new, slasher_db, 0)) as [H1 H2].
  split; [exact (H1 false _ _ (surjective_pairing _))|].
  split; [vm_compute; reflexivity|]. split; [vm_compute; reflexivity|].
  refine (H2 (λ sk del, sk = 5 ∧ del = small_dels true ACTIVE) [quit_schedule] 0%nat _ _).
  - split; reflexivity.
  - split; cbn; [|constructor]. intros pre tx post H. by destruct pre.
Defined.

(** ** The result of slashing one delegation *)
Section result.
Context {BL : BTCLib} {SL : StakingLib} {RT : Retry} {SK : SlashingKeys} {SLB : SlashingLib}
  {W D : Type} {BTC : StakingBTCClient W} {BQ : SlasherQuery W}.
Notation St := (BTCSlasher * D * W)%type.

(** Some attempt, staking or unbonding, ended with [r]. *)
Definition attempt_ended (sk : PrivKey) (del : DelegationResponse) (r : result Hash) : Prop :=
  ∃ unbonding pc (s1 s2 : St), running pc = true ∧
    attempt_run sk del unbonding pc s1 = (Val (PcDone r), s2).

(** Two attempts failed because nothing is left to slash, or one was cancelled. *)
Definition nothing_to_slash (sk : PrivKey) (del : DelegationResponse) : Prop :=
  ∃ e1 e2, attempt_ended sk del (Err e1) ∧ attempt_ended sk del (Err e2) ∧
    two_errors e1 e2 = EndNil.

Definition round_reports (sk : PrivKey) (del : DelegationResponse) (rd : round) : Prop :=
  (∀ h, rd_hash rd = Some h → attempt_ended sk del (Ok h)) ∧
  Forall (λ e, attempt_ended sk del (Err e)) (rd_errs rd) ∧
  (∀ e, rd_err1 rd = Some e → attempt_ended sk del (Err e)).

Lemma run_round_reports sk del evs rd (s : St) e rd' s' :
  round_reports sk del rd → run_round sk del evs rd s = (Val (Some e, rd'), s') →
  match e with
  | EndHash h => attempt_ended sk del (Ok h)
  | EndNil => TakeQuit ∈ evs ∨ nothing_to_slash sk del
  | EndErr _ => True
  end.
Proof.
  revert rd s. induction evs as [|ev evs IH]; intros rd s Hrd H; cbn [run_round] in H; [done|].
  assert (∀ rd1 s1, round_reports sk del rd1 → run_round sk del evs rd1 s1 = (Val (Some e, rd'), s') →
    match e with
    | EndHash h => attempt_ended sk del (Ok h)
    | EndNil => TakeQuit ∈ ev :: evs ∨ nothing_to_slash sk del
    | EndErr _ => True
    end) as Hgo.
  { intros rd1 s1 H1 H2. specialize (IH rd1 s1 H1 H2). destruct e; [done| |done].
    destruct IH; [left; by right|by right]. }
  pose proof Hrd as (Hh & He & He1). destruct ev as [unb|i| | |].
  - destruct (running _) eqn:Er; [|by eapply Hgo].
    apply bind_Val_inv in H as (pc & s1 & Hr & H). eapply Hgo; [|exact H].
    unfold set_pc. destruct pc as [| | | | | |[h|err]|]; try done.
    + assert (attempt_ended sk del (Ok h)) by by eexists unb, _, _, _.
      split_and!; [|done|done]. cbn. intros h' Hh'. destruct (rd_hash rd) eqn:Eh; simplify_eq; auto.
    + split_and!; [done| |done]. cbn. apply Forall_app. split; [done|]. constructor; [|done].
      by eexists unb, _, _, _.
  - apply bind_Val_inv in H as ([] & s1 & _ & H). by eapply Hgo.
  - destruct (rd_hash rd) as [h|] eqn:Eh; [|by eapply Hgo]. unfold mret, M_ret in H. simplify_eq. auto.
  - destruct (rd_errs rd) as [|err errs] eqn:Ee; [by eapply Hgo|]. apply Forall_cons in He as [He Hes].
    destruct (rd_err1 rd) as [err1|] eqn:E1.
    + unfold mret, M_ret in H. simplify_eq. destruct (two_errors err1 err) eqn:Et; try done.
      { unfold two_errors in Et. repeat case_match; done. }
      right. exists err1, err. auto.
    + eapply Hgo; [|exact H]. split_and!; cbn; [done|done|]. by intros ? [= <-].
  - destruct (rd_err1 rd); [by eapply Hgo|]. unfold mret, M_ret in H. simplify_eq. left. by left.
Qed.

Lemma RecordSlashedDelegation_run del (x : BTCSlasher) (d : D) (w : W) :
  ∃ x', RecordSlashedDelegation del (x, d, w) = (Val tt, (x', d, w)) ∧
    sl_metrics x' = sl_metrics x ++
      replicate (length (FpBtcPkList del)) (MTouch "SlashedDelegationGaugeVec" []) ++
      [MAdd "SlashedSatsCounter" (TotalSat del); MInc "SlashedDelegationsCounter"].
Proof.
  assert (∀ (l : list PubKey) x, ∃ x',
    for_each l (λ _, sl_emit (MTouch "SlashedDelegationGaugeVec" [])) (x, d, w) = (Val tt, (x', d, w)) ∧
    sl_metrics x' = sl_metrics x ++ replicate (length l) (MTouch "SlashedDelegationGaugeVec" [])) as Hloop.
  { induction l as [|k l IH]; intros y; [exists y; by rewrite app_nil_r|].
    cbn [for_each]. rewrite bind_unfold. cbn.
    destruct (IH (sl_add_metric (MTouch "SlashedDelegationGaugeVec" []) y)) as (x' & E & Em).
    exists x'. split; [exact E|]. rewrite Em. cbn. by rewrite <-app_assoc. }
  destruct (Hloop (FpBtcPkList del) x) as (x' & E & Em). unfold RecordSlashedDelegation.
  rewrite bind_unfold, E. eexists. split; [reflexivity|]. cbn. by rewrite Em, <-!app_assoc.
Qed.

Lemma enforce_result_success del h rest fp fps (x : BTCSlasher) (d : D) (w : W) :
  slashResultChan x = mkSlashResult del h None :: rest → FpBtcPkList del = fp :: fps →
  ∃ x', enforce_result (x, d, w) = (Val tt, (x', d, w)) ∧
    sl_metrics x' = sl_metrics x ++
      replicate (length (FpBtcPkList del)) (MTouch "SlashedDelegationGaugeVec" []) ++
      [MAdd "SlashedSatsCounter" (TotalSat del); MInc "SlashedDelegationsCounter"].
Proof.
  intros Hch Hfp. destruct (RecordSlashedDelegation_run del (set_results rest x) d w) as (x' & E & Em).
  exists x'. split; [|exact Em]. unfold enforce_result. rewrite bind_unfold.
  unfold sl_self at 1, zoom at 1, gets. cbn [fst snd]. rewrite Hch, bind_unfold.
  unfold sl_self at 1, zoom at 1, modify at 1. cbn [fst snd]. rewrite bind_unfold.
  unfold of_outcome. cbn [sr_Del]. rewrite Hfp.
  assert (slice_index (fp :: fps) 0 = Val fp) as -> by reflexivity. exact E.
Qed.
End result.

(** The result of slashing a delegation tells what its attempts did.  One
    result is pushed; a hash in it was returned by an attempt, and a result
    without an error has a hash unless the slasher is shutting down or two
    attempts failed with nothing left to slash. *)
Theorem slash_result_reports_attempts
    {BL : BTCLib} {SL : StakingLib} {RT : Retry} {SK : SlashingKeys} {SLB : SlashingLib}
    {W D : Type} {BTC : StakingBTCClient W} {BQ : SlasherQuery W} scheds sk del
    (s : BTCSlasher * D * W) s' :
  slashBTCDelegation scheds sk del s = (Val tt, s') →
  ∃ earlier res, slashResultChan s'.1.1 = earlier ++ [res] ∧ sr_Del res = del ∧
    (∀ h, SlashingTxHash res = Some h → attempt_ended (W := W) (D := D) sk del (Ok h)) ∧
    (sr_Err res = None → SlashingTxHash res = None →
       (∃ sched, sched ∈ scheds ∧ TakeQuit ∈ sched) ∨ nothing_to_slash (W := W) (D := D) sk del).
Proof.
  unfold slashBTCDelegation. intros H.
  pose proof (retry_Do_spec (mkRetryOpts 0 (λ _, true) false true) (slash_attempt sk del)
    (s, (None, scheds)) ltac:(done) ltac:(done)) as Hr.
  set (returned := λ q : BTCSlasher * D * W * (option Hash * list (list race_event)),
    (∀ h, q.2.1 = Some h → attempt_ended (W := W) (D := D) sk del (Ok h)) ∧ q.2.2 ⊆ scheds).
  assert (∀ q o q', slash_attempt sk del q = (o, q') → returned q →
    returned q' ∧ (o = Val tt → q'.2.1 = None →
      (∃ sched, sched ∈ scheds ∧ TakeQuit ∈ sched) ∨ nothing_to_slash (W := W) (D := D) sk del)) as Hatt.
  { intros [s0 [h0 sc]] o q' E [Hq Hsub]. cbn in Hq, Hsub. unfold slash_attempt in E.
    assert (tail sc ⊆ scheds) as Htl by (destruct sc; cbn; set_solver).
    destruct (run_round sk del _ new_round s0) as [[[end_ rd]|e|p|] s1] eqn:Er;
      [|by simplify_eq..].
    destruct end_ as [end_|]; [|by simplify_eq].
    apply run_round_reports in Er; [|by split_and!].
    destruct end_ as [h| |err]; simplify_eq; (split; [split; cbn; [|done]|]); try done.
    - by intros ? [= <-].
    - cbn. intros _ _. destruct Er as [Hquit|]; [left|by right].
      destruct sc as [|sched sc]; cbn in Hquit; [set_solver|]. exists sched. set_solver. }
  assert (returned (s, (None, scheds))) as H0 by done.
  assert (∀ q, returned q → returned (slash_attempt sk del q).2) as Hinv.
  { intros q Hq. destruct (slash_attempt sk del q) as [o q'] eqn:E. by apply (Hatt _ _ _ E). }
  destruct (retry_Do _ _ _) as [[[]|e|p|] [s1 [txHash sc]]] eqn:E; [| |done|done].
  - injection H as <-. exists (slashResultChan s1.1.1), (mkSlashResult del txHash None).
    split_and!; [done|done| |].
    + apply (retried_inv returned) in Hr; [apply Hr|exact Hinv|done].
    + intros _ Ht. cbn in Ht. subst txHash.
      apply (retried_Val_inv returned) in Hr as (q & Hq & Hrun); [|exact Hinv|done].
      by apply (Hatt _ _ _ Hrun Hq).
  - injection H as <-. exists (slashResultChan s1.1.1), (mkSlashResult del txHash (Some e)).
    split_and!; [done|done| |done]. apply (retried_inv returned) in Hr; [apply Hr|exact Hinv|done].
Qed.

(** The staking attempt broadcasts and its transaction is deep enough. *)
Definition win_schedule : list race_event :=
  RunAttempt true :: replicate 6 (RunAttempt false) ++ [TakeHash].
Definition slashed_once : BTCSlasher * mem_db * Z :=
  snd (slashBTCDelegation [win_schedule] 5 (small_dels true ACTIVE) (slasher_new, slasher_db, 0)).

Lemma slashed_once_run :
  slashBTCDelegation [win_schedule] 5 (small_dels true ACTIVE) (slasher_new, slasher_db, 0) =
  (Val tt, slashed_once).
Proof. vm_compute. reflexivity. Qed.

Lemma slash_result_reports_attempts_witness :
  slashResultChan slashed_once.1.1 = [mkSlashResult (small_dels true ACTIVE) (Some 70) None] ∧
  ∃ earlier res, slashResultChan slashed_once.1.1 = earlier ++ [res] ∧
    sr_Del res = small_dels true ACTIVE ∧
    (∀ h, SlashingTxHash res = Some h →
       attempt_ended (W := Z) (D := mem_db) 5 (small_dels true ACTIVE) (Ok h)) ∧
    (sr_Err res = None → SlashingTxHash res = None →
       (∃ sched, sched ∈ [win_schedule] ∧ TakeQuit ∈ sched) ∨
       nothing_to_slash (W := Z) (D := mem_db) 5 (small_dels true ACTIVE)).
Proof.
  split; [vm_compute; reflexivity|].
  exact (slash_result_reports_attempts [win_schedule] 5 (small_dels true ACTIVE) (slasher_new, slasher_db, 0)
    slashed_once slashed_once_run).
Defined.

(** A delegation with nothing left to slash is counted as slashed.  When both
    attempts fail as not slashable, the result carries no error, and the enforcer
    adds its satoshis to the slashed ones although no transaction was sent. *)
Definition fail_schedule : list race_event :=
  [RunAttempt false; RunAttempt true; RunAttempt true; TakeErr; RunAttempt false; TakeErr].
Definition unslashable_state : BTCSlasher * mem_db * Z := (slasher_new, slasher_db, 1).
Theorem unslashable_counts_as_slashed :
  let s1 := snd (slashBTCDelegation [fail_schedule] 5 (small_dels true ACTIVE) unslashable_state) in
  slashResultChan s1.1.1 = [mkSlashResult (small_dels true ACTIVE) None None] ∧
  (∀ tx, SSend tx ∉ sl_calls s1.1.1) ∧
  sl_metrics (snd (enforce_result s1)).1.1 =
    [MTouch "SlashedDelegationGaugeVec" []; MAdd "SlashedSatsCounter" 1000;
     MInc "SlashedDelegationsCounter"].
Proof.
  cbn zeta. split_and!; [vm_compute; reflexivity| |vm_compute; reflexivity].
  intros tx. set (cs := sl_calls _).
  assert (cs = [SNotReturned 70; SNotReturned 71; STxOut 50 0 false; STxOut 50 0 false]) as ->
    by (vm_compute; reflexivity).
  set_solver.
Qed.

(** How deep a slashing transaction is.  The wait ends only after an answer in
    which the transaction is in the chain with [k <= tip - height] computed on
    unsigned 32-bit integers: the transaction is [k] deep if the tip is at or
    above its block, but a tip below it (the node answered for the transaction
    before a reorganisation) wraps around and ends the wait too. *)
Theorem slashing_tx_depth
    {BL : BTCLib} {SL : StakingLib} {RT : Retry} {SK : SlashingKeys}
    {W D : Type} {BTC : StakingBTCClient W} h pk k (s : BTCSlasher * D * W) :
  (∀ s', waitForTxKDeep h pk k s = (Val tt, s') →
     ∃ w w1 w2 details tip, sb_TxDetails h pk w = (Val (Some details, TxInChain), w1) ∧
       sb_GetBestBlock w1 = (Val tip, w2) ∧ k ≤ u32 (tip - tc_BlockHeight details) ∧
       (is_u32 tip → 0 ≤ tc_BlockHeight details ≤ tip → k ≤ tip - tc_BlockHeight details)) ∧
  (∀ w1 w2 details tip, sb_TxDetails h pk s.2 = (Val (Some details, TxInChain), w1) →
     sb_GetBestBlock w1 = (Val tip, w2) → is_u32 tip → is_u32 (tc_BlockHeight details) →
     tip < tc_BlockHeight details → k ≤ 2 ^ 32 - (tc_BlockHeight details - tip) →
     k_deep h pk k s = (Val tt, (s.1, w2))).
Proof.
  split.
  - intros s' H.
    pose proof (retry_Do_spec (mkRetryOpts 0 (λ _, true) true true) (k_deep h pk k) s
      ltac:(done) ltac:(done)) as Hr. unfold waitForTxKDeep in H. rewrite H in Hr.
    apply (retried_Val_inv (λ _, True)) in Hr as (s1 & _ & Hk); [|done..].
    unfold k_deep in Hk. apply bind_Val_inv in Hk as ([details status] & s2 & E1 & Hk).
    apply wrap_err_Val in E1. unfold sl_world, zoom in E1.
    destruct (sb_TxDetails h pk s1.2) as [o1 w1] eqn:Ed. injection E1 as -> <-.
    destruct status; [done..|]. apply bind_Val_inv in Hk as (tip & s3 & E2 & Hk).
    apply wrap_err_Val in E2. unfold sl_world, zoom in E2. cbn in E2.
    destruct (sb_GetBestBlock w1) as [o2 w2] eqn:Eb. injection E2 as -> <-.
    destruct details as [details|]; [|done].
    destruct (Z.leb_spec k (u32 (tip - tc_BlockHeight details))) as [Hle|]; [|done].
    exists s1.2, w1, w2, details, tip. split_and!; [done|done|done|]. intros Ht Hh.
    rewrite u32_id in Hle; [done|zrange].
  - intros w1 w2 details tip Hd Hb Ht Hh Hlt Hk. unfold k_deep. rewrite bind_unfold.
    unfold wrap_err, sl_world, zoom. rewrite Hd, bind_unfold. cbn. rewrite Hb. cbn.
    assert (u32 (tip - tc_BlockHeight details) = tip - tc_BlockHeight details + 2 ^ 32) as ->.
    { unfold u32. rewrite <-(Z.mod_add _ 1) by lia. rewrite Z.mod_small; zrange. }
    destruct (Z.leb_spec k (tip - tc_BlockHeight details + 2 ^ 32)); [done|lia].
Qed.
