(* ===== verification/DelegationIndex.v ===== *)
(** * The index of BTC delegations ([btcstaking-tracker/atomicslasher/types.go])

    [BTCDelegationIndex] keeps three maps under one mutex, so each of its
    methods is one atomic step.  [Spec] is what it stands for, a set of tracked
    delegations searched by slashing transaction, and [index_op_simulates] is the
    simulation between the two. *)

From S2P Require Import Prelude Blocks.

(** [SlashingPath] *)
Definition slashStakingTx : Z := 0.
Definition slashUnbondingTx : Z := 1.

Section index.
Context {BL : BTCLib}.

Record TrackedBTCDelegation := mkTrackedBTC {
  td_StakingTxHash : Hash;
  td_SlashingTxHash : Hash;
  td_UnbondingSlashingTxHash : Hash;
}.
#[global] Instance TrackedBTCDelegation_eq_dec : EqDecision TrackedBTCDelegation.
Proof. solve_decision. Defined.

Record BTCDelegationIndex := mkIndex {
  delMap : gmap Hash TrackedBTCDelegation;
  slashingTxMap : gmap Hash Hash;
  unbondingSlashingTxMap : gmap Hash Hash;
}.
Definition NewBTCDelegationIndex : BTCDelegationIndex := mkIndex ∅ ∅ ∅.

Definition Get (stakingTxHash : Hash) : M BTCDelegationIndex (option TrackedBTCDelegation) :=
  gets (λ bdi, delMap bdi !! stakingTxHash).

Definition Add (trackedDel : TrackedBTCDelegation) : M BTCDelegationIndex bool := λ bdi,
  match delMap bdi !! td_StakingTxHash trackedDel with
  | Some _ => (Val false, bdi)
  | None =>
      (Val true,
       mkIndex (<[td_StakingTxHash trackedDel := trackedDel]> (delMap bdi))
         (<[td_SlashingTxHash trackedDel := td_StakingTxHash trackedDel]> (slashingTxMap bdi))
         (<[td_UnbondingSlashingTxHash trackedDel := td_StakingTxHash trackedDel]>
            (unbondingSlashingTxMap bdi)))
  end.

Definition Remove (stakingTxHash : Hash) : M BTCDelegationIndex unit := λ bdi,
  match delMap bdi !! stakingTxHash with
  | None => (Val tt, bdi)
  | Some del =>
      (Val tt,
       mkIndex (delete stakingTxHash (delMap bdi))
         (delete (td_SlashingTxHash del) (slashingTxMap bdi))
         (delete (td_UnbondingSlashingTxHash del) (unbondingSlashingTxMap bdi)))
  end.

(** A [nil] pointer is [None]. *)
Definition FindSlashedBTCDelegation (txHash : Hash)
  : M BTCDelegationIndex (option TrackedBTCDelegation * Z) := gets (λ bdi,
  match slashingTxMap bdi !! txHash with
  | Some stakingTxHash => (delMap bdi !! stakingTxHash, slashStakingTx)
  | None =>
      match unbondingSlashingTxMap bdi !! txHash with
      | Some stakingTxHash => (delMap bdi !! stakingTxHash, slashUnbondingTx)
      | None => (None, -1)
      end
  end).

(** ** The set it stands for *)
Notation tracked_set := (gmap Hash TrackedBTCDelegation).

Inductive index_op := OGet (h : Hash) | OAdd (d : TrackedBTCDelegation) | ORemove (h : Hash)
  | OFind (t : Hash).
Inductive index_ans := ADel (d : option TrackedBTCDelegation) | ABool (b : bool) | AUnit
  | AFind (d : option TrackedBTCDelegation) (path : Z).

Definition spec_search (key : TrackedBTCDelegation → Hash) (t : Hash) (m : tracked_set)
  : option TrackedBTCDelegation :=
  head (filter (λ d, key d = t) (snd <$> map_to_list m)).
Definition spec_find (t : Hash) (m : tracked_set) : option TrackedBTCDelegation * Z :=
  match spec_search td_SlashingTxHash t m with
  | Some d => (Some d, slashStakingTx)
  | None =>
      match spec_search td_UnbondingSlashingTxHash t m with
      | Some d => (Some d, slashUnbondingTx)
      | None => (None, -1)
      end
  end.
Definition spec_op (op : index_op) (m : tracked_set) : index_ans * tracked_set :=
  match op with
  | OGet h => (ADel (m !! h), m)
  | OAdd d =>
      match m !! td_StakingTxHash d with
      | Some _ => (ABool false, m)
      | None => (ABool true, <[td_StakingTxHash d := d]> m)
      end
  | ORemove h => (AUnit, delete h m)
  | OFind t => let '(d, p) := spec_find t m in (AFind d p, m)
  end.

Definition impl_op (op : index_op) (b : BTCDelegationIndex) : outcome index_ans * BTCDelegationIndex :=
  match op with
  | OGet h => (d ← Get h; mret (ADel d)) b
  | OAdd d => (x ← Add d; mret (ABool x)) b
  | ORemove h => (Remove h ;; mret AUnit) b
  | OFind t => (r ← FindSlashedBTCDelegation t; mret (AFind (fst r) (snd r))) b
  end.

Fixpoint run_impl (ops : list index_op) (b : BTCDelegationIndex) : list (outcome index_ans) :=
  match ops with
  | [] => []
  | op :: ops => fst (impl_op op b) :: run_impl ops (snd (impl_op op b))
  end.
Fixpoint run_spec (ops : list index_op) (m : tracked_set) : list (outcome index_ans) :=
  match ops with
  | [] => []
  | op :: ops => Val (fst (spec_op op m)) :: run_spec ops (snd (spec_op op m))
  end.

(** Delegations with different staking transactions have different slashing and
    unbonding slashing transactions (these spend the staking or the unbonding
    output). *)
Definition own_slashing (ds : list TrackedBTCDelegation) : Prop :=
  ∀ d d', d ∈ ds → d' ∈ ds →
    td_SlashingTxHash d = td_SlashingTxHash d' ∨
    td_UnbondingSlashingTxHash d = td_UnbondingSlashingTxHash d' →
    td_StakingTxHash d = td_StakingTxHash d'.
Definition added (ops : list index_op) : list TrackedBTCDelegation :=
  omap (λ op, match op with OAdd d => Some d | _ => None end) ops.

(** ** The maps agree *)

(** [points_to D key m]: every entry of [m] leads from the key of a tracked
    delegation to that delegation; [exact]: and there is one for each. *)
Definition keyed_by_staking (D : tracked_set) : Prop :=
  ∀ h d, D !! h = Some d → td_StakingTxHash d = h.
Definition points_to (D : tracked_set) (key : TrackedBTCDelegation → Hash) (m : gmap Hash Hash) : Prop :=
  ∀ t h, m !! t = Some h → ∃ d, D !! h = Some d ∧ key d = t.
Definition covers (D : tracked_set) (key : TrackedBTCDelegation → Hash) (m : gmap Hash Hash) : Prop :=
  ∀ h d, D !! h = Some d → m !! key d = Some h.

Definition index_sound (b : BTCDelegationIndex) : Prop :=
  keyed_by_staking (delMap b) ∧ points_to (delMap b) td_SlashingTxHash (slashingTxMap b) ∧
  points_to (delMap b) td_UnbondingSlashingTxHash (unbondingSlashingTxMap b).
Definition index_exact (b : BTCDelegationIndex) : Prop :=
  index_sound b ∧ covers (delMap b) td_SlashingTxHash (slashingTxMap b) ∧
  covers (delMap b) td_UnbondingSlashingTxHash (unbondingSlashingTxMap b).

Lemma keyed_by_staking_insert D d : keyed_by_staking D → keyed_by_staking (<[td_StakingTxHash d := d]> D).
Proof. intros H h d' [[<- <-]|[_ ?]]%lookup_insert_Some; [done|by apply H]. Qed.
Lemma keyed_by_staking_delete D h : keyed_by_staking D → keyed_by_staking (delete h D).
Proof. intros H h' d [_ ?]%lookup_delete_Some. by apply H. Qed.

Lemma points_to_insert D key m d :
  D !! td_StakingTxHash d = None → points_to D key m →
  points_to (<[td_StakingTxHash d := d]> D) key (<[key d := td_StakingTxHash d]> m).
Proof.
  intros Hn H t h [[<- <-]|[_ Hm]]%lookup_insert_Some; [exists d; by rewrite lookup_insert_eq|].
  destruct (H t h Hm) as (d' & Hd & Hk). exists d'. by rewrite lookup_insert_ne by congruence.
Qed.
Lemma points_to_delete D key m h d :
  D !! h = Some d → points_to D key m → points_to (delete h D) key (delete (key d) m).
Proof.
  intros Hd H t h' [Hne Hm]%lookup_delete_Some. destruct (H t h' Hm) as (d' & Hd' & Hk).
  exists d'. rewrite lookup_delete_ne; [done|]. intros ->. congruence.
Qed.
Lemma covers_insert D key m d :
  (∀ h d', D !! h = Some d' → key d ≠ key d') → covers D key m →
  covers (<[td_StakingTxHash d := d]> D) key (<[key d := td_StakingTxHash d]> m).
Proof.
  intros Hne H h d' [[<- <-]|[_ Hd]]%lookup_insert_Some; [by rewrite lookup_insert_eq|].
  rewrite lookup_insert_ne by eauto. by apply H.
Qed.
Lemma covers_delete D key m h d :
  D !! h = Some d → covers D key m → points_to D key m → covers (delete h D) key (delete (key d) m).
Proof.
  intros Hd H _ h' d' [Hne Hd']%lookup_delete_Some. rewrite lookup_delete_ne; [by apply H|].
  intros Hk. apply H in Hd, Hd'. congruence.
Qed.

Lemma spec_search_covers D key m t :
  keyed_by_staking D → points_to D key m → covers D key m →
  spec_search key t D = match m !! t with Some h => D !! h | None => None end.
Proof.
  intros Hk Hp Hc. unfold spec_search.
  destruct (filter (λ d, key d = t) (snd <$> map_to_list D)) as [|d l] eqn:E; cbn.
  - destruct (m !! t) as [h|] eqn:Em; [|done]. destruct (Hp t h Em) as (d & Hd & Ht). exfalso.
    assert (d ∈ filter (λ d, key d = t) (snd <$> map_to_list D)) as Hin; [|by rewrite E in Hin; apply not_elem_of_nil in Hin].
    apply list_elem_of_filter. split; [done|]. apply list_elem_of_fmap. exists (h, d).
    split; [done|]. by apply elem_of_map_to_list.
  - assert (d ∈ filter (λ d, key d = t) (snd <$> map_to_list D)) as Hin by (rewrite E; left).
    apply list_elem_of_filter in Hin as [<- Hin]. apply list_elem_of_fmap in Hin as ([h d'] & -> & Hin).
    apply elem_of_map_to_list in Hin. cbn. by rewrite (Hc h d' Hin).
Qed.

Lemma index_sound_new : index_sound NewBTCDelegationIndex.
Proof. by split_and!; intros ??; cbn; rewrite lookup_empty. Qed.
Lemma index_exact_new : index_exact NewBTCDelegationIndex.
Proof. split; [apply index_sound_new|]. by split_and!; intros ??; cbn; rewrite lookup_empty. Qed.

Lemma Add_sound d b : index_sound b → index_sound (snd (Add d b)).
Proof.
  intros (H1 & H2 & H3). unfold Add. destruct (delMap b !! td_StakingTxHash d) eqn:E; cbn; [done|].
  split_and!; cbn; auto using keyed_by_staking_insert, points_to_insert.
Qed.
Lemma Remove_sound h b : index_sound b → index_sound (snd (Remove h b)).
Proof.
  intros (H1 & H2 & H3). unfold Remove. destruct (delMap b !! h) eqn:E; cbn; [|done].
  split_and!; cbn; auto using keyed_by_staking_delete, points_to_delete.
Qed.
Lemma Add_exact d b :
  (∀ h d', delMap b !! h = Some d' → h ≠ td_StakingTxHash d →
     td_SlashingTxHash d ≠ td_SlashingTxHash d' ∧
     td_UnbondingSlashingTxHash d ≠ td_UnbondingSlashingTxHash d') →
  index_exact b → index_exact (snd (Add d b)).
Proof.
  intros Hne (Hs & H4 & H5). split; [by apply Add_sound|]. unfold Add.
  destruct (delMap b !! td_StakingTxHash d) eqn:E; cbn; [done|].
  split; apply covers_insert; try done; intros h d' Hd; eapply Hne; try done; congruence.
Qed.
Lemma Remove_exact h b : index_exact b → index_exact (snd (Remove h b)).
Proof.
  intros (Hs & H4 & H5). split; [by apply Remove_sound|]. unfold Remove.
  destruct (delMap b !! h) eqn:E; cbn; [|done].
  destruct Hs as (_ & H2 & H3). split; by eapply covers_delete.
Qed.

(** What a successful search means, without any assumption on the hashes. *)
Lemma FindSlashed_sound t b d path b' :
  index_sound b → FindSlashedBTCDelegation t b = (Val (Some d, path), b') →
  b' = b ∧ delMap b !! td_StakingTxHash d = Some d ∧
  (path = slashStakingTx ∧ td_SlashingTxHash d = t ∨
   path = slashUnbondingTx ∧ td_UnbondingSlashingTxHash d = t).
Proof.
  intros (H1 & H2 & H3). unfold FindSlashedBTCDelegation, gets. intros [= E <-]. split; [done|].
  assert (∀ h key m, points_to (delMap b) key m → m !! t = Some h → delMap b !! h = Some d →
    delMap b !! td_StakingTxHash d = Some d ∧ key d = t) as Hf.
  { intros h key m Hp Hm Hd. rewrite (H1 h d Hd). destruct (Hp t h Hm) as (d' & ? & ?).
    split; [done|congruence]. }
  destruct (slashingTxMap b !! t) as [h|] eqn:E1; simplify_eq.
  { destruct (Hf h _ _ H2 E1); auto. }
  destruct (unbondingSlashingTxMap b !! t) as [h|] eqn:E2; simplify_eq.
  destruct (Hf h _ _ H3 E2); auto.
Qed.

Lemma FindSlashed_spec t b :
  index_exact b → FindSlashedBTCDelegation t b = (Val (spec_find t (delMap b)), b).
Proof.
  intros ((H1 & H2 & H3) & H4 & H5). unfold FindSlashedBTCDelegation, gets, spec_find.
  rewrite (spec_search_covers _ _ _ t H1 H2 H4), (spec_search_covers _ _ _ t H1 H3 H5).
  destruct (slashingTxMap b !! t) as [h|] eqn:E1.
  { destruct (H2 _ _ E1) as (d & -> & _). done. }
  destruct (unbondingSlashingTxMap b !! t) as [h|] eqn:E2; [|done].
  destruct (H3 _ _ E2) as (d & -> & _). done.
Qed.

(** One operation: the same answer, and the set is the map of delegations. *)
Lemma index_op_simulates op b :
  index_exact b →
  (∀ d, op = OAdd d → ∀ h d', delMap b !! h = Some d' → h ≠ td_StakingTxHash d →
     td_SlashingTxHash d ≠ td_SlashingTxHash d' ∧
     td_UnbondingSlashingTxHash d ≠ td_UnbondingSlashingTxHash d') →
  index_exact (snd (impl_op op b)) ∧ fst (impl_op op b) = Val (fst (spec_op op (delMap b))) ∧
  delMap (snd (impl_op op b)) = snd (spec_op op (delMap b)).
Proof.
  intros He Ha. destruct op as [h|d|h|t]; cbn [impl_op spec_op]; rewrite bind_unfold.
  - done.
  - pose proof (Add_exact d b (Ha d eq_refl) He) as H. unfold Add in *.
    by destruct (delMap b !! td_StakingTxHash d).
  - pose proof (Remove_exact h b He) as H. unfold Remove in *.
    destruct (delMap b !! h) eqn:E; cbn; [done|]. by rewrite delete_id.
  - rewrite FindSlashed_spec by done. by destruct (spec_find t (delMap b)).
Qed.

(** Only added delegations are tracked. *)
Lemma impl_op_tracked op b h d :
  delMap (snd (impl_op op b)) !! h = Some d → delMap b !! h = Some d ∨ op = OAdd d.
Proof.
  destruct op as [h'|d'|h'|t]; cbn [impl_op]; rewrite bind_unfold; cbn; auto.
  - unfold Add. destruct (delMap b !! td_StakingTxHash d'); cbn; [auto|].
    intros [[_ ->]|[_ ?]]%lookup_insert_Some; auto.
  - unfold Remove. destruct (delMap b !! h'); cbn; [|auto]. intros [_ ?]%lookup_delete_Some. auto.
Qed.
End index.
