(* ===== verification/AtomicSlasher.v ===== *)
(** * The atomic slasher ([btcstaking-tracker/atomicslasher])

    [types.go] (with [DelegationIndex.v]), [routines.go], [babylon_adapter.go] and
    [atomic_slasher.go].  The three routines share the index, the channel of
    slashing transactions and the channel of keys; [others] is what the other
    goroutines do before an atomic operation of the running one, as in
    [Watcher.v].  The calls the properties speak about are kept in [as_calls].  A
    send on a full channel waits for its receiver, so channels are not bounded
    here.  [quitContext] ends a retry on shutdown: its context is the
    [WithContext] of the retry options. *)

From S2P Require Import Prelude Blocks Retry BTCClient StakingTypes Slasher.
From S2P Require Export DelegationIndex.
From S2P Require Reporter.
Import Reporter (metric_event(..)).

(** [babylonclient.ErrTimeoutAfterWaitingForTxBroadcast] *)
Definition ErrTimeoutAfterWaitingForTxBroadcast : string := "ErrTimeoutAfterWaitingForTxBroadcast".

Class AtomicLib {BL : BTCLib} {SL : StakingLib} {SK : SlashingKeys} {SLB : SlashingLib} := {
  (** a new slice with the keys in the order of the script *)
  SortBIP340PKs : list PubKey → list PubKey;
  NewBIP340Signature : bytes → result BIP340Signature;
  ToBTCSig : BIP340Signature → result SchnorrSignature;
  CovPk : CovenantSig → PubKey;
  AdaptorSigs : CovenantSig → list bytes;
  NewAdaptorSignatureFromBytes : bytes → result AdaptorSig;
  (** [Extract] followed by [ToBTCSK] *)
  Extract : AdaptorSig → SchnorrSignature → result PrivKey;
  slashTx_ToMsgTx : BTCSlashingTx → result MsgTx;
  sk_Serialize : PrivKey → bytes;
}.

(** [bstypes.MsgSelectiveSlashingEvidence] *)
Record MsgSelectiveSlashingEvidence := mkSelective { Signer : string; RecoveredFpBtcSk : list Z }.

(** [BabylonClient] of [expected_babylon_client.go]; a listing ends with a page
    without a next key. *)
Class AtomicBabylon {SK : SlashingKeys} (W : Type) := {
  ab_FinalityProvider_SlashedBabylonHeight : string → M W Z;
  ab_BTCDelegations : Z → option bytes → M W (list DelegationResponse * option bytes);
  ab_BTCStakingParamsByVersion : Z → M W StakingParams;
  ab_BTCDelegation : string → M W DelegationResponse;
  ab_MustGetAddr : string;
  ab_ReliablySendMsg : MsgSelectiveSlashingEvidence → M W unit;
}.

(** What ends the wait of [slashingTxTracker], and of [btcDelegationTracker]. *)
Inductive block_event {BL : BTCLib} := BlockEpoch (height : Z) (hash : Hash) | BlocksClosed | BlocksQuit.
Class AtomicEvents {BL : BTCLib} (W : Type) := {
  ae_RegisterBlockEpochNtfn : M W unit;
  ae_select_block : M W block_event;
  ae_select_tick : M W bool;             (** [false]: shutdown *)
}.

(** ** Pure parts of [types.go] *)
Section pure.
Context {BL : BTCLib} {SL : StakingLib} {SK : SlashingKeys} {SLB : SlashingLib} {AL : AtomicLib}.

Record SlashingTxInfo := mkSlashingTxInfo {
  path : Z;
  StakingTxHash : Hash;
  SlashingMsgTx : MsgTx;
}.
Definition NewSlashingTxInfo := mkSlashingTxInfo.
Definition IsSlashStakingTx (s : SlashingTxInfo) : bool := path s =? slashStakingTx.

Definition slashing_tx_hash (hex : string) : outcome Hash :=
  obind (oresult (NewBTCSlashingTxFromHex hex)) (λ slashTx,
  obind (oresult (slashTx_ToMsgTx slashTx)) (λ slashingTx, Val (TxHash slashingTx))).
Definition NewTrackedBTCDelegation (btcDel : DelegationResponse) : outcome TrackedBTCDelegation :=
  obind (oresult (NewBTCTxFromHex (dr_StakingTxHex btcDel))) (λ stakingTx,
  obind (slashing_tx_hash (SlashingTxHex btcDel)) (λ slashingTxHash,
  match dr_Undelegation btcDel with
  | None => Panic "nil pointer dereference"
  | Some undel =>
      obind (slashing_tx_hash (un_SlashingTxHex undel)) (λ unbondingSlashingTxHash,
      Val (mkTrackedBTC (TxHash stakingTx) slashingTxHash unbondingSlashingTxHash))
  end)).

(** [xs[lo:hi]] of a slice whose capacity is its length *)
Definition slice_range {A} (xs : list A) (lo hi : Z) : outcome (list A) :=
  if bool_decide (0 ≤ lo ≤ hi ∧ hi ≤ len xs)
  then Val (take (Z.to_nat (hi - lo)) (drop (Z.to_nat lo) xs))
  else Panic "slice bounds out of range".

(** The loop over the covenant signatures: [i] is the position. *)
Fixpoint cov_sigs (covPKs : list PubKey) (i : Z) (stack : list bytes)
    (covSigMap : gmap string BIP340Signature) : outcome (gmap string BIP340Signature) :=
  match stack with
  | [] => Val covSigMap
  | item :: stack =>
      if len item =? 0 then cov_sigs covPKs (i + 1) stack covSigMap
      else
        obind (oresult (NewBIP340Signature item)) (λ sig,
        obind (slice_index covPKs i) (λ pk,
        cov_sigs covPKs (i + 1) stack (<[MarshalHex pk := sig]> covSigMap)))
  end.
(** The first finality provider with a signature; otherwise [0] and [nil]. *)
Fixpoint fp_sig (fpPKs : list PubKey) (i : Z) (stack : list bytes) : outcome (Z * option PubKey) :=
  match stack with
  | [] => Val (0, None)
  | item :: stack =>
      if len item =? 0 then fp_sig fpPKs (i + 1) stack
      else obind (slice_index fpPKs i) (λ pk, Val (i, Some pk))
  end.
Definition parseSlashingTxWitness (witnessStack : list bytes) (covPKs fpPKs : list PubKey)
  : outcome (gmap string BIP340Signature * Z * option PubKey) :=
  let orderedCovPKs := SortBIP340PKs covPKs in
  let orderedfpPKs := SortBIP340PKs fpPKs in
  obind (slice_range witnessStack 0 (len orderedCovPKs)) (λ covWitnessStack,
  obind (cov_sigs covPKs 0 covWitnessStack ∅) (λ covSigMap,
  obind (slice_range witnessStack (len orderedCovPKs) (len orderedCovPKs + len orderedfpPKs))
    (λ fpWitnessStack,
  obind (fp_sig fpPKs 0 fpWitnessStack) (λ '(fpIdx, fpPK),
  Val (covSigMap, fpIdx, fpPK))))).

Fixpoint tryExtractFPSK (covSigMap : gmap string BIP340Signature) (fpIdx : Z) (fpPK : option PubKey)
    (covASigLists : list CovenantSig) : outcome PrivKey :=
  match covASigLists with
  | [] => Error (ENew "failed to extract finality provider's SK")
  | covASigList :: rest =>
      match covSigMap !! MarshalHex (CovPk covASigList) with
      | None => tryExtractFPSK covSigMap fpIdx fpPK rest
      | Some covSchnorrSig =>
          obind (oresult (ToBTCSig covSchnorrSig)) (λ covSchnorrBTCSig,
          obind (slice_index (AdaptorSigs covASigList) fpIdx) (λ covAdaptorSigBytes,
          obind (oresult (NewAdaptorSignatureFromBytes covAdaptorSigBytes)) (λ covAdaptorSig,
          obind (oresult (Extract covAdaptorSig covSchnorrBTCSig)) (λ fpSK,
          match fpPK with
          | None => Panic "nil pointer dereference"
          | Some fpPK' =>
              if bool_decide (fpPK' = pub_of fpSK) then Val fpSK
              else tryExtractFPSK covSigMap fpIdx fpPK rest
          end))))
      end
  end.
End pure.

(** ** State *)
Section state.
Context {BL : BTCLib} {SK : SlashingKeys}.

Inductive as_call :=
| APage (dels : list DelegationResponse)
| ABlock (hash : Hash) (block : MsgBlock)
| ADelegation (stakingTxHash : Hash) (resp : DelegationResponse)
| AParams (version : Z) (params : StakingParams)
| AProvider (pk : PubKey) (isSlashed : bool)
| ASelective (sk : PrivKey).

Record AtomicSlasher := mkAtomic {
  btcTipHeight : Z;
  btcDelIndex : BTCDelegationIndex;
  slashingTxChan : list SlashingTxInfo;
  slashedFPSKChan : list PrivKey;
  as_quit : bool;                        (** [quit] is closed *)
  as_closed : bool;                      (** [slashingTxChan] is closed *)
  as_metrics : list metric_event;
  as_calls : list as_call;
}.
Definition as_set_tip (h : Z) (a : AtomicSlasher) : AtomicSlasher :=
  mkAtomic h (btcDelIndex a) (slashingTxChan a) (slashedFPSKChan a) (as_quit a) (as_closed a)
    (as_metrics a) (as_calls a).
Definition as_set_index (i : BTCDelegationIndex) (a : AtomicSlasher) : AtomicSlasher :=
  mkAtomic (btcTipHeight a) i (slashingTxChan a) (slashedFPSKChan a) (as_quit a) (as_closed a)
    (as_metrics a) (as_calls a).
Definition as_set_txs (l : list SlashingTxInfo) (a : AtomicSlasher) : AtomicSlasher :=
  mkAtomic (btcTipHeight a) (btcDelIndex a) l (slashedFPSKChan a) (as_quit a) (as_closed a)
    (as_metrics a) (as_calls a).
Definition as_set_keys (l : list PrivKey) (a : AtomicSlasher) : AtomicSlasher :=
  mkAtomic (btcTipHeight a) (btcDelIndex a) (slashingTxChan a) l (as_quit a) (as_closed a)
    (as_metrics a) (as_calls a).
Definition as_set_stop (q c : bool) (a : AtomicSlasher) : AtomicSlasher :=
  mkAtomic (btcTipHeight a) (btcDelIndex a) (slashingTxChan a) (slashedFPSKChan a) q c
    (as_metrics a) (as_calls a).
Definition as_add_metric (m : metric_event) (a : AtomicSlasher) : AtomicSlasher :=
  mkAtomic (btcTipHeight a) (btcDelIndex a) (slashingTxChan a) (slashedFPSKChan a) (as_quit a)
    (as_closed a) (as_metrics a ++ [m]) (as_calls a).
Definition as_add_call (c : as_call) (a : AtomicSlasher) : AtomicSlasher :=
  mkAtomic (btcTipHeight a) (btcDelIndex a) (slashingTxChan a) (slashedFPSKChan a) (as_quit a)
    (as_closed a) (as_metrics a) (as_calls a ++ [c]).

(** [New] *)
Definition NewAtomicSlasher : AtomicSlasher := mkAtomic 0 NewBTCDelegationIndex [] [] false false [] [].
End state.

Section slasher.
Context {BL : BTCLib} {SL : StakingLib} {RT : Retry} {SK : SlashingKeys} {SLB : SlashingLib}
  {AL : AtomicLib} {W : Type} {BTC : BTCClient W} {AB : AtomicBabylon W} {AE : AtomicEvents W}.

Notation St := (AtomicSlasher * W)%type.
Notation AM A := (M St A).

(** The steps of the other goroutines before an atomic operation, and the choice
    of a [select] with two ready cases. *)
Context (others : St → St) (choose : St → bool).
(** [maxRetryTimes], [cfg.NewDelegationsBatchSize] *)
Context (maxRetryTimes NewDelegationsBatchSize : Z).

Definition as_atomic {A} (m : AM A) : AM A := λ s, m (others s).
Definition as_self {A} (m : M AtomicSlasher A) : AM A := zoom fst (λ t s, (t, snd s)) m.
Definition as_world {A} (m : M W A) : AM A := zoom snd (λ w s, (fst s, w)) m.
Definition as_store (f : AtomicSlasher → AtomicSlasher) : AM unit := as_atomic (as_self (modify f)).
Definition as_emit (m : metric_event) : AM unit := as_store (as_add_metric m).
Definition as_index {A} (m : M BTCDelegationIndex A) : AM A :=
  as_atomic (as_self (zoom btcDelIndex as_set_index m)).
Definition as_ask {A} (m : M W A) (c : A → as_call) : AM A :=
  as_atomic (a ← as_world m; as_self (modify (as_add_call (c a))) ;; mret a).
Definition as_tell (c : as_call) (m : M W unit) : AM unit :=
  as_atomic (as_self (modify (as_add_call c)) ;; as_world m).

(** ** [BabylonAdapter] *)
Definition as_opts : retry_opts := mkRetryOpts maxRetryTimes (λ _, true) false true.

(** The closure assigns [bsParams] on success only. *)
Definition BTCStakingParams (version : Z) : M W StakingParams :=
  bsParams ← capture (retry_Do as_opts) None
               (assign_ok (resp ← ab_BTCStakingParamsByVersion version; mret (Some resp)));
  match bsParams with
  | Some p => mret p
  | None => panic "nil pointer dereference"
  end.
Definition BTCDelegation (stakingTxHashHex : string) : M W DelegationResponse :=
  with_retry as_opts (ab_BTCDelegation stakingTxHashHex).

Fixpoint handle_pages (fuel : nat) (key : option bytes) (handleFunc : DelegationResponse → AM unit)
  : AM unit :=
  match fuel with
  | O => diverge
  | S fuel =>
      resp ← wrap_err "failed to get BTC delegations"
               (as_ask (ab_BTCDelegations NewDelegationsBatchSize key) (λ r, APage (fst r)));
      for_each (fst resp) (λ btcDel, try (handleFunc btcDel) ;; mret tt) ;;
      match snd resp with
      | None => mret tt
      | Some key => handle_pages fuel (Some key) handleFunc
      end
  end.
Definition HandleAllBTCDelegations (fuel : nat) (handleFunc : DelegationResponse → AM unit) : AM unit :=
  handle_pages fuel None handleFunc.

Definition IsFPSlashed (fpBTCPK : option PubKey) : M W bool :=
  match fpBTCPK with
  | None => panic "nil pointer dereference"
  | Some pk =>
      h ← ab_FinalityProvider_SlashedBabylonHeight (MarshalHex pk);
      mret (0 <? h)
  end.

Definition ReportSelectiveSlashing (fpBTCSK : PrivKey) : M W unit :=
  ab_ReliablySendMsg (mkSelective ab_MustGetAddr (sk_Serialize fpBTCSK)).

(** ** [btcDelegationTracker] *)
Definition track_btc_delegation (btcDel : DelegationResponse) : AM unit :=
  trackedDel ← of_outcome (NewTrackedBTCDelegation btcDel);
  added ← as_index (Add trackedDel);
  if (added : bool) then as_emit (MInc "TrackedBTCDelegationsGauge") else mret tt.

Fixpoint btcDelegationTracker (fuel : nat) : AM unit :=
  match fuel with
  | O => diverge
  | S fuel =>
      tick ← as_atomic (as_world ae_select_tick);
      if (tick : bool) then
        try (HandleAllBTCDelegations fuel track_btc_delegation) ;;
        btcDelegationTracker fuel
      else mret tt
  end.

(** ** [slashingTxTracker] *)

(** The [select] of a send and the shutdown; a send on a closed channel is ready
    and panics.  [false]: the shutdown was taken. *)
Definition send_slashing_tx (info : SlashingTxInfo) : AM bool := as_atomic (λ s,
  if as_quit (fst s) && choose s then (Val false, s)
  else if as_closed (fst s) then (Panic "send on closed channel", s)
  else (Val true, (as_set_txs (slashingTxChan (fst s) ++ [info]) (fst s), snd s))).

Definition filter_tx (tx : MsgTx) : AM (option unit) :=
  r ← as_index (FindSlashedBTCDelegation (TxHash tx));
  match r with
  | (Some trackedBTCDel, slashingPath) =>
      sent ← send_slashing_tx (NewSlashingTxInfo slashingPath (td_StakingTxHash trackedBTCDel) tx);
      if (sent : bool) then mret None else mret (Some tt)
  | (None, _) => mret None
  end.

(** The body of the loop on a new block; [Some tt]: the routine returns. *)
Definition track_block (height : Z) (hash : Hash) : AM (option unit) :=
  if height <? 0 then panic "received negative block height"
  else
    as_store (as_set_tip (u32 height)) ;;
    r ← try (as_ask (GetBlockByHash hash) (λ r, ABlock hash (snd r)));
    match r with
    | Err _ => mret None
    | Ok r => for_until (Transactions (snd r)) filter_tx
    end.

Fixpoint block_tracker_loop (fuel : nat) : AM unit :=
  match fuel with
  | O => diverge
  | S fuel =>
      ev ← as_atomic (as_world ae_select_block);
      match ev with
      | BlockEpoch height hash =>
          r ← track_block height hash;
          match r with Some _ => mret tt | None => block_tracker_loop fuel end
      | BlocksClosed | BlocksQuit => mret tt
      end
  end.
Definition slashingTxTracker (fuel : nat) : AM unit :=
  r ← try (as_atomic (as_world ae_RegisterBlockEpochNtfn));
  match r with
  | Err _ => mret tt
  | Ok _ => block_tracker_loop fuel
  end.

(** ** [selectiveSlashingReporter] *)

(** The covenant signatures of the path the transaction slashes. *)
Definition adaptor_sigs_of (info : SlashingTxInfo) (del : DelegationResponse)
  : outcome (list CovenantSig) :=
  if IsSlashStakingTx info then Val (CovenantSigs del)
  else
    match dr_Undelegation del with
    | None => Panic "nil pointer dereference"
    | Some undel => Val (CovenantSlashingSigs undel)
    end.

(** The end of the loop body: the key is sent to Babylon, then to the slashing
    enforcer, and the delegation is no longer tracked. *)
Definition report_key (stakingTxHash : Hash) (fpSK : PrivKey) : AM unit :=
  r ← try (as_tell (ASelective fpSK) (ReportSelectiveSlashing fpSK));
  (match r with
   | Err err =>
       if errors_Is err ErrTimeoutAfterWaitingForTxBroadcast
       then as_emit (MTouch "SelectiveSlashingCensorshipGaugeVec" []) else mret tt
   | Ok _ => mret tt
   end) ;;
  as_store (λ a, as_set_keys (slashedFPSKChan a ++ [fpSK]) a) ;;
  as_index (Remove stakingTxHash) ;;
  as_emit (MDec "TrackedBTCDelegationsGauge").

(** The loop body on a received transaction; every [continue] ends it. *)
Definition report_selective (slashingTxInfo : SlashingTxInfo) : AM unit :=
  let stakingTxHash := StakingTxHash slashingTxInfo in
  r ← try (as_ask (BTCDelegation (hash_String stakingTxHash)) (ADelegation stakingTxHash));
  match r with
  | Err _ => mret tt
  | Ok del =>
      r ← try (as_ask (BTCStakingParams (ParamsVersion del)) (AParams (ParamsVersion del)));
      match r with
      | Err _ => mret tt
      | Ok bsParams =>
          txIn ← of_outcome (slice_index (TxIn (SlashingMsgTx slashingTxInfo)) 0);
          r ← try (of_outcome (parseSlashingTxWitness (Witness txIn) (CovenantPks bsParams) (FpBtcPkList del)));
          match r with
          | Err _ => mret tt
          | Ok (covSigMap, fpIdx, fpPK) =>
              r ← try (match fpPK with
                       | None => panic "nil pointer dereference"
                       | Some pk => as_ask (IsFPSlashed fpPK) (AProvider pk)
                       end);
              match r with
              | Err _ | Ok true => mret tt
              | Ok false =>
                  covASigs ← of_outcome (adaptor_sigs_of slashingTxInfo del);
                  r ← try (of_outcome (tryExtractFPSK covSigMap fpIdx fpPK covASigs));
                  match r with
                  | Err _ => mret tt
                  | Ok fpSK => report_key stakingTxHash fpSK
                  end
              end
          end
      end
  end.

(** A receive: a transaction, or [None] when the routine ends, or a wait. *)
Inductive received := RTx (info : SlashingTxInfo) | RStop | RWait.
Definition as_receive : AM received := as_atomic (λ s,
  match slashingTxChan (fst s) with
  | info :: rest =>
      if as_quit (fst s) && choose s then (Val RStop, s)
      else (Val (RTx info), (as_set_txs rest (fst s), snd s))
  | [] => (Val (if as_quit (fst s) || as_closed (fst s) then RStop else RWait), s)
  end).
Fixpoint selectiveSlashingReporter (fuel : nat) : AM unit :=
  match fuel with
  | O => diverge
  | S fuel =>
      r ← as_receive;
      match r with
      | RTx info => report_selective info ;; selectiveSlashingReporter fuel
      | RStop => mret tt
      | RWait => selectiveSlashingReporter fuel
      end
  end.

(** ** [Start] and [Stop] *)
Inductive as_routine := SlashingTxTracker | BTCDelegationTracker | SelectiveSlashingReporter.
(** The routines [Start] spawns, in its order. *)
Definition as_Start : list as_routine := [SlashingTxTracker; BTCDelegationTracker; SelectiveSlashingReporter].
Definition run_routine (fuel : nat) (r : as_routine) : AM unit :=
  match r with
  | SlashingTxTracker => slashingTxTracker fuel
  | BTCDelegationTracker => btcDelegationTracker fuel
  | SelectiveSlashingReporter => selectiveSlashingReporter fuel
  end.
Definition as_Stop : AM unit :=
  as_store (λ a, as_set_stop true (as_closed a) a) ;;
  as_store (λ a, as_set_stop (as_quit a) true a).
End slasher.
