(* ===== verification/AtomicSlasherProps.v ===== *)
(** * Lemmas on the atomic slasher

    What parsing a witness and extracting a key guarantee, the steps the three
    routines make on the shared state with the conditions the code establishes,
    and that every routine makes only such steps when the others do. *)

From S2P Require Import Prelude Blocks Retry BTCClient StakingTypes Slasher.
From S2P Require Import Interference AtomicSlasher.
From S2P Require Reporter.
Import Reporter (metric_event(..)).

Lemma slice_index_Val {A} (xs : list A) i x :
  slice_index xs i = Val x ↔ 0 ≤ i ∧ xs !! Z.to_nat i = Some x.
Proof.
  unfold slice_index. case_bool_decide; [|naive_solver lia]. destruct (xs !! Z.to_nat i); naive_solver.
Qed.

Section pure.
Context {BL : BTCLib} {SL : StakingLib} {SK : SlashingKeys} {SLB : SlashingLib} {AL : AtomicLib}.

(** ** The witness *)

(** The signature at a position of the covenant part goes to the key at the same
    position of [covPKs]; a later position with the same key replaces it. *)
Lemma cov_sigs_step covPKs i item stack m :
  cov_sigs covPKs i (item :: stack) m =
  if len item =? 0 then cov_sigs covPKs (i + 1) stack m
  else obind (oresult (NewBIP340Signature item)) (λ sig,
       obind (slice_index covPKs i) (λ pk, cov_sigs covPKs (i + 1) stack (<[MarshalHex pk := sig]> m))).
Proof. reflexivity. Qed.

Lemma cov_sigs_Val covPKs (i : nat) stack m m' :
  cov_sigs covPKs (Z.of_nat i) stack m = Val m' →
  ∀ hex sig, m' !! hex = Some sig →
  m !! hex = Some sig ∨
  ∃ (j : nat) item pk, stack !! j = Some item ∧ item ≠ [] ∧ covPKs !! (i + j)%nat = Some pk ∧
    MarshalHex pk = hex ∧ NewBIP340Signature item = Ok sig.
Proof.
  revert i m. induction stack as [|item stack IH]; intros i m H hex sig Hm.
  { cbn in H. simplify_eq. by left. }
  rewrite cov_sigs_step in H. replace (Z.of_nat i + 1) with (Z.of_nat (S i)) in H by lia.
  assert (∀ (j : nat) it pk, stack !! j = Some it → it ≠ [] → covPKs !! (S i + j)%nat = Some pk →
    MarshalHex pk = hex → NewBIP340Signature it = Ok sig →
    ∃ (j : nat) it pk, (item :: stack) !! j = Some it ∧ it ≠ [] ∧ covPKs !! (i + j)%nat = Some pk ∧
      MarshalHex pk = hex ∧ NewBIP340Signature it = Ok sig) as Hshift.
  { intros j it pk ? ? Hj ? ?. exists (S j), it, pk. split_and!; try done.
    by replace (i + S j)%nat with (S i + j)%nat by lia. }
  destruct (Z.eqb_spec (len item) 0) as [Hl|Hl].
  { destruct (IH _ _ H hex sig Hm) as [?|(j & it & pk & ? & ? & ? & ? & ?)]; [by left|right; eauto 10]. }
  apply obind_Val in H as (sig' & Hs%oresult_Val & H). apply obind_Val in H as (pk & Hp & H).
  apply slice_index_Val in Hp as [_ Hp]. rewrite Nat2Z.id in Hp.
  destruct (IH _ _ H hex sig Hm) as [Hi|(j & it & pk' & ? & ? & ? & ? & ?)]; [|right; eauto 10].
  apply lookup_insert_Some in Hi as [[<- ->]|[_ ?]]; [|by left].
  right. exists 0%nat, item, pk. split_and!; try done; [|by rewrite Nat.add_0_r].
  intros ->. done.
Qed.

(** With distinct keys, every signed position is found under its key. *)
Lemma cov_sigs_lookup covPKs (i : nat) stack m m' (j : nat) item pk :
  NoDup (MarshalHex <$> covPKs) → cov_sigs covPKs (Z.of_nat i) stack m = Val m' →
  stack !! j = Some item → item ≠ [] → covPKs !! (i + j)%nat = Some pk →
  ∃ sig, NewBIP340Signature item = Ok sig ∧ m' !! MarshalHex pk = Some sig.
Proof.
  intros Hnd. revert i j m.
  assert (∀ stack (i k : nat) m m' pk, cov_sigs covPKs (Z.of_nat i) stack m = Val m' →
    covPKs !! k = Some pk → (k < i)%nat → m' !! MarshalHex pk = m !! MarshalHex pk) as Hkeep.
  { clear stack m' pk. induction stack as [|it stack IH]; intros i k m m' pk H Hk Hlt; [cbn in H; by simplify_eq|].
    rewrite cov_sigs_step in H. replace (Z.of_nat i + 1) with (Z.of_nat (S i)) in H by lia.
    destruct (len it =? 0); [by eapply IH; [done|done|lia]|].
    apply obind_Val in H as (sig' & _ & H). apply obind_Val in H as (pk' & Hp & H).
    apply slice_index_Val in Hp as [_ Hp]. rewrite Nat2Z.id in Hp.
    rewrite (IH _ k _ _ pk H Hk) by lia. rewrite lookup_insert_ne; [done|]. intros E.
    assert (i = k); [|lia]. eapply (NoDup_lookup _ _ _ (MarshalHex pk) Hnd);
      rewrite list_lookup_fmap; [by rewrite Hp; cbn; rewrite E|by rewrite Hk]. }
  induction stack as [|it stack IH]; intros i j m H Hj Hne Hpk; [done|].
  rewrite cov_sigs_step in H. replace (Z.of_nat i + 1) with (Z.of_nat (S i)) in H by lia.
  destruct j as [|j]; cbn in Hj.
  - simplify_eq. rewrite Nat.add_0_r in Hpk.
    destruct (Z.eqb_spec (len item) 0) as [Hl|Hl]; [by destruct item|].
    apply obind_Val in H as (sig & Hs%oresult_Val & H). apply obind_Val in H as (pk' & Hp & H).
    apply slice_index_Val in Hp as [_ Hp]. rewrite Nat2Z.id in Hp. simplify_eq.
    exists sig. split; [done|]. rewrite (Hkeep _ _ i _ _ _ H Hp) by lia. by rewrite lookup_insert_eq.
  - replace (i + S j)%nat with (S i + j)%nat in Hpk by lia.
    destruct (len it =? 0); [by eapply IH|].
    apply obind_Val in H as (sig' & _ & H). apply obind_Val in H as (pk' & _ & H). by eapply IH.
Qed.

Lemma fp_sig_Val fpPKs (i : nat) stack idx pk :
  fp_sig fpPKs (Z.of_nat i) stack = Val (idx, Some pk) →
  ∃ (j : nat) item, idx = Z.of_nat (i + j) ∧ stack !! j = Some item ∧ item ≠ [] ∧
    fpPKs !! (i + j)%nat = Some pk ∧ (∀ (k : nat) it, (k < j)%nat → stack !! k = Some it → it = []).
Proof.
  revert i. induction stack as [|item stack IH]; intros i H; cbn [fp_sig] in H; [done|].
  destruct (Z.eqb_spec (len item) 0) as [Hl|Hl].
  - replace (Z.of_nat i + 1) with (Z.of_nat (S i)) in H by lia.
    destruct (IH _ H) as (j & it & -> & Hj & Hne & Hpk & Hfirst). exists (S j), it.
    replace (i + S j)%nat with (S i + j)%nat by lia. split_and!; try done.
    intros [|k] it' Hk Hlk; cbn in Hlk; [|by eapply Hfirst; [|done]; lia].
    simplify_eq. by destruct it'.
  - apply obind_Val in H as (pk' & Hp & H). apply slice_index_Val in Hp as [_ Hp].
    rewrite Nat2Z.id in Hp. simplify_eq. exists 0%nat, item. rewrite Nat.add_0_r.
    split_and!; try done; [|lia]. intros ->. done.
Qed.

Lemma slice_range_Val {A} (xs : list A) lo hi ys :
  slice_range xs lo hi = Val ys →
  0 ≤ lo ≤ hi ∧ hi ≤ len xs ∧ ys = take (Z.to_nat (hi - lo)) (drop (Z.to_nat lo) xs).
Proof. unfold slice_range. case_bool_decide; [|done]. intros [= <-]. naive_solver. Qed.

(** What a parsed witness is made of. *)
Lemma parseSlashingTxWitness_Val witness covPKs fpPKs m idx fpPK :
  parseSlashingTxWitness witness covPKs fpPKs = Val (m, idx, fpPK) →
  let n := length (SortBIP340PKs covPKs) in let k := length (SortBIP340PKs fpPKs) in
  (n + k ≤ length witness)%nat ∧
  cov_sigs covPKs 0 (take n witness) ∅ = Val m ∧
  fp_sig fpPKs 0 (take k (drop n witness)) = Val (idx, fpPK).
Proof.
  unfold parseSlashingTxWitness. cbv zeta. intros H.
  apply obind_Val in H as (st & (_ & _ & ->)%slice_range_Val & H). apply obind_Val in H as (m' & Hm & H).
  apply obind_Val in H as (st' & (_ & Hl & ->)%slice_range_Val & H).
  apply obind_Val in H as ([idx' pk] & Hf & H). simplify_eq. unfold len in *.
  rewrite Z.sub_0_r, drop_0, Nat2Z.id in Hm. split_and!; [lia|done|].
  replace (Z.to_nat (Z.of_nat (length (SortBIP340PKs covPKs)) + Z.of_nat (length (SortBIP340PKs fpPKs))
    - Z.of_nat (length (SortBIP340PKs covPKs)))) with (length (SortBIP340PKs fpPKs)) in Hf by lia.
  by rewrite Nat2Z.id in Hf.
Qed.

(** ** The extracted key *)

(** [extracted covs m idx pk sk]: [sk] comes from the adaptor signature of some
    covenant member, completed by the signature attributed to it, and is the
    secret key of [pk]. *)
Definition extracted (covs : list CovenantSig) (m : gmap string BIP340Signature) (idx : Z)
    (pk : PubKey) (sk : PrivKey) : Prop :=
  pub_of sk = pk ∧ ∃ cov sig bsig b asig, cov ∈ covs ∧ m !! MarshalHex (CovPk cov) = Some sig ∧
    ToBTCSig sig = Ok bsig ∧ slice_index (AdaptorSigs cov) idx = Val b ∧
    NewAdaptorSignatureFromBytes b = Ok asig ∧ Extract asig bsig = Ok sk.

Lemma tryExtractFPSK_Val m idx fpPK covs sk :
  tryExtractFPSK m idx fpPK covs = Val sk → ∃ pk, fpPK = Some pk ∧ extracted covs m idx pk sk.
Proof.
  induction covs as [|cov covs IH]; cbn [tryExtractFPSK]; [done|].
  assert (∀ pk, fpPK = Some pk → extracted covs m idx pk sk → extracted (cov :: covs) m idx pk sk) as Hmono.
  { intros pk _ [Hp (c & x1 & x2 & x3 & x4 & Hc & Hrest)]. split; [done|].
    exists c, x1, x2, x3, x4. split; [by right|done]. }
  assert (tryExtractFPSK m idx fpPK covs = Val sk →
    ∃ pk, fpPK = Some pk ∧ extracted (cov :: covs) m idx pk sk) as Hrec.
  { intros H. destruct (IH H) as (pk & ? & ?). eauto. }
  destruct (m !! MarshalHex (CovPk cov)) as [sig|] eqn:Em; [|done].
  intros H. apply obind_Val in H as (bsig & Hb%oresult_Val & H). apply obind_Val in H as (b & Hi & H).
  apply obind_Val in H as (asig & Ha%oresult_Val & H). apply obind_Val in H as (sk' & He%oresult_Val & H).
  destruct fpPK as [pk|]; [|done]. case_bool_decide as Hpk; [|by apply Hrec]. simplify_eq.
  exists (pub_of sk). split; [done|]. split; [done|]. exists cov, sig, bsig, b, asig. split; [left|done].
Qed.

(** ** The evidence in the calls made *)
Implicit Types (cs : list as_call).

(** Babylon listed a delegation tracked as [d]. *)
Definition listed cs (d : TrackedBTCDelegation) : Prop :=
  ∃ dels del, APage dels ∈ cs ∧ del ∈ dels ∧ NewTrackedBTCDelegation del = Val d.

(** The transaction is in a block of Bitcoin and is the slashing or the unbonding
    slashing transaction of a listed delegation. *)
Definition info_ok cs (info : SlashingTxInfo) : Prop :=
  ∃ hash block d, ABlock hash block ∈ cs ∧ SlashingMsgTx info ∈ Transactions block ∧ listed cs d ∧
    td_StakingTxHash d = StakingTxHash info ∧
    (path info = slashStakingTx ∧ td_SlashingTxHash d = TxHash (SlashingMsgTx info) ∨
     path info = slashUnbondingTx ∧ td_UnbondingSlashingTxHash d = TxHash (SlashingMsgTx info)).

(** The key was extracted from such a transaction's witness with the adaptor
    signatures Babylon returned for the delegation, is the key of one of its
    finality providers, and Babylon answered that this provider is not slashed. *)
Definition selective_ok cs (sk : PrivKey) : Prop :=
  ∃ info del params txIn m idx covs,
    info_ok cs info ∧ ADelegation (StakingTxHash info) del ∈ cs ∧
    AParams (ParamsVersion del) params ∈ cs ∧
    slice_index (TxIn (SlashingMsgTx info)) 0 = Val txIn ∧
    parseSlashingTxWitness (Witness txIn) (CovenantPks params) (FpBtcPkList del) =
      Val (m, idx, Some (pub_of sk)) ∧
    AProvider (pub_of sk) false ∈ cs ∧ adaptor_sigs_of info del = Val covs ∧
    extracted covs m idx (pub_of sk) sk.

Lemma listed_mono cs cs' d : cs ⊆ cs' → listed cs d → listed cs' d.
Proof. intros Hs (ds & del & ? & ?). exists ds, del. auto. Qed.
Lemma info_ok_mono cs cs' info : cs ⊆ cs' → info_ok cs info → info_ok cs' info.
Proof. intros Hs (h & b & d & ? & ? & ? & ? & ?). exists h, b, d. split_and!; eauto using listed_mono. Qed.
Lemma selective_ok_mono cs cs' sk : cs ⊆ cs' → selective_ok cs sk → selective_ok cs' sk.
Proof.
  intros Hs (info & del & params & txIn & m & idx & covs & ? & ? & ? & ? & ? & ? & ?).
  exists info, del, params, txIn, m, idx, covs. split_and!; eauto using info_ok_mono; naive_solver.
Qed.

(** ** The steps *)
Context {W : Type}.
Notation St := (AtomicSlasher * W)%type.

Definition as_query (c : as_call) : Prop := match c with ASelective _ => False | _ => True end.

Inductive as_step : St → St → Prop :=
| as_st_world a w w' : as_step (a, w) (a, w')
| as_st_metric m a w : as_step (a, w) (as_add_metric m a, w)
| as_st_tip h a w : is_u32 h → as_step (a, w) (as_set_tip h a, w)
| as_st_quit a w : as_step (a, w) (as_set_stop true (as_closed a) a, w)
| as_st_close a w : as_quit a = true → as_step (a, w) (as_set_stop (as_quit a) true a, w)
| as_st_add d a w : listed (as_calls a) d →
    as_step (a, w) (as_set_index (snd (Add d (btcDelIndex a))) a, w)
| as_st_remove h a w : as_step (a, w) (as_set_index (snd (Remove h (btcDelIndex a))) a, w)
| as_st_send info a w : info_ok (as_calls a) info →
    as_step (a, w) (as_set_txs (slashingTxChan a ++ [info]) a, w)
| as_st_receive info rest a w : slashingTxChan a = info :: rest → as_step (a, w) (as_set_txs rest a, w)
| as_st_key sk a w : ASelective sk ∈ as_calls a →
    as_step (a, w) (as_set_keys (slashedFPSKChan a ++ [sk]) a, w)
| as_st_enforce sk rest a w : slashedFPSKChan a = sk :: rest → as_step (a, w) (as_set_keys rest a, w)
| as_st_query c a w : as_query c → as_step (a, w) (as_add_call c a, w)
| as_st_selective sk a w : selective_ok (as_calls a) sk → as_step (a, w) (as_add_call (ASelective sk) a, w).

Lemma as_step_calls s s' :
  as_step s s' → as_calls s.1 ⊆ as_calls s'.1 ∧ (as_quit s.1 = true → as_quit s'.1 = true).
Proof. destruct 1; cbn; split; try done; set_solver. Qed.

Lemma as_reach_mono s s' :
  rtc as_step s s' → as_calls s.1 ⊆ as_calls s'.1 ∧ (as_quit s.1 = true → as_quit s'.1 = true).
Proof.
  induction 1 as [|s s1 s' H _ [IH IHq]]; [done|]. apply as_step_calls in H as [H Hq].
  split; [set_solver|auto].
Qed.
Lemma as_reach_calls s s' : rtc as_step s s' → as_calls s.1 ⊆ as_calls s'.1.
Proof. intros H. by apply as_reach_mono. Qed.

(** ** What the steps keep *)
Record atomic_ok (s : St) : Prop := {
  ao_index : index_sound (btcDelIndex s.1);
  ao_listed : map_Forall (λ _ d, listed (as_calls s.1) d) (delMap (btcDelIndex s.1));
  ao_txs : Forall (info_ok (as_calls s.1)) (slashingTxChan s.1);
  ao_keys : Forall (λ sk, ASelective sk ∈ as_calls s.1) (slashedFPSKChan s.1);
  ao_selective : ∀ pre sk post, as_calls s.1 = pre ++ ASelective sk :: post → selective_ok pre sk;
}.

Lemma selective_snoc cs c :
  (∀ pre sk post, cs = pre ++ ASelective sk :: post → selective_ok pre sk) →
  (∀ sk, c = ASelective sk → selective_ok cs sk) →
  ∀ pre sk post, cs ++ [c] = pre ++ ASelective sk :: post → selective_ok pre sk.
Proof.
  intros Hcs Hc pre sk post E. destruct post as [|y post' _] using rev_ind.
  - apply app_inj_tail in E as [-> ->]. by apply Hc.
  - rewrite app_comm_cons, app_assoc in E. apply app_inj_tail in E as [-> _]. by eapply Hcs.
Qed.

Lemma atomic_ok_call c a w :
  (∀ sk, c = ASelective sk → selective_ok (as_calls a) sk) →
  atomic_ok (a, w) → atomic_ok (as_add_call c a, w).
Proof.
  intros Hc []. assert (as_calls a ⊆ as_calls a ++ [c]) by set_solver. split; cbn in *.
  - done.
  - intros h d Hd. eapply listed_mono; [done|]. by eapply ao_listed0.
  - eapply Forall_impl; [done|]. intros ?. by apply info_ok_mono.
  - eapply Forall_impl; [done|]. cbn. set_solver.
  - by apply selective_snoc.
Qed.

Lemma atomic_ok_index b a w :
  index_sound b → map_Forall (λ _ d, listed (as_calls a) d) (delMap b) →
  atomic_ok (a, w) → atomic_ok (as_set_index b a, w).
Proof. intros Hb Hl []. by split. Qed.

Lemma as_step_ok s s' : as_step s s' → atomic_ok s → atomic_ok s'.
Proof.
  destruct 1 as [| | | | |d a w Hd|h a w|info a w Hi|info rest a w Hc|sk a w Hk|sk rest a w Hc|c a w Hq|sk a w Hk];
    intros Hok; try (destruct Hok; by split).
  - apply atomic_ok_index; [apply Add_sound, Hok| |done]. intros h d' Hh.
    destruct (impl_op_tracked (OAdd d) (btcDelIndex a) h d') as [?|[= ->]]; [|by eapply (ao_listed _ Hok)|done].
    cbn [impl_op]. rewrite bind_unfold. unfold Add in *. by destruct (delMap _ !! td_StakingTxHash d).
  - apply atomic_ok_index; [apply Remove_sound, Hok| |done]. intros h' d' Hh.
    destruct (impl_op_tracked (ORemove h) (btcDelIndex a) h' d') as [?|?]; [|by eapply (ao_listed _ Hok)|done].
    cbn [impl_op]. rewrite bind_unfold. unfold Remove in *. by destruct (delMap _ !! h).
  - destruct Hok. split; try done. cbn. apply Forall_app. split; [done|by constructor].
  - destruct Hok as [? ? Ht]. split; try done. cbn in *. rewrite Hc in Ht. by inversion Ht.
  - destruct Hok. split; try done. cbn. apply Forall_app. split; [done|by constructor].
  - destruct Hok as [? ? ? Ht]. split; try done. cbn in *. rewrite Hc in Ht. by inversion Ht.
  - apply atomic_ok_call; [by intros ? ->|done].
  - apply atomic_ok_call; [intros ? [= <-]; done|done].
Qed.

Lemma as_reach_ok s s' : rtc as_step s s' → atomic_ok s → atomic_ok s'.
Proof. apply rtc_inv, as_step_ok. Qed.

Lemma new_atomic_ok w : atomic_ok (NewAtomicSlasher, w).
Proof. split; cbn; [apply index_sound_new|apply map_Forall_empty|done|done|by intros []]. Qed.
End pure.

(** ** Every routine makes only these steps *)
Section guarantee.
Context {BL : BTCLib} {SL : StakingLib} {RT : Retry} {SK : SlashingKeys} {SLB : SlashingLib}
  {AL : AtomicLib} {W : Type} {BTC : BTCClient W} {AB : AtomicBabylon W} {AE : AtomicEvents W}.
Notation St := (AtomicSlasher * W)%type.
Context (others : St → St) (choose : St → bool) (maxRetryTimes NewDelegationsBatchSize : Z).
Hypothesis others_steps : ∀ s, rtc as_step s (others s).

Notation reach := (rtc as_step).
Notation wps := (wp as_step).

Lemma wp_as_atomic {A} s (m : M St A) Q :
  (∀ s1, reach s s1 → wps s1 m Q) → wps s (as_atomic others m) Q.
Proof.
  intros H. destruct (H (others s) (others_steps s)) as [H1 H2].
  split; [etrans; [apply others_steps|exact H1]|exact H2].
Qed.

Lemma wp_as_modify s (f : AtomicSlasher → AtomicSlasher) (Q : unit → St → Prop) :
  as_step s (f s.1, s.2) → Q tt (f s.1, s.2) → wps s (as_self (modify f)) Q.
Proof. intros Hs HQ. split; [by apply rtc_once|done]. Qed.

Lemma wp_as_world {A} s (m : M W A) (Q : A → St → Prop) :
  (∀ a w', m s.2 = (Val a, w') → reach s (s.1, w') → Q a (s.1, w')) → wps s (as_world m) Q.
Proof.
  intros HQ. unfold wp, as_world, zoom. destruct s as [x w]. cbn in *.
  assert (∀ w', reach (x, w) (x, w')) as Hw by (intros w'; apply rtc_once; constructor).
  destruct (m w) as [[a|e|p|] w'] eqn:E; cbn; auto.
Qed.

Lemma wp_as_store s (f : AtomicSlasher → AtomicSlasher) (Q : unit → St → Prop) :
  (∀ s1, reach s s1 → as_step s1 (f s1.1, s1.2)) →
  (∀ s1, reach s s1 → Q tt s1) → wps s (as_store others f) Q.
Proof.
  intros Hf HQ. apply wp_as_atomic. intros s1 H1. apply wp_as_modify; [by apply Hf|].
  apply HQ. etrans; [exact H1|]. by apply rtc_once, Hf.
Qed.

Lemma wp_as_emit s m (Q : unit → St → Prop) :
  (∀ s1, reach s s1 → Q tt s1) → wps s (as_emit others m) Q.
Proof. intros HQ. apply wp_as_store; [|done]. intros [x w] _. apply as_st_metric. Qed.

Lemma wp_as_ask {A} s (m : M W A) (c : A → as_call) (Q : A → St → Prop) :
  (∀ a, as_query (c a)) →
  (∀ a s1, reach s s1 → c a ∈ as_calls s1.1 → Q a s1) → wps s (as_ask others m c) Q.
Proof.
  intros Hc HQ. apply wp_as_atomic. intros s1 H1. apply wp_bind, wp_as_world. intros a w' _ Hr H2.
  apply wp_bind, wp_as_modify; [apply as_st_query, Hc|]. intros H3. apply wp_ret, HQ.
  - etrans; [exact H1|]. by etrans.
  - cbn. set_solver.
Qed.

Lemma wp_as_tell s c (m : M W unit) (Q : result unit → St → Prop) :
  (∀ s1, reach s s1 → as_step s1 (as_add_call c s1.1, s1.2)) →
  (∀ r s1, reach s s1 → c ∈ as_calls s1.1 → Q r s1) → wps s (try (as_tell others c m)) Q.
Proof.
  intros Hc HQ. pose proof (others_steps s) as H0. pose proof (Hc _ H0) as H1.
  unfold wp, try, as_tell, as_atomic, as_self, as_world, zoom. rewrite bind_unfold. cbn.
  destruct (others s) as [x w]. cbn in *.
  assert (∀ w', reach s (as_add_call c x, w')) as H2.
  { intros w'. etrans; [exact H0|]. eapply rtc_l; [exact H1|]. apply rtc_once. constructor. }
  assert (c ∈ as_calls (as_add_call c x)) as H3 by (cbn; set_solver).
  destruct (m w) as [[a|e|p|] w']; cbn; auto.
Qed.

Lemma wp_as_index_add s d (Q : bool → St → Prop) :
  listed (as_calls s.1) d → (∀ b s1, reach s s1 → Q b s1) → wps s (as_index others (Add d)) Q.
Proof.
  intros Hd HQ. apply wp_as_atomic. intros [x w] H1.
  assert (reach (x, w) (as_set_index (snd (Add d (btcDelIndex x))) x, w)) as H2.
  { apply rtc_once, as_st_add. eapply listed_mono; [|exact Hd]. apply (as_reach_calls _ _ H1). }
  unfold wp, as_self, zoom. cbn. destruct (Add d (btcDelIndex x)) as [[b|e|p|] i']; cbn in *; [|done..].
  split; [done|]. apply HQ. by etrans.
Qed.

Lemma wp_as_index_remove s h (Q : unit → St → Prop) :
  (∀ b s1, reach s s1 → Q b s1) → wps s (as_index others (Remove h)) Q.
Proof.
  intros HQ. apply wp_as_atomic. intros [x w] H1.
  assert (reach (x, w) (as_set_index (snd (Remove h (btcDelIndex x))) x, w)) as H2
    by apply rtc_once, as_st_remove.
  unfold wp, as_self, zoom. cbn. destruct (Remove h (btcDelIndex x)) as [[b|e|p|] i']; cbn in *; [|done..].
  split; [done|]. apply HQ. by etrans.
Qed.

(** A search finds a listed delegation. *)
Lemma wp_as_index_find s t (Q : option TrackedBTCDelegation * Z → St → Prop) :
  atomic_ok s →
  (∀ d p s1, reach s s1 → listed (as_calls s1.1) d →
     p = slashStakingTx ∧ td_SlashingTxHash d = t ∨
     p = slashUnbondingTx ∧ td_UnbondingSlashingTxHash d = t → Q (Some d, p) s1) →
  (∀ p s1, reach s s1 → Q (None, p) s1) → wps s (as_index others (FindSlashedBTCDelegation t)) Q.
Proof.
  intros Hok HS HN. apply wp_as_atomic. intros [x w] H1. pose proof (as_reach_ok _ _ H1 Hok) as [Hi Hl _ _ _].
  unfold wp, as_self, zoom. cbn -[FindSlashedBTCDelegation].
  destruct (FindSlashedBTCDelegation t (btcDelIndex x)) as [o i'] eqn:E.
  assert (i' = btcDelIndex x) as -> by (unfold FindSlashedBTCDelegation, gets in E; by simplify_eq).
  cbn. assert (as_set_index (btcDelIndex x) x = x) as -> by (by destruct x).
  split; [apply rtc_refl|]. destruct o as [[[d|] p]|e|p|]; [|by apply HN|done..].
  apply FindSlashed_sound in E as (_ & Hd & Hp); [|done]. apply HS; [done|by eapply Hl|done].
Qed.

(** ** The routines *)
Lemma wp_track_btc_delegation s dels del :
  APage dels ∈ as_calls s.1 → del ∈ dels → wps s (track_btc_delegation others del) (λ _ _, True).
Proof.
  intros Hp Hd. unfold track_btc_delegation. apply wp_bind, wp_of_outcome. intros d Ht _.
  apply wp_bind, wp_as_index_add; [by exists dels, del|].
  intros [] s1 _ _; [by apply wp_as_emit|by apply wp_ret].
Qed.

Lemma wp_handle_pages fuel s key :
  wps s (handle_pages others NewDelegationsBatchSize fuel key (track_btc_delegation others)) (λ _ _, True).
Proof.
  revert s key. induction fuel as [|fuel IH]; intros s key; [apply wp_diverge|].
  cbn [handle_pages]. apply wp_bind, wp_wrap_err, wp_as_ask; [done|].
  intros [dels next] s1 _ Hc _. apply wp_bind.
  eapply wp_mono; [apply (wp_for_each as_step (λ _, True))|]; cbn; [|done|].
  - intros del s2 Hin Hr _. apply wp_bind, wp_try; [|by intros; apply wp_ret].
    eapply wp_mono; [eapply wp_track_btc_delegation; [|done]|by intros; apply wp_ret].
    apply (as_reach_calls _ _ Hr). done.
  - intros _ s2 _ _ _. destruct next; [apply IH|by apply wp_ret].
Qed.

Lemma wp_btcDelegationTracker fuel s :
  wps s (btcDelegationTracker others NewDelegationsBatchSize fuel) (λ _ _, True).
Proof.
  revert s. induction fuel as [|fuel IH]; intros s; [apply wp_diverge|].
  cbn [btcDelegationTracker]. apply wp_bind, wp_as_atomic. intros s1 _. apply wp_as_world.
  intros [] w' _ _ _; [|by apply wp_ret]. apply wp_bind, wp_try; [|auto].
  eapply wp_mono; [apply wp_handle_pages|]. auto.
Qed.

Lemma wp_send s info (Q : bool → St → Prop) :
  info_ok (as_calls s.1) info → (∀ b s1, reach s s1 → Q b s1) →
  wps s (send_slashing_tx others choose info) Q.
Proof.
  intros Hi HQ. apply wp_as_atomic. intros [x w] H1. unfold wp. cbn.
  destruct (as_quit x && choose (x, w)); cbn; [split; [apply rtc_refl|auto]|].
  destruct (as_closed x); cbn; [split; [apply rtc_refl|done]|].
  assert (as_step (x, w) (as_set_txs (slashingTxChan x ++ [info]) x, w)) as H2.
  { apply as_st_send. eapply info_ok_mono; [|exact Hi]. apply (as_reach_calls _ _ H1). }
  split; [by apply rtc_once|]. apply HQ. etrans; [exact H1|by apply rtc_once].
Qed.

Lemma wp_filter_tx s hash block tx (Q : option unit → St → Prop) :
  atomic_ok s → ABlock hash block ∈ as_calls s.1 → tx ∈ Transactions block →
  (∀ r s1, reach s s1 → Q r s1) → wps s (filter_tx others choose tx) Q.
Proof.
  intros Hok Hb Ht HQ. unfold filter_tx. apply wp_bind. apply wp_as_index_find; [done| |].
  - intros d p s1 Hr Hl Hp _. apply wp_bind, wp_send.
    + exists hash, block, d. split_and!; try done. by apply (as_reach_calls _ _ Hr).
    + intros [] s2 Hr2 _; apply wp_ret, HQ; by etrans.
  - intros p s1 Hr _. by apply wp_ret, HQ.
Qed.

Lemma wp_filter_txs s hash block txs (Q : option unit → St → Prop) :
  atomic_ok s → ABlock hash block ∈ as_calls s.1 → txs ⊆ Transactions block →
  (∀ r s1, reach s s1 → Q r s1) → wps s (for_until txs (filter_tx others choose)) Q.
Proof.
  revert s. induction txs as [|tx txs IH]; intros s Hok Hb Ht HQ; cbn [for_until].
  { apply wp_ret, HQ, rtc_refl. }
  apply wp_bind. eapply wp_filter_tx; [done|done|set_solver|]. intros [] s1 Hr _.
  { by apply wp_ret, HQ. }
  apply IH; [by eapply as_reach_ok|by apply (as_reach_calls _ _ Hr)|set_solver|].
  intros r s2 Hr2. apply HQ. by etrans.
Qed.

Lemma wp_block_tracker fuel s :
  atomic_ok s → wps s (block_tracker_loop others choose fuel) (λ _ _, True).
Proof.
  revert s. induction fuel as [|fuel IH]; intros s Hok; [apply wp_diverge|].
  cbn [block_tracker_loop]. apply wp_bind, wp_as_atomic. intros s1 H1. apply wp_as_world.
  intros [h hash| |] w' _ Hw _; [|by apply wp_ret..].
  assert (atomic_ok (s1.1, w')) as Hok1 by (eapply as_reach_ok; [etrans; [exact H1|exact Hw]|done]).
  apply wp_bind. unfold track_block. destruct (h <? 0); [apply wp_panic|].
  apply wp_bind, wp_as_store.
  { intros [x w] _. apply as_st_tip, u32_range. }
  intros s2 H2 _. pose proof (as_reach_ok _ _ H2 Hok1) as Hok2.
  assert (∀ (r : option unit) s3, reach s2 s3 →
    reach (s1.1, w') s3 → wps s3 (match r with Some _ => mret tt | None => block_tracker_loop others choose fuel end)
      (λ _ _, True)) as Hnext.
  { intros [] s3 H3 _; [by apply wp_ret|]. apply IH. by eapply as_reach_ok. }
  apply wp_bind, wp_try.
  - apply wp_as_ask; [done|]. intros [ib block] s3 H3 Hc _. eapply wp_filter_txs; [by eapply as_reach_ok|done|done|].
    intros r s4 H4. apply Hnext. by etrans.
  - intros e s3 H3 _. apply wp_ret. by apply (Hnext None).
Qed.

Lemma wp_report_key s h sk :
  selective_ok (as_calls s.1) sk → wps s (report_key others h sk) (λ _ _, True).
Proof.
  intros Hk. unfold report_key. apply wp_bind, wp_as_tell.
  { intros [x w] Hr. apply as_st_selective. eapply selective_ok_mono; [|exact Hk]. apply (as_reach_calls _ _ Hr). }
  intros r s1 Hr Hc _.
  assert (∀ s2, reach s1 s2 → wps s2
    (as_store others (λ a, as_set_keys (slashedFPSKChan a ++ [sk]) a) ;;
     as_index others (Remove h) ;; as_emit others (MDec "TrackedBTCDelegationsGauge")) (λ _ _, True)) as Hend.
  { intros s2 H2. apply wp_bind, wp_as_store.
    - intros [x w] H3. apply as_st_key. apply (as_reach_calls _ _ H3), (as_reach_calls _ _ H2), Hc.
    - intros s3 _ _. apply wp_bind, wp_as_index_remove. intros _ s4 _ _. by apply wp_as_emit. }
  apply wp_bind. destruct r as [u|e]; [apply wp_ret; intros _; apply Hend, rtc_refl|].
  destruct (errors_Is _ _); [apply wp_as_emit; auto|apply wp_ret; intros _; apply Hend, rtc_refl].
Qed.

Lemma wp_report_selective s info :
  info_ok (as_calls s.1) info → wps s (report_selective others maxRetryTimes info) (λ _ _, True).
Proof.
  intros Hi. unfold report_selective.
  apply wp_bind, wp_try; [|by intros; apply wp_ret]. apply wp_as_ask; [done|]. intros del s1 H1 Hd _.
  apply wp_bind, wp_try; [|by intros; apply wp_ret]. apply wp_as_ask; [done|]. intros params s2 H2 Hp _.
  apply wp_bind, wp_of_outcome. intros txIn Htx _.
  apply wp_bind, wp_try; [|by intros; apply wp_ret]. apply wp_of_outcome. intros [[m idx] fpPK] Hm _.
  apply wp_bind, wp_try; [|by intros; apply wp_ret]. destruct fpPK as [pk|]; [|apply wp_panic].
  apply wp_as_ask; [done|]. intros [] s3 H3 Hf _; [by apply wp_ret|].
  apply wp_bind, wp_of_outcome. intros covs Hc _.
  apply wp_bind, wp_try; [|by intros; apply wp_ret]. apply wp_of_outcome. intros sk Hsk _.
  apply tryExtractFPSK_Val in Hsk as (pk' & [= <-] & Hex). pose proof Hex as [<- _].
  pose proof (as_reach_calls _ _ H1). pose proof (as_reach_calls _ _ H2). pose proof (as_reach_calls _ _ H3).
  apply wp_report_key. exists info, del, params, txIn, m, idx, covs. split_and!; try done.
  - eapply info_ok_mono; [|exact Hi]. set_solver.
  - set_solver.
  - set_solver.
Qed.

Lemma wp_as_receive s (Q : received → St → Prop) :
  atomic_ok s →
  (∀ info s1, reach s s1 → info_ok (as_calls s1.1) info → Q (RTx info) s1) →
  (∀ s1, reach s s1 → Q RStop s1) → (∀ s1, reach s s1 → Q RWait s1) →
  wps s (as_receive others choose) Q.
Proof.
  intros Hok HT HS HW. apply wp_as_atomic. intros [x w] H1.
  pose proof (as_reach_ok _ _ H1 Hok) as [_ _ Ht _ _]. unfold wp. cbn in *.
  destruct (slashingTxChan x) as [|info rest] eqn:Ec; cbn.
  { split; [apply rtc_refl|]. destruct (_ || _); auto. }
  destruct (as_quit x && choose (x, w)); cbn.
  { split; [apply rtc_refl|]. auto. }
  assert (as_step (x, w) (as_set_txs rest x, w)) as H2 by (by eapply as_st_receive).
  split; [by apply rtc_once|]. apply HT; [etrans; [exact H1|by apply rtc_once]|]. by inversion Ht.
Qed.

Lemma wp_reporter fuel s :
  atomic_ok s → wps s (selectiveSlashingReporter others choose maxRetryTimes fuel) (λ _ _, True).
Proof.
  revert s. induction fuel as [|fuel IH]; intros s Hok; [apply wp_diverge|].
  cbn [selectiveSlashingReporter]. apply wp_bind, wp_as_receive; [done| | |].
  - intros info s1 H1 Hi _. apply wp_bind. eapply wp_mono; [by apply wp_report_selective|].
    intros _ s2 H2 _ _. apply IH. eapply as_reach_ok; [etrans; [exact H1|exact H2]|done].
  - intros s1 _ _. by apply wp_ret.
  - intros s1 H1 _. apply IH. by eapply as_reach_ok.
Qed.

Lemma run_routine_reach fuel r s :
  atomic_ok s → rtc as_step s
    (snd (run_routine others choose maxRetryTimes NewDelegationsBatchSize fuel r s)).
Proof.
  intros Hok. destruct r; cbn [run_routine].
  - assert (wps s (slashingTxTracker others choose fuel) (λ _ _, True)) as [H _]; [|done].
    unfold slashingTxTracker. apply wp_bind, wp_try; [|by intros; apply wp_ret].
    apply wp_as_atomic. intros s1 H1. apply wp_as_world. intros [] w' _ Hw _.
    apply wp_block_tracker. eapply as_reach_ok; [etrans; [exact H1|exact Hw]|done].
  - apply wp_btcDelegationTracker.
  - by apply wp_reporter.
Qed.
End guarantee.
