(* ===== verification/AtomicSlasherTheorems.v ===== *)
(** * Properties of the atomic slasher *)

From S2P Require Import Prelude Blocks Retry BTCClient StakingTypes Slasher.
From S2P Require Import Interference AtomicSlasher AtomicSlasherProps.
From S2P Require Import Instances WatcherInstances SlasherTheorems.
From S2P Require Reporter.
Import Reporter (metric_event(..)).

(** ** Small instances: one delegation, slashed by transaction 70 *)
#[global] Instance small_atomic : AtomicLib := {|
  SortBIP340PKs l := l;
  NewBIP340Signature _ := Ok tt;
  ToBTCSig _ := Ok [];
  CovPk _ := 1;
  AdaptorSigs _ := [[1]];
  NewAdaptorSignatureFromBytes _ := Ok tt;
  Extract _ _ := Ok 5;
  slashTx_ToMsgTx t := Ok (mkMsgTx 2 [] [] t);
  sk_Serialize k := [k];
|}.
#[local] Instance small_babylon : AtomicBabylon Z := {|
  ab_FinalityProvider_SlashedBabylonHeight _ := mret 0;
  ab_BTCDelegations _ _ := mret ([small_dels true ACTIVE], None);
  ab_BTCStakingParamsByVersion v := mret (small_params v);
  ab_BTCDelegation _ := mret (small_dels true ACTIVE);
  ab_MustGetAddr := "bbn1";
  ab_ReliablySendMsg _ := mret tt;
|}.
Definition slash_witness : list (list Z) := [[9]; []; [8]; [7]; [4]].
Definition slashing_tx_70 : MsgTx := mkMsgTx 2 [mkTxIn (mkOutPoint 51 0) [] slash_witness 0] [] 70.
#[local] Instance slashing_node : BTCClient Z := {|
  GetBestBlock := mret 103;
  GetBlockByHash _ := mret (NewIndexedBlock 103 (blk_Header (block_at 103 [])) [], block_at 103 [slashing_tx_70]);
  GetBlockByHeight _ := fail (ENew "unused");
  FindTailBlocksByHeight _ := fail (ENew "unused");
|}.
(** One tick, then one block, then shutdown. *)
#[local] Instance one_of_each : AtomicEvents Z := {|
  ae_RegisterBlockEpochNtfn := mret tt;
  ae_select_block := λ n, (Val (if n <? 2 then BlockEpoch 103 103 else BlocksQuit), 2);
  ae_select_tick := λ n, (Val (n =? 0), 1);
|}.
Definition as_idle (s : AtomicSlasher * Z) : AtomicSlasher * Z := s.
Definition as_never (s : AtomicSlasher * Z) : bool := false.
Lemma as_idle_steps s : rtc as_step s (as_idle s).
Proof. apply rtc_refl. Qed.

Definition atomic_tracking : AtomicSlasher * Z :=
  snd (run_routine as_idle as_never 5 10 4 BTCDelegationTracker (NewAtomicSlasher, 0)).
Definition atomic_seen : AtomicSlasher * Z :=
  snd (run_routine as_idle as_never 5 10 4 SlashingTxTracker atomic_tracking).
Definition atomic_reported : AtomicSlasher * Z :=
  snd (run_routine as_idle as_never 5 10 4 SelectiveSlashingReporter atomic_seen).

Lemma atomic_seen_reached : rtc as_step (NewAtomicSlasher, 0) atomic_seen.
Proof.
  assert (rtc as_step (NewAtomicSlasher, 0) atomic_tracking) as H.
  { apply run_routine_reach; [apply as_idle_steps|apply new_atomic_ok]. }
  etrans; [exact H|]. apply run_routine_reach; [apply as_idle_steps|].
  eapply as_reach_ok; [exact H|apply new_atomic_ok].
Qed.

(** C7: a finality provider's key is reported and handed on only with
    justification.  Whatever the interleaving, before each selective slashing
    report the slasher received from Bitcoin a block with a transaction that is
    the slashing transaction of a delegation Babylon listed, received that
    delegation and its parameters from Babylon, extracted from the witness and the
    covenant's adaptor signatures the secret key of a finality provider of that
    delegation, and was told by Babylon that the provider is not slashed; and
    every key on the channel to the slashing enforcer was reported before. *)
Theorem slashed_keys_are_justified
    {BL : BTCLib} {SL : StakingLib} {RT : Retry} {SK : SlashingKeys} {SLB : SlashingLib}
    {AL : AtomicLib} {W : Type} {BTC : BTCClient W} {AB : AtomicBabylon W} {AE : AtomicEvents W}
    (others : AtomicSlasher * W → AtomicSlasher * W) choose attempts batch fuel r w0 s s' :
  (∀ s, rtc as_step s (others s)) → rtc as_step (NewAtomicSlasher, w0) s →
  s' = snd (run_routine others choose attempts batch fuel r s) →
  (∀ pre sk post, as_calls s'.1 = pre ++ ASelective sk :: post → selective_ok pre sk) ∧
  (∀ sk, sk ∈ slashedFPSKChan s'.1 → ASelective sk ∈ as_calls s'.1).
Proof.
  intros Ho Hs ->.
  assert (atomic_ok s) as Hok by (eapply as_reach_ok; [exact Hs|apply new_atomic_ok]).
  pose proof (as_reach_ok _ _ (run_routine_reach others choose attempts batch Ho fuel r s Hok) Hok) as Hok'.
  split; [apply (ao_selective _ Hok')|]. apply Forall_forall, (ao_keys _ Hok').
Qed.

Lemma atomic_reported_run :
  atomic_reported = snd (run_routine as_idle as_never 5 10 4 SelectiveSlashingReporter atomic_seen).
Proof. unfold atomic_reported. reflexivity. Qed.

Lemma slashed_keys_are_justified_witness :
  slashedFPSKChan atomic_reported.1 = [5] ∧
  (∀ pre sk post, as_calls atomic_reported.1 = pre ++ ASelective sk :: post → selective_ok pre sk) ∧
  (∀ sk, sk ∈ slashedFPSKChan atomic_reported.1 → ASelective sk ∈ as_calls atomic_reported.1).
Proof.
  split; [vm_compute; reflexivity|].
  exact (slashed_keys_are_justified as_idle as_never 5 10 4 SelectiveSlashingReporter 0
    atomic_seen atomic_reported as_idle_steps atomic_seen_reached atomic_reported_run).
Defined.

(** C14: the index is a searchable set.  Run on any sequence of operations, the
    three maps give the answers of a set of tracked delegations in which a
    transaction is searched first among the slashing and then among the unbonding
    slashing transactions, provided delegations with different staking
    transactions never share one of these.  In particular a search that hits an
    index map never returns a [nil] delegation. *)
Theorem index_refines_set {BL : BTCLib} (ops : list index_op) :
  own_slashing (added ops) → run_impl ops NewBTCDelegationIndex = run_spec ops ∅.
Proof.
  intros Hown.
  assert (∀ todo b, index_exact b → todo ⊆ ops →
    (∀ h d, delMap b !! h = Some d → d ∈ added ops) → run_impl todo b = run_spec todo (delMap b)) as H.
  - induction todo as [|op todo IH]; intros b He Hsub Ht; [done|]. cbn [run_impl run_spec].
    assert (∀ d, op = OAdd d → d ∈ added ops) as Hadd.
    { intros d ->. unfold added. apply list_elem_of_omap. exists (OAdd d). split; [set_solver|done]. }
    destruct (index_op_simulates op b He) as (He' & -> & Hm).
    + intros d Hop h d' Hd Hne. assert (td_StakingTxHash d' = h) as Hk by (by apply He).
      pose proof (Hown d d' (Hadd d Hop) (Ht h d' Hd)). naive_solver congruence.
    + f_equal. rewrite <-Hm. apply IH; [done|set_solver|].
      intros h d [?|?]%impl_op_tracked; eauto.
  - apply (H ops NewBTCDelegationIndex); [apply index_exact_new|done|]. intros h d. cbn. by rewrite lookup_empty.
Qed.

Definition index_trace : list index_op :=
  [OAdd (mkTrackedBTC 51 70 71); OAdd (mkTrackedBTC 52 72 73); OFind 73; ORemove 51; OFind 70; OGet 52].
Lemma index_trace_own : own_slashing (added index_trace).
Proof.
  intros d d' Hd Hd'. cbn in Hd, Hd'. rewrite !elem_of_cons, elem_of_nil in Hd, Hd'.
  destruct Hd as [->|[->|[]]], Hd' as [->|[->|[]]]; cbn; intros [?|?]; done.
Qed.

Lemma index_refines_set_witness :
  run_impl index_trace NewBTCDelegationIndex =
    Val <$> [ABool true; ABool true; AFind (Some (mkTrackedBTC 52 72 73)) 1; AUnit; AFind None (-1);
             ADel (Some (mkTrackedBTC 52 72 73))] ∧
  run_impl index_trace NewBTCDelegationIndex = run_spec index_trace ∅.
Proof. split; [vm_compute; reflexivity|]. exact (index_refines_set index_trace index_trace_own). Defined.

(** The witness of a slashing transaction is read by position.  When parsing
    succeeds, the witness has an item for every key of both lists, the signature
    of a covenant member is the decoded non-empty item at the position of its key
    in [covPKs], and the finality provider found is the key of [fpPKs] at the
    position of the first non-empty item of the second part. *)
Theorem witness_read_by_position
    {BL : BTCLib} {SL : StakingLib} {SK : SlashingKeys} {SLB : SlashingLib} {AL : AtomicLib}
    witness covPKs fpPKs m idx pk :
  parseSlashingTxWitness witness covPKs fpPKs = Val (m, idx, Some pk) →
  let n := length (SortBIP340PKs covPKs) in let k := length (SortBIP340PKs fpPKs) in
  (n + k ≤ length witness)%nat ∧
  (∀ hex sig, m !! hex = Some sig → ∃ (j : nat) item c, (j < n)%nat ∧ witness !! j = Some item ∧
     item ≠ [] ∧ covPKs !! j = Some c ∧ MarshalHex c = hex ∧ NewBIP340Signature item = Ok sig) ∧
  (NoDup (MarshalHex <$> covPKs) → ∀ (j : nat) item c, (j < n)%nat → witness !! j = Some item →
     item ≠ [] → covPKs !! j = Some c → ∃ sig, NewBIP340Signature item = Ok sig ∧
     m !! MarshalHex c = Some sig) ∧
  (∃ (j : nat) item, idx = Z.of_nat j ∧ (j < k)%nat ∧ witness !! (n + j)%nat = Some item ∧ item ≠ [] ∧
     fpPKs !! j = Some pk ∧ ∀ (i : nat) it, (i < j)%nat → witness !! (n + i)%nat = Some it → it = []).
Proof.
  intros H n k. apply parseSlashingTxWitness_Val in H as (Hl & Hm & Hf).
  split; [done|]. split; [|split].
  - intros hex sig Hs.
    destruct (cov_sigs_Val covPKs 0 _ _ _ Hm hex sig Hs) as [?|(j & it & c & Hj & ? & ? & ? & ?)]; [done|].
    apply lookup_take_Some in Hj as [Hj Hlt]. exists j, it, c. done.
  - intros Hnd j it c Hj Hit Hne Hc. eapply (cov_sigs_lookup covPKs 0 _ _ _ j); [done|exact Hm| |done|done].
    by apply lookup_take_Some.
  - destruct (fp_sig_Val fpPKs 0 _ _ _ Hf) as (j & it & -> & Hj & Hne & Hpk & Hfirst).
    apply lookup_take_Some in Hj as [Hj Hlt]. rewrite lookup_drop in Hj.
    exists j, it. split_and!; try done. intros i it' Hi Hit'. apply (Hfirst i it' Hi).
    apply lookup_take_Some. rewrite lookup_drop. split; [done|lia].
Qed.

Lemma small_witness_parsed :
  parseSlashingTxWitness slash_witness [1; 2; 3] [5] = Val ({["pk" := tt]}, 0, Some 5).
Proof. vm_compute. reflexivity. Qed.

Lemma witness_read_by_position_witness :
  (4 ≤ length slash_witness)%nat ∧
  (∃ (j : nat) item, 0 = Z.of_nat j ∧ (j < 1)%nat ∧ slash_witness !! (3 + j)%nat = Some item ∧ item ≠ [] ∧
     [5] !! j = Some 5 ∧ ∀ (i : nat) it, (i < j)%nat → slash_witness !! (3 + i)%nat = Some it → it = []).
Proof.
  pose proof (witness_read_by_position slash_witness [1; 2; 3] [5] _ _ _ small_witness_parsed)
    as (H1 & _ & _ & H4).
  split; [exact H1|exact H4].
Defined.

(** The order of the script is ignored.  The witness holds the covenant
    signatures in the order of the sorted keys; when the key [b] at a position of
    the unsorted list differs from the key [a] the script has there, the item
    that [a] signed is recorded as the signature of [b]. *)
Theorem unsorted_signature_misattributed
    {BL : BTCLib} {SL : StakingLib} {SK : SlashingKeys} {SLB : SlashingLib} {AL : AtomicLib}
    witness covPKs fpPKs m idx fpPK (j : nat) a b item :
  parseSlashingTxWitness witness covPKs fpPKs = Val (m, idx, fpPK) →
  NoDup (MarshalHex <$> covPKs) →
  SortBIP340PKs covPKs !! j = Some a → covPKs !! j = Some b → a ≠ b →
  witness !! j = Some item → item ≠ [] →
  ∃ sig, NewBIP340Signature item = Ok sig ∧ m !! MarshalHex b = Some sig.
Proof.
  intros (_ & Hm & _)%parseSlashingTxWitness_Val Hnd Ha Hb _ Hi Hne.
  eapply (cov_sigs_lookup covPKs 0 _ _ _ j); [done|exact Hm| |done|done].
  apply lookup_take_Some. split; [done|]. by apply lookup_lt_Some in Ha.
Qed.

(** Two members, 1 and 2, that the script orders 2, 1. *)
Module reversed.
#[local] Instance keys : SlashingKeys := {|
  PrivKey := Z; PubKey := Z; PubKey_eq_dec := _; pub_of k := k;
  MarshalHex k := if k =? 1 then "01" else "02";
  NewBIP340PubKeyFromHex _ := Ok 5;
  CovenantSig := unit;
|}.
#[local] Instance slashing : SlashingLib := {|
  ExtractBTCSK pk _ := Ok pk; BTCSlashingTx := Z; NewBTCSlashingTxFromHex _ := Ok 70;
  MustGetTxHash t := t; NewBTCTxFromBytes _ := Ok staking_tx; BTCPK := Z;
  NewBTCPKsFromBIP340PKs l := Ok l; MustToBTCPK k := k; StakingInfo := unit; SpendInfo := unit;
  BuildStakingInfo _ _ _ _ _ _ := Ok tt; BuildUnbondingInfo _ _ _ _ _ _ := Ok tt;
  SlashingPathSpendInfo _ := Ok tt; AdaptorSig := unit; GetOrderedCovenantSignatures _ _ _ := Ok [];
  BIP340Signature := list Z; NewBIP340SignatureFromHex _ := Ok [];
  slashTx_BuildSlashingTxWithWitness t _ _ _ _ _ _ _ _ := Ok (mkMsgTx 2 [] [] t);
  EqualFold a b := bool_decide (a = b);
|}.
#[local] Instance atomic : AtomicLib := {|
  SortBIP340PKs l := reverse l; NewBIP340Signature b := Ok b; ToBTCSig _ := Ok [];
  CovPk _ := 1; AdaptorSigs _ := [[1]]; NewAdaptorSignatureFromBytes _ := Ok tt;
  Extract _ _ := Ok 5; slashTx_ToMsgTx t := Ok (mkMsgTx 2 [] [] t); sk_Serialize k := [k];
|}.
Definition witness : list (list Z) := [[22]; [11]; [7]].

Lemma parsed :
  parseSlashingTxWitness witness [1; 2] [5] = Val (<["02" := [11]]> {["01" := [22]]}, 0, Some 5).
Proof. vm_compute. reflexivity. Qed.
Lemma hexes : NoDup (MarshalHex <$> [1; 2]).
Proof. apply (bool_decide_unpack _). vm_compute. reflexivity. Qed.

Lemma unsorted_signature_misattributed_witness :
  ∃ sig, NewBIP340Signature [22] = Ok sig ∧
    (<["02" := [11]]> {["01" := [22]]} : gmap string (list Z)) !! "01" = Some sig.
Proof.
  exact (unsorted_signature_misattributed witness [1; 2] [5] _ _ _ 0 2 1 [22] parsed hexes
    eq_refl eq_refl ltac:(done) eq_refl ltac:(done)).
Defined.
End reversed.

(** A shutdown can panic the block tracker.  After [Stop] closed both
    channels, the routine that finds a slashing transaction selects between the
    shutdown and a send on the closed channel; when the send is taken it
    panics. *)
Theorem stop_can_panic_tracker
    {BL : BTCLib} {SL : StakingLib} {SK : SlashingKeys} {SLB : SlashingLib} {W : Type}
    (choose : AtomicSlasher * W → bool) s s' tx d path :
  as_Stop id s = (Val tt, s') → choose s' = false →
  FindSlashedBTCDelegation (TxHash tx) (btcDelIndex s.1) = (Val (Some d, path), btcDelIndex s.1) →
  filter_tx id choose tx s' = (Panic "send on closed channel", s').
Proof.
  intros Hstop Hc Hf. destruct s as [x w]. unfold as_Stop in Hstop.
  assert (s' = (as_set_stop true true x, w)) as -> by (by cbv in Hstop; simplify_eq).
  unfold filter_tx. rewrite bind_unfold. unfold as_index, as_atomic, as_self, zoom.
  cbn -[FindSlashedBTCDelegation] in *. rewrite Hf. rewrite bind_unfold.
  unfold send_slashing_tx, as_atomic. cbn. unfold as_set_index, as_set_stop. cbn.
  unfold as_set_stop in Hc. rewrite Hc. done.
Qed.

Lemma tracked_found :
  FindSlashedBTCDelegation (TxHash slashing_tx_70) (btcDelIndex atomic_tracking.1) =
  (Val (Some (mkTrackedBTC 51 70 71), 0), btcDelIndex atomic_tracking.1).
Proof. vm_compute. reflexivity. Qed.
Definition atomic_stopped : AtomicSlasher * Z := snd (as_Stop id atomic_tracking).
Lemma atomic_stop_run : as_Stop id atomic_tracking = (Val tt, atomic_stopped).
Proof. vm_compute. reflexivity. Qed.
Lemma atomic_never : as_never atomic_stopped = false.
Proof. reflexivity. Qed.

Lemma stop_can_panic_tracker_witness :
  filter_tx id as_never slashing_tx_70 atomic_stopped = (Panic "send on closed channel", atomic_stopped).
Proof.
  exact (stop_can_panic_tracker as_never atomic_tracking atomic_stopped slashing_tx_70 _ _
    atomic_stop_run atomic_never tracked_found).
Defined.
