(* ===== verification/StakingTracker.v ===== *)
(** * The BTC staking tracker ([btcstaking-tracker/tracker.go])

    [BTCStakingTracker] runs the staking event watcher, the BTC slasher and the
    atomic slasher; the last two share [slashedFPSKChan].  [tracker_step] is the
    slashing half of the running tracker: a run of one of the atomic slasher's
    routines, in which the other goroutines interfere before every operation, the
    slashing enforcer taking a key off the channel, a tick of the evidence loop, a
    slashing goroutine, a step of an attempt it left running, the enforcer taking a
    result, and the shutdown.  A handler of the BTC slasher is one step.
    [Start] and [Stop] are modelled over the services' interface. *)

From S2P Require Import Prelude Blocks Retry BTCClient StakingTypes Stores Slasher SlasherProps.
From S2P Require Import Interference AtomicSlasher AtomicSlasherProps.

(** ** [Start] and [Stop] *)

(** A service of the tracker. *)
Record Service (S : Type) := mkService { svc_Start : M S unit; svc_Stop : M S unit }.
Arguments mkService {S} _ _.
Arguments svc_Start {S} _.
Arguments svc_Stop {S} _.

Section lifecycle.
Context {S : Type} (stakingEventWatcher btcSlasher atomicSlasher : Service S) (bbnClient_Stop : M S unit).

(** [sync.Once], [slashedFPSKChan] and [quit] *)
Record Lifecycle := mkLifecycle { startOnce : bool; stopOnce : bool; keysClosed : bool; quitClosed : bool }.
Notation LM A := (M (Lifecycle * S) A).
Definition on_services {A} (m : M S A) : LM A := zoom snd (λ s l, (fst l, s)) m.

(** A second call does nothing and returns [nil], also after a failed first. *)
Definition tracker_Start : LM unit :=
  once ← gets (λ l, startOnce (fst l));
  if (once : bool) then mret tt
  else
    modify (λ l, (mkLifecycle true (stopOnce (fst l)) (keysClosed (fst l)) (quitClosed (fst l)), snd l)) ;;
    on_services (svc_Start stakingEventWatcher) ;;
    on_services (svc_Start btcSlasher) ;;
    on_services (svc_Start atomicSlasher).

Definition tracker_Stop : LM unit :=
  once ← gets (λ l, stopOnce (fst l));
  if (once : bool) then mret tt
  else
    modify (λ l, (mkLifecycle (startOnce (fst l)) true (keysClosed (fst l)) (quitClosed (fst l)), snd l)) ;;
    on_services (svc_Stop stakingEventWatcher) ;;
    on_services (svc_Stop btcSlasher) ;;
    on_services (svc_Stop atomicSlasher) ;;
    on_services bbnClient_Stop ;;
    modify (λ l, (mkLifecycle (startOnce (fst l)) (stopOnce (fst l)) true true, snd l)).
End lifecycle.

(** ** What a step of the BTC slasher may add to its slashings *)
Section slashings.
Context {BL : BTCLib} {SL : StakingLib} {RT : Retry} {SK : SlashingKeys} {SLB : SlashingLib}
  {W D : Type} {BTC : StakingBTCClient W} {BQ : SlasherQuery W} {KV : KVDB D}.
Notation St := (BTCSlasher * D * W)%type.
Implicit Types (cs : list sl_call).

(** The key was extracted from an evidence Babylon listed. *)
Definition equivocated cs (sk : PrivKey) : Prop :=
  ∃ e pk, e ∈ evidences_in cs ∧ NewBIP340PubKeyFromHex (FpBtcPkHex e) = Ok pk ∧
    ExtractBTCSK pk e = Ok sk.
(** Babylon listed the delegation under the key's finality provider. *)
Definition delegated cs (sk : PrivKey) (del : DelegationResponse) : Prop :=
  ∃ ds next, SDelegations (MarshalHex (pub_of sk)) ds next ∈ cs ∧ del ∈ ds.

Context (selective : PrivKey → Prop).
Definition slash_ok cs (p : PrivKey * DelegationResponse) : Prop :=
  (equivocated cs (fst p) ∨ selective (fst p)) ∧ delegated cs (fst p) (snd p).

Definition sl_step (s s' : St) : Prop :=
  (∃ cs, sl_calls s'.1.1 = sl_calls s.1.1 ++ cs) ∧
  ∀ p, p ∈ slashings s'.1.1 → p ∈ slashings s.1.1 ∨ slash_ok (sl_calls s'.1.1) p.
Notation wps := (wp sl_step).
Notation reach := (rtc sl_step).

Lemma slash_ok_mono cs cs' p : slash_ok cs p → slash_ok (cs ++ cs') p.
Proof.
  intros [H1 (ds & next & H2 & H3)]. split; [|exists ds, next; set_solver].
  destruct H1 as [(e & pk & He & ?)|]; [|by right]. left. exists e, pk. split; [|done].
  rewrite evidences_in_app. set_solver.
Qed.

Lemma sl_step_trans s1 s2 s3 : sl_step s1 s2 → sl_step s2 s3 → sl_step s1 s3.
Proof.
  intros [[c1 C1] H1] [[c2 C2] H2]. split; [exists (c1 ++ c2); by rewrite C2, C1, app_assoc|].
  intros p [Hp|?]%H2; [|by right]. apply H1 in Hp as [?|?]; [by left|right].
  rewrite C2. by apply slash_ok_mono.
Qed.
Lemma sl_step_same s s' :
  slashings s'.1.1 = slashings s.1.1 → (∃ cs, sl_calls s'.1.1 = sl_calls s.1.1 ++ cs) → sl_step s s'.
Proof. intros Hs Hc. split; [done|]. rewrite Hs. auto. Qed.
Lemma sl_step_refl s : sl_step s s.
Proof. apply sl_step_same; [done|]. exists []. by rewrite app_nil_r. Qed.
Lemma reach_step s s' : reach s s' → sl_step s s'.
Proof. induction 1 as [|s s1 s' H _ IH]; [apply sl_step_refl|by eapply sl_step_trans]. Qed.
Lemma reach_sl_calls s s' : reach s s' → ∃ cs, sl_calls s'.1.1 = sl_calls s.1.1 ++ cs.
Proof. intros H. by apply reach_step in H as [? _]. Qed.
Lemma reach_evidence s s' e : reach s s' → e ∈ evidences_in (sl_calls s.1.1) → e ∈ evidences_in (sl_calls s'.1.1).
Proof. intros [cs ->]%reach_sl_calls. rewrite evidences_in_app. set_solver. Qed.
Lemma reach_elem s s' c : reach s s' → c ∈ sl_calls s.1.1 → c ∈ sl_calls s'.1.1.
Proof. intros [cs ->]%reach_sl_calls. set_solver. Qed.

Lemma wp_sl_modify s (f : BTCSlasher → BTCSlasher) (Q : unit → St → Prop) :
  sl_step s (f s.1.1, s.1.2, s.2) → Q tt (f s.1.1, s.1.2, s.2) → wps s (sl_self (modify f)) Q.
Proof. intros Hs HQ. split; [by apply rtc_once|done]. Qed.
Lemma wp_sl_world {A} s (m : M W A) (Q : A → St → Prop) :
  (∀ a s', reach s s' → Q a s') → wps s (sl_world m) Q.
Proof.
  intros HQ. unfold wp, sl_world, zoom. destruct s as [x w]. cbn in *.
  assert (∀ w', reach (x, w) (x, w')) as Hw.
  { intros w'. apply rtc_once, sl_step_same; [done|]. exists []. by rewrite app_nil_r. }
  destruct (m w) as [[a|e|p|] w']; cbn; auto.
Qed.
Lemma wp_sl_store {A} s (m : M D A) (Q : A → St → Prop) :
  (∀ a s', reach s s' → Q a s') → wps s (sl_store m) Q.
Proof.
  intros HQ. unfold wp, sl_store, zoom. destruct s as [[b d] w]. cbn in *.
  assert (∀ d', reach (b, d, w) (b, d', w)) as Hw.
  { intros d'. apply rtc_once, sl_step_same; [done|]. exists []. by rewrite app_nil_r. }
  destruct (m d) as [[a|e|p|] d']; cbn; auto.
Qed.
Lemma wp_sl_note s c (Q : unit → St → Prop) :
  (∀ s', reach s s' → c ∈ sl_calls s'.1.1 → Q tt s') → wps s (sl_note c) Q.
Proof.
  intros HQ. assert (sl_step s (sl_add_call c s.1.1, s.1.2, s.2)) as H by (apply sl_step_same; [done|by eexists]).
  apply wp_sl_modify; [done|]. apply HQ; [by apply rtc_once|cbn; set_solver].
Qed.
(** An update of the fields the properties do not speak of. *)
Lemma wp_sl_update s (f : BTCSlasher → BTCSlasher) (Q : unit → St → Prop) :
  (∀ b, slashings (f b) = slashings b ∧ sl_calls (f b) = sl_calls b) →
  (∀ s', reach s s' → Q tt s') → wps s (sl_self (modify f)) Q.
Proof.
  intros Hf HQ. destruct (Hf s.1.1) as [H1 H2].
  assert (sl_step s (f s.1.1, s.1.2, s.2)) as H.
  { apply sl_step_same; [done|]. exists []. cbn. by rewrite H2, app_nil_r. }
  apply wp_sl_modify; [done|]. by apply HQ, rtc_once.
Qed.
Lemma wp_sl_gets {A} s (f : BTCSlasher → A) (Q : A → St → Prop) :
  Q (f s.1.1) s → wps s (sl_self (gets f)) Q.
Proof. destruct s as [[b d] w]. intros HQ. split; [apply rtc_refl|done]. Qed.

Lemma wp_for_fold {A B} (I : B → St → Prop) s (xs : list A) acc (body : B → A → M St B) :
  (∀ acc x s', x ∈ xs → reach s s' → I acc s' → wps s' (body acc x) I) → I acc s →
  wps s (for_fold xs acc body) I.
Proof.
  revert s acc. induction xs as [|x xs IH]; intros s acc Hb Hs; [by apply wp_ret|].
  apply wp_bind. eapply wp_mono; [apply Hb; [left|apply rtc_refl|done]|].
  intros acc' s1 Hr Hi _. apply IH; [|done]. intros b y s' Hy Hr'. apply Hb; [by right|by etrans].
Qed.

(** ** The handlers *)

(** The collected delegations were listed under [hex]. *)
Definition acc_ok (hex : string) (acc : list DelegationResponse * list DelegationResponse) (s : St) : Prop :=
  ∀ d, d ∈ fst acc ++ snd acc → ∃ ds next, SDelegations hex ds next ∈ sl_calls s.1.1 ∧ d ∈ ds.

Lemma acc_ok_reach hex acc s s' : reach s s' → acc_ok hex acc s → acc_ok hex acc s'.
Proof. intros Hr H d Hd. destruct (H d Hd) as (ds & n & H1 & H2). eauto using reach_elem. Qed.

Lemma acc_ok_add hex (acc acc' : list DelegationResponse * list DelegationResponse) ds next del s :
  SDelegations hex ds next ∈ sl_calls s.1.1 → del ∈ ds →
  fst acc' ++ snd acc' ⊆ del :: fst acc ++ snd acc → acc_ok hex acc s → acc_ok hex acc' s.
Proof. intros Hc Hd Hs H d [->|?]%Hs%elem_of_cons; [by exists ds, next|by apply H]. Qed.

Lemma wp_classify hex ds next acc del s :
  SDelegations hex ds next ∈ sl_calls s.1.1 → del ∈ ds → acc_ok hex acc s →
  wps s (classify acc del) (acc_ok hex).
Proof.
  intros Hc Hd Ha. destruct acc as [act unb]. unfold classify.
  apply wp_bind, wp_try; [|by intros; apply wp_fail]. apply wp_sl_world. intros p s1 Hr _.
  assert (∀ acc', fst acc' ++ snd acc' ⊆ del :: act ++ unb → acc_ok hex acc' s1) as Hall.
  { intros acc' Hs. eapply (acc_ok_add hex (act, unb)); [by eapply reach_elem|done|done|by eapply acc_ok_reach]. }
  destruct (EqualFold _ _), (dr_Undelegation del); repeat case_match; try apply wp_panic;
    apply wp_ret, Hall; cbn; set_solver.
Qed.

Lemma wp_delegations_loop fuel hex key acc s :
  acc_ok hex acc s → wps s (delegations_loop fuel hex key acc) (acc_ok hex).
Proof.
  revert key acc s. induction fuel as [|fuel IH]; intros key acc s Ha; [apply wp_diverge|].
  cbn [delegations_loop]. apply wp_bind, wp_wrap_err, wp_sl_world. intros [dss next] s1 H1 _.
  apply wp_bind, wp_sl_note. intros s2 H2 Hc _. cbn [fst snd] in *.
  assert (acc_ok hex acc s2) as Ha2 by (eapply acc_ok_reach; [etrans; [exact H1|exact H2]|done]).
  apply wp_bind. eapply wp_mono; [apply (wp_for_fold (acc_ok hex))|].
  - intros acc' ds s3 Hds H3 Ha3. apply wp_for_fold; [|done]. intros acc4 del s4 Hdel H4 Ha4.
    eapply wp_classify; [|by apply list_elem_of_join; exists ds|done].
    eapply reach_elem; [etrans; [exact H3|exact H4]|exact Hc].
  - done.
  - intros acc' s3 _ Ha3 _. destruct next; [by apply IH|by apply wp_ret].
Qed.

Lemma wp_SlashFinalityProvider fuel sk s :
  equivocated (sl_calls s.1.1) sk ∨ selective sk →
  wps s (SlashFinalityProvider fuel sk) (λ _ _, True).
Proof.
  intros Hk. unfold SlashFinalityProvider. apply wp_bind, wp_wrap_err.
  eapply wp_mono; [apply wp_delegations_loop; intros d Hd; set_solver|].
  intros [act unb] s1 Hr Ha _. cbn [fst snd].
  assert (equivocated (sl_calls s1.1.1) sk ∨ selective sk) as Hk1.
  { destruct Hk as [(e & pk & He & ?)|]; [left; exists e, pk; eauto using reach_evidence|by right]. }
  apply wp_bind, wp_sl_modify.
  - split; [exists []; by rewrite app_nil_r|]. cbn. intros p [?|Hp]%elem_of_app; [by left|right].
    apply list_elem_of_fmap in Hp as (d & -> & Hd). split; [done|]. destruct (Ha d Hd) as (ds & n & ? & ?).
    by exists ds, n.
  - intros _. by apply wp_sl_update.
Qed.

Lemma wp_process_evidence fuel vars e s :
  e ∈ evidences_in (sl_calls s.1.1) → wps s (process_evidence fuel vars e) (λ _ _, True).
Proof.
  intros He. unfold process_evidence. destruct vars as [l errs].
  destruct (NewBIP340PubKeyFromHex _) as [pk|] eqn:Epk; [|by apply wp_ret].
  destruct (ExtractBTCSK pk e) as [sk|] eqn:Esk; [|by apply wp_ret].
  apply wp_bind, wp_try; [|by intros; apply wp_ret].
  eapply wp_mono; [apply wp_SlashFinalityProvider; left; by exists e, pk|]. intros. by apply wp_ret.
Qed.

Lemma wp_handleAll fuel fuel' start key vars s :
  wps s (handleAllEvidences fuel start key (handle_page fuel') vars) (λ _ _, True).
Proof.
  revert key vars s. induction fuel as [|fuel IH]; intros key vars s; [apply wp_diverge|].
  cbn [handleAllEvidences]. apply wp_bind, wp_wrap_err, wp_sl_world. intros [es next] s1 _ _.
  apply wp_bind, wp_sl_note. intros s2 _ Hc _. cbn [fst snd] in *. apply wp_bind.
  eapply wp_mono; [apply (wp_for_fold (λ _ _, True))|]; [|done|].
  - intros acc e s3 He H3 _. apply wp_process_evidence. eapply reach_evidence; [exact H3|].
    apply list_elem_of_join. exists es. split; [done|]. apply list_elem_of_fmap. by exists (SEvidences start es next).
  - intros vars' s3 _ _ _. destruct next; [apply IH|by apply wp_ret].
Qed.

Lemma wp_processEvidences fuel start s :
  wps s (processEvidencesFromHeight fuel start) (λ _ _, True).
Proof.
  unfold processEvidencesFromHeight. apply wp_bind, wp_wrap_err. eapply wp_mono; [apply wp_handleAll|].
  intros [l [e|]] s1 _ _ _; [apply wp_fail|by apply wp_ret].
Qed.

Lemma wp_fetchEvidences_tick fuel s : wps s (fetchEvidences_tick fuel) (λ _ _, True).
Proof.
  unfold fetchEvidences_tick. apply wp_bind, wp_sl_gets. intros _.
  apply wp_bind, wp_try; [|by intros; apply wp_ret]. eapply wp_mono; [apply wp_processEvidences|].
  intros last s1 _ _ _. destruct (0 <? last); [|by apply wp_ret].
  apply wp_bind, wp_sl_update; [done|]. intros s2 _ _.
  apply wp_bind, wp_try; [apply wp_sl_store|]; intros; by apply wp_ret.
Qed.

Lemma wp_tracker_Bootstrap fuel h s : wps s (tracker_Bootstrap fuel h) (λ _ _, True).
Proof.
  unfold tracker_Bootstrap, LastEvidencesHeight. apply wp_bind, wp_wrap_err, wp_sl_store. intros last s1 _ _.
  apply wp_wrap_err. unfold Bootstrap. apply wp_bind.
  assert (∀ h' s2, wps s2 (LoadParams ;; (last ← wrap_err "failed to bootstrap BTC slasher"
    (processEvidencesFromHeight fuel h'); if 0 <? last then
      sl_self (modify (set_height (u64 (last + 1)))) ;;
      wrap_err "failed to store last processed height" (sl_store (SlasherStore.PutHeight last))
    else mret tt)) (λ _ _, True)) as Hrest.
  { intros h' s2. unfold LoadParams. apply wp_bind, wp_bind, wp_sl_gets. intros _.
    assert (∀ s3, wps s3 (last ← wrap_err "failed to bootstrap BTC slasher"
      (processEvidencesFromHeight fuel h'); if 0 <? last then
        sl_self (modify (set_height (u64 (last + 1)))) ;;
        wrap_err "failed to store last processed height" (sl_store (SlasherStore.PutHeight last))
      else mret tt) (λ _ _, True)) as Hend.
    { intros s3. apply wp_bind, wp_wrap_err. eapply wp_mono; [apply wp_processEvidences|].
      intros l s4 _ _ _. destruct (0 <? l); [|by apply wp_ret].
      apply wp_bind, wp_sl_update; [done|]. intros s5 _ _. by apply wp_wrap_err, wp_sl_store. }
    destruct (negb _); [apply wp_ret; auto|]. apply wp_bind, wp_sl_world. intros t s3 _ _.
    apply wp_sl_update; [done|]. auto. }
  destruct (0 <? _); [apply wp_sl_update; [done|]; auto|apply wp_ret; auto].
Qed.

(** A slashing goroutine adds nothing. *)
Lemma wp_k_deep h script k s : wps s (k_deep h script k) (λ _ _, True).
Proof.
  unfold k_deep. apply wp_bind, wp_wrap_err, wp_sl_world. intros [details []] s1 _ _; try apply wp_fail.
  apply wp_bind, wp_wrap_err, wp_sl_world. intros tip s2 _ _. destruct details; [|apply wp_panic].
  destruct (_ <=? _); [by apply wp_ret|apply wp_fail].
Qed.

Lemma wp_attempt_step sk del unbonding pc s :
  wps s (attempt_step sk del unbonding pc) (λ _ _, True).
Proof.
  destruct pc as [| | |bsParams|tx h|tx h depth|r|]; cbn [attempt_step]; [..|by apply wp_ret|by apply wp_ret].
  - apply wp_bind, wp_of_outcome. intros slashTx _ _. apply wp_bind.
    unfold isTxSubmittedToBitcoin. apply wp_bind, wp_try.
    + apply wp_sl_world. intros t s1 _ _. apply wp_ret. intros _. by apply wp_ret.
    + intros e s1 _ _. apply wp_bind, wp_sl_note. intros s2 _ _ _. apply wp_ret. intros _. by apply wp_ret.
  - apply wp_bind, wp_of_outcome. intros [bytes idx] _ _. apply wp_bind, wp_wrap_err.
    unfold isTaprootOutputSpendable. apply wp_bind, wp_wrap_err, wp_of_result. intros msgTx _ _.
    apply wp_bind, wp_wrap_err, wp_sl_world. intros unspent s2 _ _.
    apply wp_bind, wp_sl_note. intros s3 _ _ _. apply wp_ret. intros _.
    destruct (negb unspent); [apply wp_fail|by apply wp_ret].
  - apply wp_bind, wp_try; [|by intros; apply wp_fail]. apply wp_sl_world. intros. by apply wp_ret.
  - apply wp_bind, wp_wrap_err, wp_of_outcome. intros tx _ _.
    apply wp_bind, wp_sl_note. intros s1 _ _ _. apply wp_bind, wp_wrap_err, wp_sl_world. intros. by apply wp_ret.
  - apply wp_bind, wp_try; [|by intros; apply wp_fail]. apply wp_sl_world. intros. by apply wp_ret.
  - apply wp_bind, wp_of_outcome. intros out _ _. apply wp_bind.
    eapply wp_mono; [apply (wp_retry _ _ _ _ (λ _ _, True)); [done|done|intros; apply wp_k_deep]|].
    intros. by apply wp_ret.
Qed.

Lemma wp_attempt_run sk del unbonding pc s : wps s (attempt_run sk del unbonding pc) (λ _ _, True).
Proof.
  destruct (wp_attempt_step sk del unbonding pc s) as [H _]. unfold wp, attempt_run.
  by destruct (attempt_step sk del unbonding pc s) as [[]].
Qed.

Lemma wp_stray_step i s : wps s (stray_step i) (λ _ _, True).
Proof.
  unfold stray_step. apply wp_bind, wp_sl_gets. intros _.
  destruct (strays s.1.1 !! i); [|by apply wp_ret]. apply wp_bind.
  eapply wp_mono; [apply wp_attempt_run|]. intros pc s1 _ _ _. by apply wp_sl_update.
Qed.

Lemma wp_run_round sk del evs rd s : wps s (run_round sk del evs rd) (λ _ _, True).
Proof.
  revert rd s. induction evs as [|[unb|i| | |] evs IH]; intros rd s; cbn [run_round]; [by apply wp_ret|..].
  - destruct (running _); [|apply IH]. apply wp_bind. eapply wp_mono; [apply wp_attempt_run|]. intros. apply IH.
  - apply wp_bind. eapply wp_mono; [apply wp_stray_step|]. intros. apply IH.
  - destruct (rd_hash rd); [by apply wp_ret|apply IH].
  - destruct (rd_errs rd), (rd_err1 rd); first [by apply wp_ret | apply IH].
  - destruct (rd_err1 rd); [apply IH|by apply wp_ret].
Qed.

Lemma slash_attempt_reach sk del s q : reach s (fst q) → reach s (fst (snd (slash_attempt sk del q))).
Proof.
  destruct q as [s1 [h scheds]]. cbn [fst]. intros Hr. unfold slash_attempt.
  destruct (wp_run_round sk del (default [] (head scheds)) new_round s1) as [H _].
  destruct (run_round sk del _ new_round s1) as [o s2]. cbn [snd] in H.
  assert (reach s s2) as H2 by by etrans.
  destruct o as [[e rd]|e|p|]; [|done..].
  assert (reach s (set_strays (strays s2.1.1 ++ left_running sk del rd) s2.1.1, s2.1.2, s2.2)) as H3.
  { eapply rtc_r; [exact H2|]. apply sl_step_same; [done|]. exists []. by rewrite app_nil_r. }
  destruct e as [[]|]; exact H3.
Qed.

Lemma slashBTCDelegation_reach scheds sk del s : reach s (snd (slashBTCDelegation scheds sk del s)).
Proof.
  unfold slashBTCDelegation.
  pose proof (retry_Do_spec (mkRetryOpts 0 (λ _, true) false true) (slash_attempt sk del) (s, (None, scheds))
    ltac:(done) ltac:(done)) as Hr.
  apply (retried_inv (λ q, reach s (fst q))) in Hr; [|intros; by apply slash_attempt_reach|apply rtc_refl].
  assert (∀ res s1, reach s s1 → reach s (snd (push_result res s1))) as Hpush.
  { intros res s1 H1. etrans; [exact H1|].
    assert (wps s1 (push_result res) (λ _ _, True)) as [H _]; [by apply wp_sl_update|done]. }
  destruct (retry_Do _ _ _) as [[[]|e|p|] [s1 [h sc]]]; cbn [fst snd] in *; auto.
Qed.

Lemma wp_enforce_result s : wps s enforce_result (λ _ _, True).
Proof.
  unfold enforce_result. apply wp_bind, wp_sl_gets. intros _.
  destruct (slashResultChan s.1.1) as [|res rest]; [by apply wp_ret|].
  apply wp_bind, wp_sl_update; [done|]. intros s1 _ _. apply wp_bind, wp_of_outcome. intros pk _ _.
  destruct (sr_Err res); [by apply wp_ret|]. unfold RecordSlashedDelegation. apply wp_bind.
  eapply wp_mono; [apply (wp_for_each _ (λ _, True))|]; [|done|].
  - intros x s2 _ _ _. by apply wp_sl_update.
  - intros _ s2 _ _ _. apply wp_bind, wp_sl_update; [done|]. intros s3 _ _. by apply wp_sl_update.
Qed.
End slashings.

(** ** The running tracker *)
Section tracker.
Context {BL : BTCLib} {SL : StakingLib} {RT : Retry} {SK : SlashingKeys} {SLB : SlashingLib}
  {AL : AtomicLib} {W D : Type} {BTC : StakingBTCClient W} {BQ : SlasherQuery W} {KV : KVDB D}
  {BTCB : BTCClient W} {AB : AtomicBabylon W} {AE : AtomicEvents W}.
Notation TS := (AtomicSlasher * (BTCSlasher * D * W))%type.

Definition with_atomic (s : BTCSlasher * D * W) (aw : AtomicSlasher * W) : TS :=
  (fst aw, (fst s, snd aw)).

(** The routine [r] runs with the interference [others]; Bitcoin and Babylon change
    on their own ([ts_world]). *)
Inductive tracker_step : TS → TS → Prop :=
| ts_atomic others choose attempts batch fuel r a s :
    (∀ s, rtc as_step s (others s)) →
    tracker_step (a, s)
      (with_atomic s (snd (run_routine others choose attempts batch fuel r (a, snd s))))
| ts_stop a s : tracker_step (a, s) (with_atomic s (snd (as_Stop (λ s, s) (a, snd s))))
| ts_world w' a s : tracker_step (a, s) (a, (fst s, w'))
| ts_enforce fuel sk rest a s : slashedFPSKChan a = sk :: rest →
    tracker_step (a, s) (as_set_keys rest a, snd (enforce_key fuel sk s))
| ts_evidences fuel a s : tracker_step (a, s) (a, snd (fetchEvidences_tick fuel s))
| ts_slash scheds sk del a s : (sk, del) ∈ slashings s.1.1 →
    tracker_step (a, s) (a, snd (slashBTCDelegation scheds sk del s))
| ts_stray i a s : tracker_step (a, s) (a, snd (stray_step i s))
| ts_result a s : tracker_step (a, s) (a, snd (enforce_result s)).

(** A tracker that was bootstrapped and started, and then ran. *)
Definition tracker_ran (fuel : nat) (h : Z) (d : D) (w : W) (t : TS) : Prop :=
  rtc tracker_step
    (NewAtomicSlasher, snd (tracker_Bootstrap fuel h (mkSlasher 0 0 [] [] [] [] [], d, w))) t.

Definition reported_key (a : AtomicSlasher) (sk : PrivKey) : Prop := ASelective sk ∈ as_calls a.

Definition slashings_ok (t : TS) : Prop :=
  (∀ w : W, atomic_ok (t.1, w)) ∧
  ∀ p, p ∈ slashings t.2.1.1 → slash_ok (reported_key t.1) (sl_calls t.2.1.1) p.

Lemma sl_reach_ok (a : AtomicSlasher) s s' :
  rtc (sl_step (reported_key a)) s s' → slashings_ok (a, s) → slashings_ok (a, s').
Proof.
  intros [[cs Hc] Hn]%reach_step [Ha Hs]. split; [done|]. intros p [Hp|?]%Hn; [|done]. cbn in *.
  rewrite Hc. apply slash_ok_mono. by apply Hs.
Qed.

(** What the atomic slasher's routines do keeps the slashings justified. *)
Lemma as_reach_slashings_ok a s a' w' w :
  rtc as_step (a, w) (a', w') → slashings_ok (a, s) → slashings_ok (a', (fst s, w')).
Proof.
  intros Hr [Ha Hs]. pose proof (as_reach_ok _ _ Hr (Ha w)) as Hok.
  split; [intros w2; by destruct Hok; split|]. cbn in *. intros p Hp.
  destruct (Hs p Hp) as [H1 H2]. split; [|done]. destruct H1 as [?|H1]; [by left|right].
  by apply (as_reach_calls _ _ Hr).
Qed.

Lemma as_Stop_reach (s : AtomicSlasher * W) : rtc as_step s (snd (as_Stop (λ s, s) s)).
Proof.
  destruct s as [a w]. unfold as_Stop. rewrite bind_unfold. cbn.
  eapply rtc_l; [apply as_st_quit|]. apply rtc_once. by apply (as_st_close (as_set_stop true (as_closed a) a)).
Qed.

Lemma tracker_step_ok t t' : tracker_step t t' → slashings_ok t → slashings_ok t'.
Proof.
  destruct 1 as [others choose attempts batch fuel r a s Ho|a s|w' a s|fuel sk rest a s Hk|fuel a s
    |scheds sk del a s _|i a s|a s]; intros Hok.
  - pose proof (run_routine_reach others choose attempts batch Ho fuel r (a, snd s) (proj1 Hok _)) as Hr.
    destruct (snd (run_routine _ _ _ _ _ _ _)) as [a' w']. by eapply as_reach_slashings_ok.
  - pose proof (as_Stop_reach (a, snd s)) as Hr.
    destruct (snd (as_Stop _ _)) as [a' w']. by eapply as_reach_slashings_ok.
  - destruct Hok as [Ha Hs]. by split.
  - assert (slashings_ok (as_set_keys rest a, s)) as Hok'.
    { assert (rtc as_step (a, snd s) (as_set_keys rest a, snd s)) as Hr
        by (apply rtc_once; by eapply as_st_enforce).
      destruct (as_reach_slashings_ok _ _ _ _ _ Hr Hok) as [Ha Hs]. by split. }
    eapply sl_reach_ok; [|exact Hok'].
    assert (wp (sl_step (reported_key (as_set_keys rest a))) s (enforce_key fuel sk) (λ _ _, True)) as [Hr _]; [|done].
    unfold enforce_key. apply wp_bind, wp_try; [|by intros; apply wp_ret].
    eapply wp_mono; [apply wp_SlashFinalityProvider; right|intros; by apply wp_ret].
    destruct Hok as [Ha _]. pose proof (ao_keys _ (Ha (snd s))) as Hkeys. cbn in Hkeys. rewrite Hk in Hkeys.
    by inversion Hkeys.
  - eapply sl_reach_ok; [apply wp_fetchEvidences_tick|done].
  - eapply sl_reach_ok; [apply slashBTCDelegation_reach|done].
  - eapply sl_reach_ok; [apply wp_stray_step|done].
  - eapply sl_reach_ok; [apply wp_enforce_result|done].
Qed.

Lemma tracker_ran_ok fuel h d w t : tracker_ran fuel h d w t → slashings_ok t.
Proof.
  intros Hr. eapply rtc_inv; [exact tracker_step_ok|exact Hr|].
  eapply sl_reach_ok; [apply wp_tracker_Bootstrap|].
  split; [intros w'; apply new_atomic_ok|]. cbn. intros p Hp. by apply not_elem_of_nil in Hp.
Qed.
End tracker.
