(* ===== verification/TrackerTheorems.v ===== *)
(** * Properties of the running staking tracker *)

From S2P Require Import Prelude Blocks Retry BTCClient StakingTypes Stores Slasher SlasherProps.
From S2P Require Import Interference AtomicSlasher AtomicSlasherProps StakingTracker.
From S2P Require Import Instances WatcherInstances SlasherTheorems AtomicSlasherTheorems.

(** C6: only offenders are slashed.  Take any state a bootstrapped tracker reaches
    through any sequence of runs of the atomic slasher's three routines (each with
    any interference of the other goroutines before every operation of the routine),
    evidence ticks, keys the enforcer takes off the channel, slashing goroutines and
    their attempts, results and a shutdown.  A delegation is handed to slashing with a
    key only if Babylon listed the delegation under the finality provider of that key,
    and the key was extracted from an equivocation evidence Babylon listed or was
    reported to Babylon as a selective slashing after what justifies it
    ([selective_ok]: the slashing transaction of a listed delegation was found in a
    Bitcoin block, the key was extracted from its witness, and Babylon answered that
    the provider is not slashed yet). *)
Theorem only_offenders_are_slashed
    {BL : BTCLib} {SL : StakingLib} {RT : Retry} {SK : SlashingKeys} {SLB : SlashingLib}
    {AL : AtomicLib} {W D : Type} {BTC : StakingBTCClient W} {BQ : SlasherQuery W} {KV : KVDB D}
    {BTCB : BTCClient W} {AB : AtomicBabylon W} {AE : AtomicEvents W}
    fuel h (d : D) (w : W) t sk del :
  tracker_ran fuel h d w t → (sk, del) ∈ slashings t.2.1.1 →
  (equivocated (sl_calls t.2.1.1) sk ∨
   ∃ pre post, as_calls t.1 = pre ++ ASelective sk :: post ∧ selective_ok pre sk) ∧
  delegated (sl_calls t.2.1.1) sk del.
Proof.
  intros Hr Hin. apply tracker_ran_ok in Hr as [Ha Hs]. specialize (Ha w). destruct (Hs _ Hin) as [H1 H2].
  split; [|exact H2]. destruct H1 as [H1|H1]; [by left|right].
  apply list_elem_of_split in H1 as (pre & post & E). exists pre, post. split; [done|].
  by apply (ao_selective _ Ha) in E.
Qed.

(** A tracker bootstrapped above all evidences whose atomic slasher listed the
    delegations, found a slashing transaction and reported a key, which the slashing
    enforcer took. *)
Definition tracker_booted : BTCSlasher * mem_db * Z :=
  snd (tracker_Bootstrap 3 40 (mkSlasher 0 0 [] [] [] [] [], slasher_db, 0)).
Definition tracker_enforced : AtomicSlasher * (BTCSlasher * mem_db * Z) :=
  (as_set_keys [] atomic_reported.1, snd (enforce_key 3 5 (tracker_booted.1, atomic_reported.2))).

#[local] Existing Instances small_babylon slashing_node one_of_each.

Lemma reported_channel : slashedFPSKChan atomic_reported.1 = [5].
Proof. vm_compute. reflexivity. Qed.

Lemma atomic_run_step r a (s : BTCSlasher * mem_db * Z) :
  tracker_step (BTC := small_btc) (a, s)
    (with_atomic s (snd (run_routine as_idle as_never 5 10 4 r (a, snd s)))).
Proof. apply ts_atomic. apply as_idle_steps. Qed.

Lemma tracker_enforced_ran : tracker_ran (BTC := small_btc) 3 40 slasher_db 0 tracker_enforced.
Proof.
  unfold tracker_ran. change (snd (tracker_Bootstrap 3 40 _)) with tracker_booted.
  assert (tracker_booted = (tracker_booted.1, 0)) as -> by (vm_compute; reflexivity).
  eapply rtc_l; [apply (atomic_run_step BTCDelegationTracker)|].
  change (snd (run_routine _ _ _ _ _ _ _)) with atomic_tracking.
  eapply rtc_l; [apply (atomic_run_step SlashingTxTracker)|].
  change (snd (run_routine _ _ _ _ _ _ _)) with
    (snd (run_routine as_idle as_never 5 10 4 SlashingTxTracker (atomic_tracking.1, atomic_tracking.2))).
  rewrite <-surjective_pairing. change (snd (run_routine _ _ _ _ _ _ _)) with atomic_seen.
  eapply rtc_l; [apply (atomic_run_step SelectiveSlashingReporter)|].
  change (snd (run_routine _ _ _ _ _ _ _)) with
    (snd (run_routine as_idle as_never 5 10 4 SelectiveSlashingReporter (atomic_seen.1, atomic_seen.2))).
  rewrite <-surjective_pairing. change (snd (run_routine _ _ _ _ _ _ _)) with atomic_reported.
  apply rtc_once. exact (ts_enforce (BTC := small_btc) 3 5 [] atomic_reported.1
    (tracker_booted.1, atomic_reported.2) reported_channel).
Qed.

Lemma tracker_enforced_slashes : (5, small_dels true ACTIVE) ∈ slashings tracker_enforced.2.1.1.
Proof.
  assert (slashings tracker_enforced.2.1.1 =
    [(5, small_dels true ACTIVE); (5, small_dels false UNBONDED)]) as -> by (vm_compute; reflexivity).
  left.
Qed.

Lemma only_offenders_are_slashed_witness :
  (equivocated (sl_calls tracker_enforced.2.1.1) 5 ∨
   ∃ pre post, as_calls tracker_enforced.1 = pre ++ ASelective 5 :: post ∧ selective_ok pre 5) ∧
  delegated (sl_calls tracker_enforced.2.1.1) 5 (small_dels true ACTIVE).
Proof.
  exact (only_offenders_are_slashed (BTC := small_btc) 3 40 slasher_db 0 tracker_enforced 5
    (small_dels true ACTIVE) tracker_enforced_ran tracker_enforced_slashes).
Defined.
