(* ===== verification/ConfigAll.v ===== *)
(** * The whole configuration ([config/])

    [common.go], [metrics.go], [reporter.go], [monitor.go],
    [btcstaking_tracker.go], [dbconfig.go], [log.go] and [config.go], with
    [netparams/bitcoin.go]; the Bitcoin and submitter parts are in [Config.v].
    Durations are nanoseconds.  Babylon's configuration, the parsing of files and
    of addresses are code of other packages; [SaveToYAML] is in ConfigDump.v. *)

From S2P Require Import Prelude GoFloat Config.

Definition Second : Z := 1000000000.
Definition Minute : Z := 60 * Second.

Class ConfigLib := {
  BabylonConfig : Type;
  BabylonConfig_Validate : BabylonConfig → result unit;
  (** [bbncfg.DefaultBabylonConfig()] with the block timeout given *)
  DefaultBabylonConfig : Z → BabylonConfig;
  ParseIP : string → bool;               (** [net.ParseIP] is not [nil] *)
  defaultAppDataDir : string;
  filepath_Join : string → string → string;
  DefaultBoltAutoCompactMinAge : Z;
  DefaultDBTimeout : Z;
}.

(** ** [dbconfig.go] *)

(** [kvdb.BoltBackendConfig] has the fields of [DBConfig]; the receivers are
    pointers, which the caller may have left [nil]. *)
Definition ToBoltBackendConfig (cfg : option DBConfig) : outcome DBConfig :=
  obind (oderef cfg) (λ cfg,
  Val (mkDBConfig (DBPath cfg) (DBFileName cfg) (NoFreelistSync cfg) (AutoCompact cfg)
         (AutoCompactMinAge cfg) (DBTimeout cfg))).
Definition GetDBBackend {W Backend} (GetBoltBackend : DBConfig → M W Backend) (cfg : option DBConfig)
  : M W Backend :=
  bolt ← of_outcome (ToBoltBackendConfig cfg);
  GetBoltBackend bolt.

(** ** [common.go] *)
Record CommonConfig := mkCommonConfig {
  LogFormat : string;
  LogLevel : string;
  RetrySleepTime : Z;
  MaxRetrySleepTime : Z;
  MaxRetryTimes : Z;
}.
Fixpoint isOneOf (v : string) (list : list string) : bool :=
  match list with
  | [] => false
  | item :: list => if bool_decide (v = item) then true else isOneOf v list
  end.
Definition CommonConfig_Validate (cfg : CommonConfig) : result unit :=
  if negb (isOneOf (LogFormat cfg) ["json"; "auto"; "console"; "logfmt"]) then
    Err (ENew "log-format is not one of json|auto|console|logfmt")
  else if negb (isOneOf (LogLevel cfg) ["debug"; "warn"; "error"; "panic"; "fatal"]) then
    Err (ENew "log-level is not one of debug|warn|error|panic|fatal")
  else if RetrySleepTime cfg <=? 0 then Err (ENew "retry-sleep-time can't be negative")
  else if MaxRetrySleepTime cfg <=? 0 then Err (ENew "max-retry-sleep-time can't be negative")
  else Ok tt.
Definition DefaultCommonConfig : CommonConfig :=
  mkCommonConfig "auto" "debug" (5 * Second) (5 * Minute) 25.

(** [log.go]: the encoder and the level of the logger. *)
Inductive encoder := JSONEncoder | ConsoleEncoder | LogfmtEncoder.
Inductive level := DebugLevel | InfoLevel | WarnLevel | ErrorLevel | PanicLevel | FatalLevel.
Definition NewRootLogger (format logLevel : string) : result (encoder * level) :=
  let lvl :=
    if bool_decide (logLevel = "debug") then DebugLevel
    else if bool_decide (logLevel = "warn") then WarnLevel
    else if bool_decide (logLevel = "error") then ErrorLevel
    else if bool_decide (logLevel = "panic") then PanicLevel
    else if bool_decide (logLevel = "fatal") then FatalLevel
    else InfoLevel in
  if bool_decide (format = "json") then Ok (JSONEncoder, lvl)
  else if bool_decide (format = "auto") || bool_decide (format = "console") then Ok (ConsoleEncoder, lvl)
  else if bool_decide (format = "logfmt") then Ok (LogfmtEncoder, lvl)
  else Err (ENew "unrecognized log format").
Definition CreateLogger (cfg : CommonConfig) : result (encoder * level) :=
  NewRootLogger (LogFormat cfg) (LogLevel cfg).

(** ** [reporter.go], [monitor.go], [btcstaking_tracker.go] *)
Definition minBTCCacheSize : Z := 1000.
Definition maxHeadersInMsg : Z := 100.
Record ReporterConfig := mkReporterConfig {
  rep_NetParams : string;
  BTCCacheSize : Z;
  MaxHeadersInMsg : Z;
}.
Definition ReporterConfig_Validate (cfg : ReporterConfig) : result unit :=
  if bool_decide (rep_NetParams cfg ∉ GetValidNetParams) then Err (ENew "invalid net params")
  else if BTCCacheSize cfg <? minBTCCacheSize then Err (ENew "BTC cache size has to be at least 1000")
  else if MaxHeadersInMsg cfg <? maxHeadersInMsg then
    Err (ENew "max_headers_in_msg has to be at least 100")
  else Ok tt.
Definition DefaultReporterConfig : ReporterConfig :=
  mkReporterConfig "simnet" minBTCCacheSize maxHeadersInMsg.

Definition defaultCheckpointBufferSize : Z := 100.
Definition defaultBtcCacheSize : Z := 100.
Definition defaultBtcConfirmationDepth : Z := 6.
Record MonitorConfig := mkMonitorConfig {
  CheckpointBufferSize : Z;
  BtcBlockBufferSize : Z;
  BtcCacheSize : Z;
  LivenessCheckIntervalSeconds : Z;
  MaxLiveBtcHeights : Z;
  mon_BtcConfirmationDepth : Z;
  EnableLivenessChecker : bool;
  mon_DatabaseConfig : option DBConfig;
}.
Definition MonitorConfig_Validate (cfg : MonitorConfig) : result unit :=
  if CheckpointBufferSize cfg <? defaultCheckpointBufferSize then
    Err (ENew "checkpoint-buffer-size should not be less than 100")
  else if BtcCacheSize cfg <? defaultBtcCacheSize then
    Err (ENew "btc-cache-size should not be less than 100")
  else if mon_BtcConfirmationDepth cfg <? defaultBtcConfirmationDepth then
    Err (ENew "btc-confirmation-depth should not be less than 6")
  else Ok tt.

Definition maxBatchSize : Z := 10000.
Definition MaxSlashingConcurrency_default : Z := 20.
Record BTCStakingTrackerConfig := mkTrackerConfig {
  CheckDelegationsInterval : Z;
  NewDelegationsBatchSize : Z;
  CheckDelegationActiveInterval : Z;
  RetrySubmitUnbondingTxInterval : Z;
  RetryJitter : Z;
  BTCNetParams : string;
  MaxSlashingConcurrency : Z;
  IndexerAddr : string;
  FetchEvidenceInterval : Z;
  FetchCometBlockInterval : Z;
  ReconnectBTCNodeInterval : Z;
  SlasherDatabaseConfig : option DBConfig;
}.
Definition TrackerConfig_Validate (cfg : BTCStakingTrackerConfig) : result unit :=
  if CheckDelegationsInterval cfg <=? 0 then Err (ENew "check-delegations-interval can't be negative")
  else if CheckDelegationActiveInterval cfg <=? 0 then
    Err (ENew "check-if-delegation-active-interval can't be negative")
  else if FetchEvidenceInterval cfg <=? 0 then Err (ENew "fetch-evidence-interval can't be negative")
  else if RetrySubmitUnbondingTxInterval cfg <=? 0 then
    Err (ENew "retry-submit-unbonding-interval can't be negative")
  else if RetryJitter cfg <=? 0 then Err (ENew "max-jitter-interval can't be negative")
  else if maxBatchSize <? NewDelegationsBatchSize cfg then
    Err (ENew "delegations-batch-size can't be greater than 10000")
  else if bool_decide (BTCNetParams cfg ∉ GetValidNetParams) then Err (ENew "invalid net params")
  else if MaxSlashingConcurrency cfg =? 0 then Err (ENew "max-slashing-concurrency cannot be 0")
  else if bool_decide (IndexerAddr cfg = "") then Err (ENew "indexer-addr cannot be empty")
  else if FetchCometBlockInterval cfg <=? 0 then
    Err (ENew "fetch-comet-block-interval can't be negative")
  else Ok tt.
Definition DefaultBTCStakingTrackerConfig : BTCStakingTrackerConfig :=
  mkTrackerConfig (1 * Minute) 500 (5 * Minute) (1 * Minute) (30 * Second) "simnet"
    MaxSlashingConcurrency_default "http://localhost:3000" (30 * Second) (2 * Second) (60 * Minute) None.

(** ** [metrics.go] *)
Record MetricsConfig := mkMetricsConfig { metrics_Host : string; ServerPort : Z }.
Definition DefaultMetricsConfig : MetricsConfig := mkMetricsConfig "0.0.0.0" 2112.

(** ** [netparams/bitcoin.go] *)
Inductive chain_params := MainNetParams | TestNet3Params | SimNetParams | RegressionNetParams
  | SigNetParams.
Definition GetBTCParams (net : string) : result chain_params :=
  if bool_decide (net = "mainnet") then Ok MainNetParams
  else if bool_decide (net = "testnet") then Ok TestNet3Params
  else if bool_decide (net = "simnet") then Ok SimNetParams
  else if bool_decide (net = "regtest") then Ok RegressionNetParams
  else if bool_decide (net = "signet") then Ok SigNetParams
  else Err (ENew "BTC network does not exist").

(** ** [config.go] *)
Section config.
Context {CL : ConfigLib}.

Definition MetricsConfig_Validate (cfg : MetricsConfig) : result unit :=
  if (ServerPort cfg <? 0) || (65535 <? ServerPort cfg) then Err (ENew "invalid port")
  else if negb (ParseIP (metrics_Host cfg)) then Err (ENew "invalid host")
  else Ok tt.

Definition DataDir (homePath : string) : string := filepath_Join homePath "data".
Definition DefaultDBConfigWithHomePath (homePath : string) : DBConfig :=
  mkDBConfig (DataDir homePath) "vigilante.db" true false DefaultBoltAutoCompactMinAge DefaultDBTimeout.
Definition DefaultDBConfig : DBConfig := DefaultDBConfigWithHomePath defaultAppDataDir.

Definition DefaultSubmitterConfig : SubmitterConfig :=
  mkSubmitterConfig "simnet" 100 (f64_of_int 1) 60 1800 (Some DefaultDBConfig)
    (f64_dec 15 2) (f64_dec 15 2) (f64_dec 15 2).
Definition DefaultMonitorConfig : MonitorConfig :=
  mkMonitorConfig defaultCheckpointBufferSize 100 defaultBtcCacheSize 10 100
    defaultBtcConfirmationDepth true (Some DefaultDBConfig).

Record Config := mkConfig {
  Common : CommonConfig;
  BTC : BTCConfig;
  Babylon : BabylonConfig;
  Metrics : MetricsConfig;
  Submitter : SubmitterConfig;
  Reporter : ReporterConfig;
  Monitor : MonitorConfig;
  BTCStakingTracker : BTCStakingTrackerConfig;
}.

Definition check (msg : string) (r : result unit) (k : result unit) : result unit :=
  match r with Ok _ => k | Err e => Err (EWrap msg e) end.
Definition Config_Validate (cfg : Config) : result unit :=
  check "invalid config in common" (CommonConfig_Validate (Common cfg))
  (check "invalid config in btc" (BTCConfig_Validate (BTC cfg))
  (check "invalid config in babylon" (BabylonConfig_Validate (Babylon cfg))
  (check "invalid config in metrics" (MetricsConfig_Validate (Metrics cfg))
  (check "invalid config in submitter" (SubmitterConfig_Validate (Submitter cfg))
  (check "invalid config in reporter" (ReporterConfig_Validate (Reporter cfg))
  (check "invalid config in monitor" (MonitorConfig_Validate (Monitor cfg))
  (check "invalid config in BTC staking tracker" (TrackerConfig_Validate (BTCStakingTracker cfg))
   (Ok tt)))))))).

Definition DefaultConfig : Config :=
  mkConfig DefaultCommonConfig DefaultBTCConfig (DefaultBabylonConfig (10 * Minute))
    DefaultMetricsConfig DefaultSubmitterConfig DefaultReporterConfig DefaultMonitorConfig
    DefaultBTCStakingTrackerConfig.

(** The file system and viper. *)
Class ConfigFiles (W : Type) := {
  os_Stat : string → M W unit;
  viper_ReadInConfig : string → M W unit;
  viper_Unmarshal : M W Config;
}.
Definition ErrNotExist : string := "os.ErrNotExist".
Definition config_New {W} {CF : ConfigFiles W} (configFile : string) : M W Config :=
  r ← try (os_Stat configFile);
  match r with
  | Err err => if errors_Is err ErrNotExist then fail (ENew "no config file found") else fail err
  | Ok _ =>
      viper_ReadInConfig configFile ;;
      cfg ← viper_Unmarshal;
      of_result (Config_Validate cfg) ;;
      mret cfg
  end.

(** ** Lemmas *)
Lemma check_Ok msg r k : check msg r k = Ok tt ↔ r = Ok tt ∧ k = Ok tt.
Proof. destruct r as [[]|e]; cbn; naive_solver. Qed.

Lemma Config_Validate_parts cfg :
  Config_Validate cfg = Ok tt ↔
  CommonConfig_Validate (Common cfg) = Ok tt ∧ BTCConfig_Validate (BTC cfg) = Ok tt ∧
  BabylonConfig_Validate (Babylon cfg) = Ok tt ∧ MetricsConfig_Validate (Metrics cfg) = Ok tt ∧
  SubmitterConfig_Validate (Submitter cfg) = Ok tt ∧ ReporterConfig_Validate (Reporter cfg) = Ok tt ∧
  MonitorConfig_Validate (Monitor cfg) = Ok tt ∧
  TrackerConfig_Validate (BTCStakingTracker cfg) = Ok tt.
Proof. unfold Config_Validate. rewrite !check_Ok. tauto. Qed.

Lemma config_New_validated {W} {CF : ConfigFiles W} file w cfg w' :
  config_New file w = (Val cfg, w') → Config_Validate cfg = Ok tt.
Proof.
  unfold config_New. intros H. apply bind_Val_inv in H as ([u|e] & w1 & _ & H); [|by case_match].
  apply bind_Val_inv in H as ([] & w2 & _ & H). apply bind_Val_inv in H as (c & w3 & _ & H).
  apply bind_Val_inv in H as ([] & w4 & Hv & H). unfold mret, M_ret in H. simplify_eq.
  by destruct (Config_Validate cfg) as [[]|e].
Qed.
End config.

Lemma isOneOf_elem v l : isOneOf v l = true ↔ v ∈ l.
Proof.
  induction l as [|x l IH]; cbn; [by rewrite elem_of_nil|].
  rewrite elem_of_cons. case_bool_decide; naive_solver.
Qed.

(** A known network resolves, and only a known one does. *)
Lemma GetBTCParams_known net : (∃ p, GetBTCParams net = Ok p) ↔ net ∈ GetValidNetParams.
Proof.
  unfold GetBTCParams, GetValidNetParams. rewrite !elem_of_cons, elem_of_nil.
  repeat case_bool_decide; naive_solver.
Qed.

Lemma CommonConfig_logger cfg :
  CommonConfig_Validate cfg = Ok tt →
  ∃ enc lvl, CreateLogger cfg = Ok (enc, lvl) ∧ lvl ≠ InfoLevel.
Proof.
  unfold CommonConfig_Validate, CreateLogger, NewRootLogger.
  destruct (isOneOf (LogFormat cfg) _) eqn:Ef; [|done]. destruct (isOneOf (LogLevel cfg) _) eqn:El; [|done].
  apply isOneOf_elem in Ef, El. rewrite !elem_of_cons, elem_of_nil in Ef.
  rewrite !elem_of_cons, elem_of_nil in El. intros _.
  destruct El as [->|[->|[->|[->|[->|[]]]]]], Ef as [->|[->|[->|[->|[]]]]]; cbn; eauto.
Qed.

(** What each part's [Validate] accepts: exactly the values in these ranges. *)
Definition common_ranges (cfg : CommonConfig) : Prop :=
  LogFormat cfg ∈ ["json"; "auto"; "console"; "logfmt"] ∧
  LogLevel cfg ∈ ["debug"; "warn"; "error"; "panic"; "fatal"] ∧
  0 < RetrySleepTime cfg ∧ 0 < MaxRetrySleepTime cfg.
Definition btc_ranges (cfg : BTCConfig) : Prop :=
  0 ≤ ReconnectAttempts cfg ∧ btc_NetParams cfg ∈ GetValidNetParams ∧
  ZmqBlockEndpoint cfg ≠ "" ∧ ZmqTxEndpoint cfg ≠ "" ∧ ZmqSeqEndpoint cfg ≠ "" ∧
  EstimateMode cfg ∈ ["ECONOMICAL"; "CONSERVATIVE"] ∧ 0 < TargetBlockNum cfg ∧
  0 < TxFeeMin cfg ∧ TxFeeMin cfg ≤ DefaultFee cfg ≤ TxFeeMax cfg.
Definition submitter_ranges (cfg : SubmitterConfig) : Prop :=
  sub_NetParams cfg ∈ GetValidNetParams ∧
  f64_ltb (ResubmitFeeMultiplier cfg) (f64_of_int 1) = false ∧
  0 ≤ PollingIntervalSeconds cfg ∧ 0 < ResendIntervalSeconds cfg ∧ 0 < BufferSize cfg ∧
  is_Some (sub_DatabaseConfig cfg) ∧
  f64_ltb (InsufficientFeeMargin cfg) (f64_of_int 0) = false ∧
  f64_ltb (InsufficientFeerateMargin cfg) (f64_of_int 0) = false ∧
  f64_ltb (FeeIncrementMargin cfg) (f64_of_int 0) = false.
Definition reporter_ranges (cfg : ReporterConfig) : Prop :=
  rep_NetParams cfg ∈ GetValidNetParams ∧ 1000 ≤ BTCCacheSize cfg ∧ 100 ≤ MaxHeadersInMsg cfg.
Definition monitor_ranges (cfg : MonitorConfig) : Prop :=
  100 ≤ CheckpointBufferSize cfg ∧ 100 ≤ BtcCacheSize cfg ∧ 6 ≤ mon_BtcConfirmationDepth cfg.
Definition tracker_ranges (cfg : BTCStakingTrackerConfig) : Prop :=
  0 < CheckDelegationsInterval cfg ∧ 0 < CheckDelegationActiveInterval cfg ∧
  0 < FetchEvidenceInterval cfg ∧ 0 < RetrySubmitUnbondingTxInterval cfg ∧ 0 < RetryJitter cfg ∧
  NewDelegationsBatchSize cfg ≤ 10000 ∧ BTCNetParams cfg ∈ GetValidNetParams ∧
  MaxSlashingConcurrency cfg ≠ 0 ∧ IndexerAddr cfg ≠ "" ∧ 0 < FetchCometBlockInterval cfg.

Lemma guard_Ok (b : bool) e (k : result unit) :
  (if b then Err e else k) = Ok tt ↔ b = false ∧ k = Ok tt.
Proof. destruct b; naive_solver. Qed.
Lemma valid_net net : bool_decide (net ∉ GetValidNetParams) = false ↔ net ∈ GetValidNetParams.
Proof. rewrite bool_decide_eq_false. split; [apply dec_stable|by intros ? ?]. Qed.
(** A chain of guards passes when each of them is false. *)
Ltac guards :=
  rewrite !guard_Ok, ?negb_false_iff, ?isOneOf_elem, ?orb_false_iff, ?andb_false_iff, ?negb_false_iff,
    ?valid_net, ?bool_decide_eq_false, ?bool_decide_eq_true, ?Z.leb_gt, ?Z.ltb_ge, ?Z.eqb_neq.

Lemma CommonConfig_valid cfg : CommonConfig_Validate cfg = Ok tt ↔ common_ranges cfg.
Proof. unfold CommonConfig_Validate, common_ranges. guards. tauto. Qed.
Lemma BTCConfig_valid cfg : BTCConfig_Validate cfg = Ok tt ↔ btc_ranges cfg.
Proof.
  unfold BTCConfig_Validate, btc_ranges. guards. rewrite !elem_of_cons, elem_of_nil.
  intuition (try lia; tauto).
Qed.
Lemma SubmitterConfig_valid cfg : SubmitterConfig_Validate cfg = Ok tt ↔ submitter_ranges cfg.
Proof.
  unfold SubmitterConfig_Validate, submitter_ranges. guards. rewrite <-not_eq_None_Some. tauto.
Qed.
Lemma ReporterConfig_valid cfg : ReporterConfig_Validate cfg = Ok tt ↔ reporter_ranges cfg.
Proof. unfold ReporterConfig_Validate, reporter_ranges, minBTCCacheSize, maxHeadersInMsg. guards. tauto. Qed.
Lemma MonitorConfig_valid cfg : MonitorConfig_Validate cfg = Ok tt ↔ monitor_ranges cfg.
Proof.
  unfold MonitorConfig_Validate, monitor_ranges, defaultCheckpointBufferSize, defaultBtcCacheSize,
    defaultBtcConfirmationDepth. guards. tauto.
Qed.
Lemma TrackerConfig_valid cfg : TrackerConfig_Validate cfg = Ok tt ↔ tracker_ranges cfg.
Proof. unfold TrackerConfig_Validate, tracker_ranges, maxBatchSize. guards. tauto. Qed.
Lemma MetricsConfig_valid {CL : ConfigLib} cfg :
  MetricsConfig_Validate cfg = Ok tt ↔ 0 ≤ ServerPort cfg ≤ 65535 ∧ ParseIP (metrics_Host cfg) = true.
Proof. unfold MetricsConfig_Validate. guards. intuition lia. Qed.
