(* ===== verification/GenesisInfo.v ===== *)
(** * Genesis information ([types/genesis_info.go], [types/pop.go])

    What the monitor reads from a Babylon genesis file.  The formats of Babylon's
    and the Cosmos SDK's modules are the interface [GenesisLib]; a module absent
    from the file leaves the zero value of its state, as in the code. *)

From S2P Require Import Prelude Blocks EpochInfo.

(** The messages of a genesis transaction.  [MsgCreateValidator.Pubkey] is the
    consensus key of the validator; pointers are options. *)
Record MsgCreateValidator := mkCreateValidator {
  cv_ValidatorAddress : string;
  cv_Pubkey : option bytes;
  Value_Amount : Z;
}.
Inductive gen_msg :=
| CreateValidator (m : MsgCreateValidator)
| WrappedCreateValidator (m : option MsgCreateValidator) (blsPubKey : bytes)
| OtherMsg (name : string).

(** [checkpointingtypes.GenesisKey], with its [BlsKey] and the key's [Pop] *)
Record ProofOfPossession := mkPop { Ed25519Sig : bytes; BlsSig : option bytes }.
Record BlsKey := mkBlsKey { bk_Pubkey : option bytes; Pop : option ProofOfPossession }.
Record GenesisKey := mkGenesisKey {
  gk_ValidatorAddress : string;
  gk_BlsKey : option BlsKey;
  ValPubkey : option bytes;
}.

Definition ErrInvalidPoP : string := "checkpointingtypes.ErrInvalidPoP".
Definition checkpointing_ModuleName : string := "checkpointing".
Definition btclightclient_ModuleName : string := "btclightclient".
Definition epoching_ModuleName : string := "epoching".
Definition btccheckpoint_ModuleName : string := "btccheckpoint".

Class GenesisLib := {
  RawMessage : Type;
  (** [genutiltypes.GenesisStateFromGenFile] *)
  GenesisStateFromGenFile : string → result (gmap string RawMessage);
  json_Unmarshal_object : RawMessage → result (gmap string RawMessage);
  json_Unmarshal_array : RawMessage → result (list RawMessage);
  UnmarshalJSON_GenesisKey : RawMessage → result GenesisKey;
  (** [checkpointingtypes.GenesisState.Validate] of the keys read *)
  GenesisState_Validate : list GenesisKey → outcome (option gerror);
  (** the methods [Bytes] of the optional signature and key *)
  Signature_Bytes : option bytes → outcome bytes;
  PubKey_Bytes : option bytes → outcome bytes;
  bls_Verify : bytes → bytes → bytes → bool;
  ed25519_VerifySignature : bytes → bytes → bytes → bool;
  (** the genutil module of Babylon's application is an [AppModuleBasic] *)
  gentxModule_ok : bool;
  GenTxValidator : list gen_msg → result unit;
  (** [genutiltypes.GetGenesisStateFromAppState(...).GenTxs] *)
  GenTxs : gmap string RawMessage → outcome (list RawMessage);
  (** decodes a transaction and validates its messages with the function given *)
  ValidateAndGetGenTx : RawMessage → (list gen_msg → result unit) → result (list gen_msg);
  TokensToConsensusPower : Z → outcome Z;
  (** [MustUnmarshalJSON] of the light client's state: the heights of its headers *)
  MustUnmarshal_BtcHeaders : RawMessage → outcome (list Z);
  btclightclient_Validate : list Z → result unit;
  EpochingParams : Type;
  EpochingParams_zero : EpochingParams;
  UnmarshalJSON_EpochingParams : RawMessage → result EpochingParams;
  EpochInterval : EpochingParams → Z;
  BtccheckpointParams : Type;
  BtccheckpointParams_zero : BtccheckpointParams;
  UnmarshalJSON_BtccheckpointParams : RawMessage → result BtccheckpointParams;
  BtccheckpointParams_Validate : BtccheckpointParams → result unit;
  CheckpointTag : BtccheckpointParams → string;
}.

Record GenesisInfo := mkGenesisInfo {
  baseBTCHeight : Z;
  epochInterval : Z;
  checkpointTag : string;
  gi_valSet : list ValidatorWithBlsKey;
}.
Definition NewGenesisInfo := mkGenesisInfo.
Definition GetBaseBTCHeight := baseBTCHeight.
Definition GetEpochInterval := epochInterval.
Definition gi_GetBLSKeySet := gi_valSet.
Definition GetCheckpointTag := checkpointTag.
Definition SetBaseBTCHeight (height : Z) (gi : GenesisInfo) : GenesisInfo :=
  mkGenesisInfo height (epochInterval gi) (checkpointTag gi) (gi_valSet gi).

Section genesis.
Context {GL : GenesisLib}.

(** ** [pop.go] *)
Definition validPop (blsPubkey : bytes) (valPubkey : option bytes) (ed25519Sig blsSig : bytes)
  : outcome bool :=
  if negb (bls_Verify blsSig blsPubkey ed25519Sig) then Val false
  else obind (PubKey_Bytes valPubkey) (λ ed25519PK,
       Val (ed25519_VerifySignature ed25519PK blsPubkey ed25519Sig)).
(** The call of [validPop] on a genesis key, its arguments included. *)
Definition key_pop (gk : GenesisKey) : outcome bool :=
  obind (oderef (gk_BlsKey gk)) (λ blsKey,
  obind (oderef (bk_Pubkey blsKey)) (λ pubkey,
  obind (oderef (Pop blsKey)) (λ pop,
  obind (Signature_Bytes (BlsSig pop)) (λ blsSig,
  validPop pubkey (ValPubkey gk) (Ed25519Sig pop) blsSig)))).

Fixpoint validate_keys (addresses : gset string) (genesisKeys : list GenesisKey)
  : outcome (option gerror) :=
  match genesisKeys with
  | [] => Val None
  | gk :: rest =>
      if bool_decide (gk_ValidatorAddress gk ∈ addresses) then Val (Some (ENew "duplicate genesis key"))
      else obind (key_pop gk) (λ ok,
           if negb ok then Val (Some (ESentinel ErrInvalidPoP))
           else validate_keys ({[gk_ValidatorAddress gk]} ∪ addresses) rest)
  end.
Definition validateGenesisKeys (genesisKeys : list GenesisKey) : outcome (option gerror) :=
  validate_keys ∅ genesisKeys.

(** ** Reading the modules *)
Fixpoint decode_keys (rawKeys : list RawMessage) : outcome (list GenesisKey) :=
  match rawKeys with
  | [] => Val []
  | rk :: rest =>
      obind (owrap "failed to decode genesis key" (oresult (UnmarshalJSON_GenesisKey rk))) (λ key,
      obind (decode_keys rest) (λ keys, Val (key :: keys)))
  end.
Definition getCheckpointGenState (appState : gmap string RawMessage) : outcome (list GenesisKey) :=
  match appState !! checkpointing_ModuleName with
  | None => Val []
  | Some m =>
      obind (oresult (json_Unmarshal_object m)) (λ raw,
      match raw !! "genesis_keys" with
      | None => Error (ENew "genesis_keys not found")
      | Some genKeysRaw =>
          obind (owrap "failed to unmarshal genesis_keys array" (oresult (json_Unmarshal_array genKeysRaw)))
            decode_keys
      end)
  end.

Definition GetBtclightclientGenesisStateFromAppState (appState : gmap string RawMessage)
  : outcome (list Z) :=
  match appState !! btclightclient_ModuleName with
  | None => Val []
  | Some m => MustUnmarshal_BtcHeaders m
  end.

(** The [params] field of a module's state. *)
Definition module_params {P} (module : string) (zero : P) (decode : RawMessage → result P)
    (appState : gmap string RawMessage) : outcome P :=
  match appState !! module with
  | None => Val zero
  | Some m =>
      obind (oresult (json_Unmarshal_object m)) (λ raw,
      match raw !! "params" with
      | None => Error (ENew "params not found")
      | Some paramsRaw => oresult (decode paramsRaw)
      end)
  end.
Definition getEpochingParamsFromAppState : gmap string RawMessage → outcome EpochingParams :=
  module_params epoching_ModuleName EpochingParams_zero UnmarshalJSON_EpochingParams.
Definition getBtccheckpointParamsFromAppState : gmap string RawMessage → outcome BtccheckpointParams :=
  module_params btccheckpoint_ModuleName BtccheckpointParams_zero UnmarshalJSON_BtccheckpointParams.

(** ** The validators *)
Definition messageValidatorCreateValidator (msgs : list gen_msg) : result unit :=
  match msgs with
  | [CreateValidator _] => Ok tt
  | [_] => Err (ENew "unexpected GenTx message type")
  | _ => Err (ENew "unexpected number of GenTx messages")
  end.

(** The message that declares the validator; [oldFormat] is [err1 != nil]. *)
Definition carried_validator (oldFormat : bool) (msg : gen_msg) : outcome MsgCreateValidator :=
  match oldFormat, msg with
  | true, CreateValidator m => Val m
  | false, WrappedCreateValidator m _ => oderef m
  | _, _ => Error (ENew "unexpected message type")
  end.
(** One genesis transaction. *)
Definition gentx_validator (oldFormat : bool) (rawTx : RawMessage) : outcome ValidatorWithBlsKey :=
  obind (owrap "invalid genesis tx" (oresult (ValidateAndGetGenTx rawTx
    (if oldFormat then messageValidatorCreateValidator else GenTxValidator)))) (λ msgs,
  match msgs with
  | [] => Error (ENew "invalid genesis transaction")
  | msg :: _ =>
      obind (carried_validator oldFormat msg) (λ msgCreateValidator,
      obind (TokensToConsensusPower (Value_Amount msgCreateValidator)) (λ power,
      if power <? 0 then Error (ENew "consensus power calculation returned a negative value")
      else obind (oderef (cv_Pubkey msgCreateValidator)) (λ value,
           Val (mkValidator (cv_ValidatorAddress msgCreateValidator) value (u64 power)))))
  end).
Fixpoint gentx_validators (oldFormat : bool) (gentxs : list RawMessage) : outcome (list ValidatorWithBlsKey) :=
  match gentxs with
  | [] => Val []
  | tx :: rest =>
      obind (gentx_validator oldFormat tx) (λ v,
      obind (gentx_validators oldFormat rest) (λ vs, Val (v :: vs)))
  end.

(** The checks of the two formats of the genesis keys. *)
Definition check_keys (err1 err2 : option gerror) : outcome unit :=
  match err1, err2 with
  | Some e1, Some e2 => Error (EWrap "invalid checkpointing genesis" (EJoin e1 e2))
  | Some e1, None =>
      if negb (errors_Is e1 ErrInvalidPoP) then Error (EWrap "invalid checkpointing genesis" e1) else Val tt
  | None, Some e2 =>
      if negb (errors_Is e2 ErrInvalidPoP) then Error (EWrap "invalid checkpointing genesis" e2) else Val tt
  | None, None => Val tt
  end.

(** The result of validating the epoching parameters is only logged. *)
Definition GetGenesisInfoFromFile (filePath : string) : outcome GenesisInfo :=
  obind (owrap "failed to read genesis file" (oresult (GenesisStateFromGenFile filePath))) (λ appState,
  if negb gentxModule_ok then Error (ENew "unexpected message type")
  else
  obind (owrap "invalid checkpointing genesis" (getCheckpointGenState appState)) (λ keys,
  obind (GenesisState_Validate keys) (λ err1,
  obind (validateGenesisKeys keys) (λ err2,
  obind (check_keys err1 err2) (λ _,
  obind (GenTxs appState) (λ gentxs,
  obind (gentx_validators (bool_decide (err1 ≠ None)) gentxs) (λ valSet,
  obind (GetBtclightclientGenesisStateFromAppState appState) (λ headers,
  obind (owrap "invalid btclightclient genesis" (oresult (btclightclient_Validate headers))) (λ _,
  obind (slice_index headers 0) (λ base,
  obind (owrap "invalid epoching genesis" (getEpochingParamsFromAppState appState)) (λ epoching,
  obind (owrap "invalid btccheckpoint genesis" (getBtccheckpointParamsFromAppState appState)) (λ btcc,
  obind (owrap "invalid btccheckpoint params" (oresult (BtccheckpointParams_Validate btcc))) (λ _,
  Val (mkGenesisInfo base (EpochInterval epoching) (CheckpointTag btcc) valSet)))))))))))))).

(** ** Lemmas *)
(** A key whose proof of possession holds: the BLS key signs the ed25519
    signature, which signs the BLS key. *)
Lemma key_pop_true gk :
  key_pop gk = Val true ↔
  ∃ bk pk pop sig vk, gk_BlsKey gk = Some bk ∧ bk_Pubkey bk = Some pk ∧ Pop bk = Some pop ∧
    Signature_Bytes (BlsSig pop) = Val sig ∧ PubKey_Bytes (ValPubkey gk) = Val vk ∧
    bls_Verify sig pk (Ed25519Sig pop) = true ∧ ed25519_VerifySignature vk pk (Ed25519Sig pop) = true.
Proof.
  unfold key_pop, validPop. split.
  - intros (bk & Hbk & (pk & Hpk & (pop & Hpop & (sig & Hsig & H)%obind_Val)%obind_Val)%obind_Val)%obind_Val.
    apply oderef_Val in Hbk, Hpk, Hpop. destruct (bls_Verify _ _ _) eqn:Hb; [cbn [negb] in H|done].
    apply obind_Val in H as (vk & Hvk & H). simplify_eq. naive_solver.
  - intros (bk & pk & pop & sig & vk & Hbk & Hpk & Hpop & Hs & Hv & Hb & He).
    rewrite Hbk. cbn. rewrite Hpk. cbn. rewrite Hpop. cbn. rewrite Hs. cbn.
    rewrite Hb. cbn. rewrite Hv. cbn. by rewrite He.
Qed.

Lemma validate_keys_spec keys seen :
  validate_keys seen keys = Val None ↔
  NoDup (gk_ValidatorAddress <$> keys) ∧
  (∀ k, k ∈ keys → gk_ValidatorAddress k ∉ seen ∧ key_pop k = Val true).
Proof.
  revert seen. induction keys as [|k keys IH]; intros seen; cbn [validate_keys fmap list_fmap].
  { split; [intros _; split; [constructor|set_solver]|done]. }
  rewrite NoDup_cons. case_bool_decide as Hs; [split; [done|]; intros [_ H]; destruct (H k ltac:(left)); done|].
  destruct (key_pop k) as [[]|e|p|] eqn:Hp; cbn [obind negb];
    [|split; [done|]; intros [_ H]; destruct (H k ltac:(left)); congruence..].
  rewrite IH. split.
  - intros [Hnd H]. split; [split; [|done]|].
    + intros (k' & E & Hk)%list_elem_of_fmap. destruct (H k' Hk) as [Hn _]. set_solver.
    + intros k' [->|Hk]%elem_of_cons; [done|]. destruct (H k' Hk). set_solver.
  - intros [[Hn Hnd] H]. split; [done|]. intros k' Hk.
    destruct (H k' ltac:(by right)) as [H1 H2]. split; [|done].
    rewrite elem_of_union, elem_of_singleton. intros [E|?]; [|done]. apply Hn. rewrite <-E.
    apply list_elem_of_fmap. eauto.
Qed.

(** What a validator of the set was read from. *)
Definition gentx_of (oldFormat : bool) (tx : RawMessage) (v : ValidatorWithBlsKey) : Prop :=
  ∃ msg msgs m key power,
    ValidateAndGetGenTx tx (if oldFormat then messageValidatorCreateValidator else GenTxValidator)
      = Ok (msg :: msgs) ∧
    carried_validator oldFormat msg = Val m ∧
    cv_Pubkey m = Some key ∧ TokensToConsensusPower (Value_Amount m) = Val power ∧ 0 ≤ power ∧
    v = mkValidator (cv_ValidatorAddress m) key (u64 power).

Lemma gentx_validator_Val oldFormat tx v : gentx_validator oldFormat tx = Val v → gentx_of oldFormat tx v.
Proof.
  unfold gentx_validator. intros (msgs & Hm%owrap_Val%oresult_Val & H)%obind_Val.
  destruct msgs as [|msg msgs]; [done|].
  apply obind_Val in H as (m & Hmsg & (power & Hp & H)%obind_Val).
  destruct (Z.ltb_spec power 0); [done|]. apply obind_Val in H as (key & Hk%oderef_Val & H). simplify_eq.
  exists msg, msgs, m, key, power. by split_and!.
Qed.

Lemma gentx_validators_Val oldFormat txs vs :
  gentx_validators oldFormat txs = Val vs → Forall2 (gentx_of oldFormat) txs vs.
Proof.
  revert vs. induction txs as [|tx txs IH]; cbn [gentx_validators]; intros vs H; [simplify_eq; constructor|].
  apply obind_Val in H as (v & Hv & (vs' & Hvs & H)%obind_Val). simplify_eq.
  constructor; [by apply gentx_validator_Val|by apply IH].
Qed.
End genesis.
