(* ===== verification/ClientWallet.v ===== *)
(** * The Bitcoin client's wallet half and the chain notifier

    [btcclient/client_wallet.go], [btcclient/client.go] and
    [btcclient/notifier.go], with [types/utxo.go] and
    [submitter/relayer/estimator.go].  The node's RPC calls, lnd's lookups and
    notifier, and JSON are interfaces.  The methods that only forward a call to
    [rpcclient] are the fields of [NodeRPC] themselves; the hint cache that
    remembers nothing is left out.

    [staking_client] is the implementation of the node's interface that the
    staking tracker is written against. *)

From S2P Require Import Prelude GoFloat Blocks Retry BTCClient Config ConfigAll StakingTypes.

(** [chainntnfs.TxConfStatus], an integer with five named values *)
Inductive TxConfStatus := TxFoundMempool | TxFoundIndex | TxNotFoundIndex | TxFoundManually
  | TxNotFoundManually | OtherTxConfStatus (n : Z).

Record ListUnspentResult := mkListUnspent {
  lu_TxID : string;
  lu_Vout : Z;
  lu_Address : string;
  lu_ScriptPubKey : string;
  lu_Amount : float64;
}.

(** [rpcclient.ConnConfig] *)
Record ConnConfig := mkConnConfig {
  cc_Host : string;
  HTTPPostMode : bool;
  cc_User : string;
  cc_Pass : string;
  cc_DisableTLS : bool;
}.

Class WalletLib {RL : RelayerLib} := {
  ConfRequest : Type;
  NewConfRequest : option Hash → bytes → result ConfRequest;
  hex_EncodeToString : bytes → string;
  hex_DecodeString : string → result bytes;
  DecodeAddress : string → chain_params → result BtcAddress;
  FeePerKWeight : Z → Z;
  JSON : Type;
  json_Marshal_string : string → result JSON;
  json_Marshal_float : float64 → result JSON;
  json_Unmarshal_string : JSON → result string;
}.

Class NodeRPC {RL : RelayerLib} {WL : WalletLib} (W : Type) := {
  rpcclient_New : ConnConfig → M W unit;
  ListUnspent : M W (list ListUnspentResult);
  rpc_GetRawTransaction : Hash → M W MsgTx;
  rpc_GetRawTransactionVerbose_BlockHash : Hash → M W string;
  rpc_GetTxOut : Hash → Z → bool → M W bool;
  RawRequest : string → list JSON → M W JSON;
  (** [notifier.ConfDetailsFromTxIndex] on the node *)
  ConfDetailsFromTxIndex : ConfRequest → string → M W (option TxConfirmation * TxConfStatus);
  (** [chainfee.NewBitcoindEstimator] and the estimator's [Start] *)
  NewBitcoindEstimator : ConnConfig → string → Z → M W unit;
  Estimator_Start : M W unit;
}.

Definition txNotFoundErrMsgBitcoind : string := "No such mempool or blockchain transaction".
Definition defaultMaxFeeRate : float64 := f64_dec 1 1.

Record Client := mkClient {
  cl_params : chain_params;
  cl_cfg : BTCConfig;
  cl_retrySleepTime : Z;
  cl_maxRetrySleepTime : Z;
  cl_maxRetryTimes : Z;
}.
Definition GetWalletPass (c : Client) : string := WalletPassword (cl_cfg c).
Definition GetWalletLockTime (c : Client) : Z := WalletLockTime (cl_cfg c).
Definition GetNetParams (c : Client) : outcome chain_params :=
  match GetBTCParams (btc_NetParams (cl_cfg c)) with
  | Ok net => Val net
  | Err _ => Panic "failed to get BTC network params"
  end.

Definition conn_of (cfg : BTCConfig) : ConnConfig :=
  mkConnConfig (rpcHostURL (Endpoint cfg) (WalletName cfg)) true (Username cfg) (Password cfg)
    (DisableTLS cfg).

Definition notifierStateToWalletState (state : TxConfStatus) : outcome TxStatus :=
  match state with
  | TxNotFoundIndex => Val TxNotFound
  | TxFoundMempool => Val TxInMemPool
  | TxFoundIndex => Val TxInChain
  | TxNotFoundManually => Val TxNotFound
  | TxFoundManually => Val TxInChain
  | OtherTxConfStatus _ => Panic "unknown notifier state"
  end.

(** [for _, utxo := range utxos] of [GetHighUTXOAndSum] *)
Fixpoint high_and_sum (highUTXO : ListUnspentResult) (sum : float64) (utxos : list ListUnspentResult)
  : ListUnspentResult * float64 :=
  match utxos with
  | [] => (highUTXO, sum)
  | utxo :: utxos =>
      high_and_sum (if f64_ltb (lu_Amount highUTXO) (lu_Amount utxo) then utxo else highUTXO)
        (f64_add sum (lu_Amount utxo)) utxos
  end.

Section client.
Context {BL : BTCLib} {SL : StakingLib} {RL : RelayerLib} {WL : WalletLib}.
Context {CL : ConfigLib} {RT : Retry}.
Context {W : Type} {RPCs : Client.RPC W} {NR : NodeRPC W}.

Definition NewWallet (cfg : ConfigAll.Config) : M W Client :=
  params ← of_result (GetBTCParams (btc_NetParams (BTC cfg)));
  wrap_err "failed to create rpc client to BTC" (rpcclient_New (conn_of (BTC cfg))) ;;
  mret (mkClient params (BTC cfg) (RetrySleepTime (Common cfg)) (MaxRetrySleepTime (Common cfg))
          (MaxRetryTimes (Common cfg))).

Definition GetTipBlockVerbose : M W Z :=
  tipBtcHash ← wrap_err "failed to obtain BTC block tip" Client.GetBestBlockHash;
  wrap_err "failed to obtain BTC tip block" (Client.GetBlockVerbose_Height tipBtcHash).

Definition GetHighUTXOAndSum : M W (ListUnspentResult * float64) :=
  utxos ← wrap_err "failed to list unspent UTXOs" ListUnspent;
  match utxos with
  | [] => fail (ENew "lack of spendable transactions in the wallet")
  | utxo0 :: _ => mret (high_and_sum utxo0 (f64_of_int 0) utxos)
  end.

Definition getTxDetails (req : ConfRequest) (msg : string) : M W (option TxConfirmation * TxStatus) :=
  r ← ConfDetailsFromTxIndex req msg;
  status ← of_outcome (notifierStateToWalletState (snd r));
  mret (fst r, status).
Definition Client_TxDetails (txHash : option Hash) (pkScript : bytes)
  : M W (option TxConfirmation * TxStatus) :=
  req ← of_result (NewConfRequest txHash pkScript);
  getTxDetails req txNotFoundErrMsgBitcoind.

Definition SendRawTransactionWithBurnLimit (tx : MsgTx) (allowHighFees : bool) (maxBurnAmount : float64)
  : M W Hash :=
  buf ← of_result (Serialize tx);
  txHexJSON ← of_result (json_Marshal_string (hex_EncodeToString buf));
  let maxFeeRate := if allowHighFees then f64_of_int 0 else defaultMaxFeeRate in
  maxFeeJSON ← of_result (json_Marshal_float maxFeeRate);
  maxBurnJSON ← of_result (json_Marshal_float maxBurnAmount);
  rawResp ← RawRequest "sendrawtransaction" [txHexJSON; maxFeeJSON; maxBurnJSON];
  txHashStr ← of_result (json_Unmarshal_string rawResp);
  of_result (NewHashFromStr txHashStr).

Definition staking_client (c : Client) : StakingBTCClient W := {|
  sb_GetBestBlock := Client.GetBestBlock (cl_maxRetryTimes c);
  sb_GetRawTransaction := rpc_GetRawTransaction;
  sb_GetRawTransactionVerbose_BlockHash := rpc_GetRawTransactionVerbose_BlockHash;
  sb_TxDetails h := Client_TxDetails (Some h);
  sb_GetTxOut := rpc_GetTxOut;
  sb_SendRawTransactionWithBurnLimit := SendRawTransactionWithBurnLimit;
|}.

(** [submitter/relayer/estimator.go] *)
Definition NewFeeEstimator (cfg : BTCConfig) : M W unit :=
  wrap_err "failed to create fee estimator"
    (NewBitcoindEstimator (conn_of cfg) (EstimateMode cfg) (FeePerKWeight (DefaultFee cfg))) ;;
  wrap_err "failed to initiate the fee estimator" Estimator_Start.

(** ** [types/utxo.go] *)
Record UTXO := mkUTXO {
  utxo_TxID : Hash;
  utxo_Vout : Z;
  ScriptPK : bytes;
  utxo_Amount : Z;
  utxo_Addr : BtcAddress;
}.
Definition NewUTXO (r : ListUnspentResult) (net : chain_params) : outcome UTXO :=
  obind (oresult (hex_DecodeString (lu_ScriptPubKey r))) (λ prevPKScript,
  obind (oresult (NewHashFromStr (lu_TxID r))) (λ txID,
  obind (oresult (DecodeAddress (lu_Address r) net)) (λ prevAddr,
  obind (oresult (NewAmount (lu_Amount r))) (λ amount,
  Val (mkUTXO txID (lu_Vout r) prevPKScript amount prevAddr))))).
End client.

(** ** [btcclient/notifier.go] *)
Record Bitcoind := mkBitcoind {
  RPCHost : string;
  RPCUser : string;
  RPCPass : string;
  ZMQPubRawBlock : string;
  ZMQPubRawTx : string;
  ZMQReadDeadline : Z;
  bd_EstimateMode : string;
  PrunedNodeMaxPeers : Z;
  RPCPolling : bool;
  BlockPollingInterval : Z;
  TxPollingInterval : Z;
  BlockCacheSize : Z;
}.
Definition DefaultBitcoindConfig : Bitcoind :=
  mkBitcoind "127.0.01:18556" "rpcuser" "rpcpass" "tcp://127.0.0.1:29001" "tcp://127.0.0.1:29002"
    (30 * Second) "CONSERVATIVE" 0 true (30 * Second) (30 * Second) (20 * 1024 * 1024).
Definition ToBitcoindConfig (cfg : BTCConfig) : Bitcoind :=
  let d := DefaultBitcoindConfig in
  mkBitcoind (Endpoint cfg) (Username cfg) (Password cfg) (ZmqBlockEndpoint cfg) (ZmqTxEndpoint cfg)
    (ZMQReadDeadline d) (EstimateMode cfg) (PrunedNodeMaxPeers d) (RPCPolling d)
    (BlockPollingInterval d) (TxPollingInterval d) (BlockCacheSize d).

(** The two ways [chain.BitcoindConfig] follows the node, and the host its
    [Dialer] connects to. *)
Inductive node_events :=
| PollingConfig (block tx : Z) (jitter : float64)
| ZMQConfig (blockHost txHost : string) (readDeadline mempool : Z) (jitter : float64).
Record BitcoindConfig := mkBitcoindConfig {
  bc_ChainParams : chain_params;
  bc_Host : string;
  bc_User : string;
  bc_Pass : string;
  bc_Dialer : string;
  bc_PrunedModeMaxPeers : Z;
  bc_events : node_events;
}.
Definition DefaultTxPollingJitter : float64 := f64_dec 5 1.

Class ChainNotifiers (W : Type) := {
  BitcoindConn : Type;
  Notifier : Type;
  NewBitcoindConn : BitcoindConfig → M W BitcoindConn;
  Conn_Start : BitcoindConn → M W unit;
  (** with the empty hint cache and a block cache of the size given *)
  bitcoindnotify_New : BitcoindConn → chain_params → Z → Notifier;
}.

Section notifier.
Context {W : Type} {CN : ChainNotifiers W}.

Definition bitcoind_config (cfg : Bitcoind) (params : chain_params) : BitcoindConfig :=
  mkBitcoindConfig params (RPCHost cfg) (RPCUser cfg) (RPCPass cfg) (RPCHost cfg)
    (PrunedNodeMaxPeers cfg)
    (if RPCPolling cfg
     then PollingConfig (BlockPollingInterval cfg) (TxPollingInterval cfg) DefaultTxPollingJitter
     else ZMQConfig (ZMQPubRawBlock cfg) (ZMQPubRawTx cfg) (ZMQReadDeadline cfg) (TxPollingInterval cfg)
            DefaultTxPollingJitter).
(** The connection's error is printed into a new one. *)
Definition NewNodeBackend (cfg : Bitcoind) (params : chain_params) : M W Notifier :=
  bitcoindConn ← NewBitcoindConn (bitcoind_config cfg params);
  r ← try (Conn_Start bitcoindConn);
  match r with
  | Err _ => fail (ENew "unable to connect to bitcoind")
  | Ok _ => mret (bitcoindnotify_New bitcoindConn params (BlockCacheSize cfg))
  end.
Definition NewNodeBackendWithParams (cfg : BTCConfig) : M W Notifier :=
  btcParams ← wrap_err "failed to get BTC net params" (of_result (GetBTCParams (btc_NetParams cfg)));
  wrap_err "failed to initialize notifier" (NewNodeBackend (ToBitcoindConfig cfg) btcParams).
End notifier.
