(* ===== verification/StartupTheorems.v ===== *)
(** * What starting up establishes

    A configuration that was loaded, the node's client built from it, and the
    genesis information the monitor reads. *)

From S2P Require Import Prelude GoFloat Blocks Retry BTCClient BTCCache Config ConfigAll StakingTypes Slasher.
From S2P Require Import EpochInfo GenesisInfo ClientWallet Instances SubmitterInstances WatcherInstances.
From S2P Require Import SlasherTheorems.

(** ** The client *)

(** What the node and lnd's lookup promise: the calls return, the height is in
    range, and a transaction found in the chain comes with its details. *)
Class NodeLaws {RL : RelayerLib} {WL : WalletLib} (W : Type) {RPCs : Client.RPC W}
    {NR : NodeRPC W} : Prop := {
  BlockCount_law : ∀ w, no_panic (Client.GetBlockCount w) ∧
    ∀ n, fst (Client.GetBlockCount w) = Val n → is_u32 n;
  ConfDetails_law : ∀ req msg w, no_panic (ConfDetailsFromTxIndex req msg w) ∧
    ∀ d st, fst (ConfDetailsFromTxIndex req msg w) = Val (d, st) →
      (∀ n, st ≠ OtherTxConfStatus n) ∧ (d ≠ None ↔ st = TxFoundIndex ∨ st = TxFoundManually);
}.

Lemma no_panic_bind {S A B} (m : M S A) (k : A → M S B) s :
  no_panic (m s) → (∀ a s1, m s = (Val a, s1) → no_panic (k a s1)) → no_panic ((m ≫= k) s).
Proof. rewrite bind_unfold. destruct (m s) as [[a|e|p|] s1]; cbn; eauto. Qed.
Lemma no_panic_wrap {S A} msg (m : M S A) s : no_panic (m s) → no_panic (wrap_err msg m s).
Proof. unfold wrap_err. by destruct (m s) as [[] ?]. Qed.
Lemma no_panic_of_result {S A} (r : result A) (s : S) : no_panic (of_result r s).
Proof. by destruct r. Qed.
Lemma no_panic_fst {S A} (o : outcome A) (s s' : S) : no_panic (o, s) → no_panic (o, s').
Proof. done. Qed.

Lemma with_retry_no_panic {RT : Retry} {W A} o (call : M W A) w :
  0 < Attempts o → (∀ w, no_panic (call w)) → no_panic (with_retry o call w).
Proof.
  intros Ho Hc.
  assert (∀ s, True → True ∧ no_panic (assign_both call s)) as Hf.
  { intros [w1 r] _. split; [done|]. specialize (Hc w1). unfold assign_both. by destruct (call w1) as [[] ?]. }
  pose proof (retry_Do_spec o (assign_both call) (w, None) ltac:(lia) ltac:(lia)) as Hr.
  pose proof (retried_safe (λ _, True) o _ [] (w, None) _ (λ s _, Hf s I) I Hr) as Hs.
  unfold with_retry. apply no_panic_bind; unfold capture.
  - by destruct (retry_Do _ _ _) as [[] [? ?]].
  - intros r w1 E. destruct (retry_Do o (assign_both call) (w, None)) as [[[]|?|?|] [w2 r2]]; simplify_eq.
    apply (retried_Val_inv (λ _, True)) in Hr as ([w3 r3] & _ & H3); [|done..].
    unfold assign_both in H3. by destruct (call w3) as [[] ?]; simplify_eq.
Qed.

Section client.
Context {BL : BTCLib} {SL : StakingLib} {RL : RelayerLib} {WL : WalletLib} {RT : Retry}.
Context {W : Type} {RPCs : Client.RPC W} {NR : NodeRPC W} {NL : NodeLaws W}.

Lemma Client_GetBestBlock_no_panic n w : 0 < n → no_panic (Client.GetBestBlock n w).
Proof.
  intros Hn. unfold Client.GetBestBlock, Client.getBlockCountWithRetry. apply no_panic_bind.
  - apply with_retry_no_panic; [done|]. intros. apply BlockCount_law.
  - intros h w1 (w2 & E)%with_retry_Val; [|done].
    destruct (BlockCount_law w2) as [_ Hr]. rewrite E in Hr. specialize (Hr h eq_refl).
    destruct ((h <? 0) || (MaxUint32 <? h)) eqn:Hb; [|done]. zrange.
Qed.

Lemma Client_TxDetails_spec h pk w :
  no_panic (Client_TxDetails h pk w) ∧
  ∀ d st, fst (Client_TxDetails h pk w) = Val (d, st) → (d ≠ None ↔ st = TxInChain).
Proof.
  unfold Client_TxDetails, getTxDetails. rewrite bind_unfold.
  destruct (NewConfRequest h pk) as [req|e]; cbn [of_result]; [|by split].
  unfold mret, M_ret. rewrite bind_unfold.
  destruct (ConfDetails_law req txNotFoundErrMsgBitcoind w) as [Hn Hd].
  destruct (ConfDetailsFromTxIndex _ _ _) as [[[d st]|e|p|] w1]; [|by split..].
  destruct (Hd d st eq_refl) as [Ho Hi]. rewrite bind_unfold. cbn.
  destruct st; cbn; try (by destruct (Ho n)).
  all: split; [done|]; intros d' st' [= <- <-]; rewrite Hi; naive_solver.
Qed.
End client.

(** With the client as the staking tracker's node, waiting for a slashing
    transaction ends in success or an error: a transaction reported in the chain
    always has the details the depth is computed from. *)
Theorem client_wait_returns
    {BL : BTCLib} {SL : StakingLib} {RL : RelayerLib} {WL : WalletLib} {RT : Retry} {SK : SlashingKeys}
    {W D : Type} {RPCs : Client.RPC W} {NR : NodeRPC W} {NL : NodeLaws W}
    (c : Client) h pk k (s : BTCSlasher * D * W) :
  0 < cl_maxRetryTimes c → no_panic (waitForTxKDeep (BTC := staking_client c) h pk k s).
Proof.
  intros Hc. unfold waitForTxKDeep.
  eapply (retried_safe (λ _, True)); [|done|by apply retry_Do_spec].
  intros [self w] _. split; [done|]. fold (no_panic (k_deep (BTC := staking_client c) h pk k (self, w))).
  unfold k_deep, sl_world, zoom. destruct (Client_TxDetails_spec (Some h) pk w) as [Hn Hd].
  apply no_panic_bind.
  { apply no_panic_wrap. cbn. by destruct (Client_TxDetails _ _ _) as [[] ?]. }
  intros [d st] s1 E%wrap_err_Val. cbn in E. destruct (Client_TxDetails _ _ _) as [o w1]. cbn in E. simplify_eq.
  specialize (Hd d st eq_refl). destruct st; [done..|]. apply no_panic_bind.
  { apply no_panic_wrap. cbn. pose proof (Client_GetBestBlock_no_panic _ w1 Hc).
    by destruct (Client.GetBestBlock _ _) as [[] ?]. }
  intros tip s2 _. destruct d as [d|]; [by destruct (_ <=? _)|]. exfalso. by apply Hd.
Qed.

(** The output chosen is one of the wallet's and none has a larger amount. *)
Lemma high_and_sum_max utxos high sum :
  (∀ u, u ∈ high :: utxos → lu_Amount u ≠ SpecFloat.S754_nan) →
  let r := high_and_sum high sum utxos in
  fst r ∈ high :: utxos ∧ ∀ u, u ∈ high :: utxos → f64_ltb (lu_Amount (fst r)) (lu_Amount u) = false.
Proof.
  revert high sum. induction utxos as [|u utxos IH]; intros high sum Hn; cbn.
  { split; [left|]. intros u [->|?%elem_of_nil]%elem_of_cons; [apply f64_ltb_irrefl|done]. }
  set (high' := if f64_ltb _ _ then u else high).
  assert (high' ∈ [high; u]) as Hh' by (unfold high'; destruct (f64_ltb _ _); [right; left|left]).
  assert (high' ∈ high :: u :: utxos) as Hh by (revert Hh'; rewrite !elem_of_cons, elem_of_nil; tauto).
  destruct (IH high' (f64_add sum (lu_Amount u))) as [Hin Hall].
  { intros x [->|Hx]%elem_of_cons; apply Hn; [done|by do 2 right]. }
  split; [apply elem_of_cons in Hin as [->|?]; [done|by do 2 right]|].
  assert (∀ x, x ∈ [high; u] → f64_ltb (lu_Amount high') (lu_Amount x) = false) as Hmax.
  { intros x Hx. unfold high'. destruct (f64_ltb (lu_Amount high) (lu_Amount u)) eqn:E.
    - apply elem_of_cons in Hx as [->|Hx]; [|apply list_elem_of_singleton in Hx as ->]; [|apply f64_ltb_irrefl].
      destruct (f64_ltb (lu_Amount u) (lu_Amount high)) eqn:E2; [|done].
      pose proof (f64_ltb_trans _ _ _ E E2) as H. by rewrite f64_ltb_irrefl in H.
    - apply elem_of_cons in Hx as [->|Hx]; [|apply list_elem_of_singleton in Hx as ->]; [apply f64_ltb_irrefl|done]. }
  intros x Hx. assert (x ∈ [high; u] ∨ x ∈ utxos) as [Hx'|Hx']
    by (revert Hx; rewrite !elem_of_cons, elem_of_nil; tauto); [|apply Hall; by right].
  destruct (f64_ltb (lu_Amount (fst _)) (lu_Amount x)) eqn:E; [|done].
  apply (f64_ltb_cotrans _ (lu_Amount high')) in E as [E|E]; [..|by apply Hn].
  - by rewrite Hall in E by left.
  - by rewrite Hmax in E.
Qed.

(** ** The configuration *)

(** C31: what a loaded configuration guarantees.  If the configuration file is
    accepted, a logger can be made; the node's client and the chain notifier are
    built on known network parameters, so that the only errors of their
    constructors are the node's and the client's [GetNetParams] does not panic;
    Babylon's part passed its own check, and every value that a part's [Validate]
    looks at is in its range: the ordered fees, the retry and ticker intervals
    (all the tracker's but the reconnection's), the buffer and cache sizes, the
    confirmation depth, the concurrency, the networks and the addresses. *)
Theorem loaded_config_is_usable
    {CL : ConfigLib} {RL : RelayerLib} {WL : WalletLib} {W : Type} {CF : ConfigFiles W}
    {NR : NodeRPC W} {CN : ChainNotifiers W} file w cfg w' :
  config_New file w = (Val cfg, w') →
  (∃ enc lvl, CreateLogger (Common cfg) = Ok (enc, lvl)) ∧
  (∃ p, GetBTCParams (btc_NetParams (BTC cfg)) = Ok p ∧
     (∀ w1, NewWallet cfg w1 =
        let c := mkClient p (BTC cfg) (RetrySleepTime (Common cfg)) (MaxRetrySleepTime (Common cfg))
                   (MaxRetryTimes (Common cfg)) in
        (wrap_err "failed to create rpc client to BTC" (rpcclient_New (conn_of (BTC cfg))) ;; mret c) w1) ∧
     (∀ w1 c w2, NewWallet cfg w1 = (Val c, w2) → GetNetParams c = Val (cl_params c)) ∧
     (∀ w1, NewNodeBackendWithParams (BTC cfg) w1 =
        wrap_err "failed to initialize notifier" (NewNodeBackend (ToBitcoindConfig (BTC cfg)) p) w1)) ∧
  common_ranges (Common cfg) ∧ btc_ranges (BTC cfg) ∧ BabylonConfig_Validate (Babylon cfg) = Ok tt ∧
  (0 ≤ ServerPort (Metrics cfg) ≤ 65535 ∧ ParseIP (metrics_Host (Metrics cfg)) = true) ∧
  submitter_ranges (Submitter cfg) ∧ reporter_ranges (Reporter cfg) ∧ monitor_ranges (Monitor cfg) ∧
  tracker_ranges (BTCStakingTracker cfg).
Proof.
  intros (Hc & Hb & Hbbn & Hme & Hs & Hr & Hm & Ht)%config_New_validated%Config_Validate_parts.
  assert (∃ p, GetBTCParams (btc_NetParams (BTC cfg)) = Ok p) as [p Hp]
    by (apply GetBTCParams_known; apply BTCConfig_valid in Hb; apply Hb).
  split; [destruct (CommonConfig_logger _ Hc) as (enc & lvl & ? & _); eauto|]. split.
  { exists p. split; [done|]. unfold NewWallet, NewNodeBackendWithParams. rewrite Hp. split_and!; [by intros| |by intros].
    intros w1 c w2 H. apply bind_Val_inv in H as (p' & w3 & [= <- <-] & H).
    apply bind_Val_inv in H as (u & w4 & _ & [= <- <-]). unfold GetNetParams. cbn. by rewrite Hp. }
  rewrite <-CommonConfig_valid, <-BTCConfig_valid, <-MetricsConfig_valid, <-SubmitterConfig_valid,
    <-ReporterConfig_valid, <-MonitorConfig_valid, <-TrackerConfig_valid. done.
Qed.

(** A library with a Babylon part that is always valid, and files that hold the
    default configuration. *)
#[local] Instance small_config : ConfigLib := {|
  BabylonConfig := Z;
  BabylonConfig_Validate _ := Ok tt;
  DefaultBabylonConfig t := t;
  ParseIP ip := bool_decide (ip = "0.0.0.0");
  defaultAppDataDir := "/home";
  filepath_Join a b := (a ++ "/" ++ b)%string;
  DefaultBoltAutoCompactMinAge := 0;
  DefaultDBTimeout := 0;
|}.
#[local] Instance default_files : ConfigFiles Z := {|
  os_Stat _ := mret tt;
  viper_ReadInConfig _ := mret tt;
  viper_Unmarshal := mret DefaultConfig;
|}.
Lemma default_loads : config_New "vigilante.yml" (0 : Z) = (Val DefaultConfig, 0).
Proof. vm_compute. reflexivity. Qed.

(** The default configuration passes, and the staking tracker's program then
    dereferences the database configuration it leaves [nil]. *)
Theorem default_tracker_panics {Backend} (GetBoltBackend : DBConfig → M Z Backend) :
  config_New "vigilante.yml" (0 : Z) = (Val DefaultConfig, 0) ∧
  GetDBBackend GetBoltBackend (SlasherDatabaseConfig (BTCStakingTracker DefaultConfig)) (0 : Z)
    = (Panic "nil pointer dereference", 0).
Proof. split; [apply default_loads|done]. Qed.

(** A node that answers every request, for the constructors. *)
#[local] Existing Instance relayer_lib.
#[local] Instance small_wallet : WalletLib := {|
  ConfRequest := Z;
  NewConfRequest _ _ := Ok 0;
  hex_EncodeToString _ := "00";
  hex_DecodeString _ := Ok [];
  DecodeAddress _ _ := Ok (0 : BtcAddress);
  FeePerKWeight f := f / 4;
  JSON := string;
  json_Marshal_string s := Ok s;
  json_Marshal_float _ := Ok "0";
  json_Unmarshal_string s := Ok s;
|}.
#[local] Instance small_calls : NodeRPC Z := {|
  rpcclient_New _ := mret tt;
  ListUnspent := mret [];
  rpc_GetRawTransaction _ := fail (ENew "not found");
  rpc_GetRawTransactionVerbose_BlockHash _ := mret "";
  rpc_GetTxOut _ _ _ := mret true;
  RawRequest _ _ := mret (M := M Z) ("00" : JSON);
  ConfDetailsFromTxIndex _ _ := mret (None, TxNotFoundIndex);
  NewBitcoindEstimator _ _ _ := mret tt;
  Estimator_Start := mret tt;
|}.
#[local] Instance small_rpc : Client.RPC Z := {|
  Client.GetBlockCount := mret 120;
  Client.GetBestBlockHash := mret 20;
  Client.GetBlockHash n := mret n;
  Client.GetBlock _ := fail (ENew "not found");
  Client.GetBlockVerbose_Height _ := mret 120;
|}.
#[local] Instance small_node_laws : NodeLaws Z.
Proof. split; cbn; [intros; split; [done|]; intros n [= <-]; done|]. naive_solver. Qed.
#[local] Instance small_notifiers : ChainNotifiers Z := {|
  BitcoindConn := unit;
  Notifier := unit;
  NewBitcoindConn _ := mret tt;
  Conn_Start _ := mret tt;
  bitcoindnotify_New _ _ _ := tt;
|}.

Lemma client_wait_returns_witness :
  0 < cl_maxRetryTimes (mkClient SimNetParams DefaultBTCConfig 1 1 5) ∧
  no_panic (waitForTxKDeep (BTC := staking_client (mkClient SimNetParams DefaultBTCConfig 1 1 5))
    7 [] 6 (slasher_new, slasher_db, 0 : Z)).
Proof. split; [done|]. apply client_wait_returns. done. Defined.

Lemma loaded_config_is_usable_witness :
  config_New "vigilante.yml" (0 : Z) = (Val DefaultConfig, 0) ∧
  ∀ w1 c w2, NewWallet (NR := small_calls) DefaultConfig w1 = (Val c, w2) → GetNetParams c = Val (cl_params c).
Proof.
  split; [apply default_loads|].
  pose proof (loaded_config_is_usable (NR := small_calls) _ _ _ _ default_loads)
    as (_ & (p & _ & _ & H & _) & _). exact H.
Defined.

(** ** Genesis *)

(** C32: the genesis information is what the file declares.  If the file is
    accepted, its keys pass Babylon's validation or fail it only in their proofs
    of possession, and then they are of distinct validators with proofs in the
    old format that hold; the validators are those of the genesis transactions
    in order, each from a validated transaction whose message fits the format of
    the keys; the base height is that of the light client's first header, and
    the interval and the tag are those of the modules' parameters. *)
Theorem genesis_info_sound {GL : GenesisLib} file gi :
  GetGenesisInfoFromFile file = Val gi →
  ∃ appState keys (oldFormat : bool) gentxs rest epoching btcc,
    GenesisStateFromGenFile file = Ok appState ∧
    getCheckpointGenState appState = Val keys ∧
    (if oldFormat
     then (∃ e, GenesisState_Validate keys = Val (Some e) ∧ errors_Is e ErrInvalidPoP = true) ∧
          NoDup (gk_ValidatorAddress <$> keys) ∧ ∀ k, k ∈ keys → key_pop k = Val true
     else GenesisState_Validate keys = Val None) ∧
    GenTxs appState = Val gentxs ∧ Forall2 (gentx_of oldFormat) gentxs (gi_valSet gi) ∧
    GetBtclightclientGenesisStateFromAppState appState = Val (baseBTCHeight gi :: rest) ∧
    btclightclient_Validate (baseBTCHeight gi :: rest) = Ok tt ∧
    getEpochingParamsFromAppState appState = Val epoching ∧ epochInterval gi = EpochInterval epoching ∧
    getBtccheckpointParamsFromAppState appState = Val btcc ∧ BtccheckpointParams_Validate btcc = Ok tt ∧
    checkpointTag gi = CheckpointTag btcc.
Proof.
  unfold GetGenesisInfoFromFile. intros (app & Happ%owrap_Val%oresult_Val & H)%obind_Val.
  destruct gentxModule_ok; [cbn [negb] in H|done].
  apply obind_Val in H as (keys & Hkeys%owrap_Val & H). apply obind_Val in H as (err1 & He1 & H).
  apply obind_Val in H as (err2 & He2 & H). apply obind_Val in H as ([] & Hck & H).
  apply obind_Val in H as (gentxs & Hg & H). apply obind_Val in H as (vs & Hvs%gentx_validators_Val & H).
  apply obind_Val in H as (headers & Hh & H). apply obind_Val in H as ([] & Hhv%owrap_Val%oresult_Val & H).
  apply obind_Val in H as (base & Hb & H). apply obind_Val in H as (ep & Hep%owrap_Val & H).
  apply obind_Val in H as (btcc & Hbt%owrap_Val & H).
  apply obind_Val in H as ([] & Hbv%owrap_Val%oresult_Val & H). simplify_eq.
  destruct headers as [|b rest]; [done|]. injection Hb as ->.
  exists app, keys, (bool_decide (err1 ≠ None)), gentxs, rest, ep, btcc.
  split; [done|]. split; [done|]. split; [|by split_and!]. destruct err1 as [e1|]; [|done]. cbn.
  destruct err2 as [e2|]; [done|]. cbn in Hck. destruct (errors_Is e1 ErrInvalidPoP) eqn:Hp; [|done].
  split; [by exists e1|]. apply validate_keys_spec in He2 as [? Hk]. split; [done|]. intros k ?. by apply Hk.
Qed.

(** A genesis file in the old format with one validator. *)
Definition small_key : GenesisKey :=
  mkGenesisKey "bbnvaloper1" (Some (mkBlsKey (Some [7]) (Some (mkPop [6; 7] (Some [7; 6; 7]))))) (Some [6]).
Definition small_gentx : MsgCreateValidator := mkCreateValidator "bbnvaloper1" (Some [6]) 2500000.
#[local] Instance small_genesis : GenesisLib := {|
  RawMessage := Z;
  GenesisStateFromGenFile _ :=
    Ok (list_to_map [("checkpointing", 1); ("btclightclient", 2); ("epoching", 3); ("btccheckpoint", 4)]);
  json_Unmarshal_object m :=
    if m =? 1 then Ok {["genesis_keys" := 10]} else Ok {["params" := 10 * m]};
  json_Unmarshal_array m := Ok [m + 1];
  UnmarshalJSON_GenesisKey _ := Ok small_key;
  GenesisState_Validate _ := Val (Some (ESentinel ErrInvalidPoP));
  Signature_Bytes s := match s with Some b => Val b | None => Panic "nil pointer dereference" end;
  PubKey_Bytes s := match s with Some b => Val b | None => Panic "nil pointer dereference" end;
  bls_Verify sig pk msg := bool_decide (sig = pk ++ msg);
  ed25519_VerifySignature pk msg sig := bool_decide (sig = pk ++ msg);
  gentxModule_ok := true;
  GenTxValidator _ := Ok tt;
  GenTxs _ := Val [50];
  ValidateAndGetGenTx _ validate :=
    match validate [CreateValidator small_gentx] with
    | Ok _ => Ok [CreateValidator small_gentx]
    | Err e => Err e
    end;
  TokensToConsensusPower a := Val (a / 1000000);
  MustUnmarshal_BtcHeaders _ := Val [800000; 800001];
  btclightclient_Validate hs := match hs with [] => Err (ENew "no headers") | _ => Ok tt end;
  EpochingParams := Z;
  EpochingParams_zero := 0;
  UnmarshalJSON_EpochingParams m := Ok (12 * m);
  EpochInterval p := p;
  BtccheckpointParams := string;
  BtccheckpointParams_zero := "";
  UnmarshalJSON_BtccheckpointParams _ := Ok "bbn0";
  BtccheckpointParams_Validate p := Ok tt;
  CheckpointTag p := p;
|}.
Definition small_info : GenesisInfo :=
  mkGenesisInfo 800000 360 "bbn0" [mkValidator "bbnvaloper1" [6] 2].
Lemma small_genesis_read : GetGenesisInfoFromFile "genesis.json" = Val small_info.
Proof. vm_compute. reflexivity. Qed.

Lemma genesis_info_sound_witness :
  GetGenesisInfoFromFile "genesis.json" = Val small_info ∧
  ∃ oldFormat gentxs, Forall2 (gentx_of oldFormat) gentxs (gi_valSet small_info).
Proof.
  split; [apply small_genesis_read|].
  destruct (genesis_info_sound _ _ small_genesis_read) as (app & keys & old & txs & H).
  exists old, txs. destruct H as (? & ? & ? & _ & _ & _ & _ & H & _). exact H.
Defined.
