(* ===== verification/Lifecycle.v ===== *)
(** * Starting and stopping ([submitter/submitter.go], [reporter/reporter.go])

    [Start], [Stop], [quitChan] and [WaitForShutdown] of the submitter and of the
    reporter are the same protocol on a mutex, a channel [quit] that is closed to
    stop and replaced to restart, a flag and a wait group.  A state holds these,
    the number of checkpoints in the poller's channel, the contexts that were
    cancelled and the program counter of every goroutine: the callers of [Start]
    and [Stop], the submitter's poller and processor, the reporter's block handler,
    the goroutine [reporterQuitCtx] starts for each bootstrap, which the wait group
    counts, and the cleanup of the checkpoint cache, which it does not.  A step is
    one atomic action of one goroutine.  Channels are numbered in the order they are
    made, so the current one is also their count; a context is named by the goroutine
    that waits for it.

    What the goroutines do besides (queries, submissions, bootstraps) is the subject
    of other files; here such a call takes one step and returns, fails, or ends the
    process, whichever the schedule says. *)

From S2P Require Import Prelude.

(** The program, with the capacity of the poller's channel; [Validate] excludes 0. *)
Inductive lc_program := SubmitterProgram (bufferSize : Z) | ReporterProgram.

(** The goroutines [Start] starts and the wait group counts. *)
Inductive worker := Poller | Processor | BlockHandler.
(** Who called [bootstrapWithRetries]: [Start], or the block handler with its [quit]. *)
Inductive boot_caller := InStart | InHandler (quit : nat).

Inductive lpc :=
| StartLock                            (** [quitMu.Lock()] *)
| StartSelect                          (** [select], holding the mutex *)
| StartWait                            (** [WaitForShutdown()], holding the mutex *)
| StartNotifier                        (** [btcNotifier.Start()], [RegisterBlockEpochNtfn] *)
| StartAdd (ws : list worker)          (** goroutines to start *)
| StartGo (w : worker) (ws : list worker) (** after [wg.Add(1)] *)
| StartCleanup                         (** [go StartCleanupRoutine(r.quit, ..)] *)
| BootLock (k : boot_caller)           (** [quit := r.quitChan()] of [reporterQuitCtx] *)
| BootAdd (k : boot_caller) (quit : nat)
| BootGo (k : boot_caller) (quit : nat)
| Boot (k : boot_caller) (ctx : nat)   (** [retry.Do], with [cancel] deferred *)
| StopLock                             (** reading [quit] under the mutex *)
| StopSelect (quit : nat)
| StopClose (quit : nat)
| WorkerLock (w : worker)              (** a goroutine at [quit := quitChan()] *)
| WorkerSelect (w : worker) (quit : nat)
| PollQuery (quit : nat)               (** [querier.RawCheckpointList] *)
| PollSend (quit : nat)                (** [pl.rawCkptChan <- oldestCkpt] *)
| ProcSend (quit : nat)                (** [SendCheckpointToBTC], [MaybeResubmit..] *)
| HandleBlock (quit : nat)             (** [handleNewBlock] *)
| CtxSelect (quit : nat)               (** the goroutine of [reporterQuitCtx] *)
| CtxCancel                            (** after its [wg.Done()], at [cancel()] *)
| Cleanup (quit : nat)                 (** [StartCleanupRoutine]'s [select] *)
| LDone.

Record lifecycle := mkLife {
  lc_mu : option nat;
  lc_quit : nat;
  lc_closed : gset nat;
  lc_started : bool;
  lc_wg : Z;
  lc_chan : Z;
  lc_cancelled : gset nat;
  lc_crashed : bool;
  lc_threads : list lpc;
}.
Definition new_lifecycle : lifecycle := mkLife None 0 ∅ false 0 0 ∅ false [].

Definition goto (t : nat) (pc : lpc) (s : lifecycle) : lifecycle :=
  mkLife (lc_mu s) (lc_quit s) (lc_closed s) (lc_started s) (lc_wg s) (lc_chan s) (lc_cancelled s)
    (lc_crashed s) (<[t := pc]> (lc_threads s)).
Definition set_mu (mu : option nat) (s : lifecycle) : lifecycle :=
  mkLife mu (lc_quit s) (lc_closed s) (lc_started s) (lc_wg s) (lc_chan s) (lc_cancelled s)
    (lc_crashed s) (lc_threads s).
Definition set_started (s : lifecycle) : lifecycle :=
  mkLife (lc_mu s) (lc_quit s) (lc_closed s) true (lc_wg s) (lc_chan s) (lc_cancelled s)
    (lc_crashed s) (lc_threads s).
Definition make_quit (s : lifecycle) : lifecycle :=
  mkLife (lc_mu s) (S (lc_quit s)) (lc_closed s) (lc_started s) (lc_wg s) (lc_chan s) (lc_cancelled s)
    (lc_crashed s) (lc_threads s).
Definition close_quit (q : nat) (s : lifecycle) : lifecycle :=
  mkLife (lc_mu s) (lc_quit s) ({[q]} ∪ lc_closed s) (lc_started s) (lc_wg s) (lc_chan s) (lc_cancelled s)
    (lc_crashed s) (lc_threads s).
Definition wg_add (d : Z) (s : lifecycle) : lifecycle :=
  mkLife (lc_mu s) (lc_quit s) (lc_closed s) (lc_started s) (lc_wg s + d) (lc_chan s) (lc_cancelled s)
    (lc_crashed s) (lc_threads s).
Definition chan_add (d : Z) (s : lifecycle) : lifecycle :=
  mkLife (lc_mu s) (lc_quit s) (lc_closed s) (lc_started s) (lc_wg s) (lc_chan s + d) (lc_cancelled s)
    (lc_crashed s) (lc_threads s).
Definition cancel (c : nat) (s : lifecycle) : lifecycle :=
  mkLife (lc_mu s) (lc_quit s) (lc_closed s) (lc_started s) (lc_wg s) (lc_chan s) ({[c]} ∪ lc_cancelled s)
    (lc_crashed s) (lc_threads s).
Definition crash (s : lifecycle) : lifecycle :=
  mkLife (lc_mu s) (lc_quit s) (lc_closed s) (lc_started s) (lc_wg s) (lc_chan s) (lc_cancelled s)
    true (lc_threads s).
Definition lc_go (pc : lpc) (s : lifecycle) : lifecycle :=
  mkLife (lc_mu s) (lc_quit s) (lc_closed s) (lc_started s) (lc_wg s) (lc_chan s) (lc_cancelled s)
    (lc_crashed s) (lc_threads s ++ [pc]).

(** What the schedule decides: the case of a [select] that is not [quit] or a call
    that succeeds, the case [quit], a call or a channel that fails, a panic. *)
Inductive branch := Event | Quit | Failed | Crash.

Section protocol.
Context (lp : lc_program).

(** What [Start] does after it released the mutex, and at its end. *)
Definition after_unlock : lpc :=
  match lp with
  | SubmitterProgram _ => StartAdd [Poller; Processor]
  | ReporterProgram => BootLock InStart
  end.
Definition after_workers : lpc :=
  match lp with SubmitterProgram _ => LDone | ReporterProgram => StartCleanup end.
Definition after_boot (k : boot_caller) : lpc :=
  match k with InStart => StartNotifier | InHandler q => WorkerSelect BlockHandler q end.
Definition capacity : Z := match lp with SubmitterProgram n => n | ReporterProgram => 0 end.

Definition select_action (b : branch) (t : nat) (w : worker) (q : nat) (s : lifecycle) : option lifecycle :=
  match b, w with
  | Quit, _ => if bool_decide (q ∈ lc_closed s) then Some (wg_add (-1) (goto t LDone s)) else None
  | Event, Poller => Some (goto t (PollQuery q) s)
  | Event, Processor => if 0 <? lc_chan s then Some (chan_add (-1) (goto t (ProcSend q) s)) else None
  | Event, BlockHandler => Some (goto t (HandleBlock q) s)
  | Failed, BlockHandler => Some (wg_add (-1) (goto t LDone s))   (** [Epochs] is closed *)
  | _, _ => None
  end.

(** The next action of a goroutine; [None] when it is blocked or finished, or the
    schedule's branch is not one of its own. *)
Definition lc_action (b : branch) (t : nat) (pc : lpc) (s : lifecycle) : option lifecycle :=
  match pc with
  | StartLock =>
      match lc_mu s with None => Some (set_mu (Some t) (goto t StartSelect s)) | Some _ => None end
  | StartSelect =>
      if bool_decide (lc_quit s ∈ lc_closed s) then Some (goto t StartWait s)
      else if lc_started s then Some (set_mu None (goto t LDone s))
      else Some (set_mu None (set_started (goto t after_unlock s)))
  | StartWait =>
      if lc_wg s =? 0 then Some (set_mu None (make_quit (goto t after_unlock s))) else None
  | StartNotifier =>
      match b with Failed => Some (goto t LDone s) | _ => Some (goto t (StartAdd [BlockHandler]) s) end
  | StartAdd [] => Some (goto t after_workers s)
  | StartAdd (w :: ws) => Some (wg_add 1 (goto t (StartGo w ws) s))
  | StartGo w ws => Some (lc_go (WorkerLock w) (goto t (StartAdd ws) s))
  | StartCleanup => Some (lc_go (Cleanup (lc_quit s)) (goto t LDone s))
  | BootLock k => match lc_mu s with None => Some (goto t (BootAdd k (lc_quit s)) s) | Some _ => None end
  | BootAdd k q => Some (wg_add 1 (goto t (BootGo k q) s))
  | BootGo k q => Some (lc_go (CtxSelect q) (goto t (Boot k (length (lc_threads s))) s))
  | Boot k c =>
      match b with Crash => Some (crash s) | _ => Some (cancel c (goto t (after_boot k) s)) end
  | StopLock => match lc_mu s with None => Some (goto t (StopSelect (lc_quit s)) s) | Some _ => None end
  | StopSelect q =>
      if bool_decide (q ∈ lc_closed s) then Some (goto t LDone s) else Some (goto t (StopClose q) s)
  | StopClose q =>
      if bool_decide (q ∈ lc_closed s) then Some (crash s) else Some (close_quit q (goto t LDone s))
  | WorkerLock w =>
      match lc_mu s with None => Some (goto t (WorkerSelect w (lc_quit s)) s) | Some _ => None end
  | WorkerSelect w q => select_action b t w q s
  | PollQuery q =>
      match b with
      | Event => Some (goto t (PollSend q) s)
      | _ => Some (goto t (WorkerSelect Poller q) s)   (** an error, or no sealed checkpoint *)
      end
  | PollSend q =>
      if lc_chan s <? capacity then Some (chan_add 1 (goto t (WorkerSelect Poller q) s)) else None
  | ProcSend q => Some (goto t (WorkerSelect Processor q) s)
  | HandleBlock q =>
      match b with
      | Failed => Some (goto t (BootLock (InHandler q)) s)
      | Crash => Some (crash s)
      | _ => Some (goto t (WorkerSelect BlockHandler q) s)
      end
  | CtxSelect q =>
      if bool_decide (q ∈ lc_closed s) || bool_decide (t ∈ lc_cancelled s)
      then Some (wg_add (-1) (goto t CtxCancel s)) else None
  | CtxCancel => Some (cancel t (goto t LDone s))
  | Cleanup q => if bool_decide (q ∈ lc_closed s) then Some (goto t LDone s) else None
  | LDone => None
  end.
Definition lc_run (b : branch) (t : nat) (s : lifecycle) : option lifecycle :=
  if lc_crashed s then None else pc ← lc_threads s !! t; lc_action b t pc s.

(** The program's callers call [Start] and [Stop] at any time. *)
Inductive lc_step : lifecycle → lifecycle → Prop :=
| Lc_call_Start s : lc_crashed s = false → lc_step s (lc_go StartLock s)
| Lc_call_Stop s : lc_crashed s = false → lc_step s (lc_go StopLock s)
| Lc_run b t s s' : lc_run b t s = Some s' → lc_step s s'.
Definition lc_steps : lifecycle → lifecycle → Prop := rtc lc_step.
Definition lc_reachable (s : lifecycle) : Prop := lc_steps new_lifecycle s.

(** ** The invariant *)

(** How much of the wait group's counter a goroutine accounts for. *)
Definition in_handler (k : boot_caller) : Z := match k with InStart => 0 | InHandler _ => 1 end.
Definition counted (pc : lpc) : Z :=
  match pc with
  | StartGo _ _ | WorkerLock _ | WorkerSelect _ _ | PollQuery _ | PollSend _ | ProcSend _ | HandleBlock _
  | CtxSelect _ => 1
  | BootLock k | BootAdd k _ | Boot k _ => in_handler k
  | BootGo k _ => 1 + in_handler k
  | _ => 0
  end.
Definition lc_live (ths : list lpc) : Z := foldr (λ pc n, counted pc + n) 0 ths.
Definition holds_mu (pc : lpc) : bool := match pc with StartSelect | StartWait => true | _ => false end.

Definition handler_quit_ok (s : lifecycle) (k : boot_caller) : Prop :=
  match k with InStart => True | InHandler q => q = lc_quit s end.
Definition current_or_closed (s : lifecycle) (q : nat) : Prop := q = lc_quit s ∨ q ∈ lc_closed s.
(** The channel a goroutine waits on, or is about to close. *)
Definition pc_quit_ok (s : lifecycle) (pc : lpc) : Prop :=
  match pc with
  | StartWait => lc_quit s ∈ lc_closed s
  | WorkerSelect _ q | PollQuery q | PollSend q | ProcSend q | HandleBlock q => q = lc_quit s
  | BootLock k | Boot k _ => handler_quit_ok s k
  | BootAdd k q | BootGo k q => handler_quit_ok s k ∧ current_or_closed s q
  | StopSelect q | StopClose q | CtxSelect q | Cleanup q => current_or_closed s q
  | _ => True
  end.

Record lc_inv (s : lifecycle) : Prop := {
  lc_counted : lc_wg s = lc_live (lc_threads s);
  lc_mutex : ∀ t pc, lc_threads s !! t = Some pc → holds_mu pc = true → lc_mu s = Some t;
  lc_quits : ∀ t pc, lc_threads s !! t = Some pc → pc_quit_ok s pc;
  lc_fresh : ∀ q, q ∈ lc_closed s → (q ≤ lc_quit s)%nat;
}.

Lemma wg_part_nonneg pc : 0 ≤ counted pc.
Proof. destruct pc; try match goal with k : boot_caller |- _ => destruct k end; done. Qed.
Lemma lc_live_cons pc ths : lc_live (pc :: ths) = counted pc + lc_live ths.
Proof. done. Qed.
Lemma lc_live_nonneg ths : 0 ≤ lc_live ths.
Proof.
  induction ths as [|pc ths IH]; [done|]. rewrite lc_live_cons. pose proof (wg_part_nonneg pc). lia.
Qed.
Lemma lc_live_app l1 l2 : lc_live (l1 ++ l2) = lc_live l1 + lc_live l2.
Proof. induction l1 as [|pc l1 IH]; [done|]. rewrite <-app_comm_cons, !lc_live_cons, IH. lia. Qed.
Lemma lc_live_insert ths t pc pc' :
  ths !! t = Some pc → lc_live (<[t := pc']> ths) = lc_live ths - counted pc + counted pc'.
Proof.
  revert t. induction ths as [|x ths IH]; intros [|t] H; [done..| |].
  - injection H as ->. change (<[0%nat := pc']> (pc :: ths)) with (pc' :: ths). rewrite !lc_live_cons. lia.
  - change (<[S t := pc']> (x :: ths)) with (x :: <[t := pc']> ths). rewrite !lc_live_cons, (IH _ H). lia.
Qed.
Lemma lc_live_zero ths t pc : lc_live ths = 0 → ths !! t = Some pc → counted pc = 0.
Proof.
  intros H0 Ht. pose proof (lc_live_insert ths t pc LDone Ht) as H. change (counted LDone) with 0 in H.
  pose proof (lc_live_nonneg (<[t:=LDone]> ths)). pose proof (wg_part_nonneg pc). lia.
Qed.

Lemma handler_counted s k : in_handler k = 0 → handler_quit_ok s k.
Proof. by destruct k. Qed.

(** What an action does to the channel: nothing, closing one, or replacing a closed one
    when the wait group is at zero. *)
Definition quit_change (s s' : lifecycle) : Prop :=
  (lc_quit s' = lc_quit s ∨ lc_quit s' = S (lc_quit s) ∧ lc_wg s = 0 ∧ lc_quit s ∈ lc_closed s) ∧
  lc_closed s ⊆ lc_closed s'.
Lemma current_or_closed_mono s s' q : quit_change s s' → current_or_closed s q → current_or_closed s' q.
Proof. intros [[E|(E & _ & Hc)] Hs] [->|Hq]; unfold current_or_closed; rewrite E; set_solver. Qed.

(** A goroutine that does not move keeps its channel. *)
Lemma pc_quit_ok_mono s s' pc :
  quit_change s s' → (lc_wg s = 0 → counted pc = 0) → (holds_mu pc = true → lc_quit s' = lc_quit s) →
  pc_quit_ok s pc → pc_quit_ok s' pc.
Proof.
  intros Hq Hc Hm Hok. pose proof (λ q, current_or_closed_mono s s' q Hq) as Hcc.
  assert (∀ q, counted pc ≠ 0 → q = lc_quit s → q = lc_quit s') as Hw.
  { intros q Hne ->. destruct Hq as [[E|(_ & H0 & _)] _]; [done|]. by destruct Hne, Hc. }
  assert (∀ k, (in_handler k ≠ 0 → counted pc ≠ 0) → handler_quit_ok s k → handler_quit_ok s' k) as Hh.
  { intros [|q] Hk Hk2; [done|]. apply Hw; [by apply Hk|done]. }
  destruct Hq as [Hq Hsub]. destruct pc; cbn in *; try done; try (by apply Hw); eauto.
  - rewrite Hm by done. by apply Hsub.
  - destruct Hok as [Ho ?]. split; [by apply Hh|by apply (Hcc quit)].
  - destruct Hok as [Ho ?]. split; [|by apply (Hcc quit)]. apply Hh; [|done]. destruct k; cbn; lia.
Qed.

(** One goroutine moved from [pc] to [pc'], and may have started another. *)
Lemma lc_inv_move s s' t pc pc' new :
  lc_inv s → lc_threads s !! t = Some pc → lc_threads s' = <[t := pc']> (lc_threads s) ++ new →
  lc_wg s' = lc_wg s - counted pc + counted pc' + lc_live new →
  (lc_mu s' = lc_mu s ∨ lc_mu s = None ∨ holds_mu pc = true) →
  (holds_mu pc' = true → lc_mu s' = Some t) →
  pc_quit_ok s' pc' → (∀ x, x ∈ new → holds_mu x = false ∧ pc_quit_ok s' x) →
  quit_change s s' → (lc_quit s' ≠ lc_quit s → holds_mu pc = true) →
  (∀ q, q ∈ lc_closed s' → (q ≤ lc_quit s')%nat) → lc_inv s'.
Proof.
  intros [Hc Hm Hq Hf] Ht Hts Hwg Hmu Hh Hok Hnew Hquit Hhold Hcl. split; [| |  |done].
  - rewrite Hts, lc_live_app, (lc_live_insert _ _ _ _ Ht), Hwg, Hc. lia.
  - rewrite Hts. intros t2 pc2 [H2|[_ H2%list_elem_of_lookup_2]]%lookup_app_Some Hpc2;
      [|apply Hnew in H2 as [? _]; congruence].
    apply list_lookup_insert_Some in H2 as [[-> [-> _]]|[Hne H2]]; [by apply Hh|].
    pose proof (Hm _ _ H2 Hpc2) as E. destruct Hmu as [->|[E2|Hp]]; [done|congruence|].
    rewrite (Hm _ _ Ht Hp) in E. congruence.
  - rewrite Hts. intros t2 pc2 [H2|[_ H2%list_elem_of_lookup_2]]%lookup_app_Some; [|by apply Hnew].
    apply list_lookup_insert_Some in H2 as [[-> [-> _]]|[Hne H2]]; [done|].
    apply (pc_quit_ok_mono s); [done| | |by apply (Hq t2)].
    + rewrite Hc. intros H0. by eapply lc_live_zero.
    + intros Hp2. destruct (decide (lc_quit s' = lc_quit s)) as [|Hn]; [done|].
      specialize (Hhold Hn). pose proof (Hm _ _ H2 Hp2). pose proof (Hm _ _ Ht Hhold). congruence.
Qed.

(** A caller that was added. *)
Lemma lc_inv_go s pc : lc_inv s → pc = StartLock ∨ pc = StopLock → lc_inv (lc_go pc s).
Proof.
  intros [Hc Hm Hq Hf] Hpc. assert (counted pc = 0 ∧ holds_mu pc = false ∧ pc_quit_ok s pc) as (H0 & Hh & Hok)
    by (by destruct Hpc as [-> | ->]).
  split; [| | |done]; cbn.
  - rewrite lc_live_app, Hc. cbn. lia.
  - intros t pc2 [H|[_ H]]%lookup_app_Some ?; [eauto|].
    apply list_lookup_singleton_Some in H as [_ <-]. congruence.
  - intros t pc2 [H|[_ H]]%lookup_app_Some; [by apply (Hq _ _ H)|].
    by apply list_lookup_singleton_Some in H as [_ <-].
Qed.

Lemma lc_inv_crash s : lc_inv s → lc_inv (crash s).
Proof. intros [Hc Hm Hq Hf]. by split. Qed.
Lemma quit_change_refl s s' : lc_quit s' = lc_quit s → lc_closed s' = lc_closed s → quit_change s s'.
Proof. intros E Ec. split; [by left|by rewrite Ec]. Qed.

Lemma lc_action_inv b t pc s s' :
  lc_inv s → lc_threads s !! t = Some pc → lc_action b t pc s = Some s' → lc_inv s'.
Proof.
  intros Hi Ht Ha. pose proof (lc_fresh _ Hi) as Hf. pose proof (lc_quits _ Hi _ _ Ht) as Hok.
  pose proof (lc_mutex _ Hi _ _ Ht) as Hmu.
  assert (∀ pc' new, lc_threads s' = <[t := pc']> (lc_threads s) ++ new →
    lc_wg s' = lc_wg s - counted pc + counted pc' + lc_live new →
    (lc_mu s' = lc_mu s ∨ lc_mu s = None ∨ holds_mu pc = true) →
    (holds_mu pc' = true → lc_mu s' = Some t) →
    pc_quit_ok s' pc' → (∀ x, x ∈ new → holds_mu x = false ∧ pc_quit_ok s' x) →
    quit_change s s' → (lc_quit s' ≠ lc_quit s → holds_mu pc = true) →
    (∀ q, q ∈ lc_closed s' → (q ≤ lc_quit s')%nat) → lc_inv s') as Hmove by eauto using lc_inv_move.
  destruct pc; cbn [lc_action] in Ha.
  all: unfold select_action in Ha; repeat case_match; simplify_eq; try by apply lc_inv_crash.
  all: first [eapply (Hmove _ []); [symmetry; apply app_nil_r|..] | eapply (Hmove _ [_]); [reflexivity|..] ].
  all: try done; try by apply quit_change_refl.
  all: try (unfold after_unlock, after_workers, after_boot; repeat case_match; simplify_eq; cbn; by auto with lia).
  all: try by intros x ?%elem_of_nil.
  all: try (intros x ->%list_elem_of_singleton; cbn in *; by auto).
  all: try match goal with H : bool_decide _ = true |- _ => apply bool_decide_eq_true in H end.
  all: try (cbn in *; unfold current_or_closed; cbn; by auto with lia).
  - split; [right|done]. split_and!; [done|by apply Z.eqb_eq|exact Hok].
  - intros x ->%list_elem_of_singleton. split; [done|by left].
  - apply Hok.
  - intros x ->%list_elem_of_singleton. split; [done|apply Hok].
  - split; [by left|]. cbn. set_solver.
  - cbn. intros q [->%elem_of_singleton|?]%elem_of_union; [|by apply Hf].
    destruct Hok as [->|?]; [done|by apply Hf].
Qed.

Lemma lc_step_inv s s' : lc_inv s → lc_step s s' → lc_inv s'.
Proof.
  intros Hi Hs. destruct Hs as [s1 Hc|s1 Hc|b t s1 s2 Hr]; [apply lc_inv_go; by auto..|].
  unfold lc_run in Hr. destruct (lc_crashed s1); [done|].
  destruct (lc_threads s1 !! t) as [pc|] eqn:E; [|done]. by eapply lc_action_inv.
Qed.
Lemma lc_reachable_inv s : lc_reachable s → lc_inv s.
Proof.
  intros Hs. refine (rtc_ind_r (λ s, lc_inv s) new_lifecycle _ _ s Hs).
  - split; [done| | |]; cbn; [intros t pc H|intros t pc H|intros q H]; set_solver.
  - intros s1 s2 _ Hstep Hi. by eapply lc_step_inv.
Qed.
End protocol.
