(* ===== verification/LifecycleTheorems.v ===== *)
(** * What starting and stopping guarantees

    Properties of the protocol of Lifecycle.v, for the submitter and the
    reporter. *)

From S2P Require Import Prelude Lifecycle.

(** Schedules, to exhibit executions. *)
Inductive lc_event := CallStart | CallStop | Act (b : branch) (t : nat).
Definition lc_do (lp : lc_program) (e : lc_event) (s : lifecycle) : option lifecycle :=
  match e with
  | CallStart => if lc_crashed s then None else Some (lc_go StartLock s)
  | CallStop => if lc_crashed s then None else Some (lc_go StopLock s)
  | Act b t => lc_run lp b t s
  end.
Fixpoint lc_exec (lp : lc_program) (es : list lc_event) (s : lifecycle) : option lifecycle :=
  match es with [] => Some s | e :: es => s1 ← lc_do lp e s; lc_exec lp es s1 end.

Lemma lc_exec_steps lp es s s' : lc_exec lp es s = Some s' → lc_steps lp s s'.
Proof.
  revert s. induction es as [|e es IH]; intros s; cbn; [intros [= <-]; apply rtc_refl|].
  destruct (lc_do lp e s) as [s1|] eqn:E; [|done]. intros H%IH. eapply rtc_l, H.
  destruct e; cbn in E; repeat case_match; simplify_eq; econstructor; done.
Qed.
Lemma lc_exec_app lp es es' s s1 : lc_exec lp es s = Some s1 → lc_exec lp (es ++ es') s = lc_exec lp es' s1.
Proof.
  revert s. induction es as [|e es IH]; intros s; cbn; [by intros [= ->]|].
  destruct (lc_do lp e s) as [s2|]; [apply IH|done].
Qed.

(** ** What closing the channel reaches *)






(** The submitter is started and stopped. *)
Definition start_submitter : list lc_event :=
  [CallStart; Act Event 0; Act Event 0; Act Event 0; Act Event 0; Act Event 0; Act Event 0; Act Event 0;
   Act Event 1; Act Event 2].


(** ** A poller that blocks *)

(** The poller sends on the full channel, nobody receives, and a [Start] waits with the
    mutex. *)
Record hung (lp : lc_program) (start poll : nat) (s : lifecycle) : Prop := {
  hu_inv : lc_inv s;
  hu_mu : lc_mu s = Some start;
  hu_start : lc_threads s !! start = Some StartWait;
  hu_poll : ∃ q, lc_threads s !! poll = Some (PollSend q);
  hu_full : capacity lp ≤ lc_chan s;
  hu_nobody : ∀ t q, lc_threads s !! t ≠ Some (WorkerSelect Processor q) ∧ lc_threads s !! t ≠ Some (ProcSend q);
}.
Definition receives (pc : lpc) : bool :=
  match pc with WorkerSelect Processor _ | ProcSend _ => true | _ => false end.

Lemma hung_run lp a p b t s s' :
  hung lp a p s → lc_run lp b t s = Some s' →
  lc_mu s' = lc_mu s ∧ lc_chan s ≤ lc_chan s' ∧
  (lc_threads s' = lc_threads s ∨
   t ≠ a ∧ t ≠ p ∧ ∃ pc' new, lc_threads s' = <[t := pc']> (lc_threads s) ++ new ∧
     receives pc' = false ∧ (∀ x, x ∈ new → receives x = false)).
Proof.
  intros [Hi Hm Ha [q Hp] Hf Hn] Hr. unfold lc_run in Hr. destruct (lc_crashed s); [done|].
  destruct (lc_threads s !! t) as [pc|] eqn:E; [|done]. cbn in Hr.
  assert (pc ≠ StartWait) as Hw.
  { intros ->. cbn in Hr. destruct (Z.eqb_spec (lc_wg s) 0) as [H0|]; [|done].
    rewrite (lc_counted _ Hi) in H0. by pose proof (lc_live_zero _ _ _ H0 Hp). }
  assert (∀ q', pc ≠ PollSend q') as Hps.
  { intros q' ->. cbn in Hr. by rewrite (proj2 (Z.ltb_ge _ _) Hf) in Hr. }
  assert (t ≠ a) as Hta by (intros ->; congruence).
  assert (t ≠ p) as Htp by (intros ->; rewrite Hp in E; simplify_eq; by eapply Hps).
  assert (holds_mu pc = false) as Hh.
  { destruct (holds_mu pc) eqn:Hh; [|done]. pose proof (lc_mutex _ Hi _ _ E Hh). congruence. }
  assert (receives pc = false) as Hrc.
  { destruct (receives pc) eqn:Er; [|done]. exfalso. destruct pc as []; try done; [destruct w; try done|];
      destruct (Hn t quit); congruence. }
  assert (∀ pc' new, lc_threads s' = <[t := pc']> (lc_threads s) ++ new → receives pc' = false →
    (∀ x, x ∈ new → receives x = false) → lc_threads s' = lc_threads s ∨
    t ≠ a ∧ t ≠ p ∧ ∃ pc' new, lc_threads s' = <[t := pc']> (lc_threads s) ++ new ∧
     receives pc' = false ∧ (∀ x, x ∈ new → receives x = false)) as Hmv by (right; eauto 8).
  destruct pc; cbn [lc_action select_action] in Hr; unfold select_action in Hr; rewrite ?Hm in Hr; cbn in Hh, Hrc;
    try done; repeat case_match; simplify_eq; try by destruct (Hps quit).
  all: split_and!; [done|cbn; lia|]; try by left.
  all: first [eapply (Hmv _ []); [symmetry; apply app_nil_r| |by intros x ?%elem_of_nil]
             | eapply (Hmv _ [_]); [reflexivity| |by intros x ->%list_elem_of_singleton] ].
  all: unfold after_unlock, after_workers, after_boot; repeat case_match; done.
Qed.
Lemma receives_lookup (ths : list lpc) : (∀ t q, ths !! t ≠ Some (WorkerSelect Processor q) ∧ ths !! t ≠ Some (ProcSend q)) ↔
  ∀ t pc, ths !! t = Some pc → receives pc = false.
Proof.
  split; intros H t.
  - intros pc E. destruct (receives pc) eqn:Er; [|done]. exfalso.
    destruct pc; try done; [destruct w; try done|]; destruct (H t quit); congruence.
  - intros q. split; intros E; by apply H in E.
Qed.
Lemma hung_step lp a p s s' : hung lp a p s → lc_step lp s s' → hung lp a p s'.
Proof.
  intros Hd Hs. assert (lc_inv s') as Hi' by (eapply lc_step_inv; [apply Hd|done]).
  destruct Hs as [s Hc|s Hc|b t s s' Hr].
  1,2: destruct Hd as [_ ? Ha [q Hp] ? Hn]; split; [done|done|..]; cbn; eauto using lookup_app_l_Some;
    apply receives_lookup; intros t pc [E|[_ [_ <-]%list_lookup_singleton_Some]]%lookup_app_Some; [|done];
    by eapply receives_lookup in E.
  destruct (hung_run _ _ _ _ _ _ _ Hd Hr) as (Hm & Hch & Hths).
  destruct Hd as [_ Hmu Ha [q Hp] Hf Hn].
  destruct Hths as [E|(Hta & Htp & pc' & new & E & Hpc & Hnew)].
  { split; rewrite ?E; eauto; [by rewrite Hm|lia]. }
  split; [done|by rewrite Hm|..]; rewrite ?E; [|exists q| |].
  1,2: apply lookup_app_l_Some; by rewrite list_lookup_insert_ne.
  - lia.
  - apply receives_lookup. intros t2 pc2 [H2|[_ H2%list_elem_of_lookup_2]]%lookup_app_Some; [|by apply Hnew].
    apply list_lookup_insert_Some in H2 as [[-> [-> _]]|[_ H2]]; [done|]. by eapply receives_lookup in H2.
Qed.

(** The poller fills the channel. *)
Definition filling (k : nat) : lifecycle :=
  mkLife None 0 ∅ true 2 (Z.of_nat k) ∅ false [LDone; WorkerSelect Poller 0; WorkerSelect Processor 0].
Lemma fill n k : (k ≤ n)%nat → lc_steps (SubmitterProgram (Z.of_nat n)) new_lifecycle (filling k).
Proof.
  induction k as [|k IH]; intros Hk; [by apply (lc_exec_steps _ start_submitter)|].
  etrans; [apply IH; lia|].
  apply (lc_exec_steps _ [Act Event 1; Act Event 1; Act Event 1]). unfold lc_exec, lc_do, lc_run.
  cbn -[Z.of_nat]. rewrite (proj2 (Z.ltb_lt _ _)) by lia. cbn -[Z.of_nat]. unfold chan_add, goto, filling.
  cbn -[Z.of_nat]. do 2 f_equal. lia.
Qed.
Definition hung_state (n : nat) : lifecycle :=
  mkLife (Some 4%nat) 0 {[0%nat]} true 1 (Z.of_nat n) ∅ false [LDone; PollSend 0; LDone; LDone; StartWait].
Lemma hung_reached n : lc_reachable (SubmitterProgram (Z.of_nat n)) (hung_state n).
Proof.
  unfold lc_reachable. etrans; [apply (fill n n); lia|].
  apply (lc_exec_steps _ [Act Event 1; Act Event 1; CallStop; Act Event 3; Act Event 3; Act Event 3;
    Act Quit 2; CallStart; Act Event 4; Act Event 4]). by vm_compute.
Qed.

(** A submitter that is stopped may never be restarted.  The poller's send does
    not look at [quit]: for every size of the channel there is a state in which
    [Stop] has closed [quit], the goroutine that receives has ended, the channel is
    full and the poller is in its send; a [Start] then waits for the poller with
    the mutex, and neither ever proceeds, whatever else happens. *)
Theorem submitter_restart_can_hang (n : nat) :
  ∃ s start poll, lc_reachable (SubmitterProgram (Z.of_nat n)) s ∧ lc_quit s ∈ lc_closed s ∧
    lc_chan s = Z.of_nat n ∧
    ∀ s', lc_steps (SubmitterProgram (Z.of_nat n)) s s' →
      lc_threads s' !! start = Some StartWait ∧ lc_mu s' = Some start ∧
      (∃ q, lc_threads s' !! poll = Some (PollSend q)) ∧ 1 ≤ lc_wg s'.
Proof.
  exists (hung_state n), 4%nat, 1%nat. pose proof (hung_reached n) as Hr.
  split_and!; [done|cbn; set_solver|done|]. intros s' Hs.
  assert (hung (SubmitterProgram (Z.of_nat n)) 4 1 s') as [Hi ? ? [q Hp] ? ?].
  { assert (hung (SubmitterProgram (Z.of_nat n)) 4 1 (hung_state n)) as Hd.
    { split; [by eapply lc_reachable_inv|done|done|by exists 0%nat|done|].
      intros t q. by do 5 (destruct t as [|t]; [done|]). }
    clear Hr. revert Hd. induction Hs; [done|]. eauto using hung_step. }
  split_and!; [done..|by exists q|]. rewrite (lc_counted _ Hi).
  rewrite <-(take_drop_middle _ _ _ Hp), lc_live_app, lc_live_cons.
  pose proof (lc_live_nonneg (take 1 (lc_threads s'))).
  pose proof (lc_live_nonneg (drop 2 (lc_threads s'))). change (counted (PollSend q)) with 1. lia.
Qed.

(** ** A goroutine that waits for the mutex *)

(** A [Start] that waits with the mutex for a goroutine that waits for the mutex. *)
Definition deadlocked (start t : nat) (w : worker) (s : lifecycle) : Prop :=
  lc_inv s ∧ lc_mu s = Some start ∧
  lc_threads s !! start = Some StartWait ∧ lc_threads s !! t = Some (WorkerLock w).

Lemma deadlocked_run lp a c w b t s s' :
  deadlocked a c w s → lc_run lp b t s = Some s' →
  lc_mu s' = lc_mu s ∧ (lc_threads s' = lc_threads s ∨
    t ≠ a ∧ t ≠ c ∧ ∃ pc' new, lc_threads s' = <[t := pc']> (lc_threads s) ++ new).
Proof.
  intros (Hi & Hm & Ha & Hc) Hr. unfold lc_run in Hr. destruct (lc_crashed s); [done|].
  assert (t ≠ c) as Htc.
  { intros ->. rewrite Hc in Hr. cbn in Hr. by rewrite Hm in Hr. }
  assert (t ≠ a) as Hta.
  { intros ->. rewrite Ha in Hr. cbn in Hr. destruct (Z.eqb_spec (lc_wg s) 0) as [H0|]; [|done].
    rewrite (lc_counted _ Hi) in H0. by pose proof (lc_live_zero _ _ _ H0 Hc). }
  destruct (lc_threads s !! t) as [pc|] eqn:E; [|done]. cbn in Hr.
  assert (holds_mu pc = false) as Hh.
  { destruct (holds_mu pc) eqn:Hh; [|done]. pose proof (lc_mutex _ Hi _ _ E Hh). congruence. }
  assert (∀ pc', lc_threads s' = <[t := pc']> (lc_threads s) →
    lc_threads s' = lc_threads s ∨ t ≠ a ∧ t ≠ c ∧ ∃ pc' new, lc_threads s' = <[t := pc']> (lc_threads s) ++ new)
    as Hmv by (intros pc' E'; right; split_and!; [done..|]; exists pc', []; by rewrite app_nil_r).
  destruct pc; cbn in Hr, Hh; try done; unfold select_action in Hr; rewrite ?Hm in Hr; repeat case_match;
    simplify_eq; (split; [done|]); first [by left | by eapply Hmv | right; cbn; eauto].
Qed.

Lemma deadlocked_step lp a c w s s' : deadlocked a c w s → lc_step lp s s' → deadlocked a c w s'.
Proof.
  intros Hd Hs. assert (lc_inv s') as Hi' by (eapply lc_step_inv; [apply Hd|done]).
  destruct Hs as [s Hcr|s Hcr|b t s s' Hr].
  1,2: destruct Hd as (? & ? & Ha & Hb); split; [done|]; cbn; eauto using lookup_app_l_Some.
  destruct (deadlocked_run _ _ _ _ _ _ _ _ Hd Hr) as (Hm & Hths).
  destruct Hd as (? & Hmu & Ha & Hb). split; [done|]. rewrite Hm, Hmu. split; [done|].
  destruct Hths as [-> |(? & ? & pc' & new & ->)]; [done|].
  split; apply lookup_app_l_Some; by rewrite list_lookup_insert_ne.
Qed.

(** Schedules after which the first goroutine of a [Start] has not read [quit] when the
    program was stopped and is being restarted. *)
Definition deadlock_schedule (lp : lc_program) : list lc_event :=
  match lp with
  | SubmitterProgram _ =>
      [CallStart; Act Event 0; Act Event 0; Act Event 0; Act Event 0; CallStop;
       Act Event 2; Act Event 2; Act Event 2; CallStart; Act Event 3; Act Event 3]
  | ReporterProgram =>
      [CallStart; Act Event 0; Act Event 0; Act Event 0; Act Event 0; Act Event 0; Act Event 0; Act Event 1;
       Act Event 1; Act Event 0; Act Event 0; Act Event 0; CallStop; Act Event 3; Act Event 3; Act Event 3;
       CallStart; Act Event 4; Act Event 4]
  end.

(** A restart can block for ever.  A goroutine reads the channel under the
    mutex that a restarting [Start] holds while it waits for the goroutines to
    end: if it was not scheduled before the program was stopped and started
    again, neither proceeds, whatever else happens. *)
Theorem restart_can_deadlock (lp : lc_program) :
  ∃ s start t w, lc_reachable lp s ∧
    lc_threads s !! start = Some StartWait ∧ lc_threads s !! t = Some (WorkerLock w) ∧
    ∀ s', lc_steps lp s s' →
      lc_threads s' !! start = Some StartWait ∧ lc_threads s' !! t = Some (WorkerLock w).
Proof.
  assert (∃ s start t w, lc_reachable lp s ∧ lc_mu s = Some start ∧
    lc_threads s !! start = Some StartWait ∧ lc_threads s !! t = Some (WorkerLock w))
    as (s & a & c & w & Hr & Hm & Ha & Hc).
  { destruct (lc_exec lp (deadlock_schedule lp) new_lifecycle) as [s|] eqn:E; [|destruct lp; vm_compute in E; done].
    pose proof (lc_exec_steps _ _ _ _ E) as Hr. destruct lp as [n|].
    - exists s, 3%nat, 1%nat, Poller. split; [done|]. vm_compute in E. by simplify_eq.
    - exists s, 4%nat, 2%nat, BlockHandler. split; [done|]. vm_compute in E. by simplify_eq. }
  exists s, a, c, w. split_and!; [done..|]. intros s' Hs.
  enough (deadlocked a c w s') as (_ & _ & ? & ?) by done.
  assert (deadlocked a c w s) as Hd by (split; [by eapply lc_reachable_inv|done]).
  clear Hr Hm Ha Hc. induction Hs; [done|]. eauto using deadlocked_step.
Qed.

(** Two calls of [Stop] can both find the channel open; the second close panics. *)
Theorem concurrent_stop_can_panic (lp : lc_program) :
  ∃ s, lc_reachable lp s ∧ lc_crashed s = true.
Proof.
  exists (mkLife None 0 {[0%nat]} false 0 0 ∅ true [LDone; StopClose 0]). split; [|done].
  by apply (lc_exec_steps lp [CallStop; CallStop; Act Event 0; Act Event 1; Act Event 0; Act Event 1;
    Act Event 0; Act Event 1]).
Qed.

(** The cleanup of the checkpoint cache is not waited for: a restart of the reporter
    can replace the channel while the one of the run before is in its loop. *)
Example cleanup_outlives_restart :
  ∃ s t, lc_reachable ReporterProgram s ∧ lc_threads s !! t = Some (Cleanup 0) ∧ lc_quit s = 1%nat.
Proof.
  destruct (lc_exec ReporterProgram
    [CallStart; Act Event 0; Act Event 0; Act Event 0; Act Event 0; Act Event 0; Act Event 0; Act Event 1;
     Act Event 1; Act Event 0; Act Event 0; Act Event 0; Act Event 0; Act Event 0; Act Event 2; CallStop;
     Act Event 4; Act Event 4; Act Event 4; Act Quit 2; CallStart; Act Event 5; Act Event 5; Act Event 5]
    new_lifecycle) as [s|] eqn:E; [|done].
  exists s, 3%nat. split; [by eapply lc_exec_steps|]. vm_compute in E. by simplify_eq.
Qed.
