(* ===== verification/MonitorPipeline.v ===== *)
(** * The goroutines of the monitor and their channels

    [monitor/monitor.go] ([Start], [Stop], [runBTCScanner]),
    [monitor/liveness_checker.go] ([runLivenessChecker]) and
    [monitor/btcscanner/btc_scanner.go] ([Start], [Stop]) run four goroutines: the
    scanner's block handler, which sends confirmed blocks; the scanner's loop,
    which receives them, sends their headers and the checkpoints found; the
    monitor's loop, which receives blocks and checkpoints; and the liveness
    checker.  [pipe_step] is one step of one of them, with bounded channels that
    block.  A channel's field in [BtcScanner] holds everything ever given to it:
    of [confirmedBlocksChan] the first [p_sent] values have been sent and the first
    [p_taken] received, of [checkpointsChan] the first [p_ckpts] received.  The
    handler computes an event in one step, on one state of the node, and starts the
    next when its sends are done; the channels are all it shares with the others.
    The notifier starts, and buffers have at least one place.

    No goroutine receives from [blockHeaderChan]. *)

From S2P Require Import Prelude Blocks BTCCache CkptCache Retry BTCClient Reporter EpochInfo.
From S2P Require Import Stores Scanner Monitor.

(** The scanner's loop: at its [select], or at one of its sends. *)
Inductive loop_pc :=
| LoopSelect
| LoopSendHeader (b : IndexedBlock)
| LoopExtract (b : IndexedBlock)
| LoopSendCkpt (c : CheckpointRecord)
| LoopWait
| LoopDone.
(** The loops [for m.started.Load() { select ... }]: at the test, at the [select],
    and after the loop, which for the monitor is [m.wg.Wait()]. *)
Inductive started_pc := AtLoad | AtSelect | AtExit | AtDone.
Inductive handler_pc := HandlerBoot | HandlerRun | HandlerDone.

Section pipeline.
Context {BL : BTCLib} {BF : BabylonFormatter} {GS : GoSort} {BLS : BLSLib} {RT : Retry}.
Context {W : Type} {CK : Clock W} {BTC : BTCClient W}.
Context {WM : Type} {BQ : BabylonQueryClient WM} {KV : KVDB WM}.
Context (FromBTCCkptBytesToRawCkpt : bytes → result RawCheckpoint).
Context (ord0 : gmap Hash CkptSegment → list (Hash * CkptSegment)).
Context (ord1 : Hash → gmap Hash CkptSegment → list (Hash * CkptSegment)).
Context (Cfg : MonitorConfig) (BtcBlockBufferSize CheckpointBufferSize : nat).

Record pipe := mkPipe {
  p_scan : BtcScanner * W;
  p_mon : Monitor * WM;
  p_sent : nat;
  p_taken : nat;
  p_ckpts : nat;
  p_handler : handler_pc;
  p_loop : loop_pc;
  p_monpc : started_pc;
  p_live : started_pc;
  p_started : bool;
  p_quit : bool;    (* [m.quit] is closed *)
  p_squit : bool;   (* [bs.quit] is closed *)
  p_wg : Z;
  (** the history: who received which confirmed block *)
  p_scanned : list IndexedBlock;
  p_checked : list IndexedBlock;
}.
Definition p_blocks (p : pipe) : list IndexedBlock := confirmedBlocksChan (fst (p_scan p)).
Definition p_headers (p : pipe) : list BlockHeader := blockHeaderChan (fst (p_scan p)).
Definition p_found (p : pipe) : list CheckpointRecord := checkpointsChan (fst (p_scan p)).

Definition set_scan x p := mkPipe x (p_mon p) (p_sent p) (p_taken p) (p_ckpts p) (p_handler p) (p_loop p)
  (p_monpc p) (p_live p) (p_started p) (p_quit p) (p_squit p) (p_wg p) (p_scanned p) (p_checked p).
Definition set_mon x p := mkPipe (p_scan p) x (p_sent p) (p_taken p) (p_ckpts p) (p_handler p) (p_loop p)
  (p_monpc p) (p_live p) (p_started p) (p_quit p) (p_squit p) (p_wg p) (p_scanned p) (p_checked p).
Definition set_handler h p := mkPipe (p_scan p) (p_mon p) (p_sent p) (p_taken p) (p_ckpts p) h (p_loop p)
  (p_monpc p) (p_live p) (p_started p) (p_quit p) (p_squit p) (p_wg p) (p_scanned p) (p_checked p).
Definition set_loop l p := mkPipe (p_scan p) (p_mon p) (p_sent p) (p_taken p) (p_ckpts p) (p_handler p) l
  (p_monpc p) (p_live p) (p_started p) (p_quit p) (p_squit p) (p_wg p) (p_scanned p) (p_checked p).
Definition set_monpc c p := mkPipe (p_scan p) (p_mon p) (p_sent p) (p_taken p) (p_ckpts p) (p_handler p)
  (p_loop p) c (p_live p) (p_started p) (p_quit p) (p_squit p) (p_wg p) (p_scanned p) (p_checked p).
Definition set_live c p := mkPipe (p_scan p) (p_mon p) (p_sent p) (p_taken p) (p_ckpts p) (p_handler p)
  (p_loop p) (p_monpc p) c (p_started p) (p_quit p) (p_squit p) (p_wg p) (p_scanned p) (p_checked p).
Definition unset_started p := mkPipe (p_scan p) (p_mon p) (p_sent p) (p_taken p) (p_ckpts p) (p_handler p)
  (p_loop p) (p_monpc p) (p_live p) false (p_quit p) (p_squit p) (p_wg p) (p_scanned p) (p_checked p).
Definition close_quits q sq p := mkPipe (p_scan p) (p_mon p) (p_sent p) (p_taken p) (p_ckpts p) (p_handler p)
  (p_loop p) (p_monpc p) (p_live p) (p_started p) q sq (p_wg p) (p_scanned p) (p_checked p).
Definition wg_done p := mkPipe (p_scan p) (p_mon p) (p_sent p) (p_taken p) (p_ckpts p) (p_handler p)
  (p_loop p) (p_monpc p) (p_live p) (p_started p) (p_quit p) (p_squit p) (p_wg p - 1) (p_scanned p) (p_checked p).
Definition send_block p := mkPipe (p_scan p) (p_mon p) (S (p_sent p)) (p_taken p) (p_ckpts p) (p_handler p)
  (p_loop p) (p_monpc p) (p_live p) (p_started p) (p_quit p) (p_squit p) (p_wg p) (p_scanned p) (p_checked p).
Definition take_ckpt p := mkPipe (p_scan p) (p_mon p) (p_sent p) (p_taken p) (S (p_ckpts p)) (p_handler p)
  (p_loop p) (p_monpc p) (p_live p) (p_started p) (p_quit p) (p_squit p) (p_wg p) (p_scanned p) (p_checked p).
Definition take_scanned b p := mkPipe (p_scan p) (p_mon p) (p_sent p) (S (p_taken p)) (p_ckpts p)
  (p_handler p) (p_loop p) (p_monpc p) (p_live p) (p_started p) (p_quit p) (p_squit p) (p_wg p)
  (p_scanned p ++ [b]) (p_checked p).
Definition take_checked b p := mkPipe (p_scan p) (p_mon p) (p_sent p) (S (p_taken p)) (p_ckpts p)
  (p_handler p) (p_loop p) (p_monpc p) (p_live p) (p_started p) (p_quit p) (p_squit p) (p_wg p)
  (p_scanned p) (p_checked p ++ [b]).

(** The next block in the channel. *)
Definition received (p : pipe) : option IndexedBlock :=
  if (p_taken p <? p_sent p)%nat then p_blocks p !! p_taken p else None.

Context (event_ok : scan_event → Prop).

(** [bootstrapAndBlockEventHandler] *)
Inductive handler_step : pipe → pipe → Prop :=
| P_boot fuel p x :
    p_handler p = HandlerBoot → p_sent p = length (p_blocks p) →
    bootstrapAndBlockEventHandler fuel [] (p_scan p) = (Val tt, x) →
    handler_step p (set_handler HandlerRun (set_scan x p))
| P_event fuel height header p x :
    p_handler p = HandlerRun → p_sent p = length (p_blocks p) → event_ok (ScanEpoch height header) →
    scan_loop fuel [ScanEpoch height header] (p_scan p) = (Val tt, x) →
    handler_step p (set_scan x p)
(** the notifier's channel is closed, or [quit] is *)
| P_handler_exit p :
    p_handler p = HandlerRun → p_sent p = length (p_blocks p) → handler_step p (set_handler HandlerDone p)
(** [bs.confirmedBlocksChan <- blocks[i]] *)
| P_send p :
    (p_sent p < length (p_blocks p))%nat → (p_sent p - p_taken p < BtcBlockBufferSize)%nat →
    handler_step p (send_block p).
(** The scanner's [Start] after it has started the handler. *)
Inductive loop_step : pipe → pipe → Prop :=
| P_loop_receive p b :
    p_loop p = LoopSelect → received p = Some b →
    loop_step p (set_loop (LoopSendHeader b) (take_scanned b p))
| P_loop_header p b :
    p_loop p = LoopSendHeader b → (length (p_headers p) < BtcBlockBufferSize)%nat →
    loop_step p (set_loop (LoopExtract b) (set_scan (push_header (Header b) (fst (p_scan p)), snd (p_scan p)) p))
| P_loop_none p b x :
    p_loop p = LoopExtract b →
    tryToExtractCheckpoint FromBTCCkptBytesToRawCkpt ord0 ord1 b (p_scan p) = (Val None, x) →
    loop_step p (set_loop LoopSelect (set_scan x p))
| P_loop_found p b c x :
    p_loop p = LoopExtract b →
    tryToExtractCheckpoint FromBTCCkptBytesToRawCkpt ord0 ord1 b (p_scan p) = (Val (Some c), x) →
    loop_step p (set_loop (LoopSendCkpt c) (set_scan x p))
| P_loop_ckpt p c :
    p_loop p = LoopSendCkpt c → (length (p_found p) - p_ckpts p < CheckpointBufferSize)%nat →
    loop_step p (set_loop LoopSelect (set_scan (push_checkpoint c (fst (p_scan p)), snd (p_scan p)) p))
| P_loop_quit p :
    p_loop p = LoopSelect → p_squit p = true → loop_step p (set_loop LoopWait p)
(** [bs.wg.Wait()] for the handler, then [m.wg.Done()] of [runBTCScanner] *)
| P_loop_wait p :
    p_loop p = LoopWait → p_handler p = HandlerDone → loop_step p (wg_done (set_loop LoopDone p)).
(** The loop of the monitor's [Start]. *)
Inductive monitor_step : pipe → pipe → Prop :=
| P_mon_load p :
    p_monpc p = AtLoad → monitor_step p (set_monpc (if p_started p then AtSelect else AtExit) p)
| P_mon_quit p :
    p_monpc p = AtSelect → p_quit p = true → monitor_step p (unset_started (set_monpc AtLoad p))
| P_mon_block p b x :
    p_monpc p = AtSelect → received p = Some b →
    monitor_event_step Cfg (MonBlock b) (p_mon p) = (Val tt, x) →
    monitor_step p (set_monpc AtLoad (set_mon x (take_checked b p)))
| P_mon_ckpt p c x :
    p_monpc p = AtSelect → p_found p !! p_ckpts p = Some c →
    monitor_event_step Cfg (MonCkpt c) (p_mon p) = (Val tt, x) →
    monitor_step p (set_monpc AtLoad (set_mon x (take_ckpt p)))
| P_mon_wait p :
    p_monpc p = AtExit → p_wg p = 0 → monitor_step p (set_monpc AtDone p).
(** [runLivenessChecker] *)
Inductive liveness_step : pipe → pipe → Prop :=
| P_live_load p :
    p_live p = AtLoad → liveness_step p (set_live (if p_started p then AtSelect else AtDone) p)
| P_live_quit p :
    p_live p = AtSelect → p_quit p = true → liveness_step p (wg_done (unset_started (set_live AtLoad p)))
| P_live_tick p order x :
    p_live p = AtSelect → liveness_tick Cfg order (p_mon p) = (Val tt, x) →
    liveness_step p (set_live AtLoad (set_mon x p)).
(** [Stop] *)
Inductive stop_step : pipe → pipe → Prop :=
| P_stop p : p_quit p = false → stop_step p (close_quits true (p_squit p) p)
| P_stop_scanner p : p_quit p = true → p_squit p = false → stop_step p (close_quits true true p).
(** A step of one goroutine, or of the node and the clock. *)
Inductive pipe_step : pipe → pipe → Prop :=
| P_handler p p' : handler_step p p' → pipe_step p p'
| P_loop p p' : loop_step p p' → pipe_step p p'
| P_monitor p p' : monitor_step p p' → pipe_step p p'
| P_liveness p p' : liveness_step p p' → pipe_step p p'
| P_Stop p p' : stop_step p p' → pipe_step p p'
| P_world w p : pipe_step p (set_scan (fst (p_scan p), w) p).
Definition pipe_steps : pipe → pipe → Prop := rtc pipe_step.

(** [Start] after it has started the goroutines. *)
Definition pipe_init (s : BtcScanner) (w : W) (m : Monitor * WM) : pipe :=
  mkPipe (s, w) m 0 0 0 HandlerBoot LoopSelect AtLoad
    (if EnableLivenessChecker Cfg then AtLoad else AtDone) true false false
    (if EnableLivenessChecker Cfg then 2 else 1) [] [].
End pipeline.
