(* ===== verification/MonitorPipelineProps.v ===== *)
(** * Invariants of the monitor's goroutines

    What the handler and the extraction of checkpoints leave alone, and the
    invariant of [pipe_step]. *)

From S2P Require Import Prelude Blocks BTCCache CkptCache Retry BTCClient Window Reporter EpochInfo.
From S2P Require Import Stores Scanner ScannerProps Monitor MonitorPipeline.

(** [merge l1 l2 l]: [l] is an interleaving of [l1] and [l2]. *)
Inductive merge {A} : list A → list A → list A → Prop :=
| merge_nil : merge [] [] []
| merge_left l1 l2 l x : merge l1 l2 l → merge (l1 ++ [x]) l2 (l ++ [x])
| merge_right l1 l2 l x : merge l1 l2 l → merge l1 (l2 ++ [x]) (l ++ [x]).

Lemma merge_perm {A} (l1 l2 l : list A) : merge l1 l2 l → l ≡ₚ l1 ++ l2.
Proof.
  induction 1 as [|l1 l2 l x _ IH|l1 l2 l x _ IH]; [done|..]; rewrite IH; [|by rewrite app_assoc].
  rewrite <-!app_assoc. by rewrite (Permutation_app_comm l2 [x]).
Qed.
Lemma merge_sublist {A} (l1 l2 l : list A) : merge l1 l2 l → l1 `sublist_of` l ∧ l2 `sublist_of` l.
Proof.
  induction 1 as [|l1 l2 l x _ [IH1 IH2]|l1 l2 l x _ [IH1 IH2]]; [done|..];
    split; solve [by apply sublist_app | by apply sublist_inserts_r].
Qed.

Section frames.
Context {BL : BTCLib} {BF : BabylonFormatter} {GS : GoSort}.
Context {W : Type} {CK : Clock W} {BTC : BTCClient W}.
Context (s0 : BtcScanner).

(** ** The handler only appends to [confirmedBlocksChan] *)
Definition handler_frame (x : BtcScanner * W) : Prop :=
  confirmedBlocksChan s0 `prefix_of` confirmedBlocksChan (fst x) ∧
  blockHeaderChan (fst x) = blockHeaderChan s0 ∧ checkpointsChan (fst x) = checkpointsChan s0.

Lemma hf_world {A} (m : M W A) : preserves handler_frame (on_world m).
Proof. intros [s w] Hs. rewrite on_world_run. by destruct (m w). Qed.
Lemma hf_gets {A} (f : BtcScanner → A) : preserves handler_frame (on_self (gets f)).
Proof. intros [s w] Hs. done. Qed.
Lemma hf_cache {A} (m : M BTCCache A) : preserves handler_frame (on_cache m).
Proof. intros [s w] Hs. rewrite on_cache_run. by destruct (m _). Qed.
Lemma hf_send bs : preserves handler_frame (sendConfirmedBlocksToChan bs).
Proof. intros [s w] (Hp & Hh & Hc). rewrite send_run. split; [|done]. cbn. by apply prefix_app_r. Qed.
Hint Resolve hf_world hf_gets hf_cache hf_send : preserves.

Lemma hf_for_heights fuel i hi body :
  (∀ j, preserves handler_frame (body j)) → preserves handler_frame (for_heights fuel i hi body).
Proof.
  intros Hb. revert i. induction fuel as [|fuel IH]; intros i; cbn [for_heights]; preserve; auto.
Qed.
Lemma hf_Bootstrap fuel : preserves handler_frame (Bootstrap fuel).
Proof.
  unfold Bootstrap. preserve; apply hf_for_heights; intros j;
    [unfold bootstrap_confirmed|unfold bootstrap_unconfirmed]; preserve.
Qed.
Lemma hf_handleNewBlock height header : preserves handler_frame (handleNewBlock height header).
Proof. unfold handleNewBlock, confirmBlocks. preserve. Qed.
Hint Resolve hf_Bootstrap hf_handleNewBlock : preserves.
Lemma hf_scan_loop fuel evs : preserves handler_frame (scan_loop fuel evs).
Proof. induction evs as [|[] evs IH]; cbn [scan_loop]; preserve. Qed.
Lemma hf_handler fuel evs : preserves handler_frame (bootstrapAndBlockEventHandler fuel evs).
Proof. pose proof hf_scan_loop. unfold bootstrapAndBlockEventHandler. preserve; auto. Qed.

(** ** The extraction only changes the checkpoint cache *)
Context (FromBTCCkptBytesToRawCkpt : bytes → result RawCheckpoint).
Context (ord0 : gmap Hash CkptSegment → list (Hash * CkptSegment)).
Context (ord1 : Hash → gmap Hash CkptSegment → list (Hash * CkptSegment)).

Definition extract_frame (x : BtcScanner * W) : Prop := ∃ c, fst x = set_ckptCache c s0.
Lemma ef_world {A} (m : M W A) : preserves extract_frame (on_world m).
Proof. intros [s w] Hs. rewrite on_world_run. by destruct (m w). Qed.
Lemma ef_ckpts {A} (m : M CheckpointCache A) : preserves extract_frame (on_ckpts m).
Proof.
  intros [s w] [c Hs]. cbn in Hs. subst s. unfold on_ckpts, on_self, zoom. cbn.
  destruct (m c) as [o c']. by exists c'.
Qed.
Hint Resolve ef_world ef_ckpts : preserves.
Lemma ef_extract b :
  preserves extract_frame (tryToExtractCheckpoint FromBTCCkptBytesToRawCkpt ord0 ord1 b).
Proof. unfold tryToExtractCheckpoint, tryToExtractCkptSegment, extract_seg, matchAndPop. preserve. Qed.
End frames.

Section pipe.
Context {BL : BTCLib} {BF : BabylonFormatter} {GS : GoSort} {BLS : BLSLib} {RT : Retry}.
Context {W : Type} {CK : Clock W} {BTC : BTCClient W}.
Context {WM : Type} {BQ : BabylonQueryClient WM} {KV : KVDB WM}.
Context (FromBTCCkptBytesToRawCkpt : bytes → result RawCheckpoint).
Context (ord0 : gmap Hash CkptSegment → list (Hash * CkptSegment)).
Context (ord1 : Hash → gmap Hash CkptSegment → list (Hash * CkptSegment)).
Context (Cfg : MonitorConfig) (blockBuf ckptBuf : nat).
Context (known : Hash → MsgBlock → Z → Prop) {LAWS : BTCClientLaws W known}.
Notation pipe := (pipe (W := W) (WM := WM)).
Notation step := (pipe_step FromBTCCkptBytesToRawCkpt ord0 ord1 Cfg blockBuf ckptBuf (scan_event_ok known)).
Implicit Types (p : pipe).

(** The headers sent are those of the blocks the scanner's loop has received, up
    to the one it is about to send. *)
Definition headers_ok p : Prop :=
  match p_loop p with
  | LoopSendHeader b => ∃ pre, p_scanned p = pre ++ [b] ∧ p_headers p = Header <$> pre
  | _ => p_headers p = Header <$> p_scanned p
  end.

Record pipe_inv p : Prop := {
  pi_scan : scanner_inv known (p_scan p);
  pi_sent : (p_taken p ≤ p_sent p ≤ length (p_blocks p))%nat;
  pi_buf : (p_sent p - p_taken p ≤ blockBuf)%nat;
  pi_merge : merge (p_scanned p) (p_checked p) (take (p_taken p) (p_blocks p));
  pi_headers : headers_ok p;
  pi_hbuf : (length (p_headers p) ≤ blockBuf)%nat;
}.

(** A step that leaves the channels' contents and the history alone. *)
Lemma pipe_inv_same p p' :
  pipe_inv p → scanner_inv known (p_scan p') → p_blocks p' = p_blocks p → p_headers p' = p_headers p →
  p_sent p' = p_sent p → p_taken p' = p_taken p → p_scanned p' = p_scanned p →
  p_checked p' = p_checked p → headers_ok p' → pipe_inv p'.
Proof.
  intros [? ? ? ? ? ?] ? E1 E2 E3 E4 E5 E6 ?. split; rewrite ?E1, ?E2, ?E3, ?E4, ?E5, ?E6; done.
Qed.

Lemma handler_inv_step p p' x :
  pipe_inv p → handler_frame (fst (p_scan p)) x → scanner_inv known x →
  p_scan p' = x → p_sent p' = p_sent p → p_taken p' = p_taken p → p_scanned p' = p_scanned p →
  p_checked p' = p_checked p → p_loop p' = p_loop p → pipe_inv p'.
Proof.
  intros [Hs Hn Hb Hm Hh Hl] ((more & Hmore) & Hh' & _) Hx <- E3 E4 E5 E6 E7.
  assert (p_blocks p' = p_blocks p ++ more) as E1 by done.
  assert (p_headers p' = p_headers p) as E2 by done.
  split; rewrite ?E1, ?E2, ?E3, ?E4, ?E5, ?E6; try done.
  - rewrite length_app. lia.
  - by rewrite take_app_le by lia.
  - unfold headers_ok in *. by rewrite E7, E5, E2.
Qed.

(** A block received by one of the two loops. *)
Lemma received_spec p b :
  received p = Some b →
  (p_taken p < p_sent p)%nat ∧ p_blocks p !! p_taken p = Some b ∧
  take (S (p_taken p)) (p_blocks p) = take (p_taken p) (p_blocks p) ++ [b].
Proof.
  unfold received. destruct (Nat.ltb_spec (p_taken p) (p_sent p)) as [Hlt|]; [|done].
  intros H. split_and!; [done|done|]. by apply take_S_r.
Qed.

Ltac pipe_cbn := unfold p_blocks, p_headers, p_found in *; cbn in *.

Lemma frame_refl (x : BtcScanner * W) : handler_frame (fst x) x.
Proof. done. Qed.

(** The scanner's state when a header or a checkpoint is pushed, or a checkpoint
    extracted. *)
Lemma scanner_inv_ext (s : BtcScanner) (w w' : W) s' :
  scanner_inv known (s, w) → baseHeight s' = baseHeight s → scan_k s' = scan_k s →
  confirmedTipBlock s' = confirmedTipBlock s → confirmedBlocksChan s' = confirmedBlocksChan s →
  unconfirmedBlockCache s' = unconfirmedBlockCache s → scanner_inv known (s', w').
Proof.
  intros [[? ? ? ? ?] [? ?]] E1 E2 E3 E4 E5. cbn in *.
  split; split; cbn; rewrite ?E1, ?E2, ?E3, ?E4, ?E5; done.
Qed.

(** The extraction of a block, whatever it finds. *)
Lemma extract_step_inv p b r x l :
  pipe_inv p → p_loop p = LoopExtract b → (∀ b', l ≠ LoopSendHeader b') →
  tryToExtractCheckpoint FromBTCCkptBytesToRawCkpt ord0 ord1 b (p_scan p) = (Val r, x) →
  pipe_inv (set_loop l (set_scan x p)).
Proof.
  intros Hp El Hl Hx.
  pose proof (ef_extract (fst (p_scan p)) FromBTCCkptBytesToRawCkpt ord0 ord1 b (p_scan p)) as Hf.
  rewrite Hx in Hf. destruct Hf as [c Hf]; [exists (ckptCache (p_scan p).1); by destruct (p_scan p) as [[]]|].
  destruct x as [s' w']. cbn in Hf. subst s'. pose proof (pi_scan _ Hp) as Hs.
  pose proof (pi_headers _ Hp) as Hh. apply (pipe_inv_same p); try done.
  - cbn. eapply scanner_inv_ext; [by rewrite (surjective_pairing (p_scan p)) in Hs|done..].
  - unfold headers_ok in *. rewrite El in Hh. cbn. destruct l; try exact Hh. by destruct (Hl b0).
Qed.

Lemma pipe_step_inv p p' : pipe_inv p → step p p' → pipe_inv p'.
Proof.
  intros Hp Hst. destruct Hst as [?? Hst|?? Hst|?? Hst|?? Hst|?? Hst|w p];
    [destruct Hst as [fuel p x _ _ Hx|fuel height header p x _ _ He Hx|p _ _|p Hlt Hbuf]
    |destruct Hst as [p b El Hr|p b El Hlen|p b x El Hx|p b c x El Hx|p c El Hlen|p El _|p El _]
    |destruct Hst as [p _|p _ _|p b x _ Hr Hx|p c x _ Hc Hx|p _ _]
    |destruct Hst as [p _|p _ _|p order x _ Hx] |destruct Hst as [p _|p _ _]|]; pose proof Hp as [Hs Hn Hb Hm Hh Hl];
    try by apply (pipe_inv_same p).
  - pose proof (hf_handler (fst (p_scan p)) fuel [] _ (frame_refl _)) as Hf. rewrite Hx in Hf.
    pose proof (handler_inv known fuel [] (Forall_nil_2 _) _ Hs) as Hi. rewrite Hx in Hi.
    by eapply handler_inv_step.
  - pose proof (hf_scan_loop (fst (p_scan p)) fuel [ScanEpoch height header] _ (frame_refl _)) as Hf.
    rewrite Hx in Hf.
    pose proof (scan_loop_inv known fuel [ScanEpoch height header] (Forall_cons_2 _ _ _ He (Forall_nil_2 _)) _ Hs) as Hi.
    rewrite Hx in Hi. by eapply handler_inv_step.
  - split; [exact Hs| | |exact Hm|exact Hh|exact Hl]; pipe_cbn; lia.
  - apply received_spec in Hr as (Hlt & Hb' & Ht). unfold p_blocks in *.
    split; [exact Hs|pipe_cbn; lia|pipe_cbn; lia| | |exact Hl].
    + unfold p_blocks. cbn in *. rewrite Ht. by apply merge_left.
    + unfold headers_ok in *. rewrite El in Hh. cbn. eauto.
  - unfold headers_ok in Hh. rewrite El in Hh. destruct Hh as (pre & Epre & Ehd).
    split; [|exact Hn|exact Hb|exact Hm| |]; cbn.
    + eapply scanner_inv_ext; [by rewrite (surjective_pairing (p_scan p)) in Hs|done..].
    + unfold headers_ok. cbn. change (blockHeaderChan (p_scan p).1) with (p_headers p).
      by rewrite Ehd, Epre, fmap_app.
    + rewrite length_app. cbn. fold (p_headers p). lia.
  - by eapply extract_step_inv.
  - by eapply extract_step_inv.
  - apply (pipe_inv_same p); try done.
    + cbn. eapply scanner_inv_ext; [by rewrite (surjective_pairing (p_scan p)) in Hs|done..].
    + unfold headers_ok in *. by rewrite El in Hh.
  - apply (pipe_inv_same p); try done. unfold headers_ok in *. by rewrite El in Hh.
  - apply (pipe_inv_same p); try done. unfold headers_ok in *. by rewrite El in Hh.
  - apply received_spec in Hr as (Hlt & Hb' & Ht). unfold p_blocks in *.
    split; [exact Hs|pipe_cbn; lia|pipe_cbn; lia| |exact Hh|exact Hl].
    unfold p_blocks. cbn in *. rewrite Ht. by apply merge_right.
Qed.

Lemma pipe_steps_inv p p' : rtc step p p' → pipe_inv p → pipe_inv p'.
Proof. induction 1; eauto using pipe_step_inv. Qed.

Lemma pipe_init_inv s w m :
  scanner_inv known (s, w) → confirmedBlocksChan s = [] → blockHeaderChan s = [] →
  pipe_inv (pipe_init Cfg s w m).
Proof.
  intros Hs Hb Hh. split; unfold headers_ok, p_blocks, p_headers; cbn; rewrite ?Hb, ?Hh; try done; cbn; try lia.
  constructor.
Qed.

(** ** The scanner's loop stops *)

(** A header that does not fit into its channel is never sent: the loop stays
    where it is, and receives and extracts nothing any more. *)
Lemma header_blocked_step p p' b :
  p_loop p = LoopSendHeader b → (blockBuf ≤ length (p_headers p))%nat → step p p' →
  p_loop p' = p_loop p ∧ p_headers p' = p_headers p ∧ p_scanned p' = p_scanned p ∧ p_found p' = p_found p.
Proof.
  intros El Hlen Hst. destruct Hst as [?? Hst|?? Hst|?? Hst|?? Hst|?? Hst|w p];
    [destruct Hst as [fuel p x _ _ Hx|fuel height header p x _ _ He Hx|p _ _|p Hlt Hbuf]
    |destruct Hst as [p b' El' Hr|p b' El' Hlen'|p b' x El' Hx|p b' c x El' Hx|p c El' Hlen'|p El' _|p El' _]
    |destruct Hst|destruct Hst|destruct Hst|]; try done; try congruence.
  - pose proof (hf_handler (fst (p_scan p)) fuel [] _ (frame_refl _)) as Hf. rewrite Hx in Hf.
    by destruct Hf as (_ & ? & ?).
  - pose proof (hf_scan_loop (fst (p_scan p)) fuel [ScanEpoch height header] _ (frame_refl _)) as Hf.
    rewrite Hx in Hf. by destruct Hf as (_ & ? & ?).
  - assert (b' = b) by congruence. lia.
Qed.

Lemma header_blocked p p' b :
  p_loop p = LoopSendHeader b → (blockBuf ≤ length (p_headers p))%nat → rtc step p p' →
  p_loop p' = p_loop p ∧ p_headers p' = p_headers p ∧ p_scanned p' = p_scanned p ∧ p_found p' = p_found p.
Proof.
  intros El Hlen Hst. induction Hst as [|p p1 p' H1 _ IH]; [done|].
  destruct (header_blocked_step _ _ _ El Hlen H1) as (E1 & E2 & E3 & E4).
  rewrite <-E1 in El |- *. rewrite <-E2 in Hlen |- *. rewrite <-E3, <-E4. by apply IH.
Qed.
End pipe.
