(* ===== verification/MonitorPipelineTheorems.v ===== *)
(** * What the monitor's goroutines do together *)

From S2P Require Import Prelude Blocks BTCCache CkptCache Retry BTCClient Window Reporter EpochInfo.
From S2P Require Import Stores Scanner ScannerProps Monitor MonitorPipeline MonitorPipelineProps.
From S2P Require Import Instances MonitorTheorems.

(** ** Executions as schedules *)
Inductive pipe_action := DoBoot | DoSend | DoReceive | DoHeader | DoExtract | DoCkpt
  | DoMonLoad | DoMonBlock | DoMonCkpt.
Section schedule.
Context {BL : BTCLib} {BF : BabylonFormatter} {GS : GoSort} {BLS : BLSLib} {RT : Retry}.
Context {W : Type} {CK : Clock W} {BTC : BTCClient W}.
Context {WM : Type} {BQ : BabylonQueryClient WM} {KV : KVDB WM}.
Context (FromBTCCkptBytesToRawCkpt : bytes → result RawCheckpoint).
Context (ord0 : gmap Hash CkptSegment → list (Hash * CkptSegment)).
Context (ord1 : Hash → gmap Hash CkptSegment → list (Hash * CkptSegment)).
Context (Cfg : MonitorConfig) (blockBuf ckptBuf : nat) (event_ok : scan_event → Prop).
Notation pipe := (pipe (W := W) (WM := WM)).
Notation step := (pipe_step FromBTCCkptBytesToRawCkpt ord0 ord1 Cfg blockBuf ckptBuf event_ok).

Definition pipe_do (a : pipe_action) (p : pipe) : option pipe :=
  match a with
  | DoBoot =>
      match p_handler p with
      | HandlerBoot =>
          if (p_sent p =? length (p_blocks p))%nat then
            match bootstrapAndBlockEventHandler 10 [] (p_scan p) with
            | (Val tt, x) => Some (set_handler HandlerRun (set_scan x p))
            | _ => None
            end
          else None
      | _ => None
      end
  | DoSend =>
      if (p_sent p <? length (p_blocks p))%nat && (p_sent p - p_taken p <? blockBuf)%nat
      then Some (send_block p) else None
  | DoReceive =>
      match p_loop p, received p with
      | LoopSelect, Some b => Some (set_loop (LoopSendHeader b) (take_scanned b p))
      | _, _ => None
      end
  | DoHeader =>
      match p_loop p with
      | LoopSendHeader b =>
          if (length (p_headers p) <? blockBuf)%nat
          then Some (set_loop (LoopExtract b)
                 (set_scan (push_header (Header b) (fst (p_scan p)), snd (p_scan p)) p))
          else None
      | _ => None
      end
  | DoExtract =>
      match p_loop p with
      | LoopExtract b =>
          match tryToExtractCheckpoint FromBTCCkptBytesToRawCkpt ord0 ord1 b (p_scan p) with
          | (Val None, x) => Some (set_loop LoopSelect (set_scan x p))
          | (Val (Some c), x) => Some (set_loop (LoopSendCkpt c) (set_scan x p))
          | _ => None
          end
      | _ => None
      end
  | DoCkpt =>
      match p_loop p with
      | LoopSendCkpt c =>
          if (length (p_found p) - p_ckpts p <? ckptBuf)%nat
          then Some (set_loop LoopSelect
                 (set_scan (push_checkpoint c (fst (p_scan p)), snd (p_scan p)) p))
          else None
      | _ => None
      end
  | DoMonLoad =>
      match p_monpc p with
      | AtLoad => Some (set_monpc (if p_started p then AtSelect else AtExit) p)
      | _ => None
      end
  | DoMonBlock =>
      match p_monpc p, received p with
      | AtSelect, Some b =>
          match monitor_event_step Cfg (MonBlock b) (p_mon p) with
          | (Val tt, x) => Some (set_monpc AtLoad (set_mon x (take_checked b p)))
          | _ => None
          end
      | _, _ => None
      end
  | DoMonCkpt =>
      match p_monpc p, p_found p !! p_ckpts p with
      | AtSelect, Some c =>
          match monitor_event_step Cfg (MonCkpt c) (p_mon p) with
          | (Val tt, x) => Some (set_monpc AtLoad (set_mon x (take_ckpt p)))
          | _ => None
          end
      | _, _ => None
      end
  end.
Fixpoint pipe_exec (l : list pipe_action) (p : pipe) : option pipe :=
  match l with [] => Some p | a :: l => p1 ← pipe_do a p; pipe_exec l p1 end.

Lemma pipe_do_step a p p' : pipe_do a p = Some p' → step p p'.
Proof.
  pose proof (P_mon_load Cfg p) as Hl.
  intros H. destruct a; unfold pipe_do in H; repeat case_match; simplify_eq;
    repeat match goal with
    | H : _ && _ = true |- _ => apply andb_true_iff in H as [? ?]
    | H : (_ <? _)%nat = true |- _ => apply Nat.ltb_lt in H
    | H : (_ =? _)%nat = true |- _ => apply Nat.eqb_eq in H
    | u : unit |- _ => destruct u
    end;
    first [ apply P_handler; first [by eapply P_boot | by apply P_send]
      | apply P_loop; first [by eapply P_loop_receive | by apply P_loop_header | by eapply P_loop_none
        | by eapply P_loop_found | by apply P_loop_ckpt]
      | apply P_monitor; first [by eapply P_mon_block | by eapply P_mon_ckpt | by apply Hl] ].
Qed.
Lemma pipe_exec_steps l p p' : pipe_exec l p = Some p' → rtc step p p'.
Proof.
  revert p. induction l as [|a l IH]; intros p; cbn; [intros [= <-]; apply rtc_refl|].
  destruct (pipe_do a p) as [p1|] eqn:E; [|done]. intros H%IH. eapply rtc_l, H. by eapply pipe_do_step.
Qed.
End schedule.

(** ** The theorems *)
Section theorems.
Context {BL : BTCLib} {BF : BabylonFormatter} {GS : GoSort} {BLS : BLSLib} {RT : Retry}.
Context {W : Type} {CK : Clock W} {BTC : BTCClient W}.
Context {WM : Type} {BQ : BabylonQueryClient WM} {KV : KVDB WM}.
Context (decode : bytes → result RawCheckpoint).
Context (ord0 : gmap Hash CkptSegment → list (Hash * CkptSegment)).
Context (ord1 : Hash → gmap Hash CkptSegment → list (Hash * CkptSegment)).
Context (Cfg : MonitorConfig) (blockBuf ckptBuf : nat).
Context (known : Hash → MsgBlock → Z → Prop) {LAWS : BTCClientLaws W known}.
Notation pipe := (pipe (W := W) (WM := WM)).
Notation steps := (pipe_steps decode ord0 ord1 Cfg blockBuf ckptBuf (scan_event_ok known)).
Implicit Types (p : pipe) (m : Monitor * WM).

(** C10: each confirmed block is received once, by one of two loops.  In every
    interleaving of the monitor's goroutines the blocks the scanner confirms form
    one chain; those taken from its channel are, in order, an interleaving of the
    blocks the scanner searches for checkpoints and of the blocks the monitor
    compares with Babylon, and no block is in both: the scanner's loop and the
    monitor's loop compete for them.  At most [BtcBlockBufferSize] blocks wait. *)
Theorem confirmed_blocks_are_split s w m p :
  scanner_inv known (s, w) → confirmedBlocksChan s = [] → blockHeaderChan s = [] →
  steps (pipe_init Cfg s w m) p →
  chained (p_blocks p) ∧
  merge (p_scanned p) (p_checked p) (take (p_taken p) (p_blocks p)) ∧
  (∀ b, b ∈ p_scanned p → b ∉ p_checked p) ∧
  (p_taken p ≤ p_sent p ≤ length (p_blocks p))%nat ∧ (p_sent p - p_taken p ≤ blockBuf)%nat.
Proof.
  intros Hs Hb Hh Hst. pose proof (pipe_init_inv Cfg blockBuf known s w m Hs Hb Hh) as Hi.
  apply (pipe_steps_inv _ _ _ _ _ _ known _ _ Hst) in Hi as [[Hsc _] Hn Hbuf Hm _ _].
  split_and!; [apply Hsc|done| |lia|lia|done].
  pose proof (chained_NoDup _ (chained_take (p_taken p) _ (ok_sent _ _ Hsc))) as Hnd.
  fold (p_blocks p) in Hnd. rewrite (merge_perm _ _ _ Hm) in Hnd.
  by apply NoDup_app in Hnd as (_ & Hd & _).
Qed.

(** C11: the scanner's loop searches at most [BtcBlockBufferSize] blocks.  It sends
    the header of each block it receives on a channel nobody receives from, so in
    every execution it is finished with at most that many blocks; once it has
    received one more it is blocked for ever, also after [Stop], and finds no
    further checkpoint. *)
Theorem scanner_searches_bounded s w m p :
  scanner_inv known (s, w) → confirmedBlocksChan s = [] → blockHeaderChan s = [] →
  steps (pipe_init Cfg s w m) p →
  (length (p_scanned p) ≤ S blockBuf)%nat ∧
  (length (p_scanned p) = S blockBuf →
   (∃ b, p_loop p = LoopSendHeader b) ∧
   ∀ p', steps p p' → p_loop p' = p_loop p ∧ p_scanned p' = p_scanned p ∧ p_found p' = p_found p).
Proof.
  intros Hs Hb Hh Hst. pose proof (pipe_init_inv Cfg blockBuf known s w m Hs Hb Hh) as Hi.
  apply (pipe_steps_inv _ _ _ _ _ _ known _ _ Hst) in Hi as [_ _ _ _ Hhd Hl].
  assert (p_headers p = Header <$> p_scanned p ∨
    ∃ b pre, p_loop p = LoopSendHeader b ∧ p_scanned p = pre ++ [b] ∧ p_headers p = Header <$> pre) as Hc.
  { unfold headers_ok in Hhd. destruct (p_loop p); naive_solver. }
  destruct Hc as [E|(b & pre & El & Epre & E)]; rewrite E in Hl; rewrite length_fmap in Hl.
  - split; lia.
  - rewrite Epre, length_app. cbn. split; [lia|]. intros Hlen. split; [eauto|]. intros p' Hst'.
    assert (blockBuf ≤ length (p_headers p))%nat as Hfull by (rewrite E, length_fmap; lia).
    destruct (header_blocked _ _ _ _ _ _ known p p' b El Hfull Hst') as (? & _ & ? & ?).
    by rewrite <-Epre.
Qed.

(** The wait group counts the scanner's loop and the liveness checker. *)
Definition loop_running p : Z := match p_loop p with LoopDone => 0 | _ => 1 end.
Record wg_inv p : Prop := {
  wi_live : ∃ v, p_wg p = loop_running p + v ∧ (v = 0 ∨ v = 1) ∧
    (v = 0 → p_live p = AtDone ∨ p_live p = AtLoad ∧ p_started p = false) ∧ p_live p ≠ AtExit;
  wi_handler : p_loop p = LoopDone → p_handler p = HandlerDone;
  wi_quit : p_started p = false → p_quit p = true;
  wi_mon : p_monpc p = AtExit ∨ p_monpc p = AtDone → p_started p = false;
  wi_done : p_monpc p = AtDone → p_wg p = 0;
}.
Notation step := (pipe_step decode ord0 ord1 Cfg blockBuf ckptBuf (scan_event_ok known)).

Lemma wg_init s w m : wg_inv (pipe_init Cfg s w m).
Proof.
  split; unfold loop_running; cbn; [|naive_solver..].
  destruct (EnableLivenessChecker Cfg); [exists 1|exists 0]; naive_solver lia.
Qed.
(** A step that leaves the wait group, [started] and the liveness checker alone. *)
Lemma wg_same p p' :
  wg_inv p → p_wg p' = p_wg p → loop_running p' = loop_running p → p_live p' = p_live p →
  p_started p' = p_started p → (p_quit p = true → p_quit p' = true) →
  (p_monpc p' = AtExit ∨ p_monpc p' = AtDone → p_started p = false) →
  (p_monpc p' = AtDone → p_wg p = 0) →
  (p_handler p = HandlerDone → p_handler p' = HandlerDone) → wg_inv p'.
Proof.
  intros [Hv Hh Hq Hm Hd] E1 E2 E3 E4 Hq' Hm' Hd' Hh'.
  split; rewrite ?E1, ?E2, ?E3, ?E4; auto.
  intros Hl. apply Hh', Hh. unfold loop_running in E2. rewrite Hl in E2. by destruct (p_loop p).
Qed.
Lemma loop_running_ne p p' :
  p_loop p ≠ LoopDone → p_loop p' ≠ LoopDone → loop_running p' = loop_running p.
Proof. unfold loop_running. by destruct (p_loop p), (p_loop p'). Qed.

Lemma wg_step p p' : wg_inv p → step p p' → wg_inv p'.
Proof.
  intros Hi Hst. pose proof Hi as [(v & Hw & Hv & H0 & Hx) Hh Hq Hm Hd].
  destruct Hst as [?? Hst|?? Hst|?? Hst|?? Hst|?? Hst|w p];
    [destruct Hst as [fuel p x Hb _ _| | | ]
    |destruct Hst as [p b El _|p b El _|p b x El _|p b c x El _|p c El _|p El _|p El Hdn]
    |destruct Hst as [p Ep|p Ep Hqt|p b x Ep _ _|p c x Ep _ _|p Ep Hz]
    |destruct Hst as [p Ep|p Ep Hqt|p order x Ep _]|destruct Hst as [p Hqf|p Hqt _]|].
  all: try by apply (wg_same p).
  all: try (apply (wg_same p); try done; try apply loop_running_ne; cbn; congruence).
  - split; unfold loop_running in *; cbn; try done; [|intros Hx1; specialize (Hd Hx1); rewrite El in Hw; lia].
    exists v. rewrite El in Hw. split_and!; [lia|done..].
  - destruct (p_started p) eqn:Es; apply (wg_same p); try done; cbn; naive_solver.
  - split; unfold loop_running in *; cbn; naive_solver.
  - apply (wg_same p); try done; cbn; intros [?|?]; done.
  - apply (wg_same p); try done; cbn; intros [?|?]; done.
  - apply (wg_same p); try done; cbn; auto.
  - assert (p_started p = true → v = 1) as H1.
    { intros Es. destruct Hv as [-> | ->]; [|done]. destruct (H0 eq_refl) as [?|[_ ?]]; congruence. }
    split; cbn; auto. exists v. change (p_wg p = loop_running p + v ∧ (v = 0 ∨ v = 1) ∧
      (v = 0 → (if p_started p then AtSelect else AtDone) = AtDone ∨
        (if p_started p then AtSelect else AtDone) = AtLoad ∧ p_started p = false) ∧
      (if p_started p then AtSelect else AtDone) ≠ AtExit).
    destruct (p_started p); naive_solver lia.
  - assert (v = 1) as -> by (destruct Hv as [-> | ->]; [destruct (H0 eq_refl) as [?|[? _]]; congruence|done]).
    split; unfold loop_running in *; cbn; try done.
    + exists 0. naive_solver lia.
    + intros Hx1. specialize (Hd Hx1). destruct (p_loop p); lia.
  - assert (v = 1) as -> by (destruct Hv as [-> | ->]; [destruct (H0 eq_refl) as [?|[? _]]; congruence|done]).
    split; unfold loop_running in *; cbn; try done. exists 1. naive_solver.
Qed.
Lemma wg_steps p p' : steps p p' → wg_inv p → wg_inv p'.
Proof. induction 1; eauto using wg_step. Qed.

(** The monitor's [Start] returns after its goroutines.  In every interleaving
    its wait group never becomes negative, and when [Start] returns, [Stop] has been
    called, the scanner's loop and its block handler have ended, and the liveness
    checker, when there is one, ends at its next test. *)
Theorem monitor_start_waits s w m p :
  steps (pipe_init Cfg s w m) p →
  0 ≤ p_wg p ∧
  (p_monpc p = AtDone →
   p_quit p = true ∧ p_loop p = LoopDone ∧ p_handler p = HandlerDone ∧
   (p_live p = AtDone ∨ p_live p = AtLoad ∧ p_started p = false)).
Proof.
  intros Hst. apply wg_steps in Hst as [(v & Hw & Hv & H0 & Hx) Hh Hq Hm Hd]; [|apply wg_init].
  unfold loop_running in Hw. split; [destruct (p_loop p); lia|]. intros Hdn.
  specialize (Hd Hdn). destruct (p_loop p) eqn:El; try lia. assert (v = 0) as -> by lia.
  split_and!; auto.
Qed.

(** When the monitor's loop resets [started] first, the liveness checker leaves its
    own loop without [wg.Done()]. *)
Definition waits_for_ever p : Prop :=
  p_monpc p = AtExit ∧ p_live p = AtDone ∧ p_wg p = 1 + loop_running p.
Lemma waits_step p p' : waits_for_ever p → step p p' → waits_for_ever p'.
Proof.
  intros (Hm & Hl & Hw) Hst. unfold waits_for_ever, loop_running in *.
  destruct Hst as [?? Hst|?? Hst|?? Hst|?? Hst|?? Hst|w p]; try destruct Hst; cbn in *; try congruence; split_and!; try done;
    repeat match goal with H : p_loop _ = _ |- _ => rewrite H in Hw end; try lia.
  destruct (p_loop p); lia.
Qed.

(** C34: stopping the monitor can block for ever.  With the liveness checker enabled
    there is an execution in which [Stop] is called, the monitor's loop stops first,
    the checker then leaves its loop without [wg.Done()], and from there no execution
    whatsoever lets [Start] return. *)
Theorem monitor_stop_can_hang s w m :
  EnableLivenessChecker Cfg = true →
  ∃ p, steps (pipe_init Cfg s w m) p ∧ p_quit p = true ∧ p_live p = AtDone ∧
       ∀ p', steps p p' → p_monpc p' = AtExit.
Proof.
  intros Hen.
  set (p1 := set_monpc AtSelect (pipe_init Cfg s w m)).
  set (p2 := unset_started (set_monpc AtLoad (close_quits true false p1))).
  exists (set_live AtDone (set_monpc AtExit p2)). split_and!.
  - eapply rtc_l; [by apply P_monitor, P_mon_load|]. eapply rtc_l; [by apply P_Stop, P_stop|].
    eapply rtc_l; [by apply P_monitor, P_mon_quit|]. eapply rtc_l; [by apply P_monitor, P_mon_load|].
    eapply rtc_l; [apply P_liveness, P_live_load; cbn; by rewrite Hen|]. apply rtc_refl.
  - done.
  - done.
  - intros p' Hst. assert (waits_for_ever p') as Hwt; [|apply Hwt].
    assert (waits_for_ever (set_live AtDone (set_monpc AtExit p2))) as H0.
    { split_and!; [done..|]. unfold loop_running. cbn. by rewrite Hen. }
    revert H0 Hst. generalize (set_live AtDone (set_monpc AtExit p2)). clear.
    intros q H0 Hst. induction Hst; eauto using waits_step.
Qed.
End theorems.

(** ** On a small chain *)
Section small.
Notation small_exec := (pipe_exec (BQ := bbn_node None) (λ _, Ok (ckpt7 [7; 7])) in_order (λ _, in_order)
  monitor_cfg 3 3).
Notation small_steps := (pipe_steps (BQ := bbn_node None) (λ _, Ok (ckpt7 [7; 7])) in_order (λ _, in_order)
  monitor_cfg 3 3 (scan_event_ok small_known)).
Definition small_pipe : pipe (W := unit) (WM := mem_db) :=
  pipe_init monitor_cfg (fresh_scanner 1) tt (monitor_at 7, monitor_db).
Definition scan_one : list pipe_action := [DoReceive; DoHeader; DoExtract].
(** The scanner's loop is faster, or the monitor's. *)
Definition scanner_first : list pipe_action :=
  [DoBoot; DoSend; DoSend; DoSend] ++ scan_one ++ scan_one ++ scan_one ++ [DoCkpt; DoMonLoad; DoMonCkpt].
Definition monitor_first : list pipe_action :=
  [DoBoot; DoSend; DoSend; DoSend] ++ scan_one ++ scan_one ++ [DoMonLoad; DoMonBlock; DoMonLoad].

Lemma small_exec_steps l p : small_exec l small_pipe = Some p → small_steps small_pipe p.
Proof. apply (pipe_exec_steps (BQ := bbn_node None)). Qed.

(** The execution in which the scanner receives every block, and the one in which
    the monitor receives block 102. *)
Definition found_pipe : pipe (W := unit) (WM := mem_db) :=
  default small_pipe (small_exec scanner_first small_pipe).
Definition split_pipe : pipe (W := unit) (WM := mem_db) :=
  default small_pipe (small_exec monitor_first small_pipe).
Lemma found_pipe_reached : small_steps small_pipe found_pipe.
Proof. apply (small_exec_steps scanner_first). vm_compute. reflexivity. Qed.
Lemma split_pipe_reached : small_steps small_pipe split_pipe.
Proof. apply (small_exec_steps monitor_first). vm_compute. reflexivity. Qed.

(** A checkpoint can be missed: the two halves of a checkpoint are in blocks 101 and
    102.  In one execution the scanner's loop receives both and the monitor accepts
    the checkpoint; in the other the monitor's loop receives block 102 and, with the
    same blocks confirmed, all received and both loops waiting again, no checkpoint
    is found. *)
Lemma checkpoint_can_be_missed :
  ∃ p1 p2, small_steps small_pipe p1 ∧ small_steps small_pipe p2 ∧
    p_blocks p1 = p_blocks p2 ∧ p_taken p1 = length (p_blocks p1) ∧ p_taken p2 = length (p_blocks p2) ∧
    p_loop p1 = LoopSelect ∧ p_loop p2 = LoopSelect ∧
    epochNum (curEpoch (fst (p_mon p1))) = 8 ∧
    length (p_found p1) = 1%nat ∧ p_found p2 = [] ∧ epochNum (curEpoch (fst (p_mon p2))) = 7.
Proof.
  exists found_pipe, split_pipe. split; [apply found_pipe_reached|]. split; [apply split_pipe_reached|].
  vm_compute. done.
Qed.

Lemma fresh_scanner_inv : scanner_inv small_known (fresh_scanner 1, tt).
Proof.
  split.
  - split; cbn; [zrange| |done|done|constructor]. apply window_empty. lia.
  - split; cbn; zrange.
Qed.
Lemma confirmed_blocks_are_split_witness :
  (Height <$> p_scanned split_pipe) = [100; 101] ∧ (Height <$> p_checked split_pipe) = [102] ∧
  merge (p_scanned split_pipe) (p_checked split_pipe) (take (p_taken split_pipe) (p_blocks split_pipe)).
Proof.
  split; [vm_compute; reflexivity|]. split; [vm_compute; reflexivity|].
  apply (confirmed_blocks_are_split (BQ := bbn_node None) (λ _, Ok (ckpt7 [7; 7])) in_order (λ _, in_order)
    monitor_cfg 3 3 small_known (fresh_scanner 1) tt (monitor_at 7, monitor_db) split_pipe
    fresh_scanner_inv eq_refl eq_refl split_pipe_reached).
Defined.

(** The same with room for one header. *)
Notation tight_exec := (pipe_exec (BQ := bbn_node None) (λ _, Ok (ckpt7 [7; 7])) in_order (λ _, in_order)
  monitor_cfg 1 3).
Definition stuck_pipe : pipe (W := unit) (WM := mem_db) :=
  default small_pipe (tight_exec ([DoBoot; DoSend] ++ scan_one ++ [DoSend; DoReceive]) small_pipe).
Lemma stuck_pipe_reached :
  pipe_steps (BQ := bbn_node None) (λ _, Ok (ckpt7 [7; 7])) in_order (λ _, in_order) monitor_cfg 1 3
    (scan_event_ok small_known) small_pipe stuck_pipe.
Proof.
  apply (pipe_exec_steps (BQ := bbn_node None) _ _ _ _ _ _ _ ([DoBoot; DoSend] ++ scan_one ++ [DoSend; DoReceive])).
  vm_compute. reflexivity.
Qed.
Lemma scanner_searches_bounded_witness :
  (Height <$> p_scanned stuck_pipe) = [100; 101] ∧ ∃ b, p_loop stuck_pipe = LoopSendHeader b.
Proof.
  split; [vm_compute; reflexivity|].
  apply (proj2 (scanner_searches_bounded (BQ := bbn_node None) (λ _, Ok (ckpt7 [7; 7])) in_order
    (λ _, in_order) monitor_cfg 1 3 small_known (fresh_scanner 1) tt (monitor_at 7, monitor_db) stuck_pipe
    fresh_scanner_inv eq_refl eq_refl stuck_pipe_reached)).
  vm_compute. reflexivity.
Defined.

Lemma monitor_start_waits_witness : 0 ≤ p_wg split_pipe ∧ p_wg split_pipe = 2.
Proof.
  split; [|vm_compute; reflexivity].
  apply (monitor_start_waits (BQ := bbn_node None) (λ _, Ok (ckpt7 [7; 7])) in_order (λ _, in_order)
    monitor_cfg 3 3 small_known (fresh_scanner 1) tt (monitor_at 7, monitor_db) split_pipe split_pipe_reached).
Defined.

Lemma monitor_stop_can_hang_witness :
  ∃ p, small_steps small_pipe p ∧ p_quit p = true ∧ p_live p = AtDone ∧
       ∀ p', small_steps p p' → p_monpc p' = AtExit.
Proof.
  apply (monitor_stop_can_hang (BQ := bbn_node None) (λ _, Ok (ckpt7 [7; 7])) in_order (λ _, in_order)
    monitor_cfg 3 3 small_known (fresh_scanner 1) tt (monitor_at 7, monitor_db)). reflexivity.
Defined.
End small.
