(* ===== verification/Metrics.v ===== *)
(** * The metrics and their registries ([metrics/])

    Each program makes one registry and registers its metrics in it: promauto
    panics when the registration fails.  The registry and the collectors of the Go
    runtime are Prometheus's; a metric is described by its kind, its options and its
    labels.  The registry is the state, so the pointers to it in the structures of
    metrics are left out. *)

From S2P Require Import Prelude GoFloat Config ConfigAll.

Inductive metric_kind :=
| Counter
| Gauge
| GaugeVec (labels : list string)
| HistogramVec (buckets : list float64) (labels : list string).
Record Metric := mkMetric {
  kind : metric_kind;
  Namespace : string;
  Name : string;
  Help : string;
}.
(** What [MustRegister] is called with. *)
Inductive Collector := MetricCollector (m : Metric) | BuildInfoCollector | GoCollector.

Class Prometheus := {
  Registry : Type;
  NewRegistry : Registry;
  Registry_Register : Collector → M Registry unit;
  (** the names registered, in order *)
  registered : Registry → list string;
  BuildFQName : string → string → string → string;
  collector_names : Collector → list string;
}.

(** ** The format of names and labels *)
Definition is_letter (c : Ascii.ascii) : bool :=
  let n := Z.of_nat (Ascii.nat_of_ascii c) in
  (97 <=? n) && (n <=? 122) || (65 <=? n) && (n <=? 90) || (n =? 95).
Definition is_digit (c : Ascii.ascii) : bool :=
  let n := Z.of_nat (Ascii.nat_of_ascii c) in (48 <=? n) && (n <=? 57).
Definition valid_name (s : string) : bool :=
  match String.list_ascii_of_string s with
  | [] => false
  | c :: l => is_letter c && forallb (λ d, is_letter d || is_digit d) l
  end.
Definition labels_of (k : metric_kind) : list string :=
  match k with GaugeVec l | HistogramVec _ l => l | _ => [] end.
(** A histogram needs increasing buckets and reserves the label [le]. *)
Fixpoint increasing (l : list float64) : bool :=
  match l with x :: ((y :: _) as l) => f64_ltb x y && increasing l | _ => true end.
Definition valid_kind (k : metric_kind) : bool :=
  match k with
  | HistogramVec b l => increasing b && negb (bool_decide ("le" ∈ l))
  | _ => true
  end.
Definition valid_metric (m : Metric) : bool :=
  valid_name (Name m) && (bool_decide (Namespace m = "") || valid_name (Namespace m)) &&
  forallb valid_name (labels_of (kind m)) && bool_decide (NoDup (labels_of (kind m))) && valid_kind (kind m).

(** What the documentation of Prometheus says: a registry starts empty; a valid
    collector whose names are all new is registered, one with a name that is
    registered is refused; the name of a metric is its namespace and name joined by
    an underscore; the collectors of the Go runtime use names that start with
    [go_]. *)
Class PrometheusLaws {PR : Prometheus} := {
  NewRegistry_empty : registered NewRegistry = [];
  Register_new : ∀ c r,
    match c with MetricCollector m => valid_metric m | _ => true end = true →
    (∀ n, n ∈ collector_names c → n ∉ registered r) →
    ∃ r', Registry_Register c r = (Val tt, r') ∧ registered r' = registered r ++ collector_names c;
  Register_duplicate : ∀ c r n,
    n ∈ collector_names c → n ∈ registered r → ∃ e, Registry_Register c r = (Error e, r);
  metric_name : ∀ m, collector_names (MetricCollector m) = [BuildFQName (Namespace m) "" (Name m)];
  BuildFQName_plain : ∀ n, BuildFQName "" "" n = n;
  BuildFQName_spaced : ∀ ns n, ns ≠ "" → n ≠ "" →
    BuildFQName ns "" n = String.append ns (String.append "_" n);
  go_names : ∀ c n, c = BuildInfoCollector ∨ c = GoCollector → n ∈ collector_names c →
    String.prefix "go_" n = true;
  go_disjoint : ∀ n, n ∈ collector_names BuildInfoCollector → n ∉ collector_names GoCollector;
}.

(** ** [promauto.With(registry)] *)
Section promauto.
Context {PR : Prometheus}.
Definition MustRegister (c : Collector) : M Registry unit := must "MustRegister" (Registry_Register c).
Definition auto_New (m : Metric) : M Registry Metric := MustRegister (MetricCollector m) ;; mret m.
Definition NewCounter (ns name help : string) := auto_New (mkMetric Counter ns name help).
Definition NewGauge (ns name help : string) := auto_New (mkMetric Gauge ns name help).
Definition NewGaugeVec (ns name help : string) (labels : list string) :=
  auto_New (mkMetric (GaugeVec labels) ns name help).
Definition NewHistogramVec (ns name help : string) (buckets : list float64) (labels : list string) :=
  auto_New (mkMetric (HistogramVec buckets labels) ns name help).
End promauto.
Notation RegM A := (M Registry A).
Definition latency_buckets : list float64 :=
  [f64_dec 3 1; f64_of_int 1; f64_of_int 2; f64_of_int 5; f64_of_int 10; f64_of_int 30; f64_of_int 60;
   f64_of_int 120; f64_of_int 180; f64_of_int 300].

(** ** [submitter.go] *)
Module RelayerM.
Record RelayerMetrics := mkRelayerMetrics {
  ResendIntervalSecondsGauge : Metric;
  AvailableBTCBalance : Metric;
  InvalidCheckpointCounter : Metric;
  ResentCheckpointsCounter : Metric;
  FailedResentCheckpointsCounter : Metric;
  NewSubmittedCheckpointSegmentGaugeVec : Metric;
}.
Section build.
Context {PR : Prometheus}.
Definition newRelayerMetrics : RegM RelayerMetrics :=
  xResendIntervalSecondsGauge ← NewGauge "" "vigilante_submitter_resend_interval"
    "The intervals the submitter resends a checkpoint in seconds";
  xAvailableBTCBalance ← NewGauge "" "vigilante_submitter_available_balance"
    "The available balance in wallet in Satoshis";
  xInvalidCheckpointCounter ← NewCounter "" "vigilante_submitter_invalid_checkpoints"
    "The number of invalid checkpoints (invalid epoch number or status)";
  xResentCheckpointsCounter ← NewCounter "" "vigilante_submitter_resent_checkpoints"
    "The number of resent checkpoints";
  xFailedResentCheckpointsCounter ← NewCounter "" "vigilante_submitter_failed_resent_checkpoints"
    "The number of failed resent checkpoints";
  xNewSubmittedCheckpointSegmentGaugeVec ← NewGaugeVec "" "vigilante_submitter_new_checkpoint_segment"
    "The metric of a new Babylon checkpoint segment submitted to BTC"
    ["epoch"; "idx"; "txid"; "fee"];
  mret {| ResendIntervalSecondsGauge := xResendIntervalSecondsGauge;
    AvailableBTCBalance := xAvailableBTCBalance;
    InvalidCheckpointCounter := xInvalidCheckpointCounter;
    ResentCheckpointsCounter := xResentCheckpointsCounter;
    FailedResentCheckpointsCounter := xFailedResentCheckpointsCounter;
    NewSubmittedCheckpointSegmentGaugeVec := xNewSubmittedCheckpointSegmentGaugeVec |}.
End build.
End RelayerM.
Module SubmitterM.
Record SubmitterMetrics := mkSubmitterMetrics {
  SuccessfulCheckpointsCounter : Metric;
  FailedCheckpointsCounter : Metric;
  SecondsSinceLastCheckpointGauge : Metric;
  sub_RelayerMetrics : RelayerM.RelayerMetrics;
}.
Section build.
Context {PR : Prometheus}.
Definition NewSubmitterMetrics : RegM SubmitterMetrics :=
  xSuccessfulCheckpointsCounter ← NewCounter "" "vigilante_submitter_submitted_checkpoints"
    "The total number of raw checkpoints submitted to BTC";
  xFailedCheckpointsCounter ← NewCounter "" "vigilante_submitter_failed_checkpoints"
    "The total number of failed checkpoints to BTC";
  xSecondsSinceLastCheckpointGauge ← NewGauge "" "vigilante_submitter_since_last_checkpoint_seconds"
    "Seconds since the last successfully submitted checkpoint";
  relayermetrics ← RelayerM.newRelayerMetrics;
  mret {| SuccessfulCheckpointsCounter := xSuccessfulCheckpointsCounter;
    FailedCheckpointsCounter := xFailedCheckpointsCounter;
    SecondsSinceLastCheckpointGauge := xSecondsSinceLastCheckpointGauge;
    sub_RelayerMetrics := relayermetrics |}.
End build.
End SubmitterM.

(** ** [reporter.go] *)
Module ReporterM.
Record ReporterMetrics := mkReporterMetrics {
  SuccessfulHeadersCounter : Metric;
  SuccessfulCheckpointsCounter : Metric;
  FailedHeadersCounter : Metric;
  FailedCheckpointsCounter : Metric;
  SecondsSinceLastHeaderGauge : Metric;
  SecondsSinceLastCheckpointGauge : Metric;
  NewReportedHeaderGaugeVec : Metric;
  NewReportedCheckpointGaugeVec : Metric;
  HeadersCensorshipGauge : Metric;
  CheckpointCensorshipGauge : Metric;
}.
Section build.
Context {PR : Prometheus}.
Definition NewReporterMetrics : RegM ReporterMetrics :=
  xSuccessfulHeadersCounter ← NewCounter "" "vigilante_reporter_reported_headers"
    "The total number of BTC headers reported to Babylon";
  xSuccessfulCheckpointsCounter ← NewCounter "" "vigilante_reporter_reported_checkpoints"
    "The total number of BTC checkpoints reported to Babylon";
  xFailedHeadersCounter ← NewCounter "" "vigilante_reporter_failed_headers"
    "The total number of failed BTC headers to Babylon";
  xFailedCheckpointsCounter ← NewCounter "" "vigilante_reporter_failed_checkpoints"
    "The total number of failed BTC checkpoints to Babylon";
  xSecondsSinceLastHeaderGauge ← NewGauge "" "vigilante_reporter_since_last_header_seconds"
    "Seconds since the last successful reported BTC header to Babylon";
  xSecondsSinceLastCheckpointGauge ← NewGauge "" "vigilante_reporter_since_last_checkpoint_seconds"
    "Seconds since the last successful reported BTC checkpoint to Babylon";
  xNewReportedHeaderGaugeVec ← NewGaugeVec "" "vigilante_reporter_new_btc_header"
    "The metric of a new BTC header reported to Babylon"
    ["id"];
  xNewReportedCheckpointGaugeVec ← NewGaugeVec "" "vigilante_reporter_new_btc_checkpoint"
    "The metric of a new BTC checkpoint reported to Babylon"
    ["epoch"; "height"; "tx1id"; "tx2id"];
  xHeadersCensorshipGauge ← NewGauge "" "vigilante_reporter_insert_headers_censorship"
    "The metric of censorship in inserting headers to Babylon";
  xCheckpointCensorshipGauge ← NewGaugeVec "" "vigilante_reporter_checkpoint_censorship"
    "The metric of censorship in inserting checkpoints to Babylon"
    ["epoch"; "height"; "tx1id"; "tx2id"];
  mret {| SuccessfulHeadersCounter := xSuccessfulHeadersCounter;
    SuccessfulCheckpointsCounter := xSuccessfulCheckpointsCounter;
    FailedHeadersCounter := xFailedHeadersCounter;
    FailedCheckpointsCounter := xFailedCheckpointsCounter;
    SecondsSinceLastHeaderGauge := xSecondsSinceLastHeaderGauge;
    SecondsSinceLastCheckpointGauge := xSecondsSinceLastCheckpointGauge;
    NewReportedHeaderGaugeVec := xNewReportedHeaderGaugeVec;
    NewReportedCheckpointGaugeVec := xNewReportedCheckpointGaugeVec;
    HeadersCensorshipGauge := xHeadersCensorshipGauge;
    CheckpointCensorshipGauge := xCheckpointCensorshipGauge |}.
End build.
End ReporterM.

(** ** [monitor.go] *)
Module MonitorM.
Record MonitorMetrics := mkMonitorMetrics {
  ValidEpochsCounter : Metric;
  InvalidEpochsCounter : Metric;
  ValidBTCHeadersCounter : Metric;
  InvalidBTCHeadersCounter : Metric;
  LivenessAttacksCounter : Metric;
}.
Section build.
Context {PR : Prometheus}.
Definition NewMonitorMetrics : RegM MonitorMetrics :=
  xValidEpochsCounter ← NewCounter "" "vigilante_monitor_valid_epochs"
    "The total number of valid epochs";
  xInvalidEpochsCounter ← NewCounter "" "vigilante_monitor_invalid_epochs"
    "The total number of invalid epochs";
  xValidBTCHeadersCounter ← NewCounter "" "vigilante_monitor_valid_btc_headers"
    "The total number of valid BTC headers";
  xInvalidBTCHeadersCounter ← NewCounter "" "vigilante_monitor_invalid_btc_headers"
    "The total number of invalid BTC headers";
  xLivenessAttacksCounter ← NewCounter "" "vigilante_monitor_liveness_attacks"
    "The total number of detected liveness attacks";
  mret {| ValidEpochsCounter := xValidEpochsCounter;
    InvalidEpochsCounter := xInvalidEpochsCounter;
    ValidBTCHeadersCounter := xValidBTCHeadersCounter;
    InvalidBTCHeadersCounter := xInvalidBTCHeadersCounter;
    LivenessAttacksCounter := xLivenessAttacksCounter |}.
End build.
End MonitorM.

(** ** [btcstaking_tracker.go] *)
Module WatcherM.
Record UnbondingWatcherMetrics := mkUnbondingWatcherMetrics {
  ReportedUnbondingTransactionsCounter : Metric;
  FailedReportedUnbondingTransactions : Metric;
  NumberOfTrackedActiveDelegations : Metric;
  DetectedUnbondedStakeExpansionCounter : Metric;
  DetectedUnbondingTransactionsCounter : Metric;
  DetectedNonUnbondingTransactionsCounter : Metric;
  FailedReportedActivateDelegations : Metric;
  ReportedActivateDelegationsCounter : Metric;
  NumberOfActivationInProgress : Metric;
  NumberOfVerifiedDelegations : Metric;
  NumberOfVerifiedNotInChainDelegations : Metric;
  NumberOfVerifiedInsufficientConfDelegations : Metric;
  NumberOfVerifiedSufficientConfDelegations : Metric;
  MethodExecutionLatency : Metric;
  UnbondingCensorshipGaugeVec : Metric;
  InclusionProofCensorshipGaugeVec : Metric;
  BestBlockHeight : Metric;
  BtcLightClientHeight : Metric;
}.
Section build.
Context {PR : Prometheus}.
Definition newUnbondingWatcherMetrics : RegM UnbondingWatcherMetrics :=
  xReportedUnbondingTransactionsCounter ←
    NewCounter "vigilante" "unbonding_watcher_reported_unbonding_transactions"
    "The total number of unbonding transactions successfully reported to Babylon node";
  xFailedReportedUnbondingTransactions ←
    NewCounter "vigilante" "unbonding_watcher_failed_reported_unbonding_transactions"
    "The total number times reporting unbonding transactions to Babylon node failed";
  xNumberOfTrackedActiveDelegations ←
    NewGauge "vigilante" "unbonding_watcher_tracked_active_delegations"
    "The number of active delegations tracked by unbonding watcher";
  xDetectedUnbondedStakeExpansionCounter ←
    NewCounter "vigilante" "unbonding_watcher_detected_unbonded_stake_expansion"
    "The total number of spend staking transactions that are expanding their stake";
  xDetectedUnbondingTransactionsCounter ←
    NewCounter "vigilante" "unbonding_watcher_detected_unbonding_transactions"
    "The total number of unbonding transactions detected by unbonding watcher";
  xDetectedNonUnbondingTransactionsCounter ←
    NewCounter "vigilante" "unbonding_watcher_detected_non_unbonding_transactions"
    "The total number of non unbonding (slashing or withdrawal) transactions detected by unbonding watcher";
  xFailedReportedActivateDelegations ←
    NewCounter "vigilante" "unbonding_watcher_failed_reported_activate_delegation"
    "The total number times reporting activation delegation failed on Babylon node";
  xReportedActivateDelegationsCounter ←
    NewCounter "vigilante" "unbonding_watcher_reported_activate_delegations"
    "The total number of unbonding transactions successfully reported to Babylon node";
  xMethodExecutionLatency ← NewHistogramVec "vigilante" "unbonding_watcher_method_latency_seconds"
    "Latency in seconds"
    latency_buckets
    ["method"];
  xNumberOfActivationInProgress ←
    NewGauge "vigilante" "unbonding_watcher_number_of_activation_in_progress"
    "The number of activations in progress";
  xNumberOfVerifiedDelegations ← NewGauge "vigilante" "unbonding_watcher_number_of_verified_delegations"
    "The number of verified delegations";
  xNumberOfVerifiedNotInChainDelegations ←
    NewGauge "vigilante" "unbonding_watcher_number_of_verified_not_in_chain_delegations"
    "The number of verified not in chain delegations";
  xNumberOfVerifiedInsufficientConfDelegations ←
    NewGauge "vigilante" "unbonding_watcher_number_of_verified_insufficient_conf_delegations"
    "The number of verified delegations with insufficient confirmations";
  xNumberOfVerifiedSufficientConfDelegations ←
    NewGauge "vigilante" "unbonding_watcher_number_of_verified_sufficient_conf_delegations"
    "The number of verified delegations with sufficient confirmations";
  xUnbondingCensorshipGaugeVec ← NewGaugeVec "vigilante" "unbonding_watcher_unbonding_censorship"
    "The metric of a new unbonding censorship"
    ["staking_tx_hash"];
  xInclusionProofCensorshipGaugeVec ←
    NewGaugeVec "vigilante" "unbonding_watcher_inclusion_proof_censorship"
    "The metric of a new inclusion proof censorship"
    ["staking_tx_hash"];
  xBestBlockHeight ← NewGauge "vigilante" "unbonding_watcher_best_block_height"
    "The height of the best btc block";
  xBtcLightClientHeight ← NewGauge "vigilante" "unbonding_watcher_btc_light_client_height"
    "The height of the babylon btc light client";
  mret {| ReportedUnbondingTransactionsCounter := xReportedUnbondingTransactionsCounter;
    FailedReportedUnbondingTransactions := xFailedReportedUnbondingTransactions;
    NumberOfTrackedActiveDelegations := xNumberOfTrackedActiveDelegations;
    DetectedUnbondedStakeExpansionCounter := xDetectedUnbondedStakeExpansionCounter;
    DetectedUnbondingTransactionsCounter := xDetectedUnbondingTransactionsCounter;
    DetectedNonUnbondingTransactionsCounter := xDetectedNonUnbondingTransactionsCounter;
    FailedReportedActivateDelegations := xFailedReportedActivateDelegations;
    ReportedActivateDelegationsCounter := xReportedActivateDelegationsCounter;
    NumberOfActivationInProgress := xNumberOfActivationInProgress;
    NumberOfVerifiedDelegations := xNumberOfVerifiedDelegations;
    NumberOfVerifiedNotInChainDelegations := xNumberOfVerifiedNotInChainDelegations;
    NumberOfVerifiedInsufficientConfDelegations := xNumberOfVerifiedInsufficientConfDelegations;
    NumberOfVerifiedSufficientConfDelegations := xNumberOfVerifiedSufficientConfDelegations;
    MethodExecutionLatency := xMethodExecutionLatency;
    UnbondingCensorshipGaugeVec := xUnbondingCensorshipGaugeVec;
    InclusionProofCensorshipGaugeVec := xInclusionProofCensorshipGaugeVec;
    BestBlockHeight := xBestBlockHeight; BtcLightClientHeight := xBtcLightClientHeight |}.
End build.
End WatcherM.
Module SlasherM.
Record SlasherMetrics := mkSlasherMetrics {
  SlashedDelegationGaugeVec : Metric;
  SlashedFinalityProvidersCounter : Metric;
  SlashedDelegationsCounter : Metric;
  SlashedSatsCounter : Metric;
}.
Section build.
Context {PR : Prometheus}.
Definition newSlasherMetrics : RegM SlasherMetrics :=
  xSlashedFinalityProvidersCounter ← NewCounter "" "slasher_slashed_finality_providers"
    "The number of slashed finality providers";
  xSlashedDelegationsCounter ← NewCounter "" "slasher_slashed_delegations"
    "The number of slashed delegations";
  xSlashedSatsCounter ← NewCounter "" "slasher_slashed_sats"
    "The amount of slashed funds in Satoshi";
  xSlashedDelegationGaugeVec ← NewGaugeVec "" "slasher_new_slashed_delegation"
    "The metric of a newly slashed delegation"
    ["del_btc_pk"; "fp_btc_pk"];
  mret {| SlashedDelegationGaugeVec := xSlashedDelegationGaugeVec;
    SlashedFinalityProvidersCounter := xSlashedFinalityProvidersCounter;
    SlashedDelegationsCounter := xSlashedDelegationsCounter;
    SlashedSatsCounter := xSlashedSatsCounter |}.
End build.
End SlasherM.
Module AtomicM.
Record AtomicSlasherMetrics := mkAtomicSlasherMetrics {
  TrackedBTCDelegationsGauge : Metric;
  SelectiveSlashingCensorshipGaugeVec : Metric;
}.
Section build.
Context {PR : Prometheus}.
Definition newAtomicSlasherMetrics : RegM AtomicSlasherMetrics :=
  xTrackedBTCDelegationsGauge ← NewGauge "vigilante" "atomic_slasher_tracked_delegations_gauge"
    "The number of BTC delegations the atomic slasher routine is tracking";
  xSelectiveSlashingCensorshipGaugeVec ←
    NewGaugeVec "vigilante" "atomic_slasher_selective_slashing_censorship"
    "The metric of a new selective slashing censorship"
    ["staking_tx_hash"];
  mret {| TrackedBTCDelegationsGauge := xTrackedBTCDelegationsGauge;
    SelectiveSlashingCensorshipGaugeVec := xSelectiveSlashingCensorshipGaugeVec |}.
End build.
End AtomicM.
Record BTCStakingTrackerMetrics := mkTrackerMetrics {
  tm_UnbondingWatcher : WatcherM.UnbondingWatcherMetrics;
  tm_Slasher : SlasherM.SlasherMetrics;
  tm_Atomic : AtomicM.AtomicSlasherMetrics;
}.
Section tracker.
Context {PR : Prometheus}.
Definition NewBTCStakingTrackerMetrics : RegM BTCStakingTrackerMetrics :=
  uwMetrics ← WatcherM.newUnbondingWatcherMetrics;
  slasherMetrics ← SlasherM.newSlasherMetrics;
  atomicSlasherMetrics ← AtomicM.newAtomicSlasherMetrics;
  mret (mkTrackerMetrics uwMetrics slasherMetrics atomicSlasherMetrics).

(** ** [prometheus.go]: [start] up to [ListenAndServe], which is given the address *)
Definition metrics_start (addr : string) : RegM string :=
  MustRegister BuildInfoCollector ;;
  MustRegister GoCollector ;;
  must "metrics logger" (of_result (NewRootLogger "auto" "debug")) ;;
  mret addr.
End tracker.

(** ** The names each program exposes *)
Definition submitter_names : list string :=
  ["vigilante_submitter_submitted_checkpoints";
   "vigilante_submitter_failed_checkpoints";
   "vigilante_submitter_since_last_checkpoint_seconds";
   "vigilante_submitter_resend_interval";
   "vigilante_submitter_available_balance";
   "vigilante_submitter_invalid_checkpoints";
   "vigilante_submitter_resent_checkpoints";
   "vigilante_submitter_failed_resent_checkpoints";
   "vigilante_submitter_new_checkpoint_segment"].
Definition reporter_names : list string :=
  ["vigilante_reporter_reported_headers";
   "vigilante_reporter_reported_checkpoints";
   "vigilante_reporter_failed_headers";
   "vigilante_reporter_failed_checkpoints";
   "vigilante_reporter_since_last_header_seconds";
   "vigilante_reporter_since_last_checkpoint_seconds";
   "vigilante_reporter_new_btc_header";
   "vigilante_reporter_new_btc_checkpoint";
   "vigilante_reporter_insert_headers_censorship";
   "vigilante_reporter_checkpoint_censorship"].
Definition monitor_names : list string :=
  ["vigilante_monitor_valid_epochs";
   "vigilante_monitor_invalid_epochs";
   "vigilante_monitor_valid_btc_headers";
   "vigilante_monitor_invalid_btc_headers";
   "vigilante_monitor_liveness_attacks"].
Definition tracker_names : list string :=
  ["vigilante_unbonding_watcher_reported_unbonding_transactions";
   "vigilante_unbonding_watcher_failed_reported_unbonding_transactions";
   "vigilante_unbonding_watcher_tracked_active_delegations";
   "vigilante_unbonding_watcher_detected_unbonded_stake_expansion";
   "vigilante_unbonding_watcher_detected_unbonding_transactions";
   "vigilante_unbonding_watcher_detected_non_unbonding_transactions";
   "vigilante_unbonding_watcher_failed_reported_activate_delegation";
   "vigilante_unbonding_watcher_reported_activate_delegations";
   "vigilante_unbonding_watcher_method_latency_seconds";
   "vigilante_unbonding_watcher_number_of_activation_in_progress";
   "vigilante_unbonding_watcher_number_of_verified_delegations";
   "vigilante_unbonding_watcher_number_of_verified_not_in_chain_delegations";
   "vigilante_unbonding_watcher_number_of_verified_insufficient_conf_delegations";
   "vigilante_unbonding_watcher_number_of_verified_sufficient_conf_delegations";
   "vigilante_unbonding_watcher_unbonding_censorship";
   "vigilante_unbonding_watcher_inclusion_proof_censorship";
   "vigilante_unbonding_watcher_best_block_height";
   "vigilante_unbonding_watcher_btc_light_client_height";
   "slasher_slashed_finality_providers";
   "slasher_slashed_delegations";
   "slasher_slashed_sats";
   "slasher_new_slashed_delegation";
   "vigilante_atomic_slasher_tracked_delegations_gauge";
   "vigilante_atomic_slasher_selective_slashing_censorship"].
