(* ===== verification/MetricsTheorems.v ===== *)
(** * Theorems about the metrics *)

From S2P Require Import Prelude GoFloat Config ConfigAll Metrics.

Section registers.
Context {PR : Prometheus} {PL : PrometheusLaws}.

(** [m] returns [v] and registers exactly the names [ns], if they are distinct, in
    any registry that has none of them. *)
Definition registers {A} (m : RegM A) (v : A) (ns : list string) : Prop :=
  ∀ r, NoDup ns → (∀ n, n ∈ ns → n ∉ registered r) →
    ∃ r', m r = (Val v, r') ∧ registered r' = registered r ++ ns.

Lemma registers_ret {A} (v : A) : registers (mret v) v [].
Proof. intros r _ _. exists r. by rewrite app_nil_r. Qed.

Lemma registers_bind {A B} (m : RegM A) (k : A → RegM B) v w ns1 ns2 :
  registers m v ns1 → registers (k v) w ns2 → registers (m ≫= k) w (ns1 ++ ns2).
Proof.
  intros H1 H2 r (Hn1 & Hd & Hn2)%NoDup_app Hr.
  destruct (H1 r) as (r1 & E1 & R1); [done|set_solver|].
  destruct (H2 r1) as (r2 & E2 & R2); [done| |].
  { intros n Hn. rewrite R1. specialize (Hr n). specialize (Hd n). set_solver. }
  exists r2. split; [|by rewrite R2, R1, app_assoc]. unfold mbind, M_bind. by rewrite E1.
Qed.

Lemma registers_collector c :
  match c with MetricCollector m => valid_metric m | _ => true end = true →
  registers (MustRegister c) tt (collector_names c).
Proof.
  intros Hv r _ Hr. destruct (Register_new c r Hv Hr) as (r' & E & R). exists r'. split; [|done].
  unfold MustRegister, must. by rewrite E.
Qed.
Lemma registers_metric m n :
  valid_metric m = true → BuildFQName (Namespace m) "" (Name m) = n → registers (auto_New m) m [n].
Proof.
  intros Hv <-. rewrite <-(app_nil_r [_]), <-metric_name.
  eapply registers_bind; [by apply (registers_collector (MetricCollector m))|apply registers_ret].
Qed.
Lemma metric_plain k name help :
  valid_metric (mkMetric k "" name help) = true →
  registers (auto_New (mkMetric k "" name help)) (mkMetric k "" name help) [name].
Proof. intros Hv. apply registers_metric; [done|]. apply BuildFQName_plain. Qed.
Lemma metric_spaced k ns name help n :
  valid_metric (mkMetric k ns name help) = true → ns ≠ "" → name ≠ "" →
  String.append ns (String.append "_" name) = n →
  registers (auto_New (mkMetric k ns name help)) (mkMetric k ns name help) [n].
Proof. intros Hv H1 H2 <-. apply registers_metric; [done|]. by apply BuildFQName_spaced. Qed.
End registers.

(** One registration after the other; the metrics returned and the names are read
    off. *)
Ltac register_all :=
  lazymatch goal with
  | |- registers (mret _) _ _ => apply registers_ret
  | |- registers (_ ≫= _) _ _ => eapply registers_bind; [register_all|cbv beta; register_all]
  | |- registers (auto_New (mkMetric _ "" _ _)) _ _ => apply metric_plain; vm_compute; reflexivity
  | |- registers (auto_New _) _ _ => eapply metric_spaced; [vm_compute; reflexivity|done|done|reflexivity]
  | |- registers (NewCounter _ _ _) _ _ => unfold NewCounter; register_all
  | |- registers (NewGauge _ _ _) _ _ => unfold NewGauge; register_all
  | |- registers (NewGaugeVec _ _ _ _) _ _ => unfold NewGaugeVec; register_all
  | |- registers (NewHistogramVec _ _ _ _ _) _ _ => unfold NewHistogramVec; register_all
  end.

Section constructors.
Context {PR : Prometheus} {PL : PrometheusLaws}.

Lemma submitter_registers : ∃ v ns, registers SubmitterM.NewSubmitterMetrics v ns ∧ ns = submitter_names.
Proof.
  eexists _, _. split; [|shelve].
  unfold SubmitterM.NewSubmitterMetrics, RelayerM.newRelayerMetrics. register_all.
  Unshelve. reflexivity.
Qed.
Lemma reporter_registers : ∃ v ns, registers ReporterM.NewReporterMetrics v ns ∧ ns = reporter_names.
Proof. eexists _, _. split; [unfold ReporterM.NewReporterMetrics; register_all|reflexivity]. Qed.
Lemma monitor_registers : ∃ v ns, registers MonitorM.NewMonitorMetrics v ns ∧ ns = monitor_names.
Proof. eexists _, _. split; [unfold MonitorM.NewMonitorMetrics; register_all|reflexivity]. Qed.
Lemma tracker_registers : ∃ v ns, registers NewBTCStakingTrackerMetrics v ns ∧ ns = tracker_names.
Proof.
  eexists _, _. split; [|shelve].
  unfold NewBTCStakingTrackerMetrics, WatcherM.newUnbondingWatcherMetrics, SlasherM.newSlasherMetrics,
    AtomicM.newAtomicSlasherMetrics. register_all.
  Unshelve. reflexivity.
Qed.

(** The server adds the collectors of the Go runtime. *)
Lemma start_registers addr r :
  Forall (λ n, String.prefix "go_" n = false) (registered r) →
  ∃ r', metrics_start addr r = (Val addr, r') ∧
    registered r' = registered r ++ collector_names BuildInfoCollector ++ collector_names GoCollector.
Proof.
  intros Hr. rewrite Forall_forall in Hr. unfold metrics_start, MustRegister, must, mbind, M_bind.
  destruct (Register_new BuildInfoCollector r eq_refl) as (r1 & E1 & R1).
  { intros n Hn Hin. specialize (Hr n Hin). rewrite (go_names BuildInfoCollector n) in Hr; [done|by left|done]. }
  destruct (Register_new GoCollector r1 eq_refl) as (r2 & E2 & R2).
  { intros n Hn. rewrite R1. intros [Hin|Hin]%elem_of_app; [|by apply go_disjoint in Hin].
    specialize (Hr n Hin). rewrite (go_names GoCollector n) in Hr; [done|by right|done]. }
  exists r2. rewrite E1, E2. split; [done|]. by rewrite R2, R1, app_assoc.
Qed.

(** On a new registry the metrics are made without panic and registered under
    exactly these names, and the server then adds those of the Go runtime. *)
Definition exposes {A} (make : RegM A) (names : list string) : Prop :=
  NoDup names ∧ ∀ addr, ∃ v r r',
    make NewRegistry = (Val v, r) ∧ registered r = names ∧
    metrics_start addr r = (Val addr, r') ∧
    registered r' = names ++ collector_names BuildInfoCollector ++ collector_names GoCollector.
Lemma registers_exposes {A} (make : RegM A) names :
  (∃ v ns, registers make v ns ∧ ns = names) →
  bool_decide (NoDup names) && forallb (λ n, negb (String.prefix "go_" n)) names = true →
  exposes make names.
Proof.
  intros (v & ? & Hreg & ->) [Hnd%bool_decide_eq_true Hgo]%andb_true_iff. split; [done|]. intros addr.
  destruct (Hreg NewRegistry Hnd) as (r & E & R); [rewrite NewRegistry_empty; set_solver|].
  rewrite NewRegistry_empty in R. cbn in R.
  destruct (start_registers addr r) as (r' & E' & R').
  { rewrite R. apply Forall_forall. intros n Hn. rewrite forallb_forall in Hgo.
    apply negb_true_iff, Hgo, list_elem_of_In, Hn. }
  exists v, r, r'. by rewrite R', R.
Qed.

(** Every program exposes exactly its metrics.  The submitter, the reporter, the
    monitor and the staking tracker register their metrics, and those of their
    parts, in a new registry without panic, under the listed names, which are
    distinct and well formed; the metrics server then starts and adds the collectors
    of the Go runtime. *)
Theorem metrics_are_registered :
  exposes SubmitterM.NewSubmitterMetrics submitter_names ∧
  exposes ReporterM.NewReporterMetrics reporter_names ∧
  exposes MonitorM.NewMonitorMetrics monitor_names ∧
  exposes NewBTCStakingTrackerMetrics tracker_names.
Proof.
  split_and!; apply registers_exposes; try (vm_compute; reflexivity).
  - apply submitter_registers.
  - apply reporter_registers.
  - apply monitor_registers.
  - apply tracker_registers.
Qed.
End constructors.

(** ** A registry that keeps the names *)
Definition fq_name (ns name : string) : string :=
  if bool_decide (ns = "") then name else String.append ns (String.append "_" name).
Definition small_collector_names (c : Collector) : list string :=
  match c with
  | MetricCollector m => [fq_name (Namespace m) (Name m)]
  | BuildInfoCollector => ["go_build_info"]
  | GoCollector => ["go_goroutines"; "go_threads"]
  end.
#[global] Instance small_prometheus : Prometheus := {|
  Registry := list string;
  NewRegistry := [];
  Registry_Register c := λ r,
    if bool_decide (Exists (λ n, n ∈ r) (small_collector_names c))
    then (Error (ENew "duplicate metrics collector registration attempted"), r)
    else (Val tt, r ++ small_collector_names c);
  registered r := r;
  BuildFQName ns _ name := fq_name ns name;
  collector_names := small_collector_names;
|}.
#[global] Instance small_prometheus_laws : PrometheusLaws.
Proof.
  split.
  - done.
  - intros c r _ Hf. exists (r ++ small_collector_names c). split; [|done]. cbn.
    rewrite bool_decide_eq_false_2; [done|]. rewrite Exists_exists. naive_solver.
  - intros c r n Hn Hr. eexists. cbn. rewrite bool_decide_eq_true_2; [done|].
    rewrite Exists_exists. eauto.
  - done.
  - done.
  - intros ns n Hns _. cbn. unfold fq_name. by rewrite bool_decide_eq_false_2.
  - intros c n [-> | ->] Hn; cbn in Hn; set_unfold; naive_solver.
  - intros n Hn. cbn in *. set_unfold. naive_solver.
Qed.
Lemma metrics_are_registered_witness :
  exposes (PR := small_prometheus) NewBTCStakingTrackerMetrics tracker_names ∧ length tracker_names = 24%nat.
Proof.
  split; [|vm_compute; reflexivity].
  apply (metrics_are_registered (PR := small_prometheus) (PL := small_prometheus_laws)).
Defined.
