(* ===== verification/Interrupts.v ===== *)
(** * Interrupt handlers ([cmd/vigilante/cmd/utils.go])

    A command registers its handlers one after the other with [addInterruptHandler],
    which starts [mainInterruptHandler] the first time, and then waits until
    [interruptHandlersDone] is closed.  [mainInterruptHandler] receives handlers on
    an unbuffered channel until a signal arrives; it then calls them, the last one
    first, closes [interruptHandlersDone] and returns.  [int_step] interleaves the
    two goroutines with signals and with the rest of the program, which changes the
    state the handlers work on. *)

From S2P Require Import Prelude.

Section interrupts.
Context {W : Type}.
Notation handler := (M W unit).

(** The closure [invokeCallbacks] *)
Definition invokeCallback (interruptCallbacks : list handler) (i : nat) : handler :=
  let idx := len interruptCallbacks - 1 - Z.of_nat i in
  h ← of_outcome (slice_index interruptCallbacks idx);
  h.
Definition invokeCallbacks (interruptCallbacks : list handler) : handler :=
  for_each (seq 0 (length interruptCallbacks)) (invokeCallback interruptCallbacks).

(** The command: the handlers it has not registered yet, waiting, returned, or
    ended by a signal that is not handled yet. *)
Inductive main_pc := MainAdd (hs : list handler) | MainWait | MainExited | MainKilled.
(** [mainInterruptHandler]: not started, in its [select], in [invokeCallbacks] after
    [i] calls, returned, or ended with the process by a panic. *)
Inductive int_pc := IntNone | IntListen | IntInvoke (i : nat) | IntReturned | IntCrashed.
Record proc := mkProc {
  pr_main : main_pc;
  pr_int : int_pc;
  interruptCallbacks : list handler;
  pr_signal : bool;
  interruptHandlersDone : bool;
  pr_world : W;
}.
Definition proc_init (hs : list handler) (w : W) : proc := mkProc (MainAdd hs) IntNone [] false false w.

Definition alive (p : proc) : Prop :=
  pr_int p ≠ IntCrashed ∧ pr_main p ≠ MainExited ∧ pr_main p ≠ MainKilled.

Context (env : W → W → Prop).

(** [addInterruptHandler] *)
Inductive add_step : proc → proc → Prop :=
| Add_first h hs cs sg d w :
    add_step (mkProc (MainAdd (h :: hs)) IntNone cs sg d w) (mkProc (MainAdd (h :: hs)) IntListen cs sg d w)
| Add_send h hs cs sg d w :
    add_step (mkProc (MainAdd (h :: hs)) IntListen cs sg d w) (mkProc (MainAdd hs) IntListen (cs ++ [h]) sg d w).
(** [mainInterruptHandler] *)
Inductive signal_step : proc → proc → Prop :=
| Int_take m cs d w :
    signal_step (mkProc m IntListen cs true d w) (mkProc m (IntInvoke 0) cs false d w)
| Int_call m i cs sg d w w' :
    (i < length cs)%nat → invokeCallback cs i w = (Val tt, w') →
    signal_step (mkProc m (IntInvoke i) cs sg d w) (mkProc m (IntInvoke (S i)) cs sg d w')
| Int_panic m i cs sg d w msg w' :
    (i < length cs)%nat → invokeCallback cs i w = (Panic msg, w') →
    signal_step (mkProc m (IntInvoke i) cs sg d w) (mkProc m IntCrashed cs sg d w')
| Int_done m cs sg d w :
    signal_step (mkProc m (IntInvoke (length cs)) cs sg d w) (mkProc m IntReturned cs sg true w).
(** The end of [Run], signals, and the rest of the program. *)
Inductive other_step : proc → proc → Prop :=
| Main_wait i cs sg d w :
    other_step (mkProc (MainAdd []) i cs sg d w) (mkProc MainWait i cs sg d w)
| Main_exit i cs sg w :
    other_step (mkProc MainWait i cs sg true w) (mkProc MainExited i cs sg true w)
| Signal m i cs sg d w :
    i ≠ IntNone → other_step (mkProc m i cs sg d w) (mkProc m i cs true d w)
| Signal_unhandled m cs sg d w :
    other_step (mkProc m IntNone cs sg d w) (mkProc MainKilled IntNone cs sg d w)
| Program m i cs sg d w w' :
    env w w' → other_step (mkProc m i cs sg d w) (mkProc m i cs sg d w').
Inductive int_step (p p' : proc) : Prop :=
| Int_add : alive p → add_step p p' → int_step p p'
| Int_handler : alive p → signal_step p p' → int_step p p'
| Int_other : alive p → other_step p p' → int_step p p'.
Definition int_steps : proc → proc → Prop := rtc int_step.

(** ** The order of the calls *)
Lemma invokeCallback_nth (cs : list handler) i :
  (i < length cs)%nat →
  ∃ h : handler, reverse cs !! i = Some h ∧ ∀ w, invokeCallback cs i w = h w.
Proof.
  intros Hi. destruct (lookup_lt_is_Some_2 (reverse cs) i) as [h Hh]; [by rewrite length_reverse|].
  exists h. split; [done|]. intros w. unfold invokeCallback.
  rewrite reverse_lookup in Hh by done.
  unfold len. replace (Z.of_nat (length cs) - 1 - Z.of_nat i)%Z with (Z.of_nat (length cs - S i)) by lia.
  by rewrite (slice_index_lookup _ _ _ Hh).
Qed.

(** The loop over indices calls the handlers from the last to the first. *)
Lemma invokeCallbacks_reverse (cs : list handler) w : invokeCallbacks cs w = for_each (reverse cs) (λ h : handler, h) w.
Proof.
  unfold invokeCallbacks.
  assert (∀ n k w, (k + n = length cs)%nat →
    for_each (seq k n) (invokeCallback cs) w = for_each (drop k (reverse cs)) (λ h : handler, h) w) as H.
  { induction n as [|n IH]; intros k w0 Hk.
    - by rewrite drop_ge by (rewrite length_reverse; lia).
    - destruct (invokeCallback_nth cs k) as (h & Hh & Eh); [lia|].
      rewrite (drop_S _ _ _ Hh). cbn. unfold mbind, M_bind. rewrite Eh.
      destruct (h w0) as [[[]|e|m|] w1]; try done. apply IH. lia. }
  rewrite H by done. by rewrite drop_0.
Qed.

(** ** The invariant *)
Section invariant.
Context (hs : list handler).
(** What holds after [i] handlers have run, when all of [hs] were registered. *)
Context (J : nat → W → Prop).
Context (J_env : ∀ i w w', J i w → env w w' → J i w').
Context (J_call : ∀ i h w w', reverse hs !! i = Some h → J i w → h w = (Val tt, w') → J (S i) w').
(** What holds after a handler has panicked. *)
Context (C : W → Prop).
Context (C_panic : ∀ i h w msg w', reverse hs !! i = Some h → J i w → h w = (Panic msg, w') → C w').

Definition remaining (m : main_pc) : list handler := match m with MainAdd l => l | _ => [] end.
Record int_inv (p : proc) : Prop := {
  ii_split : interruptCallbacks p ++ remaining (pr_main p) = hs ∨ pr_main p = MainKilled;
  ii_before : pr_int p = IntNone ∨ pr_int p = IntListen → J 0 (pr_world p);
  ii_invoke : ∀ i, pr_int p = IntInvoke i → interruptCallbacks p = hs →
    (i ≤ length hs)%nat ∧ J i (pr_world p);
  ii_returned : pr_int p = IntReturned → interruptCallbacks p = hs → J (length hs) (pr_world p);
  ii_crashed : pr_int p = IntCrashed → interruptCallbacks p = hs → C (pr_world p);
  ii_done : interruptHandlersDone p = true → pr_int p = IntReturned;
  ii_exit : pr_main p = MainExited → interruptHandlersDone p = true;
}.
Lemma int_init_inv w : J 0 w → int_inv (proc_init hs w).
Proof. clear J_env J_call C_panic env. intros H. split; cbn; naive_solver. Qed.

Lemma int_step_inv p p' : int_inv p → int_step p p' → int_inv p'.
Proof.
  intros [Hs Hb Hi Hr Hc Hd Hx] [Ha Hst|Ha Hst|Ha Hst]; destruct Hst; split; cbn in *;
    try discriminate; try (intros; discriminate); try done; try (intros [?|?]; discriminate).
  - intros _. apply Hb. by left.
  - intros H. discriminate (Hd H).
  - left. destruct Hs as [<-|]; [|done]. by rewrite <-app_assoc.
  - intros i [= <-] ->. split; [lia|]. apply Hb. by right.
  - intros H. discriminate (Hd H).
  - intros j [= <-] ->. destruct (Hi i eq_refl eq_refl) as [_ HJ]. split; [lia|].
    destruct (invokeCallback_nth hs i) as (h & Hh & Eh); [done|]. rewrite Eh in H0. by eapply J_call.
  - intros Hd'. discriminate (Hd Hd').
  - intros _ ->. destruct (Hi i eq_refl eq_refl) as [_ HJ].
    destruct (invokeCallback_nth hs i) as (h & Hh & Eh); [done|]. rewrite Eh in H0. by eapply C_panic.
  - intros Hd'. discriminate (Hd Hd').
  - intros _ ->. by apply Hi.
  - destruct Hs as [Hs|]; [left; exact Hs|done].
  - destruct Hs as [Hs|]; [left; exact Hs|done].
  - by right.
  - intros Hp. eapply J_env; [by apply Hb|done].
  - intros j -> ->. destruct (Hi j eq_refl eq_refl). eauto.
  - intros -> ->. eapply J_env; [by apply Hr|done].
  - intros ->. by destruct Ha as [[] _].
Qed.
Lemma int_steps_inv p p' : int_steps p p' → int_inv p → int_inv p'.
Proof. induction 1; eauto using int_step_inv. Qed.
(** A command that returns has run all its handlers. *)
Lemma exited_ran_all w p :
  J 0 w → int_steps (proc_init hs w) p → pr_main p = MainExited →
  interruptCallbacks p = hs ∧ J (length hs) (pr_world p).
Proof.
  intros HJ Hst Hm. apply int_steps_inv in Hst as [Hs _ _ Hr _ Hd Hx]; [|by apply int_init_inv].
  rewrite Hm in Hs. cbn in Hs. rewrite app_nil_r in Hs. destruct Hs as [Hs|]; [|done].
  split; [done|]. auto.
Qed.
End invariant.

(** ** A signal before all handlers are registered *)
Lemma returned_blocks p p' h hs :
  pr_int p = IntReturned → pr_main p = MainAdd (h :: hs) → int_steps p p' →
  pr_int p' = IntReturned ∧ pr_main p' = MainAdd (h :: hs).
Proof.
  intros Hi Hm Hst. induction Hst as [|p p1 p' H1 _ IH]; [done|].
  apply IH; destruct H1 as [_ H1|_ H1|_ H1]; destruct H1; cbn in *; congruence.
Qed.
End interrupts.
