(* ===== verification/Commands.v ===== *)
(** * The commands ([cmd/vigilante/cmd/])

    [Run] of the four commands: it loads the configuration, makes the logger, the
    clients, the metrics, the database and the program, starts it and the metrics
    server, and gives the interrupt handlers in the order it registers them
    ([Interrupts.v] is what happens with them).  Every failure is a panic.

    The clients of Babylon and of the databases are interfaces.  The programs'
    constructors are those of the other files; their [Start] and [Stop], which are
    step relations there, are operations of a record here.  A state is a database
    and the rest of the world. *)

From S2P Require Import Prelude GoFloat Config ConfigAll Blocks CkptCache Retry BTCClient Reporter EpochInfo.
From S2P Require Import StakingTypes Stores Relayer Scanner Monitor GenesisInfo ClientWallet Metrics.
From S2P Require Import ReporterBootstrap TrackedDelegations Watcher Slasher AtomicSlasher StakingTracker.

(** ** Interfaces *)
Class BabylonClients {BL : BTCLib} {CL : ConfigLib} (W : Type) := {
  set_KeyDirectory : string → BabylonConfig → BabylonConfig;
  bbn_RPCAddr : BabylonConfig → string;
  bbn_Timeout : BabylonConfig → Z;
  bbn_SubmitterAddress : BabylonConfig → string;
  BbnClient : Type;
  bbnclient_New : BabylonConfig → M W BbnClient;
  bbnclient_Start : BbnClient → M W unit;
  bbnclient_Stop : BbnClient → M W unit;
  (** the client as the reporter sees it *)
  reporter_client : BbnClient → BabylonClient W;
  QueryClient : Type;
  QueryConfig_Validate : string → Z → result unit;
  bbnqc_New : string → Z → M W QueryClient;
  query_params : QueryClient → M W CkptParams;
  AccAddressFromBech32 : string → result bytes;
  (** [kvdb.GetBoltBackend]; the contents are the other part of the state *)
  GetBoltBackend : DBConfig → M W unit;
}.
(** A program once it is made: [Start] and [Stop]. *)
Record Program (S : Type) := mkProgram { prog_Start : M S unit; prog_Stop : M S unit }.
Arguments mkProgram {S} _ _.
Arguments prog_Start {S} _.
Arguments prog_Stop {S} _.

Section commands.
Context {BL : BTCLib} {BF : BabylonFormatter} {GS : GoSort} {RT : Retry} {SL : StakingLib} {RL : RelayerLib}.
Context {WL : WalletLib} {CL : ConfigLib} {GL : GenesisLib} {PR : Prometheus} {SK : SlashingKeys}.
Context {D W : Type} {KV : KVDB D} {RPCs : Client.RPC W} {NR : NodeRPC W} {CF : ConfigFiles W}.
Context {CN : ChainNotifiers W} {BC : BabylonClients W}.
Context (Notifier_Start : Notifier → M W unit) (Sprintf_addr : string → Z → string).
(** the goroutine of the HTTP server *)
Context (go_Serve : string → M W unit).

Notation CM A := (M (D * W) A).
Definition on_db {A} (m : M D A) : CM A := zoom fst (λ d s, (d, snd s)) m.
Definition on_env {A} (m : M W A) : CM A := zoom snd (λ w s, (fst s, w)) m.

(** A registry is made with the metrics and given to the server. *)
Definition new_metrics {A S} (make : RegM A) : M S (A * Registry) := λ s,
  match make NewRegistry with
  | (Val a, r) => (Val (a, r), s)
  | (Error e, _) => (Error e, s)
  | (Panic p, _) => (Panic p, s)
  | (Diverge, _) => (Diverge, s)
  end.
Definition Metrics_Start (cfg : MetricsConfig) (r : Registry) : M W unit := λ w,
  match metrics_start (Sprintf_addr (metrics_Host cfg) (ServerPort cfg)) r with
  | (Val addr, _) => go_Serve addr w
  | (Error e, _) => (Error e, w)
  | (Panic p, _) => (Panic p, w)
  | (Diverge, _) => (Diverge, w)
  end.

Definition load_config (cfgFile : string) : M W ConfigAll.Config := must "failed to load config" (config_New cfgFile).
Definition create_logger (cfg : ConfigAll.Config) : M W unit :=
  must "failed to create logger" (of_result (CreateLogger (ConfigAll.Common cfg))) ;; mret tt.
Definition with_key_dir (babylonKeyDir : string) (cfg : ConfigAll.Config) : ConfigAll.Config :=
  if bool_decide (babylonKeyDir = "") then cfg
  else mkConfig (ConfigAll.Common cfg) (ConfigAll.BTC cfg) (set_KeyDirectory babylonKeyDir (ConfigAll.Babylon cfg)) (ConfigAll.Metrics cfg)
         (ConfigAll.Submitter cfg) (ConfigAll.Reporter cfg) (ConfigAll.Monitor cfg) (ConfigAll.BTCStakingTracker cfg).

(** ** The reporter *)
Section reporter.
Context (reporter_program : ReporterParams * Reporter → Client → Notifier → Program W).
(** [btcClient.Stop()] and [btcClient.WaitForShutdown()] *)
Context (client_Stop client_WaitForShutdown : Client → M W unit).

Definition reporter_Run (cfgFile babylonKeyDir : string) : M W (list (M W unit)) :=
  cfg ← load_config cfgFile;
  create_logger cfg ;;
  let cfg := with_key_dir babylonKeyDir cfg in
  btcClient ← must "failed to open BTC client" (NewWallet cfg);
  babylonClient ← must "failed to open Babylon client" (bbnclient_New (ConfigAll.Babylon cfg));
  reporterMetrics ← new_metrics ReporterM.NewReporterMetrics;
  btcNotifier ← must "notifier" (NewNodeBackendWithParams (ConfigAll.BTC cfg));
  r ← must "failed to create vigilante reporter"
    (ReporterBootstrap.New (BC := reporter_client babylonClient)
       (BTCCacheSize (ConfigAll.Reporter cfg), MaxHeadersInMsg (ConfigAll.Reporter cfg))
       (ConfigAll.MaxRetryTimes (ConfigAll.Common cfg)));
  let vigilantReporter := reporter_program r btcClient btcNotifier in
  Metrics_Start (ConfigAll.Metrics cfg) (snd reporterMetrics) ;;
  prog_Start vigilantReporter ;;
  mret [prog_Stop vigilantReporter; (client_Stop btcClient ;; client_WaitForShutdown btcClient)].
End reporter.

(** ** The submitter *)
(** [poller.New]: an empty channel with [bufferSize] places. *)
Definition poller_New (bufferSize : Z) : list RawCheckpointWithMetaResponse * Z := ([], bufferSize).

Section submitter.
Notation SM A := (M (Relayer.Relayer * W * D) A).
Definition sub_world {A} (m : M W A) : SM A := zoom (λ s, s.1.2) (λ w s, (s.1.1, w, s.2)) m.

(** [submitter.New]: the tag, and what the relayer and the poller start with. *)
Definition submitter_New (cfg : SubmitterConfig) (btcCfg : BTCConfig) (queryClient : QueryClient)
    (maxRetryTimes : Z) : SM (bytes * (list RawCheckpointWithMetaResponse * Z)) :=
  params ← wrap_err "failed to get checkpoint params"
    (sub_world (capture (λ f, Do f (mkRetryOpts maxRetryTimes (λ _, true) false false))
       None (assign_both (query_params queryClient))));
  match params with
  | None => panic "nil pointer dereference"
  | Some p =>
      checkpointTag ← wrap_err "failed to decode checkpoint tag"
        (of_result (Prelude.hex_DecodeString (Reporter.CheckpointTag p)));
      let p := poller_New (BufferSize cfg) in
      wrap_err "failed to create fee estimator" (sub_world (NewFeeEstimator btcCfg)) ;;
      NewRelayer cfg ;;
      mret (checkpointTag, p)
  end.

Context (submitter_program : SubmitterConfig → Client → bytes → bytes → Program (Relayer.Relayer * W * D)).

Definition submitter_Run (cfgFile : string) : SM (list (SM unit)) :=
  cfg ← sub_world (load_config cfgFile);
  sub_world (create_logger cfg) ;;
  btcWallet ← must "failed to open BTC client" (sub_world (NewWallet cfg));
  must "invalid config for the query client"
    (of_result (QueryConfig_Validate (bbn_RPCAddr (ConfigAll.Babylon cfg)) (bbn_Timeout (ConfigAll.Babylon cfg)))) ;;
  queryClient ← must "failed to create babylon query client"
    (sub_world (bbnqc_New (bbn_RPCAddr (ConfigAll.Babylon cfg)) (bbn_Timeout (ConfigAll.Babylon cfg))));
  submitterAddr ← must "invalid submitter address from config"
    (of_result (AccAddressFromBech32 (bbn_SubmitterAddress (ConfigAll.Babylon cfg))));
  submitterMetrics ← new_metrics SubmitterM.NewSubmitterMetrics;
  must "database" (sub_world (GetDBBackend GetBoltBackend
    (sub_DatabaseConfig (ConfigAll.Submitter cfg)))) ;;
  s ← must "failed to create vigilante submitter"
    (submitter_New (ConfigAll.Submitter cfg) (cl_cfg btcWallet) queryClient (ConfigAll.MaxRetryTimes (ConfigAll.Common cfg)));
  let vigilantSubmitter := submitter_program (ConfigAll.Submitter cfg) btcWallet (fst s) submitterAddr in
  prog_Start vigilantSubmitter ;;
  sub_world (Metrics_Start (ConfigAll.Metrics cfg) (snd submitterMetrics)) ;;
  mret [prog_Stop vigilantSubmitter].
End submitter.

(** ** The monitor *)
Section monitor.
Context (ValAddressFromBech32 : string → result bytes) (BigEndianToUint64 : bytes → Z).
(** with the height [Start] is given, in a goroutine of its own *)
Context (monitor_program : Monitor.Monitor * BtcScanner → QueryClient → Client → Notifier → Z → Program (D * W)).

Definition monitor_Run (cfgFile genesisFile : string) : CM (list (CM unit)) :=
  cfg ← on_env (load_config cfgFile);
  on_env (create_logger cfg) ;;
  must "invalid config for query client"
    (of_result (QueryConfig_Validate (bbn_RPCAddr (ConfigAll.Babylon cfg)) (bbn_Timeout (ConfigAll.Babylon cfg)))) ;;
  bbnQueryClient ← must "failed to create babylon query client"
    (on_env (bbnqc_New (bbn_RPCAddr (ConfigAll.Babylon cfg)) (bbn_Timeout (ConfigAll.Babylon cfg))));
  btcClient ← must "failed to open BTC client" (on_env (NewWallet cfg));
  genesisInfo ← must "failed to read genesis file" (of_outcome (GetGenesisInfoFromFile genesisFile));
  monitorMetrics ← new_metrics MonitorM.NewMonitorMetrics;
  btcNotifier ← must "notifier" (on_env (NewNodeBackendWithParams (ConfigAll.BTC cfg)));
  must "database" (on_env (GetDBBackend GetBoltBackend (mon_DatabaseConfig (ConfigAll.Monitor cfg)))) ;;
  m ← must "failed to create vigilante monitor"
    (on_db (NewMonitor ValAddressFromBech32 BigEndianToUint64 (BtcCacheSize (ConfigAll.Monitor cfg))
       (mon_BtcConfirmationDepth (ConfigAll.Monitor cfg)) (GetCheckpointTag genesisInfo)
       (gi_GetBLSKeySet genesisInfo)));
  let vigilanteMonitor :=
    monitor_program m bbnQueryClient btcClient btcNotifier (GetBaseBTCHeight genesisInfo) in
  prog_Start vigilanteMonitor ;;
  on_env (Metrics_Start (ConfigAll.Metrics cfg) (snd monitorMetrics)) ;;
  mret [prog_Stop vigilanteMonitor].
End monitor.

(** ** The staking tracker *)
(** The parts [NewBTCStakingTracker] makes; [Fatal] ends the process. *)
Record BTCStakingTracker := mkStakingTracker {
  bst_cfg : BTCStakingTrackerConfig;
  bst_btcParams : chain_params;
  bst_indexer : string * Z;
  stakingEventWatcher : Watcher.Watcher;
  btcSlasher : BTCSlasher;
  atomicSlasher : AtomicSlasher.AtomicSlasher;
}.
(** [indexer.NewHTTPIndexerClient] with its address and time limit *)
Definition NewHTTPIndexerClient (url : string) (timeout : Z) : string * Z := (url, timeout).
Definition NewBTCStakingTracker (cfg : BTCStakingTrackerConfig) : CM BTCStakingTracker :=
  let indexerClient := NewHTTPIndexerClient (IndexerAddr cfg) (10 * Second) in
  btcParams ← must "failed to get BTC parameter" (of_result (GetBTCParams (BTCNetParams cfg)));
  btcSlasher ← must "failed to create BTC slasher" (on_db Slasher.New);
  mret (mkStakingTracker cfg btcParams indexerClient NewStakingEventWatcher btcSlasher NewAtomicSlasher).

Section tracker.
(** The three services of the tracker on the clients it is given, and its
    [Bootstrap]. *)
Context (services : BTCStakingTracker → Client → Notifier → BbnClient →
  Service (D * W) * Service (D * W) * Service (D * W)).
Context (bst_Bootstrap : BTCStakingTracker → Z → CM unit).
Notation TM A := (M (Lifecycle * (D * W)) A).

Definition tracker_start (t : BTCStakingTracker) (c : Client) (n : Notifier) (b : BbnClient) : TM unit :=
  let '(w, s, a) := services t c n b in tracker_Start w s a.
Definition tracker_stop (t : BTCStakingTracker) (c : Client) (n : Notifier) (b : BbnClient) : TM unit :=
  let '(w, s, a) := services t c n b in tracker_Stop w s a (on_env (bbnclient_Stop b)).

(** The handlers in the order they are registered. *)
Definition tracker_handlers (t : BTCStakingTracker) (c : Client) (n : Notifier) (b : BbnClient)
  : list (TM unit) :=
  [ must "failed to stop unbonding watcher" (tracker_stop t c n b);
    must "failed to stop btc chain notifier" (tracker_stop t c n b);
    must "failed to stop Babylon client" (on_services (on_env (bbnclient_Stop b))) ].

Definition bstracker_Run (cfgFile babylonKeyDir : string) (startHeight : Z) : TM (list (TM unit)) :=
  cfg ← on_services (on_env (load_config cfgFile));
  let cfg := with_key_dir babylonKeyDir cfg in
  on_services (on_env (create_logger cfg)) ;;
  let cfg := with_key_dir babylonKeyDir cfg in
  bbnClient ← must "failed to open Babylon client"
    (on_services (on_env (bbnclient_New (ConfigAll.Babylon cfg))));
  must "failed to start WebSocket connection with Babylon"
    (on_services (on_env (bbnclient_Start bbnClient))) ;;
  btcClient ← must "failed to open BTC client" (on_services (on_env (NewWallet cfg)));
  btcNotifier ← must "notifier" (on_services (on_env (NewNodeBackendWithParams (ConfigAll.BTC cfg))));
  bsMetrics ← new_metrics NewBTCStakingTrackerMetrics;
  must "database" (on_services (on_env
    (GetDBBackend GetBoltBackend (SlasherDatabaseConfig (ConfigAll.BTCStakingTracker cfg))))) ;;
  bstracker ← on_services (NewBTCStakingTracker (ConfigAll.BTCStakingTracker cfg));
  must "failed to start btc chain notifier" (on_services (on_env (Notifier_Start btcNotifier))) ;;
  must "bootstrap" (on_services (bst_Bootstrap bstracker startHeight)) ;;
  must "failed to start unbonding watcher" (tracker_start bstracker btcClient btcNotifier bbnClient) ;;
  on_services (on_env (Metrics_Start (ConfigAll.Metrics cfg) (snd bsMetrics))) ;;
  mret (tracker_handlers bstracker btcClient btcNotifier bbnClient).
End tracker.
End commands.
