(* ===== verification/CommandsTheorems.v ===== *)
(** * Theorems about the commands and their shutdown *)

From S2P Require Import Prelude Config ConfigAll Blocks CkptCache Retry BTCClient Reporter EpochInfo StakingTypes.
From S2P Require Import Stores Relayer Scanner Monitor GenesisInfo ClientWallet Metrics StakingTracker.
From S2P Require Import Slasher AtomicSlasher Watcher Interrupts Commands Instances SubmitterInstances.
From S2P Require Import WatcherInstances SlasherTheorems StartupTheorems MetricsTheorems.

(** ** Interrupts *)

(** The handlers [l] were called one after the other, each returned, and the
    program ran between the calls. *)
Inductive called {W} (env : W → W → Prop) (w0 : W) : list (M W unit) → W → Prop :=
| called_nil : called env w0 [] w0
| called_env l w w' : called env w0 l w → env w w' → called env w0 l w'
| called_next l h w w' : called env w0 l w → h w = (Val tt, w') → called env w0 (l ++ [h]) w'.

(** C38: a command that returns has run every interrupt handler.  In every
    interleaving of the registration of the handlers, signals, the handler goroutine
    and the rest of the program, a command returns only after all its handlers were
    called exactly once, the last registered first, each after the one before it
    returned. *)
Theorem handlers_run_once_in_reverse {W} (env : W → W → Prop) (hs : list (M W unit)) (w0 : W) (p : proc) :
  int_steps env (proc_init hs w0) p → pr_main p = MainExited →
  called env w0 (reverse hs) (pr_world p).
Proof.
  intros Hst Hm.
  destruct (exited_ran_all env hs (λ i w, called env w0 (take i (reverse hs)) w)) with
    (C := λ _ : W, True) (w := w0) (p := p) as [_ HJ]; try done.
  - intros. by eapply called_env.
  - intros i h w w' Hh HJ Hr. rewrite (take_S_r (A := M W unit) _ _ _ Hh). by eapply called_next.
  - rewrite take_0. constructor.
  - by rewrite take_ge in HJ by (by rewrite length_reverse).
Qed.

(** An early signal blocks the command.  When a signal arrives after the first
    handler was registered and before the second, the handler goroutine runs what it
    has and returns; the command then waits for ever to register the second. *)
Lemma early_signal_blocks {W} (env : W → W → Prop) (h1 h2 : M W unit) hs (w0 w1 : W) :
  h1 w0 = (Val tt, w1) →
  ∃ p, int_steps env (proc_init (h1 :: h2 :: hs) w0) p ∧ interruptHandlersDone p = true ∧
       ∀ p', int_steps env p p' → pr_main p' = MainAdd (h2 :: hs).
Proof.
  intros Hr. exists (mkProc (MainAdd (h2 :: hs)) IntReturned [h1] false true w1). split_and!; [|done|].
  - eapply rtc_l; [apply Int_add; [done|apply Add_first]|].
    eapply rtc_l; [apply Int_add; [done|apply Add_send]|].
    eapply rtc_l; [apply Int_other; [done|by apply Signal]|].
    eapply rtc_l; [apply Int_handler; [done|apply Int_take]|].
    eapply rtc_l; [apply Int_handler; [done|by apply Int_call; [cbn; lia|]]|].
    eapply rtc_l; [apply Int_handler; [done|apply (Int_done _ [h1])]|]. apply rtc_refl.
  - intros p' Hst. by eapply (returned_blocks env _ p' h2 hs) in Hst as [_ ?].
Qed.

(** ** The shutdown of the staking tracker *)
Section shutdown.
Context {BL : BTCLib} {SL : StakingLib} {CL : ConfigLib} {D W : Type} {CN : ChainNotifiers W}.
Context {BC : BabylonClients W}.
Context {SK : SlashingKeys}.
Notation S := (D * W)%type.
Context (services : BTCStakingTracker → Client → Notifier → BbnClient → Service S * Service S * Service S).
Context (t : BTCStakingTracker) (c : Client) (n : Notifier) (b : BbnClient).

(** The client of Babylon is a service that stops once: [Stop] stops it, and is an
    error when it is stopped; the parts of the tracker do not start it again. *)
Record stops_once (stopped : W → Prop) : Prop := {
  so_stop : ∀ w w', bbnclient_Stop b w = (Val tt, w') → stopped w';
  so_again : ∀ w, stopped w → ∃ e w', bbnclient_Stop b w = (Error e, w') ∧ stopped w';
  so_parts : ∀ s,
    let '(x, y, z) := services t c n b in
    stopped (snd s) → stopped (snd (snd (svc_Stop x s))) ∧ stopped (snd (snd (svc_Stop y s))) ∧
      stopped (snd (snd (svc_Stop z s)));
}.
(** The rest of the program does not call [Stop], nor starts the client again. *)
Definition leaves_alone (stopped : W → Prop) (s s' : Lifecycle * S) : Prop :=
  stopOnce (fst s') = stopOnce (fst s) ∧ keysClosed (fst s') = keysClosed (fst s) ∧
  quitClosed (fst s') = quitClosed (fst s) ∧ (stopped (snd (snd s)) → stopped (snd (snd s'))).

(** Neither channel of the tracker is closed. *)
Definition channels_open (l : Lifecycle) : Prop := keysClosed l = false ∧ quitClosed l = false.

Lemma tracker_stop_fails stopped l s o l' s' :
  stops_once stopped → stopOnce l = false → stopped (snd s) →
  tracker_stop services t c n b (l, s) = (o, (l', s')) →
  o ≠ Val tt ∧ stopped (snd s') ∧ (channels_open l → channels_open l').
Proof.
  intros [_ Ha Hp] Ho Hs. unfold tracker_stop. pose proof (Hp s) as Hp1.
  destruct (services t c n b) as [[wt sl] at_] eqn:Esv. unfold tracker_Stop, on_services, zoom, gets, modify.
  unfold mbind, M_bind. cbn. rewrite Ho. cbn.
  destruct Hp1 as (H1 & _ & _); [done|].
  destruct (svc_Stop wt s) as [[[]|e|m|] s1]; cbn; intros E; try (by simplify_eq); revert E.
  pose proof (Hp s1) as Hp2. cbn in Hp2. destruct Hp2 as (_ & H2 & _); [done|].
  destruct (svc_Stop sl s1) as [[[]|e|m|] s2]; cbn; intros E; try (by simplify_eq); revert E.
  pose proof (Hp s2) as Hp3. cbn in Hp3. destruct Hp3 as (_ & _ & H3); [done|].
  destruct (svc_Stop at_ s2) as [[[]|e|m|] s3]; cbn; intros E; try (by simplify_eq); revert E.
  destruct (Ha (snd s3)) as (e & w' & E & Hw'); [done|]. unfold on_env, zoom. rewrite E. cbn.
  intros. by simplify_eq.
Qed.

(** What holds after [i] handlers of the tracker have run, and after one panicked. *)
Definition shutdown_at (stopped : W → Prop) (i : nat) (x : Lifecycle * S) : Prop :=
  channels_open (fst x) ∧ stopOnce (fst x) = false ∧
  match i with 0%nat => True | 1%nat => stopped (snd (snd x)) | _ => False end.
Definition shutdown_crashed (stopped : W → Prop) (x : Lifecycle * S) : Prop :=
  channels_open (fst x) ∧ (stopOnce (fst x) = true → stopped (snd (snd x))).

Lemma shutdown_call stopped i h x o y :
  stops_once stopped → reverse (tracker_handlers services t c n b) !! i = Some h →
  shutdown_at stopped i x → h x = (o, y) →
  (o = Val tt → shutdown_at stopped (1 + i) y) ∧ shutdown_crashed stopped y.
Proof.
  intros Hso Hh (Hop & Hn & Hi) Hr. destruct x as [l1 [d1 w1]], i as [|[|i]]; [| |done].
  - cbn in Hh. injection Hh as <-. unfold must, on_services, on_env, zoom in Hr.
    destruct (bbnclient_Stop b w1) as [[[]|e|m|] w2] eqn:E; cbn in Hr; rewrite E in Hr; cbn in Hr; simplify_eq;
      (split; [intros; simplify_eq|]); (split_and!; [done..|]); cbn in *; try by rewrite Hn.
    by eapply so_stop.
  - cbn in Hh. injection Hh as <-. unfold must in Hr.
    destruct (tracker_stop services t c n b (l1, (d1, w1))) as [o1 [l2 s2]] eqn:E.
    destruct (tracker_stop_fails stopped l1 (d1, w1) o1 l2 s2 Hso Hn Hi E) as (Hv & Hst & Hcl).
    destruct o1 as [[]|e|m|]; simplify_eq; (split; [done|split; [by apply Hcl|done]]).
Qed.

(** C39: an interrupt of the staking tracker does not end in a clean shutdown.
    When a signal arrives after the three handlers were registered, the first one
    called stops the Babylon client; the tracker's [Stop] runs only after that
    (whenever it has run, the client is stopped), it stops the client a second time
    and its handler does not return, so that neither of the tracker's channels is ever
    closed and the third handler is never called.  In no interleaving does the
    command return. *)
Theorem tracker_shutdown_is_not_clean stopped env (l : Lifecycle) (s : S) p :
  stops_once stopped → (∀ x y, env x y → leaves_alone stopped x y) →
  stopOnce l = false → channels_open l →
  int_steps env (proc_init (tracker_handlers services t c n b) (l, s)) p →
  pr_main p ≠ MainExited ∧
  (interruptCallbacks p = tracker_handlers services t c n b →
   channels_open (fst (pr_world p)) ∧
   (stopOnce (fst (pr_world p)) = true → stopped (snd (snd (pr_world p))) ∧ pr_int p = IntCrashed) ∧
   (∀ i, pr_int p = IntInvoke i → i = 0%nat ∨ i = 1%nat ∧ stopped (snd (snd (pr_world p)))) ∧
   pr_int p ≠ IntReturned).
Proof.
  intros Hso Henv Hl Hop Hst.
  eapply (int_steps_inv env (tracker_handlers services t c n b) (shutdown_at stopped)) with
    (C := shutdown_crashed stopped) in Hst as [Hs Hb Hi Hr Hc Hd Hx].
  - split.
    { intros Hm. rewrite Hm in Hs. cbn in Hs. rewrite app_nil_r in Hs. destruct Hs as [Hs|]; [|done].
      by destruct (Hr (Hd (Hx Hm)) Hs) as (_ & _ & []). }
    intros Hcs. destruct (pr_int p) as [| |i| |] eqn:Ei.
    1,2: destruct Hb as (? & Hn & _); [by auto|]; rewrite Hn; by split_and!.
    + destruct (Hi i eq_refl Hcs) as (_ & ? & Hn & HJ). rewrite Hn. split_and!; [done..| |done].
      intros j [= <-]. destruct i as [|[|i]]; naive_solver.
    + by destruct (Hr eq_refl Hcs) as (_ & _ & []).
    + destruct (Hc eq_refl Hcs) as [? Hn]. split_and!; [done| |done..]. auto.
  - intros i x y (HH & Hn & HJ) (E1 & E2 & E3 & E4)%Henv. unfold shutdown_at, channels_open.
    rewrite E1, E2, E3. split_and!; [apply HH..|done|]. destruct i as [|[|i]]; auto.
  - intros i h x y Hh HJ Hrun. by apply (shutdown_call stopped i h x _ y Hso Hh HJ Hrun).
  - intros i h x m y Hh HJ Hrun. by apply (shutdown_call stopped i h x _ y Hso Hh HJ Hrun).
  - apply int_init_inv. by split_and!.
Qed.
End shutdown.

(** ** What a command that comes up has *)
Lemma must_Val {S A} msg (m : M S A) s a s' : must msg m s = (Val a, s') → m s = (Val a, s').
Proof. unfold must. by destruct (m s) as [[] ?]. Qed.
Lemma zoom_Val {S T A} (get : S → T) put (m : M T A) s a s' :
  zoom get put m s = (Val a, s') → ∃ t', m (get s) = (Val a, t').
Proof. unfold zoom. destruct (m (get s)) as [o t'] eqn:E. intros [= -> _]. eauto. Qed.
Lemma result_run_Val {S A} (r : result A) (s : S) a s' : of_result r s = (Val a, s') → r = Ok a.
Proof. destruct r; cbn; unfold mret, M_ret; intros; by simplify_eq. Qed.

Ltac cmd_inv :=
  repeat match goal with
  | H : (_ ≫= _) _ = (Val _, _) |- _ => apply bind_Val_inv in H as (? & ? & ? & H)
  | H : must _ _ _ = (Val _, _) |- _ => apply must_Val in H
  | H : on_env _ _ = (Val _, _) |- _ => apply zoom_Val in H as [? H]
  | H : on_db _ _ = (Val _, _) |- _ => apply zoom_Val in H as [? H]
  | H : sub_world _ _ = (Val _, _) |- _ => apply zoom_Val in H as [? H]
  | H : on_services _ _ = (Val _, _) |- _ => apply zoom_Val in H as [? H]
  | H : of_result _ _ = (Val _, _) |- _ => apply result_run_Val in H
  | H : of_outcome _ _ = (Val _, _) |- _ => injection H as H _
  | H : load_config _ _ = (Val _, _) |- _ => apply must_Val, config_New_validated in H
  end.

Section started.
Context {BL : BTCLib} {BF : BabylonFormatter} {GS : GoSort} {RT : Retry} {SL : StakingLib} {RL : RelayerLib}.
Context {WL : WalletLib} {CL : ConfigLib} {GL : GenesisLib} {PR : Prometheus} {SK : SlashingKeys}.
Context {D W : Type} {KV : KVDB D} {RPCs : Client.RPC W} {NR : NodeRPC W} {CF : ConfigFiles W}.
Context {CN : ChainNotifiers W} {BC : BabylonClients W}.
Context (Notifier_Start : Notifier → M W unit) (Sprintf_addr : string → Z → string).
Context (go_Serve : string → M W unit).

Lemma GetDBBackend_Val {B} (get : DBConfig → M W B) cfg w b w' :
  GetDBBackend get cfg w = (Val b, w') → is_Some cfg.
Proof. destruct cfg; [eauto|done]. Qed.

Lemma reporter_Run_Val prog st wt cfgFile dir (s s' : W) hs :
  reporter_Run Sprintf_addr go_Serve prog st wt cfgFile dir s = (Val hs, s') →
  ∃ cfg, Config_Validate cfg = Ok tt ∧ length hs = 2%nat.
Proof.
  unfold reporter_Run. intros H. cmd_inv. unfold mret, M_ret in H. simplify_eq. eauto.
Qed.
Lemma submitter_Run_Val prog cfgFile (s s' : Relayer.Relayer * W * D) hs :
  submitter_Run Sprintf_addr go_Serve prog cfgFile s = (Val hs, s') →
  ∃ cfg addr, Config_Validate cfg = Ok tt ∧ is_Some (sub_DatabaseConfig (ConfigAll.Submitter cfg)) ∧
    AccAddressFromBech32 (bbn_SubmitterAddress (ConfigAll.Babylon cfg)) = Ok addr ∧ length hs = 1%nat.
Proof.
  unfold submitter_Run. intros H. cmd_inv. unfold mret, M_ret in H. simplify_eq.
  match goal with H : GetDBBackend _ _ _ = _ |- _ => apply GetDBBackend_Val in H as Hdb end.
  do 2 eexists. split_and!; [done|exact Hdb|done|done].
Qed.
Lemma monitor_Run_Val va be prog cfgFile genesisFile (s s' : D * W) hs :
  monitor_Run Sprintf_addr go_Serve va be prog cfgFile genesisFile s = (Val hs, s') →
  ∃ cfg gi, Config_Validate cfg = Ok tt ∧ is_Some (mon_DatabaseConfig (ConfigAll.Monitor cfg)) ∧
    GetGenesisInfoFromFile genesisFile = Val gi ∧ length hs = 1%nat.
Proof.
  unfold monitor_Run. intros H. cmd_inv. unfold mret, M_ret in H. simplify_eq.
  match goal with H : GetDBBackend _ _ _ = _ |- _ => apply GetDBBackend_Val in H as Hdb end.
  eauto 6.
Qed.
Lemma with_key_dir_parts dir (cfg : ConfigAll.Config) :
  ConfigAll.BTCStakingTracker (with_key_dir dir cfg) = ConfigAll.BTCStakingTracker cfg ∧
  ConfigAll.BTC (with_key_dir dir cfg) = ConfigAll.BTC cfg.
Proof. unfold with_key_dir. by case_bool_decide. Qed.
Lemma bstracker_Run_Val services boot cfgFile dir start (s s' : Lifecycle * (D * W)) hs :
  bstracker_Run Notifier_Start Sprintf_addr go_Serve services boot cfgFile dir start s = (Val hs, s') →
  ∃ cfg t c n b, Config_Validate cfg = Ok tt ∧
    is_Some (SlasherDatabaseConfig (ConfigAll.BTCStakingTracker cfg)) ∧
    GetBTCParams (BTCNetParams (ConfigAll.BTCStakingTracker cfg)) = Ok (bst_btcParams t) ∧
    hs = tracker_handlers services t c n b.
Proof.
  unfold bstracker_Run, NewBTCStakingTracker. intros H. cmd_inv. unfold mret, M_ret in *. simplify_eq.
  match goal with H : GetDBBackend _ _ _ = _ |- _ => apply GetDBBackend_Val in H as Hdb end.
  match goal with H : GetBTCParams _ = _ |- _ => revert H end.
  revert Hdb. rewrite !(proj1 (with_key_dir_parts _ _)). intros. do 5 eexists. split_and!; [done|done| |done].
  done.
Qed.
End started.

(** A command that comes up is configured.  If [Run] of a command reaches the
    registration of its handlers, the configuration it loaded is valid and has the
    database the program stores to; the submitter's address decodes, the monitor has
    read the genesis file, and the tracker knows its network; the handlers are one
    for the submitter and the monitor, two for the reporter and three for the
    tracker. *)
Theorem commands_start_configured
    {BL : BTCLib} {BF : BabylonFormatter} {GS : GoSort} {RT : Retry} {SL : StakingLib} {RL : RelayerLib}
    {WL : WalletLib} {CL : ConfigLib} {GL : GenesisLib} {PR : Prometheus} {SK : SlashingKeys}
    {D W : Type} {KV : KVDB D} {RPCs : Client.RPC W} {NR : NodeRPC W} {CF : ConfigFiles W}
    {CN : ChainNotifiers W} {BC : BabylonClients W} notifier_Start addr serve :
  (∀ prog st wt cfgFile dir (s s' : W) hs,
     reporter_Run addr serve prog st wt cfgFile dir s = (Val hs, s') →
     ∃ cfg, Config_Validate cfg = Ok tt ∧ length hs = 2%nat) ∧
  (∀ prog cfgFile (s s' : Relayer.Relayer * W * D) hs,
     submitter_Run addr serve prog cfgFile s = (Val hs, s') →
     ∃ cfg a, Config_Validate cfg = Ok tt ∧ is_Some (sub_DatabaseConfig (ConfigAll.Submitter cfg)) ∧
       AccAddressFromBech32 (bbn_SubmitterAddress (ConfigAll.Babylon cfg)) = Ok a ∧ length hs = 1%nat) ∧
  (∀ va be prog cfgFile genesisFile (s s' : D * W) hs,
     monitor_Run addr serve va be prog cfgFile genesisFile s = (Val hs, s') →
     ∃ cfg gi, Config_Validate cfg = Ok tt ∧ is_Some (mon_DatabaseConfig (ConfigAll.Monitor cfg)) ∧
       GetGenesisInfoFromFile genesisFile = Val gi ∧ length hs = 1%nat) ∧
  (∀ services boot cfgFile dir start (s s' : Lifecycle * (D * W)) hs,
     bstracker_Run notifier_Start addr serve services boot cfgFile dir start s = (Val hs, s') →
     ∃ cfg t c n b, Config_Validate cfg = Ok tt ∧
       is_Some (SlasherDatabaseConfig (ConfigAll.BTCStakingTracker cfg)) ∧
       GetBTCParams (BTCNetParams (ConfigAll.BTCStakingTracker cfg)) = Ok (bst_btcParams t) ∧
       hs = tracker_handlers services t c n b).
Proof.
  split_and!; intros.
  - by eapply reporter_Run_Val.
  - by eapply submitter_Run_Val.
  - by eapply monitor_Run_Val.
  - by eapply bstracker_Run_Val.
Qed.

(** ** A tracker that is started and interrupted *)
Definition tracker_config {CL : ConfigLib} : ConfigAll.Config :=
  let c := ConfigAll.BTCStakingTracker DefaultConfig in
  mkConfig (ConfigAll.Common DefaultConfig) (ConfigAll.BTC DefaultConfig) (ConfigAll.Babylon DefaultConfig)
    (ConfigAll.Metrics DefaultConfig) (ConfigAll.Submitter DefaultConfig) (ConfigAll.Reporter DefaultConfig)
    (ConfigAll.Monitor DefaultConfig)
    (mkTrackerConfig (CheckDelegationsInterval c) (ConfigAll.NewDelegationsBatchSize c)
       (CheckDelegationActiveInterval c) (RetrySubmitUnbondingTxInterval c) (RetryJitter c) (BTCNetParams c)
       (MaxSlashingConcurrency c) (IndexerAddr c) (FetchEvidenceInterval c) (FetchCometBlockInterval c)
       (ReconnectBTCNodeInterval c) (Some DefaultDBConfig)).
#[local] Existing Instances small_config small_wallet small_calls small_rpc small_notifiers small_genesis relayer_lib.
#[local] Instance tracker_files : ConfigFiles Z := {|
  os_Stat _ := mret tt;
  viper_ReadInConfig _ := mret tt;
  viper_Unmarshal := mret tracker_config;
|}.
(** The client is running in state 1 and stopped in state 2. *)
#[local] Instance small_clients : BabylonClients Z := {|
  set_KeyDirectory _ c := c;
  bbn_RPCAddr _ := "http://localhost:26657";
  bbn_Timeout _ := 1;
  bbn_SubmitterAddress _ := "bbn1";
  BbnClient := unit;
  bbnclient_New _ := mret tt;
  bbnclient_Start _ := modify (λ _, 1);
  bbnclient_Stop _ := λ w, if w =? 2 then (Error (ENew "already stopped"), w) else (Val tt, 2);
  reporter_client _ := {|
    MustGetAddr := mret "bbn1";
    BTCCheckpointParams := mret (mkCkptParams 2 3 "62626e");
    ContainsBTCBlock _ := mret true;
    BTCHeaderChainTip := fail (ENew "no tip");
    BTCBaseHeader_Height := mret 0;
    ReliablySendMsg _ _ _ := mret None;
    HeaderBytesHash _ := 0;
  |};
  QueryClient := unit;
  QueryConfig_Validate _ _ := Ok tt;
  bbnqc_New _ _ := mret tt;
  query_params _ := mret (mkCkptParams 2 3 "62626e");
  AccAddressFromBech32 _ := Ok [];
  GetBoltBackend _ := mret tt;
|}.
Definition idle : Service (mem_db * Z) := mkService (mret tt) (mret tt).
Definition idle_services (_ : BTCStakingTracker) (_ : Client) (_ : Notifier) (_ : BbnClient) := (idle, idle, idle).
Definition small_tracker_Run : M (Lifecycle * (mem_db * Z)) (list (M (Lifecycle * (mem_db * Z)) unit)) :=
  bstracker_Run (λ _, mret tt) (λ h _, h) (λ _, mret tt) idle_services (λ _ _, mret tt) "vigilante.yml" "" 0.
Definition tracker_idle : Lifecycle * (mem_db * Z) := (mkLifecycle false false false false, (∅, 0)).

Example small_tracker_comes_up :
  match small_tracker_Run tracker_idle with
  | (Val hs, s) => length hs = 3%nat ∧ snd (snd s) = 1 ∧ startOnce (fst s) = true
  | _ => False
  end.
Proof. vm_compute. done. Qed.

Lemma commands_start_configured_witness :
  ∃ cfg, Config_Validate (CL := small_config) cfg = Ok tt ∧
    is_Some (SlasherDatabaseConfig (ConfigAll.BTCStakingTracker cfg)).
Proof.
  pose proof small_tracker_comes_up as Hup.
  destruct (small_tracker_Run tracker_idle) as [[hs|e|m|] s'] eqn:E; [|destruct Hup..].
  destruct (proj2 (proj2 (proj2 (commands_start_configured (λ _, mret tt) (λ h _, h) (λ _, mret tt))))
    _ _ _ _ _ _ _ _ E) as (cfg & _ & _ & _ & _ & H1 & H2 & _).
  exists cfg. split; assumption.
Defined.

(** Two handlers that note their names, and the execution in which a signal
    arrives after both are registered. *)
Definition note (n : nat) : M (list nat) unit := modify (λ l, l ++ [n]).
Lemma two_handlers_exit :
  int_steps eq (proc_init [note 1; note 2] [])
    (mkProc MainExited IntReturned [note 1; note 2] false true [2; 1]%nat).
Proof.
  eapply rtc_l; [apply Int_add; [done|apply Add_first]|].
  eapply rtc_l; [apply Int_add; [done|apply Add_send]|].
  eapply rtc_l; [apply Int_add; [done|apply Add_send]|].
  eapply rtc_l; [apply Int_other; [done|apply Main_wait]|].
  eapply rtc_l; [apply Int_other; [done|by apply Signal]|].
  eapply rtc_l; [apply Int_handler; [done|apply Int_take]|].
  eapply rtc_l; [apply Int_handler; [done|apply Int_call; [cbn; lia|reflexivity]]|].
  eapply rtc_l; [apply Int_handler; [done|apply Int_call; [cbn; lia|reflexivity]]|].
  eapply rtc_l; [apply Int_handler; [done|apply (Int_done _ [note 1; note 2])]|].
  eapply rtc_l; [apply Int_other; [done|apply Main_exit]|]. apply rtc_refl.
Qed.
Lemma handlers_run_once_in_reverse_witness : called eq [] [note 2; note 1] [2; 1]%nat.
Proof. exact (handlers_run_once_in_reverse eq [note 1; note 2] [] _ two_handlers_exit eq_refl). Defined.

(** The tracker is interrupted and panics. *)
Definition bst0 : BTCStakingTracker :=
  mkStakingTracker DefaultBTCStakingTrackerConfig SimNetParams ("", 0) NewStakingEventWatcher
    (mkSlasher 0 0 [] [] [] [] []) NewAtomicSlasher.
Definition btc0 : Client := mkClient SimNetParams DefaultBTCConfig 1 1 5.
Definition started_tracker : Lifecycle * (mem_db * Z) := (mkLifecycle true false false false, (∅, 1)).
Definition small_env := leaves_alone (D := mem_db) (W := Z) (λ w, w = 2).
Notation small_handlers := (tracker_handlers idle_services bst0 btc0 tt tt).
Lemma small_stops_once : stops_once idle_services bst0 btc0 tt tt (λ w, w = 2).
Proof.
  split; cbn.
  - intros w w'. by destruct (w =? 2); intros; simplify_eq.
  - intros w ->. eauto.
  - intros [d w]. cbn. done.
Qed.
Lemma small_tracker_panics :
  int_steps small_env (proc_init small_handlers started_tracker)
    (mkProc MainWait IntCrashed small_handlers false false
       (mkLifecycle true true false false, (∅, 2))).
Proof.
  eapply rtc_l; [apply Int_add; [done|apply Add_first]|].
  do 3 (eapply rtc_l; [apply Int_add; [done|apply Add_send]|]).
  eapply rtc_l; [apply Int_other; [done|apply Main_wait]|].
  eapply rtc_l; [apply Int_other; [done|by apply Signal]|].
  eapply rtc_l; [apply Int_handler; [done|apply Int_take]|].
  eapply rtc_l; [apply Int_handler; [done|apply Int_call; [cbn; lia|reflexivity]]|].
  eapply rtc_l; [apply Int_handler; [done|eapply Int_panic; [cbn; lia|reflexivity]]|]. apply rtc_refl.
Qed.
Lemma tracker_shutdown_is_not_clean_witness :
  ∃ p, int_steps small_env (proc_init small_handlers started_tracker) p ∧ pr_int p = IntCrashed ∧
    stopOnce (fst (pr_world p)) = true ∧ channels_open (fst (pr_world p)) ∧ pr_main p ≠ MainExited.
Proof.
  exists (mkProc MainWait IntCrashed small_handlers false false (mkLifecycle true true false false, (∅, 2))).
  destruct (tracker_shutdown_is_not_clean idle_services bst0 btc0 tt tt (λ w, w = 2) small_env
    (mkLifecycle true false false false) (∅, 1) _ small_stops_once (λ _ _ H, H) eq_refl (conj eq_refl eq_refl)
    small_tracker_panics) as [Hm Hrest].
  split; [exact small_tracker_panics|]. split; [reflexivity|]. split; [reflexivity|].
  split; [exact (proj1 (Hrest eq_refl))|exact Hm].
Defined.
