(* ===== verification/ConfigDump.v ===== *)
(** * Saving and dumping the configuration ([config/config.go], [cmd/vigilante/cmd/config.go])

    [SaveToYAML] marshals the configuration through reflection on its structures:
    [gvalue] is a Go value as [reflect] shows it, [MarshalYAML] the walk over its
    fields.  The YAML tree stands for the text the encoder writes.  The file system
    is an interface with what the operating system documents. *)

From S2P Require Import Prelude GoFloat Config ConfigAll.

(** ** Values *)
Inductive gscalar :=
| VString (s : string)
| VInt (z : Z)
| VBool (b : bool)
| VFloat (f : float64)
| VDuration (ns : Z).
(** A field has a package path, empty when it is exported, and its
    [mapstructure] tag. *)
Inductive gvalue :=
| VScalar (s : gscalar)
| VPtr (p : option gvalue)
| VStruct (fields : list (string * string * gvalue)).
Inductive yaml :=
| YNull
| YScalar (s : gscalar)
| YMap (m : list (string * yaml)).

(** [result[name] = v] and lookup in a map kept in order of insertion *)
Fixpoint map_set (name : string) (v : yaml) (m : list (string * yaml)) : list (string * yaml) :=
  match m with
  | [] => [(name, v)]
  | (k, x) :: m => if bool_decide (k = name) then (k, v) :: m else (k, x) :: map_set name v m
  end.
Fixpoint map_get (name : string) (m : list (string * yaml)) : option yaml :=
  match m with
  | [] => None
  | (k, x) :: m => if bool_decide (k = name) then Some x else map_get name m
  end.

Definition comma : Ascii.ascii := Ascii.ascii_of_nat 44.
Definition slash : Ascii.ascii := Ascii.ascii_of_nat 47.
(** [strings.Split(tag, ",")[0]] *)
Fixpoint tag_name (tag : string) : string :=
  match tag with
  | EmptyString => EmptyString
  | String c tag => if bool_decide (c = comma) then EmptyString else String c (tag_name tag)
  end.
Definition skipped (PkgPath tag : string) : bool :=
  negb (bool_decide (PkgPath = "")) || bool_decide (tag = "") || bool_decide (tag = "-").

(** [MapstructureYAMLWrapper.MarshalYAML] and the encoder's calls of it on the
    wrapped fields; other values are encoded as they are.  No configuration has a
    pointer to a pointer. *)
Fixpoint MarshalYAML (v : gvalue) : yaml :=
  let fix marshal_fields (result : list (string * yaml)) (fs : list (string * string * gvalue)) :=
    match fs with
    | [] => result
    | (PkgPath, tag, x) :: fs =>
        if skipped PkgPath tag then marshal_fields result fs
        else marshal_fields (map_set (tag_name tag) (MarshalYAML x) result) fs
    end in
  match v with
  | VPtr None => YNull
  | VPtr (Some (VStruct fs)) => YMap (marshal_fields [] fs)
  | VStruct fs => YMap (marshal_fields [] fs)
  | VPtr (Some x) => MarshalYAML x
  | VScalar s => YScalar s
  end.

(** ** The configuration as a value *)
Definition field (tag : string) (v : gvalue) : string * string * gvalue := ("", tag, v).
Definition str (s : string) := VScalar (VString s).
Definition int (z : Z) := VScalar (VInt z).
Definition boolean (b : bool) := VScalar (VBool b).
Definition float (f : float64) := VScalar (VFloat f).
Definition duration (z : Z) := VScalar (VDuration z).

Definition DBConfig_value (c : DBConfig) : gvalue := VStruct
  [ field "dbpath" (str (DBPath c)); field "dbfilename" (str (DBFileName c));
    field "nofreelistsync" (boolean (NoFreelistSync c)); field "autocompact" (boolean (AutoCompact c));
    field "autocompactminage" (duration (AutoCompactMinAge c)); field "dbtimeout" (duration (DBTimeout c)) ].
Definition DBConfig_ptr (c : option DBConfig) : gvalue := VPtr (DBConfig_value <$> c).
Definition CommonConfig_value (c : CommonConfig) : gvalue := VStruct
  [ field "log-format" (str (LogFormat c)); field "log-level" (str (LogLevel c));
    field "retry-sleep-time" (duration (RetrySleepTime c));
    field "max-retry-sleep-time" (duration (MaxRetrySleepTime c));
    field "max-retry-times" (int (MaxRetryTimes c)) ].
Definition BTCConfig_value (c : BTCConfig) : gvalue := VStruct
  [ field "endpoint" (str (Endpoint c)); field "wallet-password" (str (WalletPassword c));
    field "wallet-name" (str (WalletName c)); field "wallet-lock-time" (int (WalletLockTime c));
    field "tx-fee-min" (int (TxFeeMin c)); field "tx-fee-max" (int (TxFeeMax c));
    field "default-fee" (int (DefaultFee c)); field "estimate-mode" (str (EstimateMode c));
    field "target-block-num" (int (TargetBlockNum c)); field "net-params" (str (btc_NetParams c));
    field "username" (str (Username c)); field "password" (str (Password c));
    field "reconnect-attempts" (int (ReconnectAttempts c));
    field "zmq-seq-endpoint" (str (ZmqSeqEndpoint c)); field "zmq-block-endpoint" (str (ZmqBlockEndpoint c));
    field "zmq-tx-endpoint" (str (ZmqTxEndpoint c)); field "disable-tls" (boolean (DisableTLS c)) ].
Definition MetricsConfig_value (c : MetricsConfig) : gvalue := VStruct
  [ field "host" (str (metrics_Host c)); field "server-port" (int (ServerPort c)) ].
Definition SubmitterConfig_value (c : SubmitterConfig) : gvalue := VStruct
  [ field "netparams" (str (sub_NetParams c)); field "buffer-size" (int (BufferSize c));
    field "resubmit-fee-multiplier" (float (ResubmitFeeMultiplier c));
    field "polling-interval-seconds" (int (PollingIntervalSeconds c));
    field "resend-interval-seconds" (int (ResendIntervalSeconds c));
    field "dbconfig" (DBConfig_ptr (sub_DatabaseConfig c));
    field "insufficient_fee_margin" (float (InsufficientFeeMargin c));
    field "insufficient_feerate_margin" (float (InsufficientFeerateMargin c));
    field "fee_increment_margin" (float (FeeIncrementMargin c)) ].
Definition ReporterConfig_value (c : ReporterConfig) : gvalue := VStruct
  [ field "netparams" (str (rep_NetParams c)); field "btc_cache_size" (int (BTCCacheSize c));
    field "max_headers_in_msg" (int (MaxHeadersInMsg c)) ].
Definition MonitorConfig_value (c : MonitorConfig) : gvalue := VStruct
  [ field "checkpoint-buffer-size" (int (CheckpointBufferSize c));
    field "btc-block-buffer-size" (int (BtcBlockBufferSize c)); field "btc-cache-size" (int (BtcCacheSize c));
    field "liveness-check-interval-seconds" (int (LivenessCheckIntervalSeconds c));
    field "max-live-btc-heights" (int (MaxLiveBtcHeights c));
    field "btc-confirmation-depth" (int (mon_BtcConfirmationDepth c));
    field "enable-liveness-checker" (boolean (EnableLivenessChecker c));
    field "dbconfig" (DBConfig_ptr (mon_DatabaseConfig c)) ].
Definition TrackerConfig_value (c : BTCStakingTrackerConfig) : gvalue := VStruct
  [ field "check-delegations-interval" (duration (CheckDelegationsInterval c));
    field "delegations-batch-size" (int (NewDelegationsBatchSize c));
    field "check-if-delegation-active-interval" (duration (CheckDelegationActiveInterval c));
    field "retry-submit-unbonding-interval" (duration (RetrySubmitUnbondingTxInterval c));
    field "max-jitter-interval" (duration (RetryJitter c)); field "btcnetparams" (str (BTCNetParams c));
    field "max-slashing-concurrency" (int (MaxSlashingConcurrency c));
    field "indexer-addr" (str (IndexerAddr c));
    field "fetch-evidence-interval" (duration (FetchEvidenceInterval c));
    field "fetch-comet-block-interval" (duration (FetchCometBlockInterval c));
    field "reconnect-btc-node-interval" (duration (ReconnectBTCNodeInterval c));
    field "slasherdbconfig" (DBConfig_ptr (SlasherDatabaseConfig c)) ].
Section config_value.
Context {CL : ConfigLib} (BabylonConfig_value : BabylonConfig → gvalue).
Definition Config_value (c : Config) : gvalue := VStruct
  [ field "common" (CommonConfig_value (Common c)); field "btc" (BTCConfig_value (BTC c));
    field "babylon" (BabylonConfig_value (Babylon c)); field "metrics" (MetricsConfig_value (Metrics c));
    field "submitter" (SubmitterConfig_value (Submitter c));
    field "reporter" (ReporterConfig_value (Reporter c)); field "monitor" (MonitorConfig_value (Monitor c));
    field "btcstaking-tracker" (TrackerConfig_value (BTCStakingTracker c)) ].
End config_value.

(** ** The file system *)
(** [path.Split]: everything up to the last slash. *)
Fixpoint path_dir (name : string) : string :=
  match name with
  | EmptyString => EmptyString
  | String c rest =>
      let d := path_dir rest in
      if bool_decide (d = "") then (if bool_decide (c = slash) then String c EmptyString else EmptyString)
      else String c d
  end.
Definition ModeDir : Z := 2 ^ 31.
Class FileSystem (W : Type) := {
  fs_Stat : string → M W unit;
  fs_MkdirAll : string → Z → M W unit;
  fs_WriteFile : string → yaml → Z → M W unit;
}.
Section dump.
Context {CL : ConfigLib} {W : Type} {FS : FileSystem W}.
Context (BabylonConfig_value : BabylonConfig → gvalue).

(** Encoding into the buffer does not fail for these values. *)
Definition SaveToYAML (filePath : string) (cfg : Config) : M W unit :=
  wrap_err "error writing YAML to file"
    (fs_WriteFile filePath (MarshalYAML (VPtr (Some (Config_value BabylonConfig_value cfg)))) 384).

Definition fileExists (name : string) : M W bool :=
  r ← try (fs_Stat name);
  match r with
  | Err err => mret (negb (errors_Is err ErrNotExist))
  | Ok _ => mret true
  end.
Definition dumpConfig (configPath : string) : M W unit :=
  exists_ ← fileExists configPath;
  if exists_ : bool then fail (ENew "config already exists under provided path")
  else
    let dir := path_dir configPath in
    r ← try (fs_Stat dir);
    (match r with
     | Err err =>
         if errors_Is err ErrNotExist
         then wrap_err "could not create config directory" (fs_MkdirAll dir ModeDir)
         else mret tt
     | Ok _ => mret tt
     end) ;;
    wrap_err "failed to save config to file" (SaveToYAML configPath DefaultConfig).
End dump.
