(* ===== verification/ConfigDumpTheorems.v ===== *)
(** * Theorems about saving the configuration *)

From S2P Require Import Prelude GoFloat Config ConfigAll ConfigDump Instances SubmitterInstances StartupTheorems.

(** ** What marshalling keeps *)
Lemma map_get_set_same k v m : map_get k (map_set k v m) = Some v.
Proof.
  induction m as [|[k' x] m IH]; cbn; [by rewrite bool_decide_eq_true_2|].
  case_bool_decide; cbn; [by rewrite bool_decide_eq_true_2|by rewrite bool_decide_eq_false_2].
Qed.
Lemma map_get_set_other k k' v m : k' ≠ k → map_get k' (map_set k v m) = map_get k' m.
Proof.
  intros Hk. induction m as [|[k1 x] m IH]; cbn; [by rewrite bool_decide_eq_false_2|].
  case_bool_decide; cbn; [subst; by rewrite bool_decide_eq_false_2|by rewrite IH].
Qed.

Definition marshal_fields (r : list (string * yaml)) (fs : list (string * string * gvalue))
  : list (string * yaml) :=
  fold_left (λ result '(PkgPath, tag, x),
    if skipped PkgPath tag then result else map_set (tag_name tag) (MarshalYAML x) result) fs r.
Lemma marshal_fields_cons r p t x fs :
  marshal_fields r ((p, t, x) :: fs) =
  marshal_fields (if skipped p t then r else map_set (tag_name t) (MarshalYAML x) r) fs.
Proof. done. Qed.
Lemma MarshalYAML_struct fs : MarshalYAML (VStruct fs) = YMap (marshal_fields [] fs).
Proof.
  cbn. f_equal. generalize (@nil (string * yaml)).
  induction fs as [|[[p t] x] fs IH]; intros r; cbn; [done|]. by destruct (skipped p t).
Qed.
Definition kept (f : string * string * gvalue) : bool := negb (skipped f.1.1 f.1.2).
Definition field_name (f : string * string * gvalue) : string := tag_name f.1.2.
Definition distinct_tags (fs : list (string * string * gvalue)) : bool :=
  bool_decide (NoDup (field_name <$> List.filter kept fs)).

Lemma kept_cons p t x fs :
  List.filter kept ((p, t, x) :: fs) = if skipped p t then List.filter kept fs else (p, t, x) :: List.filter kept fs.
Proof. cbn. unfold kept. cbn. by destruct (skipped p t). Qed.

Lemma marshal_fields_other k fs r :
  k ∉ field_name <$> List.filter kept fs → map_get k (marshal_fields r fs) = map_get k r.
Proof.
  revert r. induction fs as [|[[p t] x] fs IH]; intros r; [done|]. rewrite kept_cons, marshal_fields_cons.
  destruct (skipped p t); [apply IH|]. rewrite fmap_cons, not_elem_of_cons. intros [Hk Hn].
  rewrite IH by done. by apply map_get_set_other.
Qed.
(** Every kept field is in the map under its name, when the names are distinct. *)
Lemma get_field fs r p t x :
  distinct_tags fs = true → (p, t, x) ∈ fs → skipped p t = false →
  map_get (tag_name t) (marshal_fields r fs) = Some (MarshalYAML x).
Proof.
  unfold distinct_tags. rewrite bool_decide_eq_true. revert r.
  induction fs as [|[[p' t'] x'] fs IH]; intros r; [set_solver|]. rewrite kept_cons, marshal_fields_cons.
  intros Hnd [Heq|Hin]%elem_of_cons Hs.
  - simplify_eq. rewrite Hs in *. rewrite fmap_cons in Hnd. apply NoDup_cons in Hnd as [Hn _].
    rewrite marshal_fields_other by done. apply map_get_set_same.
  - destruct (skipped p' t'); [by apply IH|]. rewrite fmap_cons in Hnd. apply NoDup_cons in Hnd as [_ Hnd].
    by apply IH.
Qed.

(** ** Reading a configuration by its tags *)

(** The fields of a part, looked up under their tags; null is a nil pointer. *)
Section readers.
Definition get (tag : string) (y : yaml) : option yaml := match y with YMap m => map_get tag m | _ => None end.
Definition get_str tag y : option string :=
  match get tag y with Some (YScalar (VString s)) => Some s | _ => None end.
Definition get_int tag y : option Z := match get tag y with Some (YScalar (VInt z)) => Some z | _ => None end.
Definition get_bool tag y : option bool := match get tag y with Some (YScalar (VBool b)) => Some b | _ => None end.
Definition get_float tag y : option float64 :=
  match get tag y with Some (YScalar (VFloat f)) => Some f | _ => None end.
Definition get_duration tag y : option Z :=
  match get tag y with Some (YScalar (VDuration z)) => Some z | _ => None end.

Definition read_DBConfig (y : yaml) : option DBConfig :=
  p ← get_str "dbpath" y; f ← get_str "dbfilename" y; n ← get_bool "nofreelistsync" y;
  a ← get_bool "autocompact" y; m ← get_duration "autocompactminage" y; t ← get_duration "dbtimeout" y;
  Some (mkDBConfig p f n a m t).
Definition read_DBConfig_ptr (y : yaml) : option (option DBConfig) :=
  match y with YNull => Some None | y => Some <$> read_DBConfig y end.
Definition read_CommonConfig (y : yaml) : option CommonConfig :=
  f ← get_str "log-format" y; l ← get_str "log-level" y; r ← get_duration "retry-sleep-time" y;
  m ← get_duration "max-retry-sleep-time" y; t ← get_int "max-retry-times" y;
  Some (mkCommonConfig f l r m t).
Definition read_BTCConfig (y : yaml) : option BTCConfig :=
  x1 ← get_str "endpoint" y; x2 ← get_str "wallet-password" y; x3 ← get_str "wallet-name" y;
  x4 ← get_int "wallet-lock-time" y; x5 ← get_int "tx-fee-min" y; x6 ← get_int "tx-fee-max" y;
  x7 ← get_int "default-fee" y; x8 ← get_str "estimate-mode" y; x9 ← get_int "target-block-num" y;
  x10 ← get_str "net-params" y; x11 ← get_str "username" y; x12 ← get_str "password" y;
  x13 ← get_int "reconnect-attempts" y; x14 ← get_str "zmq-seq-endpoint" y;
  x15 ← get_str "zmq-block-endpoint" y; x16 ← get_str "zmq-tx-endpoint" y; x17 ← get_bool "disable-tls" y;
  Some (mkBTCConfig x1 x2 x3 x4 x5 x6 x7 x8 x9 x10 x11 x12 x13 x14 x15 x16 x17).
Definition read_MetricsConfig (y : yaml) : option MetricsConfig :=
  h ← get_str "host" y; p ← get_int "server-port" y; Some (mkMetricsConfig h p).
Definition read_SubmitterConfig (y : yaml) : option SubmitterConfig :=
  x1 ← get_str "netparams" y; x2 ← get_int "buffer-size" y; x3 ← get_float "resubmit-fee-multiplier" y;
  x4 ← get_int "polling-interval-seconds" y; x5 ← get_int "resend-interval-seconds" y;
  db ← get "dbconfig" y; x6 ← read_DBConfig_ptr db; x7 ← get_float "insufficient_fee_margin" y;
  x8 ← get_float "insufficient_feerate_margin" y; x9 ← get_float "fee_increment_margin" y;
  Some (mkSubmitterConfig x1 x2 x3 x4 x5 x6 x7 x8 x9).
Definition read_ReporterConfig (y : yaml) : option ReporterConfig :=
  n ← get_str "netparams" y; c ← get_int "btc_cache_size" y; m ← get_int "max_headers_in_msg" y;
  Some (mkReporterConfig n c m).
Definition read_MonitorConfig (y : yaml) : option MonitorConfig :=
  x1 ← get_int "checkpoint-buffer-size" y; x2 ← get_int "btc-block-buffer-size" y;
  x3 ← get_int "btc-cache-size" y; x4 ← get_int "liveness-check-interval-seconds" y;
  x5 ← get_int "max-live-btc-heights" y; x6 ← get_int "btc-confirmation-depth" y;
  x7 ← get_bool "enable-liveness-checker" y; db ← get "dbconfig" y; x8 ← read_DBConfig_ptr db;
  Some (mkMonitorConfig x1 x2 x3 x4 x5 x6 x7 x8).
Definition read_TrackerConfig (y : yaml) : option BTCStakingTrackerConfig :=
  x1 ← get_duration "check-delegations-interval" y; x2 ← get_int "delegations-batch-size" y;
  x3 ← get_duration "check-if-delegation-active-interval" y;
  x4 ← get_duration "retry-submit-unbonding-interval" y; x5 ← get_duration "max-jitter-interval" y;
  x6 ← get_str "btcnetparams" y; x7 ← get_int "max-slashing-concurrency" y; x8 ← get_str "indexer-addr" y;
  x9 ← get_duration "fetch-evidence-interval" y; x10 ← get_duration "fetch-comet-block-interval" y;
  x11 ← get_duration "reconnect-btc-node-interval" y; db ← get "slasherdbconfig" y;
  x12 ← read_DBConfig_ptr db;
  Some (mkTrackerConfig x1 x2 x3 x4 x5 x6 x7 x8 x9 x10 x11 x12).
End readers.

Section roundtrip.
Context {CL : ConfigLib} (BabylonConfig_value : BabylonConfig → gvalue).

Lemma DBConfig_reads c : read_DBConfig_ptr (MarshalYAML (DBConfig_ptr c)) = Some c.
Proof. by destruct c as [[]|]; vm_compute. Qed.
Lemma CommonConfig_reads c : read_CommonConfig (MarshalYAML (CommonConfig_value c)) = Some c.
Proof. destruct c. vm_compute. reflexivity. Qed.
Lemma BTCConfig_reads c : read_BTCConfig (MarshalYAML (BTCConfig_value c)) = Some c.
Proof. destruct c. vm_compute. reflexivity. Qed.
Lemma MetricsConfig_reads c : read_MetricsConfig (MarshalYAML (MetricsConfig_value c)) = Some c.
Proof. destruct c. vm_compute. reflexivity. Qed.
Lemma SubmitterConfig_reads c : read_SubmitterConfig (MarshalYAML (SubmitterConfig_value c)) = Some c.
Proof. destruct c as [? ? ? ? ? [[]|] ? ? ?]; vm_compute; reflexivity. Qed.
Lemma ReporterConfig_reads c : read_ReporterConfig (MarshalYAML (ReporterConfig_value c)) = Some c.
Proof. destruct c. vm_compute. reflexivity. Qed.
Lemma MonitorConfig_reads c : read_MonitorConfig (MarshalYAML (MonitorConfig_value c)) = Some c.
Proof. destruct c as [? ? ? ? ? ? ? [[]|]]; vm_compute; reflexivity. Qed.
Lemma TrackerConfig_reads c : read_TrackerConfig (MarshalYAML (TrackerConfig_value c)) = Some c.
Proof. destruct c as [? ? ? ? ? ? ? ? ? ? ? [[]|]]; vm_compute; reflexivity. Qed.

Definition Config_fields (cfg : Config) : list (string * string * gvalue) :=
  match Config_value BabylonConfig_value cfg with VStruct fs => fs | _ => [] end.
Definition saved (cfg : Config) : yaml := MarshalYAML (VPtr (Some (Config_value BabylonConfig_value cfg))).
Ltac in_fields :=
  first [done | intros; unfold Config_fields, Config_value; cbn [app];
    repeat first [apply list_elem_of_here | apply list_elem_of_further] ].
Lemma saved_part cfg tag x :
  field tag x ∈ Config_fields cfg → tag_name tag = tag → skipped "" tag = false →
  get tag (saved cfg) = Some (MarshalYAML x).
Proof.
  intros Hin Ht Hs. rewrite <-Ht.
  change (saved cfg) with (MarshalYAML (VStruct (Config_fields cfg))).
  rewrite MarshalYAML_struct. cbn [get]. eapply get_field; [|exact Hin|done]. vm_compute. reflexivity.
Qed.
(** A part with a reader of its own is determined by what is saved of it. *)
Lemma part_determined {A} (read : yaml → option A) (value : A → gvalue) (part : Config → A) tag cfg cfg' :
  (∀ x, read (MarshalYAML (value x)) = Some x) → tag_name tag = tag → skipped "" tag = false →
  (∀ c, field tag (value (part c)) ∈ Config_fields c) →
  saved cfg = saved cfg' → part cfg = part cfg'.
Proof.
  intros Hr Ht Hs Hin E.
  assert (Some (MarshalYAML (value (part cfg))) = Some (MarshalYAML (value (part cfg')))) as [= Ey]
    by (rewrite <-(saved_part cfg tag _ (Hin _) Ht Hs), E; by apply saved_part).
  pose proof (Hr (part cfg)) as H. rewrite Ey, Hr in H. congruence.
Qed.

(** Saving a configuration loses nothing.  [SaveToYAML] writes the parts
    under their tags, and two configurations for which it writes the same YAML are
    equal in every field of the seven parts this repository declares, the nil
    database pointers included; what is written of Babylon's part is its own value,
    marshalled, and nothing else. *)
Theorem saved_config_determines_fields (cfg cfg' : Config) :
  MarshalYAML (VPtr (Some (Config_value BabylonConfig_value cfg))) =
    MarshalYAML (VPtr (Some (Config_value BabylonConfig_value cfg'))) →
  Common cfg = Common cfg' ∧ BTC cfg = BTC cfg' ∧ Metrics cfg = Metrics cfg' ∧
  Submitter cfg = Submitter cfg' ∧ Reporter cfg = Reporter cfg' ∧ Monitor cfg = Monitor cfg' ∧
  BTCStakingTracker cfg = BTCStakingTracker cfg' ∧
  get "babylon" (MarshalYAML (VPtr (Some (Config_value BabylonConfig_value cfg)))) =
    Some (MarshalYAML (BabylonConfig_value (Babylon cfg))).
Proof.
  fold (saved cfg) (saved cfg'). intros E. split_and!; [..|apply saved_part; in_fields].
  - by apply (part_determined read_CommonConfig CommonConfig_value Common "common"
      cfg cfg' CommonConfig_reads); in_fields.
  - by apply (part_determined read_BTCConfig BTCConfig_value BTC "btc" cfg cfg' BTCConfig_reads); in_fields.
  - by apply (part_determined read_MetricsConfig MetricsConfig_value Metrics "metrics"
      cfg cfg' MetricsConfig_reads); in_fields.
  - by apply (part_determined read_SubmitterConfig SubmitterConfig_value Submitter "submitter"
      cfg cfg' SubmitterConfig_reads); in_fields.
  - by apply (part_determined read_ReporterConfig ReporterConfig_value Reporter "reporter"
      cfg cfg' ReporterConfig_reads); in_fields.
  - by apply (part_determined read_MonitorConfig MonitorConfig_value Monitor "monitor"
      cfg cfg' MonitorConfig_reads); in_fields.
  - by apply (part_determined read_TrackerConfig TrackerConfig_value BTCStakingTracker "btcstaking-tracker"
      cfg cfg' TrackerConfig_reads); in_fields.
Qed.
End roundtrip.

Section witness.
#[local] Existing Instance small_config.
Definition small_babylon_value (b : BabylonConfig (ConfigLib := small_config)) : gvalue :=
  VStruct [field "timeout" (duration b); field "" (int 0)].
Lemma saved_config_determines_fields_witness :
  get "babylon" (MarshalYAML (VPtr (Some (Config_value small_babylon_value DefaultConfig)))) =
    Some (YMap [("timeout", YScalar (VDuration (10 * Minute)))]).
Proof.
  exact (proj2 (proj2 (proj2 (proj2 (proj2 (proj2 (proj2 (saved_config_determines_fields (CL := small_config)
    small_babylon_value DefaultConfig DefaultConfig eq_refl)))))))).
Defined.
End witness.

(** ** Dumping the default configuration *)

(** What the operating system does for a process without special rights: the empty
    name does not exist and cannot be made; a directory made with no permission bits
    has none; a file cannot be written in such a directory. *)
Class FileSystemLaws (W : Type) {FS : FileSystem W} := {
  dir_mode : W → string → option Z;
  Stat_law : ∀ name w, fs_Stat name w = (Val tt, w) ∨ ∃ e, fs_Stat name w = (Error e, w);
  Stat_empty : ∀ w, ∃ e, fs_Stat "" w = (Error e, w) ∧ errors_Is e ErrNotExist = true;
  MkdirAll_law : ∀ name perm w,
    (∃ e w', fs_MkdirAll name perm w = (Error e, w')) ∨
    (∃ w', fs_MkdirAll name perm w = (Val tt, w') ∧ name ≠ "" ∧
       (Z.land perm 511 = 0 → dir_mode w' name = Some 0));
  WriteFile_law : ∀ name y perm w,
    dir_mode w (path_dir name) = Some 0 → ∃ e, fs_WriteFile name y perm w = (Error e, w);
}.

Section dump.
Context {CL : ConfigLib} {W : Type} {FS : FileSystem W} {FL : FileSystemLaws W}.
Context (BabylonConfig_value : BabylonConfig → gvalue).
Notation dumpConfig := (dumpConfig BabylonConfig_value).
Notation default_yaml := (MarshalYAML (VPtr (Some (Config_value BabylonConfig_value DefaultConfig)))).

(** What dumping does.  It never touches a file that exists; when the directory
    of the path exists it writes the default configuration, with whatever result
    writing has; when the directory does not exist it fails: the directory is made
    with [os.ModeDir], which has no permission bits, so the file cannot be written,
    and for a name without a directory not even the directory can be made. *)
Theorem dump_needs_directory path w e1 :
  (fs_Stat path w = (Val tt, w) → ∃ e, dumpConfig path w = (Error e, w)) ∧
  (fs_Stat path w = (Error e1, w) → errors_Is e1 ErrNotExist = true →
   (fs_Stat (path_dir path) w = (Val tt, w) →
      dumpConfig path w = wrap_err "failed to save config to file"
        (wrap_err "error writing YAML to file" (fs_WriteFile path default_yaml 384)) w) ∧
   (∀ e2, fs_Stat (path_dir path) w = (Error e2, w) → errors_Is e2 ErrNotExist = true →
      ∃ e w', dumpConfig path w = (Error e, w'))).
Proof.
  unfold ConfigDump.dumpConfig, fileExists, try, mbind, M_bind, mret, M_ret. 
  split; [intros ->; cbv beta iota; eauto|].
  intros -> ->. cbv beta iota zeta delta [negb]. split; [intros ->; reflexivity|]. intros e2 -> ->. cbv beta iota.
  destruct (MkdirAll_law (path_dir path) ModeDir w) as [(e & w' & E)|(w' & E & _ & Hm)];
    unfold wrap_err at 1; rewrite E; [eauto|].
  destruct (WriteFile_law path default_yaml 384 w' (Hm eq_refl)) as [e Ew].
  unfold wrap_err, SaveToYAML, wrap_err. rewrite Ew. eauto.
Qed.
End dump.

(** A file system of names and modes. *)
#[local] Existing Instance small_config.
#[local] Instance small_fs : FileSystem (gmap string Z) := {|
  fs_Stat name := λ w,
    if bool_decide (name ≠ "" ∧ is_Some (w !! name)) then (Val tt, w) else (Error (ESentinel ErrNotExist), w);
  fs_MkdirAll name perm := λ w,
    if bool_decide (name = "") then (Error (ESentinel ErrNotExist), w)
    else (Val tt, <[name := Z.land perm 511]> w);
  fs_WriteFile name _ perm := λ w,
    if bool_decide (w !! path_dir name = Some 0) then (Error (ENew "permission denied"), w)
    else (Val tt, <[name := perm]> w);
|}.
#[local] Instance small_fs_laws : FileSystemLaws (gmap string Z).
Proof.
  refine {| dir_mode w name := w !! name |}; cbn.
  - intros name w. case_bool_decide; eauto.
  - intros w. rewrite bool_decide_eq_false_2 by naive_solver. eauto.
  - intros name perm w. case_bool_decide; [left; eauto|right]. eexists. split; [done|]. split; [done|].
    intros ->. by rewrite lookup_insert_eq.
  - intros name y perm w H. rewrite bool_decide_eq_true_2 by done. eauto.
Qed.
Lemma small_fs_missing name : fs_Stat name (∅ : gmap string Z) = (Error (ESentinel ErrNotExist), ∅).
Proof. cbn. rewrite bool_decide_eq_false_2; [done|]. rewrite lookup_empty. by intros [_ [? ?]]. Qed.
Lemma dump_needs_directory_witness :
  ∃ e w', dumpConfig small_babylon_value "/new/vigilante.yml" (∅ : gmap string Z) = (Error e, w').
Proof.
  exact (proj2 (proj2 (dump_needs_directory small_babylon_value "/new/vigilante.yml"
    (∅ : gmap string Z) (ESentinel ErrNotExist)) (small_fs_missing _) eq_refl) (ESentinel ErrNotExist)
    (small_fs_missing _) eq_refl).
Defined.
