(* ===== verification/ChangeAddress.v ===== *)
(** * Change addresses and the version ([submitter/relayer/change_address.go], [version/version.go])

    [GetChangeAddress] looks at the addresses of the wallet's outputs; the kind of a
    decoded address is btcutil's.  [CommitInfo] reads the build settings. *)

From S2P Require Import Prelude GoFloat Config ConfigAll Blocks BTCCache Relayer StakingTypes BTCClient ClientWallet.

(** ** [GetChangeAddress] *)
Inductive address_kind := AddressWitnessPubKeyHash | AddressWitnessScriptHash | OtherAddress.

Section change.
Context {RL : RelayerLib} {WL : WalletLib} {W : Type} {NR : NodeRPC W}.
Context (kind_of : BtcAddress → address_kind).
(** [rand.IntN] of a positive bound *)
Context (IntN : Z → Z).
Context (c : Client).

(** The loop over the outputs: the SegWit addresses and the others. *)
Fixpoint split_addrs (segwitBech32Addrs legacyAddrs : list BtcAddress) (addrResults : list ListUnspentResult)
  : outcome (list BtcAddress * list BtcAddress) :=
  match addrResults with
  | [] => Val (segwitBech32Addrs, legacyAddrs)
  | res :: rest =>
      obind (GetNetParams c) (λ net,
      obind (oresult (DecodeAddress (lu_Address res) net)) (λ addr,
      match kind_of addr with
      | AddressWitnessPubKeyHash | AddressWitnessScriptHash =>
          split_addrs (segwitBech32Addrs ++ [addr]) legacyAddrs rest
      | OtherAddress => split_addrs segwitBech32Addrs (legacyAddrs ++ [addr]) rest
      end))
  end.
Definition GetChangeAddress : M W BtcAddress :=
  addrResults ← ListUnspent;
  if bool_decide (addrResults = []) then fail (ENew "no available addresses found in the wallet")
  else
    addrs ← of_outcome (split_addrs [] [] addrResults);
    let '(segwitBech32Addrs, legacyAddrs) := addrs in
    if bool_decide (segwitBech32Addrs ≠ []) then of_outcome (slice_index segwitBech32Addrs (len segwitBech32Addrs - 1))
    else if bool_decide (legacyAddrs = []) then panic "invalid argument to IntN"
    else of_outcome (slice_index legacyAddrs (IntN (len legacyAddrs))).
End change.

(** ** [CommitInfo] *)
Record BuildSetting := mkSetting { Key : string; Value : string }.
Definition substring_to (n : nat) (s : string) : string := String.substring 0 n s.
Fixpoint read_settings (hash timestamp : string) (hashLen : nat) (settings : list BuildSetting) : string * string :=
  match settings with
  | [] => (hash, timestamp)
  | s :: rest =>
      if bool_decide (Key s = "vcs.revision") then
        let hashLen := if (String.length (Value s) <? hashLen)%nat then String.length (Value s) else hashLen in
        read_settings (substring_to hashLen (Value s)) timestamp hashLen rest
      else if bool_decide (Key s = "vcs.time") then read_settings hash (Value s) hashLen rest
      else read_settings hash timestamp hashLen rest
  end.
(** [debug.ReadBuildInfo] gives the settings, if there are any. *)
Definition CommitInfo (info : option (list BuildSetting)) : string * string :=
  match info with
  | None => ("unknown", "unknown")
  | Some settings => read_settings "unknown" "unknown" 7 settings
  end.

(** ** The address chosen *)
Section spec.
Context {RL : RelayerLib} {WL : WalletLib} {W : Type} {NR : NodeRPC W}.
Context (kind_of : BtcAddress → address_kind) (IntN : Z → Z) (c : Client).
Definition is_segwit (a : BtcAddress) : Prop := kind_of a ≠ OtherAddress.
(** The address of a listed output. *)
Definition listed_addr (outs : list ListUnspentResult) (a : BtcAddress) : Prop :=
  ∃ res net, res ∈ outs ∧ GetNetParams c = Val net ∧ DecodeAddress (lu_Address res) net = Ok a.

Lemma split_addrs_spec segwit legacy outs sg lg :
  split_addrs kind_of c segwit legacy outs = Val (sg, lg) →
  ∃ sg' lg', sg = segwit ++ sg' ∧ lg = legacy ++ lg' ∧ (length sg' + length lg' = length outs)%nat ∧
    (∀ a, a ∈ sg' → is_segwit a ∧ listed_addr outs a) ∧ (∀ a, a ∈ lg' → ¬ is_segwit a ∧ listed_addr outs a) ∧
    (∀ a, listed_addr outs a → a ∈ sg' ∨ a ∈ lg').
Proof.
  revert segwit legacy. induction outs as [|res outs IH]; intros segwit legacy; cbn.
  - intros [= <- <-]. exists [], []. rewrite !app_nil_r. split_and!; try done; [set_solver..|].
    intros a (r & n & Hr & _). set_solver.
  - intros (net & Hn & (addr & Ha & H)%obind_Val)%obind_Val.
    assert (DecodeAddress (lu_Address res) net = Ok addr) as Hd by (destruct (DecodeAddress _ _); naive_solver).
    assert (listed_addr (res :: outs) addr) as Hl by (exists res, net; set_solver).
    assert (∀ a, listed_addr outs a → listed_addr (res :: outs) a) as Hw.
    { intros a (r & n & ? & ? & ?). exists r, n. set_solver. }
    assert (∀ a, listed_addr (res :: outs) a → a = addr ∨ listed_addr outs a) as Hi.
    { intros a (r & n & [->|Hr]%elem_of_cons & Hn' & Hd'); [left; congruence|right; by exists r, n]. }
    clear Ha Hd Hn. destruct (kind_of addr) eqn:Ek; apply IH in H as (sg' & lg' & -> & -> & Hlen & Hs & Hg & Hc).
    1,2: exists (addr :: sg'), lg'.
    3: exists sg', (addr :: lg').
    all: rewrite <-app_assoc; cbn; split_and!;
      [done|done|lia|intros a Ha'|intros a Ha'|intros a [->|Ha'%Hc]%Hi; set_solver].
    all: try apply elem_of_cons in Ha' as [->|Ha'].
    all: first [destruct (Hs _ Ha'); by eauto | destruct (Hg _ Ha'); by eauto | split; [|exact Hl]].
    all: unfold is_segwit; rewrite Ek; tauto || congruence.
Qed.

Lemma last_of_slice {A} (l : list A) : l ≠ [] → ∃ a, a ∈ l ∧ slice_index l (len l - 1) = Val a.
Proof.
  intros Hl. destruct (lookup_lt_is_Some_2 l (length l - 1)) as [a Ha]; [destruct l; [done|cbn; lia]|].
  exists a. split; [by eapply list_elem_of_lookup_2|].
  replace (len l - 1) with (Z.of_nat (length l - 1)) by (unfold len; destruct l; [done|cbn; lia]).
  by apply slice_index_lookup.
Qed.
Ltac fail_case := intros [= <- <-]; split; [done|intros; discriminate].

(** A change address is one of the wallet's: on success it is the address of an
    output the wallet listed, a SegWit one whenever the wallet has one (the last of
    them, not a random one); picking never panics when the network is known. *)
Theorem change_address_is_listed w r w' net :
  (∀ n, 0 < n → 0 ≤ IntN n < n) → GetNetParams c = Val net → (∀ w, no_panic (ListUnspent w)) →
  GetChangeAddress kind_of IntN c w = (r, w') →
  no_panic (r, w') ∧
  ∀ a, r = Val a → ∃ outs w1, ListUnspent w = (Val outs, w1) ∧ listed_addr outs a ∧
    ((∃ b, listed_addr outs b ∧ is_segwit b) → is_segwit a).
Proof.
  intros Hint Hnet Hnp. unfold GetChangeAddress. rewrite bind_unfold. specialize (Hnp w).
  destruct (ListUnspent w) as [[outs|e|m|] w1] eqn:El; try done; [|fail_case..].
  case_bool_decide as Hne; [fail_case|]. rewrite bind_unfold. unfold of_outcome at 1.
  assert (∀ x y, no_panic (split_addrs kind_of c x y outs, w1)) as Hsp.
  { clear -Hnet. induction outs as [|res outs IH]; intros x y; cbn; [done|]. rewrite Hnet. cbn.
    destruct (DecodeAddress _ _) as [addr|e]; cbn; [|done]. destruct (kind_of addr); apply IH. }
  specialize (Hsp [] []). destruct (split_addrs kind_of c [] [] outs) as [[sg lg]|e|m|] eqn:Es; try done; [|fail_case..].
  destruct (split_addrs_spec _ _ _ _ _ Es) as (sg' & lg' & -> & -> & Hlen & Hs & Hg & Hc). cbn [app].
  case_bool_decide as Hsg.
  - destruct (last_of_slice sg' Hsg) as (a & Ha & ->). intros [= <- <-]. split; [done|].
    intros ? [= <-]. destruct (Hs a Ha). eauto 6.
  - assert (sg' = []) as -> by (by destruct sg'). case_bool_decide as Hlg.
    { subst lg'. cbn in Hlen. by destruct outs. }
    destruct (Hint (len lg')) as [H1 H2]; [destruct lg'; [done|unfold len; cbn; lia]|].
    destruct (lookup_lt_is_Some_2 lg' (Z.to_nat (IntN (len lg')))) as [a Ha]; [unfold len in *; lia|].
    unfold of_outcome. rewrite <-(Z2Nat.id (IntN (len lg'))) at 1 by done.
    rewrite (slice_index_lookup _ _ _ Ha). intros [= <- <-]. split; [done|]. intros ? [= <-].
    destruct (Hg a) as [Hk Hl]; [by eapply list_elem_of_lookup_2|]. exists outs, w1. split_and!; [done|done|].
    intros (b & Hb%Hc & Hk'). destruct Hb as [Hb|Hb]; [set_solver|]. by destruct (Hg b Hb).
Qed.
End spec.

(** ** The commit reported *)
Lemma substring_to_short n s : (String.length (substring_to n s) ≤ n)%nat.
Proof. revert s. induction n as [|n IH]; intros [|c s]; cbn; try lia. specialize (IH s). unfold substring_to in IH. lia. Qed.
Lemma read_settings_short hash ts n settings :
  (String.length hash ≤ 7 → n ≤ 7 → String.length (fst (read_settings hash ts n settings)) ≤ 7)%nat.
Proof.
  revert hash ts n. induction settings as [|s settings IH]; intros hash ts n Hh Hn; cbn [read_settings]; [done|].
  case_bool_decide; [|by case_bool_decide; apply IH].
  destruct (Nat.ltb_spec (String.length (Value s)) n);
    (apply IH; [etrans; [apply substring_to_short|]|]; lia).
Qed.
(** The commit has at most seven characters, whatever the build settings are. *)
Lemma CommitInfo_short info : (String.length (fst (CommitInfo info)) ≤ 7)%nat.
Proof. destruct info; [|cbn; lia]. apply read_settings_short; cbn; lia. Qed.
