(* ===== verification/SlasherShutdown.v ===== *)
(** * The goroutines of the BTC slasher ([btcslasher/slasher.go], [slasher_utils.go])

    [Bootstrap] calls [SlashFinalityProvider] before [Start]; [Start] starts the
    evidence loop and the slashing enforcer, which call it too.  Every call makes a
    semaphore and starts a goroutine for every delegation.  Such a goroutine makes a
    context ([quitContext], which starts a further goroutine that waits for [quit] or
    for the end of the context), acquires the semaphore and calls
    [slashBTCDelegation], which makes a second context and retries: every round
    starts two goroutines ([attemptSlashingTx]), which no wait group counts, and
    waits in a [select] for the hash of a transaction, for the end of the context or
    for an error; after a first error it waits, without looking at the context, for a
    hash or a second error.  The result is pushed to the enforcer, or given up when
    [quit] is closed.  [Stop] closes [quit] and waits for what is counted.  A step is
    one action of one of the goroutines; calls to the nodes are taken to return. *)

From S2P Require Import Prelude.

(** Where a goroutine of [SlashFinalityProvider] is: before [quitContext], at
    [sem.Acquire], before [quitContext] of [slashBTCDelegation], before a round of
    [retry.Do], in the outer and in the inner [select] of a round, before the push of
    the result, and ended. *)
Inductive sg_pc := SgStart | SgAcquire | SgSlash | SgRetry | SgSelect | SgSelect2 | SgPush | SgDone.
#[global] Instance sg_pc_dec : EqDecision sg_pc.
Proof. solve_decision. Defined.
(** Where an attempt is: before its broadcast, after it, waiting for the depth of its
    transaction, and ended with a hash or with an error. *)
Inductive at_pc := AtRunning | AtSent | AtWaiting | AtOk | AtErr.
#[global] Instance at_pc_dec : EqDecision at_pc.
Proof. solve_decision. Defined.
Record slash_routine := mkSg {
  sg_call : nat;         (** the call of [SlashFinalityProvider], whose semaphore it takes *)
  sg_at : sg_pc;
  sg_ctx : bool;         (** the goroutine of its [quitContext] runs *)
  sg_inner : bool;       (** and the one of [slashBTCDelegation]'s *)
  sg_cur : list at_pc;   (** the attempts of the last round *)
  sg_old : list at_pc;   (** those of the rounds before *)
}.
Inductive stop_pc := NotStopped | StopWaiting | StopReturned.
#[global] Instance stop_pc_dec : EqDecision stop_pc.
Proof. solve_decision. Defined.
Record slasher_state := mkSlasherState {
  ss_started : bool;
  ss_stop : stop_pc;     (** [quit] is closed unless it is [NotStopped] *)
  ss_wg : Z;
  ss_enforcer : bool;
  ss_fetcher : bool;
  ss_results : nat;      (** the results in [slashResultChan] *)
  ss_routines : list slash_routine;
}.
(** After [New]. *)
Definition slasher_made : slasher_state := mkSlasherState false NotStopped 0 false false 0 [].
Definition slashResultChan_size : nat := 1000.

(** The goroutines and what they do to the wait group and to the results. *)
Definition with_routines (wg : Z) (results : nat) (gs : list slash_routine) (s : slasher_state) : slasher_state :=
  mkSlasherState (ss_started s) (ss_stop s) wg (ss_enforcer s) (ss_fetcher s) results gs.
Definition with_loops (wg : Z) (enforcer fetcher : bool) (results : nat) (s : slasher_state) : slasher_state :=
  mkSlasherState true (ss_stop s) wg enforcer fetcher results (ss_routines s).
Definition with_stop (pc : stop_pc) (s : slasher_state) : slasher_state :=
  mkSlasherState (ss_started s) pc (ss_wg s) (ss_enforcer s) (ss_fetcher s) (ss_results s) (ss_routines s).

(** The goroutine has the semaphore of the call. *)
Definition holds (call : nat) (g : slash_routine) : Z :=
  match sg_at g with
  | SgSlash | SgRetry | SgSelect | SgSelect2 | SgPush => Z.b2z (sg_call g =? call)%nat
  | _ => 0
  end.

(** The context of the round is cancelled: [quit] was seen, or the round is over. *)
Definition round_cancelled (g : slash_routine) : bool :=
  negb (sg_inner g) || negb (bool_decide (sg_at g = SgSelect ∨ sg_at g = SgSelect2)).
(** [sendSlashingTx]: the transaction is known already, a call fails, the broadcast,
    the query of the depth to wait for, the depth is reached, the wait is cancelled. *)
Inductive attempt_move (cancelled : bool) : at_pc → at_pc → Prop :=
| T_known : attempt_move cancelled AtRunning AtOk
| T_failed : attempt_move cancelled AtRunning AtErr
| T_broadcast : attempt_move cancelled AtRunning AtSent
| T_no_depth : attempt_move cancelled AtSent AtErr
| T_wait : attempt_move cancelled AtSent AtWaiting
| T_deep : attempt_move cancelled AtWaiting AtOk
| T_cancelled : cancelled = true → attempt_move cancelled AtWaiting AtErr.

Section slasher.
Context (maxSlashingConcurrency : Z).

Inductive routine_step (s : slasher_state) : slasher_state → Prop :=
(** [ctx, cancel := bs.quitContext()] *)
| R_context i c w w' cur old :
    ss_routines s !! i = Some (mkSg c SgStart w w' cur old) →
    routine_step s (with_routines (ss_wg s + 1) (ss_results s)
      (<[i := mkSg c SgAcquire true w' cur old]> (ss_routines s)) s)
(** [sem.Acquire(ctx, 1)], and its error when the context was cancelled *)
| R_acquire i c w w' cur old :
    ss_routines s !! i = Some (mkSg c SgAcquire w w' cur old) →
    total (holds c) (ss_routines s) < maxSlashingConcurrency →
    routine_step s (with_routines (ss_wg s) (ss_results s)
      (<[i := mkSg c SgSlash w w' cur old]> (ss_routines s)) s)
| R_refused i c w' cur old :
    ss_routines s !! i = Some (mkSg c SgAcquire false w' cur old) →
    routine_step s (with_routines (ss_wg s - 1) (ss_results s)
      (<[i := mkSg c SgDone false w' cur old]> (ss_routines s)) s)
(** [ctx, cancel := bs.quitContext()] of [slashBTCDelegation] *)
| R_inner i c w w' cur old :
    ss_routines s !! i = Some (mkSg c SgSlash w w' cur old) →
    routine_step s (with_routines (ss_wg s + 1) (ss_results s)
      (<[i := mkSg c SgRetry w true cur old]> (ss_routines s)) s)
(** [retry.Do] ends because its context was cancelled *)
| R_retry_cancelled i c w cur old :
    ss_routines s !! i = Some (mkSg c SgRetry w false cur old) →
    routine_step s (with_routines (ss_wg s) (ss_results s)
      (<[i := mkSg c SgPush w false cur old]> (ss_routines s)) s)
(** [case txHash = <-txHashChan] of the outer and of the inner [select] *)
| R_hash i c pc w w' cur old :
    ss_routines s !! i = Some (mkSg c pc w w' cur old) → pc = SgSelect ∨ pc = SgSelect2 →
    AtOk ∈ cur →
    routine_step s (with_routines (ss_wg s) (ss_results s)
      (<[i := mkSg c SgPush w w' cur old]> (ss_routines s)) s)
(** [case <-ctx.Done()], only in the outer [select] *)
| R_ctx_done i c w cur old :
    ss_routines s !! i = Some (mkSg c SgSelect w false cur old) →
    routine_step s (with_routines (ss_wg s) (ss_results s)
      (<[i := mkSg c SgPush w false cur old]> (ss_routines s)) s)
(** [case err1 := <-errChan] *)
| R_err1 i c w w' cur old :
    ss_routines s !! i = Some (mkSg c SgSelect w w' cur old) → AtErr ∈ cur →
    routine_step s (with_routines (ss_wg s) (ss_results s)
      (<[i := mkSg c SgSelect2 w w' cur old]> (ss_routines s)) s)
(** [case err2 := <-errChan]: nothing to slash or cancelled, or retry *)
| R_err2 i c pc w w' cur old :
    ss_routines s !! i = Some (mkSg c SgSelect2 w w' cur old) → cur = [AtErr; AtErr] →
    pc = SgPush ∨ pc = SgRetry →
    routine_step s (with_routines (ss_wg s) (ss_results s)
      (<[i := mkSg c pc w w' cur old]> (ss_routines s)) s)
(** [PushOrQuit], [sem.Release(1)], the two [cancel()] and [bs.wg.Done()] *)
| R_pushed i c w w' cur old :
    ss_routines s !! i = Some (mkSg c SgPush w w' cur old) → (ss_results s < slashResultChan_size)%nat →
    routine_step s (with_routines (ss_wg s - 1) (S (ss_results s))
      (<[i := mkSg c SgDone w w' cur old]> (ss_routines s)) s)
| R_quit i c w w' cur old :
    ss_routines s !! i = Some (mkSg c SgPush w w' cur old) → ss_stop s ≠ NotStopped →
    routine_step s (with_routines (ss_wg s - 1) (ss_results s)
      (<[i := mkSg c SgDone w w' cur old]> (ss_routines s)) s).
(** A step of an attempt, of the last round or of one before; it touches no counter. *)
Inductive attempt_step (s : slasher_state) : slasher_state → Prop :=
| A_cur i j g a a' :
    ss_routines s !! i = Some g → sg_cur g !! j = Some a → attempt_move (round_cancelled g) a a' →
    attempt_step s (with_routines (ss_wg s) (ss_results s)
      (<[i := mkSg (sg_call g) (sg_at g) (sg_ctx g) (sg_inner g) (<[j := a']> (sg_cur g)) (sg_old g)]>
        (ss_routines s)) s)
| A_old i j g a a' :
    ss_routines s !! i = Some g → sg_old g !! j = Some a → attempt_move true a a' →
    attempt_step s (with_routines (ss_wg s) (ss_results s)
      (<[i := mkSg (sg_call g) (sg_at g) (sg_ctx g) (sg_inner g) (sg_cur g) (<[j := a']> (sg_old g))]>
        (ss_routines s)) s).
(** The goroutine of a [quitContext] waits for [quit] or for [cancel]. *)
Inductive watch_step (s : slasher_state) : slasher_state → Prop :=
| W_outer i c pc w' cur old :
    ss_routines s !! i = Some (mkSg c pc true w' cur old) → ss_stop s ≠ NotStopped ∨ pc = SgDone →
    watch_step s (with_routines (ss_wg s - 1) (ss_results s)
      (<[i := mkSg c pc false w' cur old]> (ss_routines s)) s)
| W_inner i c pc w cur old :
    ss_routines s !! i = Some (mkSg c pc w true cur old) → ss_stop s ≠ NotStopped ∨ pc = SgDone →
    watch_step s (with_routines (ss_wg s - 1) (ss_results s)
      (<[i := mkSg c pc w false cur old]> (ss_routines s)) s).
(** What starts goroutines: [SlashFinalityProvider], in [Bootstrap] or in one of the
    loops, one for a delegation; a round of [retry.Do], the two attempts. *)
Inductive spawn_step (s : slasher_state) : slasher_state → Prop :=
| P_spawn c :
    ss_started s = false ∨ ss_enforcer s = true ∨ ss_fetcher s = true →
    spawn_step s (with_routines (ss_wg s + 1) (ss_results s)
      (ss_routines s ++ [mkSg c SgStart false false [] []]) s)
| P_round i c w w' cur old :
    ss_routines s !! i = Some (mkSg c SgRetry w w' cur old) →
    spawn_step s (with_routines (ss_wg s) (ss_results s)
      (<[i := mkSg c SgSelect w w' [AtRunning; AtRunning] (old ++ cur)]> (ss_routines s)) s).
(** [Start]; the enforcer receives a result; the ends of the two loops: both watch
    [quit], and the enforcer also ends when the channel of keys is closed. *)
Inductive slasher_loop_step (s : slasher_state) : slasher_state → Prop :=
| L_start :
    ss_started s = false →
    slasher_loop_step s (with_loops (ss_wg s + 2) true true (ss_results s) s)
| L_result n :
    ss_started s = true → ss_enforcer s = true → ss_results s = S n →
    slasher_loop_step s (with_loops (ss_wg s) true (ss_fetcher s) n s)
| L_enforcer :
    ss_started s = true → ss_enforcer s = true →
    slasher_loop_step s (with_loops (ss_wg s - 1) false (ss_fetcher s) (ss_results s) s)
| L_fetcher :
    ss_started s = true → ss_fetcher s = true → ss_stop s ≠ NotStopped →
    slasher_loop_step s (with_loops (ss_wg s - 1) (ss_enforcer s) false (ss_results s) s).
(** [Stop], which is called after [Start]: it closes [quit] and waits. *)
Inductive slasher_stop_step (s : slasher_state) : slasher_state → Prop :=
| S_close :
    ss_started s = true → ss_stop s = NotStopped → slasher_stop_step s (with_stop StopWaiting s)
| S_wait :
    ss_stop s = StopWaiting → ss_wg s = 0 → slasher_stop_step s (with_stop StopReturned s).
(** A step that starts no goroutine, and any step. *)
Inductive quiet_step (s s' : slasher_state) : Prop :=
| Q_routine : routine_step s s' → quiet_step s s'
| Q_attempt : attempt_step s s' → quiet_step s s'
| Q_watch : watch_step s s' → quiet_step s s'
| Q_loop : slasher_loop_step s s' → quiet_step s s'
| Q_stop : slasher_stop_step s s' → quiet_step s s'.
Definition slasher_step (s s' : slasher_state) : Prop := spawn_step s s' ∨ quiet_step s s'.
Definition slasher_steps : slasher_state → slasher_state → Prop := rtc slasher_step.

(** ** The invariant *)
(** What a goroutine and its watchers contribute to the wait group. *)
Definition counted (g : slash_routine) : Z :=
  match sg_at g with SgDone => 0 | _ => 1 end + Z.b2z (sg_ctx g) + Z.b2z (sg_inner g).
(** A watcher does not run before it was started; a round has two attempts, and one of
    them failed when the inner [select] is reached. *)
Definition sg_ok (g : slash_routine) : Prop :=
  match sg_at g with
  | SgStart => sg_ctx g = false ∧ sg_inner g = false
  | SgAcquire | SgSlash => sg_inner g = false
  | SgSelect => length (sg_cur g) = 2%nat
  | SgSelect2 => length (sg_cur g) = 2%nat ∧ AtErr ∈ sg_cur g
  | SgRetry | SgPush | SgDone => True
  end.
Record slasher_inv (s : slasher_state) : Prop := {
  si_wg : ss_wg s = Z.b2z (ss_enforcer s) + Z.b2z (ss_fetcher s) + total counted (ss_routines s);
  si_sem : ∀ c, total (holds c) (ss_routines s) ≤ Z.max 0 maxSlashingConcurrency;
  si_ok : ∀ i g, ss_routines s !! i = Some g → sg_ok g;
  si_results : (ss_results s ≤ slashResultChan_size)%nat;
  si_started : ss_started s = false → ss_enforcer s = false ∧ ss_fetcher s = false ∧ ss_stop s = NotStopped;
  si_stop : ss_stop s = StopReturned → ss_wg s = 0;
}.
Lemma holds_range c g : 0 ≤ holds c g ≤ 1.
Proof. unfold holds. destruct (sg_at g), (sg_call g =? c)%nat; cbn; lia. Qed.
Lemma counted_nonneg g : 0 ≤ counted g.
Proof.
  unfold counted. pose proof (b2z_nonneg (sg_ctx g)). pose proof (b2z_nonneg (sg_inner g)). destruct (sg_at g); lia.
Qed.
Lemma slasher_made_inv : slasher_inv slasher_made.
Proof. split; try done; cbn; intros; unfold total, slashResultChan_size; cbn; lia. Qed.

(** A goroutine that moves from [g] to [g']. *)
Lemma routine_inv s wg' n i g g' :
  slasher_inv s → ss_routines s !! i = Some g → wg' = ss_wg s - counted g + counted g' → 0 < counted g →
  (∀ c, holds c g' ≤ holds c g ∨
     total (holds c) (ss_routines s) - holds c g + holds c g' ≤ Z.max 0 maxSlashingConcurrency) →
  sg_ok g' → (n ≤ slashResultChan_size)%nat →
  slasher_inv (with_routines wg' n (<[i := g']> (ss_routines s)) s).
Proof.
  intros [Hw Hs Hk Hn Hst Hr] Hi -> Hc Hh Hg' Hn'. split; cbn; [..|done|done|].
  - rewrite (total_insert _ _ _ _ _ Hi). lia.
  - intros c. rewrite (total_insert _ _ _ _ _ Hi). specialize (Hs c). destruct (Hh c); lia.
  - intros j h. rewrite list_lookup_insert_Some. intros [(-> & <- & _)|[_ Hj]]; eauto.
  - intros Hret. specialize (Hr Hret). pose proof (total_elem counted _ _ _ counted_nonneg Hi).
    pose proof (b2z_nonneg (ss_enforcer s)). pose proof (b2z_nonneg (ss_fetcher s)). lia.
Qed.
(** The side conditions on a goroutine's move. *)
Ltac sg_solve :=
  unfold counted, holds, sg_ok in *; cbn in *; intros; subst;
  repeat match goal with w : bool |- _ => destruct w end; cbn; try done; try lia.
Lemma routine_step_inv s s' : slasher_inv s → routine_step s s' → slasher_inv s'.
Proof.
  intros Hi Hst. pose proof (si_ok _ Hi) as Hk. pose proof (si_results _ Hi) as Hn.
  destruct Hst as [i c w w' cur old E|i c w w' cur old E Hlt|i c w' cur old E|i c w w' cur old E
    |i c w cur old E|i c pc w w' cur old E Hpc Hok|i c w cur old E|i c w w' cur old E Herr
    |i c pc w w' cur old E Herr Hpc|i c w w' cur old E Hlt|i c w w' cur old E Hq];
    pose proof (Hk _ _ E) as Hg; eapply routine_inv; try exact E; try done;
    try (by left); try (by destruct Hpc as [-> | ->]; first [done | sg_solve | by left]);
    try (by sg_solve); try (by destruct Hg as [-> ->]; sg_solve);
    try (by destruct Hpc as [-> | ->]; intros q; left).
  - intros q. destruct (decide (q = c)) as [->|Hne]; [right|left].
    + pose proof (holds_range c (mkSg c SgAcquire w w' cur old)).
      pose proof (holds_range c (mkSg c SgSlash w w' cur old)). lia.
    + unfold holds. cbn. by rewrite (proj2 (Nat.eqb_neq c q)).
  - intros q. left. apply holds_range.
  - intros q. left. apply holds_range.
Qed.
Lemma sg_ok_attempt g cur old j a a' b :
  sg_cur g !! j = Some a → attempt_move b a a' → cur = <[j := a']> (sg_cur g) → sg_ok g →
  sg_ok (mkSg (sg_call g) (sg_at g) (sg_ctx g) (sg_inner g) cur old).
Proof.
  intros Hj Hm -> Hg. unfold sg_ok in *. cbn. destruct (sg_at g); try done; cbn.
  - by rewrite length_insert.
  - destruct Hg as [Hl Hin]. rewrite length_insert. split; [done|].
    apply list_elem_of_lookup in Hin as [k Hk]. destruct (decide (j = k)) as [->|Hne].
    + rewrite Hk in Hj. simplify_eq. inversion Hm.
    + apply list_elem_of_lookup. exists k. by rewrite list_lookup_insert_ne.
Qed.
Lemma attempt_step_inv s s' : slasher_inv s → attempt_step s s' → slasher_inv s'.
Proof.
  intros [Hw Hs Hk Hn Hst Hr] H.
  assert (∃ i g cur old, ss_routines s !! i = Some g ∧
    s' = with_routines (ss_wg s) (ss_results s)
      (<[i := mkSg (sg_call g) (sg_at g) (sg_ctx g) (sg_inner g) cur old]> (ss_routines s)) s ∧
    sg_ok (mkSg (sg_call g) (sg_at g) (sg_ctx g) (sg_inner g) cur old)) as (i & g & cur & old & Hi & -> & Hg).
  { destruct H as [i j g a a' Hi Hj Hm|i j g a a' Hi Hj Hm]; eexists i, g, _, _; (split_and!; [done..|]).
    - eapply sg_ok_attempt; eauto.
    - specialize (Hk _ _ Hi). unfold sg_ok in *. cbn. done. }
  split; cbn; [..|done|done|done].
  - rewrite (total_insert _ _ _ _ _ Hi). unfold counted at 2 3. cbn. lia.
  - intros c. rewrite (total_insert _ _ _ _ _ Hi). specialize (Hs c). unfold holds in *. cbn. lia.
  - intros j h. rewrite list_lookup_insert_Some. intros [(-> & <- & _)|[_ Hj]]; eauto.
Qed.
Lemma watch_step_inv s s' : slasher_inv s → watch_step s s' → slasher_inv s'.
Proof.
  intros Hi Hst. pose proof (si_ok _ Hi) as Hk. pose proof (si_results _ Hi) as Hn.
  destruct Hst as [i c pc w' cur old E Hq|i c pc w cur old E Hq]; pose proof (Hk _ _ E) as Hg;
    eapply routine_inv; try exact E; try done; try (by left); destruct pc; try (by sg_solve);
    by destruct Hg.
Qed.
(** Once [Stop] has returned no loop and no goroutine is left. *)
Lemma returned_empty s : slasher_inv s → ss_stop s = StopReturned →
  ss_enforcer s = false ∧ ss_fetcher s = false ∧ total counted (ss_routines s) = 0.
Proof.
  intros Hi Hret. pose proof (si_stop _ Hi Hret) as Hz. rewrite (si_wg _ Hi) in Hz.
  pose proof (total_nonneg counted (ss_routines s) counted_nonneg).
  destruct (ss_enforcer s), (ss_fetcher s); cbn in Hz; repeat split; lia.
Qed.
Lemma inv_wg_nonneg s : slasher_inv s → 0 ≤ ss_wg s.
Proof.
  intros Hi. rewrite (si_wg _ Hi). pose proof (total_nonneg counted (ss_routines s) counted_nonneg).
  pose proof (b2z_nonneg (ss_enforcer s)). pose proof (b2z_nonneg (ss_fetcher s)). lia.
Qed.
Lemma counted_zero gs i g : total counted gs = 0 → gs !! i = Some g →
  sg_at g = SgDone ∧ sg_ctx g = false ∧ sg_inner g = false.
Proof.
  intros Hz Hg. pose proof (total_elem counted _ _ _ counted_nonneg Hg) as Hc. unfold counted in Hc at 1.
  destruct g as [c pc w w' cur old]. cbn in *. destruct pc, w, w'; cbn in Hc; first [done | lia].
Qed.
Lemma spawn_step_inv s s' : slasher_inv s → spawn_step s s' → slasher_inv s'.
Proof.
  intros Hi [c Hl|i c w w' cur old E].
  2:{ pose proof (si_results _ Hi). eapply routine_inv; try exact E; try done; try (by left); sg_solve. }
  pose proof Hi as [Hw Hs Hk Hn Hst Hr]. split; cbn; [..|done|done|].
  - rewrite total_app. change (total counted [mkSg c SgStart false false [] []]) with 1. lia.
  - intros q. rewrite total_app. change (total (holds q) [mkSg c SgStart false false [] []]) with 0.
    specialize (Hs q). lia.
  - intros i g [Hg|[_ Hg]]%lookup_app_Some; [eauto|]. by apply list_lookup_singleton_Some in Hg as [_ <-].
  - intros Hret. destruct (returned_empty s Hi Hret) as (He & Hf & _).
    destruct Hl as [Hl|[Hl|Hl]]; [|congruence..]. destruct (Hst Hl) as (_ & _ & Hq). congruence.
Qed.
Lemma loop_step_inv s s' : slasher_inv s → slasher_loop_step s s' → slasher_inv s'.
Proof.
  intros Hi Hst. pose proof Hi as [Hw Hs Hk Hn Hs0 Hr]. pose proof (returned_empty s Hi) as Hret.
  destruct Hst as [H0|n H0 He En|H0 He|H0 Hf Hq]; split; cbn; try done; try lia;
    try (destruct (Hs0 H0) as (E1 & E2 & E3); rewrite E1, E2 in Hw; cbn in *; congruence || lia);
    try (rewrite ?He, ?Hf in Hw; cbn in *; lia);
    intros Hx; destruct (Hret Hx) as (? & ? & ?); congruence.
Qed.
Lemma stop_step_inv s s' : slasher_inv s → slasher_stop_step s s' → slasher_inv s'.
Proof.
  intros [Hw Hs Hk Hn Hs0 Hr] [H0 Hq|Hq Hz]; split; cbn; try done; [congruence|].
  intros H0. destruct (Hs0 H0) as (_ & _ & Hx). congruence.
Qed.
Lemma quiet_step_inv s s' : slasher_inv s → quiet_step s s' → slasher_inv s'.
Proof.
  intros Hi [H|H|H|H|H];
    eauto using routine_step_inv, attempt_step_inv, watch_step_inv, loop_step_inv, stop_step_inv.
Qed.
Lemma slasher_steps_inv s s' : slasher_steps s s' → slasher_inv s → slasher_inv s'.
Proof. induction 1 as [|s s1 s' [H|H] _ IH]; eauto using spawn_step_inv, quiet_step_inv. Qed.

(** ** Shutdown *)
(** The steps a goroutine, its attempts, its watchers and its result can still take. *)
Definition at_work (a : at_pc) : Z :=
  match a with AtRunning => 3 | AtSent => 2 | AtWaiting => 1 | AtOk | AtErr => 0 end.
Definition sg_work (g : slash_routine) : Z :=
  match sg_at g with
  | SgStart => 8 | SgAcquire => 6 | SgSlash => 5 | SgSelect => 5 | SgSelect2 => 4 | SgRetry => 3
  | SgPush => 2 | SgDone => 0
  end
  + Z.b2z (sg_ctx g) + Z.b2z (sg_inner g) + total at_work (sg_cur g) + total at_work (sg_old g).
(** The steps a slasher on which [Stop] was called can still take. *)
Definition slasher_work (s : slasher_state) : Z :=
  (if bool_decide (ss_stop s = StopReturned) then 0 else 1)
  + Z.b2z (ss_enforcer s) + Z.b2z (ss_fetcher s) + Z.of_nat (ss_results s) + total sg_work (ss_routines s).
Lemma at_work_nonneg a : 0 ≤ at_work a.
Proof. by destruct a. Qed.
Lemma attempt_move_work b a a' : attempt_move b a a' → at_work a' < at_work a.
Proof. by destruct 1. Qed.
Lemma sg_work_nonneg g : 0 ≤ sg_work g.
Proof.
  unfold sg_work. pose proof (total_nonneg at_work (sg_cur g) at_work_nonneg).
  pose proof (total_nonneg at_work (sg_old g) at_work_nonneg). pose proof (b2z_nonneg (sg_ctx g)). pose proof (b2z_nonneg (sg_inner g)). destruct (sg_at g); lia.
Qed.
Lemma slasher_work_nonneg s : 0 ≤ slasher_work s.
Proof.
  unfold slasher_work. pose proof (total_nonneg sg_work (ss_routines s) sg_work_nonneg).
  pose proof (b2z_nonneg (ss_enforcer s)). pose proof (b2z_nonneg (ss_fetcher s)). case_bool_decide; lia.
Qed.
Lemma routine_work s wg' n i g g' :
  ss_routines s !! i = Some g → sg_work g' + Z.of_nat n < sg_work g + Z.of_nat (ss_results s) →
  slasher_work (with_routines wg' n (<[i := g']> (ss_routines s)) s) < slasher_work s.
Proof. intros Hi Hlt. unfold slasher_work. cbn. rewrite (total_insert _ _ _ _ _ Hi). lia. Qed.
(** A step of a slasher that is being stopped uses up work. *)
Lemma quiet_step_work s s' :
  slasher_inv s → ss_stop s ≠ NotStopped → quiet_step s s' → slasher_work s' < slasher_work s.
Proof.
  intros Hi Hq [H|H|H|H|H].
  - destruct H; eapply routine_work; try eassumption; pose proof (si_ok _ Hi _ _ H) as Hg; unfold sg_ok in Hg;
      unfold sg_work; cbn in *; repeat match goal with w : bool |- _ => destruct w end; cbn; naive_solver lia.
  - destruct H as [i j g a a' Hg Ha Hm|i j g a a' Hg Ha Hm]; apply attempt_move_work in Hm;
      eapply routine_work; try exact Hg; unfold sg_work; cbn; rewrite (total_insert _ _ _ _ _ Ha); lia.
  - destruct H; eapply routine_work; try eassumption; unfold sg_work; cbn; lia.
  - destruct H as [H0|n H0 He En|H0 He|H0 Hf _]; unfold slasher_work; cbn.
    + destruct (si_started _ Hi H0) as (_ & _ & ?). congruence.
    + rewrite He, En. cbn [Z.b2z]. lia.
    + rewrite He. cbn. lia.
    + rewrite Hf. cbn. lia.
  - destruct H as [_ ?|Hw _]; [congruence|]. unfold slasher_work. cbn.
    rewrite Hw, bool_decide_eq_true_2, bool_decide_eq_false_2 by done. lia.
Qed.
(** An attempt that has not ended can move once its context is cancelled. *)
Lemma attempt_moves a : a ≠ AtOk → a ≠ AtErr → ∃ a', attempt_move true a a'.
Proof. destruct a; intros ? ?; try done; eexists; [apply T_known|apply T_wait|by apply T_cancelled]. Qed.
(** A round in the inner [select] whose context is cancelled goes on. *)
Lemma select2_moves s i c w cur old :
  ss_routines s !! i = Some (mkSg c SgSelect2 w false cur old) → length cur = 2%nat →
  ∃ s', quiet_step s s'.
Proof.
  intros Hi Hl. destruct (decide (AtOk ∈ cur)) as [Hok|Hok].
  { eexists. eapply Q_routine, R_hash; [exact Hi|by right|done]. }
  destruct (decide (Forall (λ a, a = AtErr) cur)) as [Hall|Hall].
  - assert (cur = [AtErr; AtErr]) as ->.
    { destruct cur as [|a [|b [|]]]; try done. by inversion Hall as [|?? -> H2]; inversion H2 as [|?? ->]. }
    eexists. eapply Q_routine, R_err2; [exact Hi|done|by left].
  - apply not_Forall_Exists, Exists_exists in Hall as (a & Ha & Hne); [|apply _].
    destruct (attempt_moves a) as [a' Hm]; [by intros ->|done|].
    apply list_elem_of_lookup in Ha as [j Hj].
    eexists. eapply Q_attempt, A_cur; [exact Hi|exact Hj|exact Hm].
Qed.
(** A goroutine or watcher that is counted can move, or an attempt it waits for. *)
Lemma counted_moves s i g :
  slasher_inv s → ss_stop s ≠ NotStopped → ss_routines s !! i = Some g → 0 < counted g →
  ∃ s', quiet_step s s'.
Proof.
  intros Hinv Hq Hi Hc. pose proof (si_ok _ Hinv _ _ Hi) as Hg. destruct g as [c pc w w' cur old].
  destruct w; [eexists; apply Q_watch, (W_outer s i c pc w' cur old); auto|].
  destruct w'; [eexists; apply Q_watch, (W_inner s i c pc false cur old); auto|].
  destruct pc; try (by eapply select2_moves; [exact Hi|apply Hg]); [..|done]; eexists; apply Q_routine.
  - by eapply R_context.
  - by eapply R_refused.
  - by eapply R_inner.
  - by eapply R_retry_cancelled.
  - by eapply R_ctx_done.
  - by eapply R_quit.
Qed.
(** [Stop] is never stuck. *)
Lemma stop_progress s : slasher_inv s → ss_started s = true → ss_stop s = StopWaiting → ∃ s', quiet_step s s'.
Proof.
  intros Hi H0 Hq. destruct (ss_enforcer s) eqn:He; [eexists; by apply Q_loop, L_enforcer|].
  destruct (ss_fetcher s) eqn:Hf; [eexists; apply Q_loop, L_fetcher; congruence|].
  pose proof (si_wg _ Hi) as Hw. rewrite He, Hf in Hw. cbn in Hw.
  destruct (decide (0 < total counted (ss_routines s))) as [(i & g & Hi' & Hc)%total_pos|Hz].
  - apply (counted_moves s i g); first [done | congruence].
  - eexists. apply Q_stop, S_wait; [done|]. pose proof (total_nonneg counted (ss_routines s) counted_nonneg). lia.
Qed.
(** [Stop] stays called. *)
Lemma quiet_stop s s' :
  quiet_step s s' → ss_started s = true → ss_stop s ≠ NotStopped → ss_started s' = true ∧ ss_stop s' ≠ NotStopped.
Proof. intros [H|H|H|H|H] H0 Hq; destruct H; cbn; done. Qed.
Lemma quiet_steps_bound n s s' :
  nsteps quiet_step n s s' → slasher_inv s → ss_started s = true → ss_stop s ≠ NotStopped →
  slasher_inv s' ∧ ss_started s' = true ∧ ss_stop s' ≠ NotStopped ∧ Z.of_nat n ≤ slasher_work s - slasher_work s'.
Proof.
  induction 1 as [|n s s1 s' Hst _ IH]; intros Hi H0 Hq; [split_and!; first [done | lia]|].
  destruct (quiet_stop _ _ Hst H0 Hq) as [H0' Hq'].
  destruct (IH (quiet_step_inv _ _ Hi Hst) H0' Hq') as (? & ? & ? & Hb).
  pose proof (quiet_step_work _ _ Hi Hq Hst). split_and!; first [done | lia].
Qed.
End slasher.
