(* ===== verification/SlasherShutdownTheorems.v ===== *)
(** * Theorems about the goroutines of the BTC slasher *)

From S2P Require Import Prelude SlasherShutdown.

(** The limit on slashing at once.  In every reachable state, and for every call of
    [SlashFinalityProvider], at most [maxSlashingConcurrency] of its goroutines are
    slashing, and the channel of results stays within its buffer. *)
Theorem slashing_concurrency_bounded (max : Z) (s : slasher_state) (call : nat) :
  0 < max → slasher_steps max slasher_made s →
  total (holds call) (ss_routines s) ≤ max ∧ (ss_results s ≤ 1000)%nat.
Proof.
  intros Hm Hst. pose proof (slasher_steps_inv _ _ _ Hst (slasher_made_inv max)) as Hi.
  pose proof (si_sem _ _ Hi call). pose proof (si_results _ _ Hi). split; [lia|done].
Qed.

(** A goroutine of a call on its way from its start to the semaphore of the call. *)
Lemma starts_slashing max s c gs :
  ss_started s = false → ss_routines s = gs → total (holds c) gs < max →
  slasher_steps max s (with_routines (ss_wg s + 1 + 1) (ss_results s) (gs ++ [mkSg c SgSlash true false [] []]) s).
Proof.
  intros H0 Hgs Hlt. eapply rtc_l; [left; apply (P_spawn s c); auto|]. rewrite Hgs.
  assert (∀ g : slash_routine, (gs ++ [g]) !! length gs = Some g) as Hlook by (intros; by apply list_lookup_middle).
  assert (∀ g g' : slash_routine, <[length gs := g']> (gs ++ [g]) = gs ++ [g']) as Hins
    by (intros; by rewrite insert_app_r_alt, Nat.sub_diag).
  eapply rtc_l; [right; apply Q_routine, (R_context _ _ (length gs) c false false [] []), Hlook|]. cbn. rewrite Hins.
  eapply rtc_l; [right; apply Q_routine, (R_acquire _ _ (length gs) c true false [] []); [apply Hlook|]|]; cbn.
  - rewrite total_app. change (total (holds c) [mkSg c SgAcquire true false [] []]) with 0. lia.
  - rewrite Hins. apply rtc_refl.
Qed.
(** The limit is per call, not for the slasher: with a limit of one, two providers
    are slashed at once. *)
Lemma slashing_limit_is_per_call :
  ∃ s, slasher_steps 1 slasher_made s ∧ total (holds 0) (ss_routines s) + total (holds 1) (ss_routines s) = 2.
Proof.
  eexists. split.
  - etransitivity; [apply (starts_slashing 1 slasher_made 0%nat); done|].
    apply (starts_slashing 1 _ 1%nat); done.
  - done.
Qed.

(** C36: the BTC slasher shuts down.  Take any state its goroutines can reach in which
    [Stop] waits.  Every execution from it that starts no further goroutine (no
    goroutine for a delegation, no further round of attempts) has at most
    [slasher_work] steps and cannot get stuck before [Stop] returns, whatever the
    scheduling, also with the result channel full, the semaphores taken and the
    enforcer gone.  The wait group is never negative, and once [Stop] has returned both
    loops, every goroutine of [SlashFinalityProvider] and every context watcher have
    ended.  The attempts, which are not counted, may not have
    ([attempts_outlive_stop]). *)
Theorem slasher_stops (max : Z) (s : slasher_state) :
  slasher_steps max slasher_made s → ss_started s = true → ss_stop s = StopWaiting →
  ∀ n s', nsteps (quiet_step max) n s s' →
    Z.of_nat n ≤ slasher_work s ∧ 0 ≤ ss_wg s' ∧
    (ss_stop s' = StopWaiting ∧ (∃ s'', quiet_step max s' s'') ∨
     ss_stop s' = StopReturned ∧ ss_enforcer s' = false ∧ ss_fetcher s' = false ∧
       Forall (λ g, sg_at g = SgDone ∧ sg_ctx g = false ∧ sg_inner g = false) (ss_routines s')).
Proof.
  intros Hst H0 Hq n s' Hn. pose proof (slasher_steps_inv _ _ _ Hst (slasher_made_inv max)) as Hi.
  destruct (quiet_steps_bound _ _ _ _ Hn Hi H0) as (Hi' & H0' & Hq' & Hb); [congruence|].
  pose proof (slasher_work_nonneg s'). split_and!; [lia|by apply (inv_wg_nonneg max)|].
  destruct (ss_stop s') eqn:Es; [done| |right].
  - left. split; [done|]. by apply stop_progress.
  - destruct (returned_empty _ _ Hi' Es) as (? & ? & Hz). split_and!; [done..|].
    apply Forall_lookup. intros i g Hg. by apply (counted_zero (ss_routines s') i).
Qed.

(** Two goroutines, one of them slashing, when [Stop] is called. *)
Definition stopping : slasher_state :=
  mkSlasherState true StopWaiting 5 true true 0 [mkSg 0 SgSlash true false [] []; mkSg 0 SgStart false false [] []].
Lemma stopping_reached : slasher_steps 1 slasher_made stopping.
Proof.
  etransitivity; [apply (starts_slashing 1 slasher_made 0%nat); done|].
  eapply rtc_l; [left; apply (P_spawn _ 0%nat); by left|]. cbn.
  eapply rtc_l; [right; apply Q_loop, L_start; done|]. cbn.
  eapply rtc_l; [right; apply Q_stop, S_close; done|]. apply rtc_refl.
Qed.
Lemma slasher_stops_witness :
  slasher_work stopping = 17 ∧
  ∀ n s', nsteps (quiet_step 1) n stopping s' →
    Z.of_nat n ≤ 17 ∧ 0 ≤ ss_wg s' ∧
    (ss_stop s' = StopWaiting ∧ (∃ s'', quiet_step 1 s' s'') ∨
     ss_stop s' = StopReturned ∧ ss_enforcer s' = false ∧ ss_fetcher s' = false ∧
       Forall (λ g, sg_at g = SgDone ∧ sg_ctx g = false ∧ sg_inner g = false) (ss_routines s')).
Proof. split; [reflexivity|]. exact (slasher_stops 1 stopping stopping_reached eq_refl eq_refl). Defined.
Lemma slashing_concurrency_bounded_witness : total (holds 0) (ss_routines stopping) ≤ 1 ∧ (0 ≤ 1000)%nat.
Proof. exact (slashing_concurrency_bounded 1 stopping 0 eq_refl stopping_reached). Defined.

(** [Stop] returns while the attempts of a round still run, and such an attempt then
    broadcasts its slashing transaction: [slashBTCDelegation] returns on the end of
    its context without waiting for the two goroutines it started. *)
Definition outlived : slasher_state :=
  mkSlasherState true StopReturned 0 false false 0
    [mkSg 0 SgDone false false [AtRunning; AtRunning] []].
Ltac slasher_do t := eapply rtc_l; [t|]; cbn.
Lemma outlived_reached : slasher_steps 1 slasher_made outlived.
Proof.
  etransitivity; [apply (starts_slashing 1 slasher_made 0%nat); done|]. cbn.
  slasher_do ltac:(right; apply Q_routine, (R_inner _ _ 0 0 true false [] []); done).
  slasher_do ltac:(left; apply (P_round _ 0 0 true true [] []); done).
  slasher_do ltac:(right; apply Q_loop, L_start; done).
  slasher_do ltac:(right; apply Q_stop, S_close; done).
  slasher_do ltac:(right; apply Q_watch, (W_inner _ 0 0 SgSelect true [AtRunning; AtRunning] []); by try left).
  slasher_do ltac:(right; apply Q_routine, (R_ctx_done _ _ 0 0 true [AtRunning; AtRunning] []); done).
  slasher_do ltac:(right; apply Q_routine, (R_quit _ _ 0 0 true false [AtRunning; AtRunning] []); done).
  slasher_do ltac:(right; apply Q_watch, (W_outer _ 0 0 SgDone false [AtRunning; AtRunning] []); by try left).
  slasher_do ltac:(right; apply Q_loop, L_enforcer; done).
  slasher_do ltac:(right; apply Q_loop, L_fetcher; done).
  slasher_do ltac:(right; apply Q_stop, S_wait; done).
  apply rtc_refl.
Qed.
Theorem attempts_outlive_stop :
  slasher_steps 1 slasher_made outlived ∧ ss_stop outlived = StopReturned ∧
  ∃ s', attempt_step outlived s' ∧
    sg_cur <$> ss_routines s' = [[AtSent; AtRunning]].
Proof.
  split; [exact outlived_reached|]. split; [done|]. eexists. split.
  - apply (A_cur outlived 0 0 (mkSg 0 SgDone false false [AtRunning; AtRunning] []) AtRunning AtSent);
      [done|done|constructor].
  - done.
Qed.
