(* ===== verification/AtomicShutdown.v ===== *)
(** * The goroutines of the atomic slasher and the end of the tracker

    [atomicslasher/atomic_slasher.go] and [routines.go]: the three routines, the
    goroutines of [quitContext] and the two channels, with the slashing enforcer that
    reads the keys.  [Stop] of the tracker ([tracker.go]) first stops the BTC slasher,
    whose enforcer then reads no more, and then the atomic slasher.  A step is one
    action of one goroutine; what the routines compute is in AtomicSlasher.v. *)

From S2P Require Import Prelude.

(** How far [Stop] of the tracker is: not called, in [Stop] of the BTC slasher, in
    [Stop] of the atomic slasher after its two [close], and past it. *)
Inductive ts_pc := TsRunning | TsBtcSlasher | TsClosed | TsStopped.
#[global] Instance ts_pc_dec : EqDecision ts_pc.
Proof. solve_decision. Defined.
(** [slashingTxTracker]: before the registration, at its [select], at a block with
    so many slashing transactions left, ended. *)
Inductive tk_pc := TkRegister | TkSelect | TkBlock (left : nat) | TkDone.
(** The calls of [selectiveSlashingReporter] that take a context. *)
Inductive rp_call := CallDelegation | CallParams | CallIsSlashed | CallReport.
(** [selectiveSlashingReporter]: at its [select], before a call, in a call whose
    watcher runs or has ended, at the send of the key, ended. *)
Inductive rp_pc := RpSelect | RpQuery (c : rp_call) | RpCall (c : rp_call) (watched : bool) | RpSend | RpDone.
Record atomic_state := mkAtomicState {
  at_stop : ts_pc;          (** [quit] and [slashingTxChan] are closed from [TsClosed] on *)
  at_wg : Z;
  at_tracker : tk_pc;
  at_delegations : bool;    (** [btcDelegationTracker] runs *)
  at_reporter : rp_pc;
  at_cancelled : nat;       (** watchers whose context was cancelled *)
  at_leaked : nat;          (** watchers whose context never is *)
  at_txs : nat;             (** in [slashingTxChan] *)
  at_keys : nat;            (** in [slashedFPSKChan] *)
  at_enforcer : bool;       (** the enforcer of the BTC slasher runs *)
  at_crashed : bool;        (** a goroutine has panicked *)
}.
Definition slashingTxChan_size : nat := 100.
Definition slashedFPSKChan_size : nat := 100.
(** After [Start] of the tracker. *)
Definition atomic_started : atomic_state :=
  mkAtomicState TsRunning 3 TkRegister true RpSelect 0 0 0 0 true false.

Definition set_tracker (wg : Z) (pc : tk_pc) (txs : nat) (s : atomic_state) : atomic_state :=
  mkAtomicState (at_stop s) wg pc (at_delegations s) (at_reporter s) (at_cancelled s) (at_leaked s) txs
    (at_keys s) (at_enforcer s) (at_crashed s).
Definition set_reporter (wg : Z) (pc : rp_pc) (cancelled leaked : nat) (s : atomic_state) : atomic_state :=
  mkAtomicState (at_stop s) wg (at_tracker s) (at_delegations s) pc cancelled leaked (at_txs s)
    (at_keys s) (at_enforcer s) (at_crashed s).
Definition set_chan (txs keys : nat) (s : atomic_state) : atomic_state :=
  mkAtomicState (at_stop s) (at_wg s) (at_tracker s) (at_delegations s) (at_reporter s) (at_cancelled s)
    (at_leaked s) txs keys (at_enforcer s) (at_crashed s).
Definition set_ends (stop : ts_pc) (wg : Z) (delegations enforcer : bool) (s : atomic_state) : atomic_state :=
  mkAtomicState stop wg (at_tracker s) delegations (at_reporter s) (at_cancelled s) (at_leaked s) (at_txs s)
    (at_keys s) enforcer (at_crashed s).
Definition crash (s : atomic_state) : atomic_state :=
  mkAtomicState (at_stop s) (at_wg s) (at_tracker s) (at_delegations s) (at_reporter s) (at_cancelled s)
    (at_leaked s) (at_txs s) (at_keys s) (at_enforcer s) true.
Definition closed (s : atomic_state) : bool := bool_decide (at_stop s = TsClosed ∨ at_stop s = TsStopped).

Inductive txtracker_step (s : atomic_state) : atomic_state → Prop :=
| K_registered :
    at_tracker s = TkRegister → txtracker_step s (set_tracker (at_wg s) TkSelect (at_txs s) s)
(** The registration failed, or the notifier has closed its channel. *)
| K_ended :
    at_tracker s = TkRegister ∨ at_tracker s = TkSelect →
    txtracker_step s (set_tracker (at_wg s - 1) TkDone (at_txs s) s)
| K_block n :
    at_tracker s = TkSelect → txtracker_step s (set_tracker (at_wg s) (TkBlock n) (at_txs s) s)
| K_handled :
    at_tracker s = TkBlock 0 → txtracker_step s (set_tracker (at_wg s) TkSelect (at_txs s) s)
| K_sent n :
    at_tracker s = TkBlock (S n) → closed s = false → (at_txs s < slashingTxChan_size)%nat →
    txtracker_step s (set_tracker (at_wg s) (TkBlock n) (S (at_txs s)) s)
(** A send on a closed channel is ready in a [select], and panics. *)
| K_panic n :
    at_tracker s = TkBlock (S n) → closed s = true → txtracker_step s (crash s)
| K_quit pc :
    at_tracker s = pc → (pc = TkSelect ∨ ∃ n, pc = TkBlock (S n)) → closed s = true →
    txtracker_step s (set_tracker (at_wg s - 1) TkDone (at_txs s) s).
Definition next_call (c : rp_call) : rp_pc :=
  match c with
  | CallDelegation => RpQuery CallParams
  | CallParams => RpQuery CallIsSlashed
  | CallIsSlashed => RpQuery CallReport
  | CallReport => RpSend
  end.
Inductive reporter_step (s : atomic_state) : atomic_state → Prop :=
| E_receive n :
    at_reporter s = RpSelect → at_txs s = S n →
    reporter_step s (set_chan n (at_keys s)
      (set_reporter (at_wg s) (RpQuery CallDelegation) (at_cancelled s) (at_leaked s) s))
| E_closed :
    at_reporter s = RpSelect → closed s = true →
    reporter_step s (set_reporter (at_wg s - 1) RpDone (at_cancelled s) (at_leaked s) s)
(** [ctx, cancel := as.quitContext()] *)
| E_context c :
    at_reporter s = RpQuery c →
    reporter_step s (set_reporter (at_wg s + 1) (RpCall c true) (at_cancelled s) (at_leaked s) s)
(** The call returned, and [cancel()] *)
| E_returned c w :
    at_reporter s = RpCall c w →
    reporter_step s (set_reporter (at_wg s) (next_call c) (at_cancelled s + Nat.b2n w) (at_leaked s) s)
(** An error, an unreadable witness, a provider that is slashed already or a key that
    is not found *)
| E_continue c w :
    at_reporter s = RpCall c w → c ≠ CallReport →
    reporter_step s (set_reporter (at_wg s) RpSelect (at_cancelled s + Nat.b2n w) (at_leaked s) s)
(** An error of [IsFPSlashed], after which [cancel] is not called *)
| E_leak w :
    at_reporter s = RpCall CallIsSlashed w →
    reporter_step s (set_reporter (at_wg s) RpSelect (at_cancelled s) (at_leaked s + Nat.b2n w) s)
(** [as.slashedFPSKChan <- fpSK], without a way out *)
| E_send :
    at_reporter s = RpSend → (at_keys s < slashedFPSKChan_size)%nat →
    reporter_step s (set_chan (at_txs s) (S (at_keys s))
      (set_reporter (at_wg s) RpSelect (at_cancelled s) (at_leaked s) s)).
(** The goroutines of [quitContext]. *)
Inductive watcher_step (s : atomic_state) : atomic_state → Prop :=
| H_call c :
    at_reporter s = RpCall c true → closed s = true →
    watcher_step s (set_reporter (at_wg s - 1) (RpCall c false) (at_cancelled s) (at_leaked s) s)
| H_cancelled n :
    at_cancelled s = S n → watcher_step s (set_reporter (at_wg s - 1) (at_reporter s) n (at_leaked s) s)
| H_leaked n :
    at_leaked s = S n → closed s = true →
    watcher_step s (set_reporter (at_wg s - 1) (at_reporter s) (at_cancelled s) n s).
(** [btcDelegationTracker], the enforcer and [Stop] of the tracker. *)
Inductive ends_step (s : atomic_state) : atomic_state → Prop :=
| D_quit :
    at_delegations s = true → closed s = true →
    ends_step s (set_ends (at_stop s) (at_wg s - 1) false (at_enforcer s) s)
| N_key n :
    at_enforcer s = true → at_keys s = S n → ends_step s (set_chan (at_txs s) n s)
| N_quit :
    at_enforcer s = true → at_stop s ≠ TsRunning →
    ends_step s (set_ends (at_stop s) (at_wg s) (at_delegations s) false s)
| T_stop :
    at_stop s = TsRunning →
    ends_step s (set_ends TsBtcSlasher (at_wg s) (at_delegations s) (at_enforcer s) s)
| T_close :
    at_stop s = TsBtcSlasher → at_enforcer s = false →
    ends_step s (set_ends TsClosed (at_wg s) (at_delegations s) (at_enforcer s) s)
| T_wait :
    at_stop s = TsClosed → at_wg s = 0 →
    ends_step s (set_ends TsStopped (at_wg s) (at_delegations s) (at_enforcer s) s).
Inductive atomic_step (s s' : atomic_state) : Prop :=
| A_tracker : at_crashed s = false → txtracker_step s s' → atomic_step s s'
| A_reporter : at_crashed s = false → reporter_step s s' → atomic_step s s'
| A_watcher : at_crashed s = false → watcher_step s s' → atomic_step s s'
| A_ends : at_crashed s = false → ends_step s s' → atomic_step s s'.
Definition atomic_steps : atomic_state → atomic_state → Prop := rtc atomic_step.

(** ** The invariant *)
Definition tracker_runs (s : atomic_state) : Z := match at_tracker s with TkDone => 0 | _ => 1 end.
Definition reporter_runs (s : atomic_state) : Z :=
  match at_reporter s with RpDone => 0 | RpCall _ true => 2 | _ => 1 end.
Record atomic_inv (s : atomic_state) : Prop := {
  ai_wg : at_wg s = tracker_runs s + reporter_runs s + Z.b2z (at_delegations s)
                    + Z.of_nat (at_cancelled s) + Z.of_nat (at_leaked s);
  ai_keys : (at_keys s ≤ slashedFPSKChan_size)%nat;
  ai_txs : (at_txs s ≤ slashingTxChan_size)%nat;
  ai_enforcer : closed s = true → at_enforcer s = false;
}.
Lemma atomic_started_inv : atomic_inv atomic_started.
Proof. split; try done; cbn; lia. Qed.
(** The invariant after a step, from the fields it changes. *)
Ltac atomic_solve :=
  unfold tracker_runs, reporter_runs in *; cbn in *; simplify_eq; cbn in *;
  repeat match goal with w : bool |- _ => destruct w end; cbn in *; try done; try lia.
Lemma txtracker_step_inv s s' : atomic_inv s → txtracker_step s s' → atomic_inv s'.
Proof.
  intros [Hw Hk Ht He] Hst. destruct s as [st wg tk dl rp ca lk tx ks en cr].
  destruct Hst as [E|[E|E]|n E|E|n E Hc Hlt|n E Hc|pc E [->|[n ->]] Hc]; split; try done; by atomic_solve.
Qed.
Lemma reporter_step_inv s s' : atomic_inv s → reporter_step s s' → atomic_inv s'.
Proof.
  intros [Hw Hk Ht He] Hst. destruct s as [st wg tk dl rp ca lk tx ks en cr].
  destruct Hst as [n E Et|E Hc|c E|c w E|c w E Hc|w E|E Hlt]; split; try done; try (by atomic_solve).
  destruct c; by atomic_solve.
Qed.
Lemma watcher_step_inv s s' : atomic_inv s → watcher_step s s' → atomic_inv s'.
Proof.
  intros [Hw Hk Ht He] Hst. destruct s as [st wg tk dl rp ca lk tx ks en cr].
  destruct Hst as [c E Hc|n E|n E Hc]; split; try done; by atomic_solve.
Qed.
Lemma ends_step_inv s s' : atomic_inv s → ends_step s s' → atomic_inv s'.
Proof.
  intros [Hw Hk Ht He] Hst. destruct s as [st wg tk dl rp ca lk tx ks en cr].
  destruct Hst as [E Hc|n E Ek|E Hn|E|E Ee|E Ez]; split; try done; by atomic_solve.
Qed.
Lemma atomic_steps_inv s s' : atomic_steps s s' → atomic_inv s → atomic_inv s'.
Proof.
  induction 1 as [|s s1 s' [_ H|_ H|_ H|_ H] _ IH];
    eauto using txtracker_step_inv, reporter_step_inv, watcher_step_inv, ends_step_inv.
Qed.

(** ** Where the shutdown gets stuck *)
(** The reporter waits for room among the keys and nothing else is left. *)
Definition key_stuck (s : atomic_state) : Prop :=
  at_reporter s = RpSend ∧ at_keys s = slashedFPSKChan_size ∧ at_tracker s = TkDone ∧
  at_delegations s = false ∧ at_cancelled s = 0%nat ∧ at_leaked s = 0%nat.
Lemma stop_closed s : at_stop s = TsClosed → closed s = true.
Proof. intros H. apply bool_decide_eq_true_2. by left. Qed.
(** A reporter that has not ended moves, unless it waits for room among the keys. *)
Lemma reporter_moves s :
  closed s = true → at_reporter s ≠ RpDone → (at_keys s ≤ slashedFPSKChan_size)%nat →
  (∃ s', reporter_step s s') ∨ at_reporter s = RpSend ∧ at_keys s = slashedFPSKChan_size.
Proof.
  intros Hc Hr Hk. destruct (at_reporter s) as [|c|c w| |] eqn:E; [left; eexists..| |done].
  - by apply E_closed.
  - by eapply E_context.
  - by eapply E_returned.
  - destruct (decide (at_keys s < slashedFPSKChan_size)%nat); [left; eexists; by apply E_send|right; split; [done|lia]].
Qed.
Lemma tracker_moves s : closed s = true → at_tracker s ≠ TkDone → ∃ s', txtracker_step s s'.
Proof.
  intros Hc Ht. destruct (at_tracker s) as [| |[|n]|] eqn:E; [eexists..|done].
  - by apply K_registered.
  - apply K_ended. by right.
  - by apply K_handled.
  - eapply K_quit; eauto.
Qed.
Lemma stop_moves s : atomic_inv s → at_crashed s = false → at_stop s = TsClosed →
  (∃ s', atomic_step s s') ∨ key_stuck s.
Proof.
  intros [Hw Hk _ _] Hcr Hst. pose proof (stop_closed s Hst) as Hc.
  destruct (at_delegations s) eqn:Hd; [left; eexists; apply A_ends; [done|]; by apply D_quit|].
  destruct (at_cancelled s) as [|n] eqn:Hca; [|left; eexists; apply A_watcher; [done|]; by eapply H_cancelled].
  destruct (at_leaked s) as [|n] eqn:Hl; [|left; eexists; apply A_watcher; [done|]; by eapply H_leaked].
  assert (at_tracker s = TkDone ∨ at_tracker s ≠ TkDone) as [Ht|Ht] by (destruct (at_tracker s); auto).
  2: { destruct (tracker_moves s Hc Ht) as [s' ?]. left. exists s'. by apply A_tracker. }
  assert (at_reporter s = RpDone ∨ at_reporter s ≠ RpDone) as [Hr|Hr] by (destruct (at_reporter s); auto).
  - left. eexists. apply A_ends; [done|]. apply T_wait; [done|].
    unfold tracker_runs, reporter_runs in Hw. rewrite Ht, Hr in Hw. cbn in Hw. lia.
  - destruct (reporter_moves s Hc Hr Hk) as [[s' ?]|[? ?]]; [left; exists s'; by apply A_reporter|].
    right. by repeat split.
Qed.
(** And there nothing moves. *)
Lemma key_stuck_stuck s s' : atomic_inv s → at_stop s = TsClosed → key_stuck s → ¬ atomic_step s s'.
Proof.
  intros Hi Hst (Hr & Hk & Ht & Hd & Hca & Hl).
  pose proof (ai_enforcer _ Hi (stop_closed s Hst)) as He. pose proof (ai_wg _ Hi) as Hw.
  unfold tracker_runs, reporter_runs in Hw. rewrite Ht, Hr, Hd, Hca, Hl in Hw. cbn in Hw.
  intros [_ H|_ H|_ H|_ H]; destruct H; try congruence; try lia; naive_solver congruence.
Qed.
