(* ===== verification/AtomicShutdownTheorems.v ===== *)
(** * Theorems about the end of the atomic slasher and of the tracker *)

From S2P Require Import Prelude AtomicShutdown.

(** The channel of keys has [k] keys and both routines are at their [select]. *)
Definition at_rest (k : nat) : atomic_state :=
  mkAtomicState TsRunning 3 TkSelect true RpSelect 0 0 0 k true false.
(** And the reporter is at the send of one more. *)
Definition at_send (k : nat) : atomic_state :=
  mkAtomicState TsRunning 3 TkSelect true RpSend 0 0 0 k true false.
Ltac atomic_do H := eapply rtc_l; [H|cbn].
(** A call, its context and its watcher, which ends after it. *)
Lemma call_returns k c :
  atomic_steps (mkAtomicState TsRunning 3 TkSelect true (RpQuery c) 0 0 0 k true false)
    (mkAtomicState TsRunning 3 TkSelect true (next_call c) 0 0 0 k true false).
Proof.
  atomic_do ltac:(apply A_reporter; [done|by eapply E_context]).
  atomic_do ltac:(apply A_reporter; [done|by eapply E_returned]).
  atomic_do ltac:(apply A_watcher; [done|by eapply H_cancelled]). apply rtc_refl.
Qed.
(** A block with a slashing transaction brings the reporter to its send. *)
Lemma reaches_send k : atomic_steps (at_rest k) (at_send k).
Proof.
  atomic_do ltac:(apply A_tracker; [done|by apply (K_block _ 1)]).
  atomic_do ltac:(apply A_tracker; [done|apply (K_sent _ 0); [done..|unfold slashingTxChan_size; cbn; lia]]).
  atomic_do ltac:(apply A_tracker; [done|by apply K_handled]).
  atomic_do ltac:(apply A_reporter; [done|by eapply E_receive]).
  do 4 (etransitivity; [apply call_returns|cbn [next_call]]). apply rtc_refl.
Qed.
Lemma reaches_rest k : (k ≤ slashedFPSKChan_size)%nat → atomic_steps atomic_started (at_rest k).
Proof.
  induction k as [|k IH]; intros Hk.
  - atomic_do ltac:(apply A_tracker; [done|by apply K_registered]). apply rtc_refl.
  - etransitivity; [apply IH; lia|]. etransitivity; [apply reaches_send|].
    atomic_do ltac:(apply A_reporter; [done|by apply E_send]). apply rtc_refl.
Qed.
Lemma hang_reached : ∃ s, atomic_steps atomic_started s ∧ at_crashed s = false ∧ at_stop s = TsClosed ∧ key_stuck s.
Proof.
  eexists. split.
  - etransitivity; [by apply (reaches_rest 100)|]. etransitivity; [apply reaches_send|].
    atomic_do ltac:(apply A_tracker; [done|apply K_ended; by right]).
    atomic_do ltac:(apply A_ends; [done|by apply T_stop]).
    atomic_do ltac:(apply A_ends; [done|by apply N_quit]).
    atomic_do ltac:(apply A_ends; [done|by apply T_close]).
    atomic_do ltac:(apply A_ends; [done|by apply D_quit]). apply rtc_refl.
  - by repeat split.
Qed.

(** C37: the tracker's [Stop] can hang, and only in one way.  In every interleaving,
    once [Stop] has closed the channels of the atomic slasher, the program (unless it
    has panicked) can make a step exactly when it is not the case that the reporter
    waits to send a key to a full channel with every other goroutine ended: the
    enforcer, the only reader of that channel, was stopped before, and the send has no
    way out.  Such a state is reachable. *)
Theorem tracker_stop_can_hang :
  (∀ s, atomic_steps atomic_started s → at_crashed s = false → at_stop s = TsClosed →
     (∃ s', atomic_step s s') ↔ ¬ key_stuck s) ∧
  (∃ s, atomic_steps atomic_started s ∧ at_crashed s = false ∧ at_stop s = TsClosed ∧ ¬ ∃ s', atomic_step s s').
Proof.
  split.
  - intros s Hst Hcr Hc. pose proof (atomic_steps_inv _ _ Hst atomic_started_inv) as Hi. split.
    + intros [s' Hs'] Hk. by apply (key_stuck_stuck s s' Hi Hc Hk).
    + intros Hk. by destruct (stop_moves s Hi Hcr Hc).
  - destruct hang_reached as (s & Hst & Hcr & Hc & Hk). exists s. split_and!; [done..|].
    intros [s' Hs']. by apply (key_stuck_stuck s s' (atomic_steps_inv _ _ Hst atomic_started_inv) Hc Hk).
Qed.
(** One slashing transaction is being reported when [Stop] is called. *)
Lemma tracker_stop_can_hang_witness :
  (∃ s', atomic_step (mkAtomicState TsClosed 3 TkSelect true RpSend 0 0 0 0 false false) s') ↔
  ¬ key_stuck (mkAtomicState TsClosed 3 TkSelect true RpSend 0 0 0 0 false false).
Proof.
  apply (proj1 tracker_stop_can_hang); [|reflexivity..].
  etransitivity; [apply (reaches_rest 0); unfold slashedFPSKChan_size; lia|]. etransitivity; [apply reaches_send|].
  atomic_do ltac:(apply A_ends; [done|by apply T_stop]).
  atomic_do ltac:(apply A_ends; [done|by apply N_quit]).
  atomic_do ltac:(apply A_ends; [done|by apply T_close]). apply rtc_refl.
Defined.
