(* ===== verification/WatcherShutdown.v ===== *)
(** * The goroutines of the staking event watcher
    ([stakingeventwatcher/stakingeventwatcher.go])

    [Start] counts and starts five loops.  The loop of the Bitcoin blocks starts a
    goroutine for every spend it finds, and the loop of the verified delegations,
    which first acquires the activation limiter, one for every activation.  These
    goroutines are not counted by the wait group; the context they make
    ([quitContext]) is, by a goroutine that waits for [quit] or for the end of the
    context.  New delegations and removals are handed to the handler over unbuffered
    channels with [PushOrQuit].  [Stop] closes [quit] and waits.

    A step is one action of one goroutine.  What the goroutines compute is in
    Watcher.v; here a loop has a number of delegations left to go through.  Calls to
    the nodes are taken to return; a goroutine that retries ends when its context is
    cancelled. *)

From S2P Require Import Prelude.

Inductive routine_kind := SpendRoutine | ActivateRoutine.
(** Before [quitContext]; working; at the push of a removal; ended. *)
Inductive routine_pc := GStart | GRun | GPush | GDone.
Record watch_routine := mkWr {
  wr_kind : routine_kind;
  wr_at : routine_pc;
  wr_watched : bool;      (** the goroutine of its [quitContext] runs *)
}.
(** [handleNewBlocks]: at a [select]; in [checkSpend]; ended. *)
Inductive blocks_pc := BkSelect | BkCheck (left : nat) | BkDone.
(** [fetchDelegations]: in the delegations of a page; at a push to the handler;
    ended. *)
Inductive fetch_pc := FtPage (left : nat) | FtPush (left : nat) | FtDone.
(** [fetchCometBftBlockForever]: at its [select]; in the delegations of the blocks;
    at a push to the handler; ended. *)
Inductive comet_pc := CmSelect | CmIter (left : nat) | CmPush (left : nat) | CmDone.
(** [handlerVerifiedDelegations]: at its [select]; in [checkBtcForStakingTx]; at the
    activation limiter; after it; ended. *)
Inductive verified_pc := VfSelect | VfIter (left : nat) | VfWant (left : nat) | VfAcquired (left : nat) | VfDone.
(** [Stop]: not called; after [close(sew.quit)]; waiting in [sew.wg.Wait()];
    returned. *)
Inductive wstop_pc := WsRunning | WsClosed | WsWaiting | WsReturned.
#[global] Instance wstop_pc_dec : EqDecision wstop_pc.
Proof. solve_decision. Defined.

Record watcher_state := mkWs {
  ws_stop : wstop_pc;
  ws_wg : Z;
  ws_handler : bool;      (** [handleUnbondedDelegations] runs, at its [select] *)
  ws_blocks : blocks_pc;
  ws_fetch : fetch_pc;
  ws_comet : comet_pc;
  ws_verified : verified_pc;
  ws_routines : list watch_routine;
  ws_crashed : bool;      (** the wait group has panicked *)
}.
Definition activation_limit : Z := 1500.
(** After [Start]. *)
Definition sew_started : watcher_state :=
  mkWs WsRunning 5 true BkSelect (FtPage 0) CmSelect VfSelect [] false.

Definition quit_closed (s : watcher_state) : Prop := ws_stop s ≠ WsRunning.
Definition set_wstop pc s := mkWs pc (ws_wg s) (ws_handler s) (ws_blocks s) (ws_fetch s) (ws_comet s) (ws_verified s) (ws_routines s) (ws_crashed s).
Definition add_wg d s := mkWs (ws_stop s) (ws_wg s + d) (ws_handler s) (ws_blocks s) (ws_fetch s) (ws_comet s) (ws_verified s) (ws_routines s) (ws_crashed s).
Definition end_handler s := mkWs (ws_stop s) (ws_wg s) false (ws_blocks s) (ws_fetch s) (ws_comet s) (ws_verified s) (ws_routines s) (ws_crashed s).
Definition set_blocks pc s := mkWs (ws_stop s) (ws_wg s) (ws_handler s) pc (ws_fetch s) (ws_comet s) (ws_verified s) (ws_routines s) (ws_crashed s).
Definition set_fetch pc s := mkWs (ws_stop s) (ws_wg s) (ws_handler s) (ws_blocks s) pc (ws_comet s) (ws_verified s) (ws_routines s) (ws_crashed s).
Definition set_comet_pc pc s := mkWs (ws_stop s) (ws_wg s) (ws_handler s) (ws_blocks s) (ws_fetch s) pc (ws_verified s) (ws_routines s) (ws_crashed s).
Definition set_verified pc s := mkWs (ws_stop s) (ws_wg s) (ws_handler s) (ws_blocks s) (ws_fetch s) (ws_comet s) pc (ws_routines s) (ws_crashed s).
Definition set_routines gs s := mkWs (ws_stop s) (ws_wg s) (ws_handler s) (ws_blocks s) (ws_fetch s) (ws_comet s) (ws_verified s) gs (ws_crashed s).
Definition wg_panic s := mkWs (ws_stop s) (ws_wg s) (ws_handler s) (ws_blocks s) (ws_fetch s) (ws_comet s) (ws_verified s) (ws_routines s) true.
Definition spawn k s := set_routines (ws_routines s ++ [mkWr k GStart false]) s.
Definition move i g s := set_routines (<[i := g]> (ws_routines s)) s.

(** The activation limiter: a goroutine has it until it ends. *)
Definition activating (g : watch_routine) : Z :=
  match wr_kind g, wr_at g with ActivateRoutine, GDone => 0 | ActivateRoutine, _ => 1 | SpendRoutine, _ => 0 end.
Definition limiter (s : watcher_state) : Z :=
  total activating (ws_routines s) + match ws_verified s with VfAcquired _ => 1 | _ => 0 end.

(** A push to the handler: it is received, or [quit] is closed. *)
Definition push_ready (s : watcher_state) : Prop := ws_handler s = true ∨ quit_closed s.

Inductive blocks_step (s : watcher_state) : watcher_state → Prop :=
(** The delegation is in progress, unspent, or the indexer failed. *)
| B_skip n : ws_blocks s = BkCheck (S n) → blocks_step s (set_blocks (BkCheck n) s)
| B_spawn n : ws_blocks s = BkCheck (S n) → blocks_step s (set_blocks (BkCheck n) (spawn SpendRoutine s))
(** [checkSpend] returned, early when it could not mark the delegation. *)
| B_end n : ws_blocks s = BkCheck n → blocks_step s (set_blocks BkSelect s)
| B_quit : ws_blocks s = BkSelect → quit_closed s → blocks_step s (add_wg (-1) (set_blocks BkDone s)).
(** A delegation that is tracked and unchanged is skipped, another is pushed. *)
Inductive fetch_step (s : watcher_state) : watcher_state → Prop :=
| F_skip n : ws_fetch s = FtPage (S n) → fetch_step s (set_fetch (FtPage n) s)
| F_want n : ws_fetch s = FtPage (S n) → fetch_step s (set_fetch (FtPush n) s)
| F_push n : ws_fetch s = FtPush n → push_ready s → fetch_step s (set_fetch (FtPage n) s)
| F_end : ws_fetch s = FtPage 0 → fetch_step s (add_wg (-1) (set_fetch FtDone s)).
Inductive comet_step (s : watcher_state) : watcher_state → Prop :=
| C_skip n : ws_comet s = CmIter (S n) → comet_step s (set_comet_pc (CmIter n) s)
| C_want n : ws_comet s = CmIter (S n) → comet_step s (set_comet_pc (CmPush n) s)
| C_push n : ws_comet s = CmPush n → push_ready s → comet_step s (set_comet_pc (CmIter n) s)
(** All were handled, or Babylon failed to answer for one. *)
| C_end n : ws_comet s = CmIter n → comet_step s (set_comet_pc CmSelect s)
| C_quit : ws_comet s = CmSelect → quit_closed s → comet_step s (add_wg (-1) (set_comet_pc CmDone s)).
Inductive verified_step (s : watcher_state) : watcher_state → Prop :=
| V_skip n : ws_verified s = VfIter (S n) → verified_step s (set_verified (VfIter n) s)
| V_want n : ws_verified s = VfIter (S n) → verified_step s (set_verified (VfWant n) s)
(** [sew.activationLimiter.Acquire(context.Background(), 1)] *)
| V_acquire n :
    ws_verified s = VfWant n → limiter s < activation_limit →
    verified_step s (set_verified (VfAcquired n) s)
(** [UpdateActivation] failed: [Release(1)] *)
| V_release n : ws_verified s = VfAcquired n → verified_step s (set_verified (VfIter n) s)
| V_spawn n : ws_verified s = VfAcquired n → verified_step s (set_verified (VfIter n) (spawn ActivateRoutine s))
| V_end : ws_verified s = VfIter 0 → verified_step s (set_verified VfSelect s)
| V_quit : ws_verified s = VfSelect → quit_closed s → verified_step s (add_wg (-1) (set_verified VfDone s)).
Inductive unbonded_step (s s' : watcher_state) : Prop :=
| H_quit : ws_handler s = true → quit_closed s → s' = add_wg (-1) (end_handler s) → unbonded_step s s'.
(** A goroutine for a spend or an activation, and the one of its context. *)
Inductive wroutine_step (s : watcher_state) : watcher_state → Prop :=
(** [quitContext]: [sew.wg.Add(1)], which panics when the count is zero and a
    goroutine is still in [Wait] *)
| G_context i k w :
    ws_routines s !! i = Some (mkWr k GStart w) → ¬ (ws_stop s = WsWaiting ∧ ws_wg s = 0) →
    wroutine_step s (add_wg 1 (move i (mkWr k GRun true) s))
| G_misuse i k w :
    ws_routines s !! i = Some (mkWr k GStart w) → ws_stop s = WsWaiting → ws_wg s = 0 →
    wroutine_step s (wg_panic s)
(** The unbonding was reported, or is not to be; the removal is pushed. *)
| G_report i w :
    ws_routines s !! i = Some (mkWr SpendRoutine GRun w) →
    wroutine_step s (move i (mkWr SpendRoutine GPush w) s)
| G_push i w :
    ws_routines s !! i = Some (mkWr SpendRoutine GPush w) → push_ready s →
    wroutine_step s (move i (mkWr SpendRoutine GDone w) s)
(** The context was cancelled by its watcher. *)
| G_cancelled i k :
    ws_routines s !! i = Some (mkWr k GRun false) →
    wroutine_step s (move i (mkWr k GDone false) s)
| G_watch i k pc :
    ws_routines s !! i = Some (mkWr k pc true) → quit_closed s ∨ pc = GDone →
    wroutine_step s (add_wg (-1) (move i (mkWr k pc false) s)).
(** [Stop]; [Wait] returns at once when the count is zero. *)
Inductive wstop_step (s : watcher_state) : watcher_state → Prop :=
| T_close : ws_stop s = WsRunning → wstop_step s (set_wstop WsClosed s)
| T_wait : ws_stop s = WsClosed → ws_wg s ≠ 0 → wstop_step s (set_wstop WsWaiting s)
| T_zero : ws_stop s = WsClosed → ws_wg s = 0 → wstop_step s (set_wstop WsReturned s)
| T_woken : ws_stop s = WsWaiting → ws_wg s = 0 → wstop_step s (set_wstop WsReturned s).
(** The work that comes from outside: a Bitcoin block, a tick, a page, and what ends
    a goroutine by itself. *)
Inductive work_step (s : watcher_state) : watcher_state → Prop :=
| W_block n : ws_blocks s = BkSelect → work_step s (set_blocks (BkCheck n) s)
| W_page n : ws_fetch s = FtPage 0 → work_step s (set_fetch (FtPage n) s)
| W_comet n : ws_comet s = CmSelect → work_step s (set_comet_pc (CmIter n) s)
| W_verified n : ws_verified s = VfSelect → work_step s (set_verified (VfIter n) s)
| W_finished i k w :
    ws_routines s !! i = Some (mkWr k GRun w) → work_step s (move i (mkWr k GDone w) s).

(** A step that takes no new work. *)
Inductive own_step (s s' : watcher_state) : Prop :=
| O_blocks : ws_crashed s = false → blocks_step s s' → own_step s s'
| O_fetch : ws_crashed s = false → fetch_step s s' → own_step s s'
| O_comet : ws_crashed s = false → comet_step s s' → own_step s s'
| O_verified : ws_crashed s = false → verified_step s s' → own_step s s'
| O_handler : ws_crashed s = false → unbonded_step s s' → own_step s s'
| O_routine : ws_crashed s = false → wroutine_step s s' → own_step s s'
| O_stop : ws_crashed s = false → wstop_step s s' → own_step s s'.
Definition sew_step (s s' : watcher_state) : Prop := own_step s s' ∨ ws_crashed s = false ∧ work_step s s'.
Definition sew_steps : watcher_state → watcher_state → Prop := rtc sew_step.

(** ** The invariant *)
Definition loops_counted (s : watcher_state) : Z :=
  Z.b2z (ws_handler s) + match ws_blocks s with BkDone => 0 | _ => 1 end
  + match ws_fetch s with FtDone => 0 | _ => 1 end + match ws_comet s with CmDone => 0 | _ => 1 end
  + match ws_verified s with VfDone => 0 | _ => 1 end.
Definition watched (g : watch_routine) : Z := Z.b2z (wr_watched g).
(** A watcher does not run before it was started, and only spends are removed. *)
Definition wr_ok (g : watch_routine) : Prop :=
  match wr_at g with GStart => wr_watched g = false | GPush => wr_kind g = SpendRoutine | _ => True end.
Record watcher_inv (s : watcher_state) : Prop := {
  wi_wg : ws_wg s = loops_counted s + total watched (ws_routines s);
  wi_limiter : limiter s ≤ activation_limit;
  wi_ok : ∀ i g, ws_routines s !! i = Some g → wr_ok g;
  wi_stop : ws_stop s = WsReturned → loops_counted s = 0;
}.
Lemma watched_nonneg g : 0 ≤ watched g.
Proof. apply b2z_nonneg. Qed.
Lemma activating_nonneg g : 0 ≤ activating g.
Proof. unfold activating. destruct (wr_kind g), (wr_at g); lia. Qed.
Lemma loops_nonneg s : 0 ≤ loops_counted s.
Proof.
  unfold loops_counted. pose proof (b2z_nonneg (ws_handler s)).
  destruct (ws_blocks s), (ws_fetch s), (ws_comet s), (ws_verified s); lia.
Qed.
Lemma sew_started_inv : watcher_inv sew_started.
Proof. split; done. Qed.

(** A step of a loop: the goroutines stay, or one is started. *)
Ltac ws_solve :=
  unfold loops_counted, limiter, spawn, wr_ok in *; cbn in *;
  repeat match goal with H : ?x = _ |- _ => is_var x; subst x end; cbn in *; try done; try lia.
Lemma spawn_inv s k : watcher_inv s → loops_counted s ≠ 0 →
  (k = ActivateRoutine → ∃ n, ws_verified s = VfAcquired n) →
  ∀ s', ws_routines s' = ws_routines s ++ [mkWr k GStart false] → ws_stop s' = ws_stop s →
  ws_wg s' = ws_wg s → loops_counted s' = loops_counted s →
  (match k with ActivateRoutine => ∃ n, ws_verified s' = VfIter n | SpendRoutine => ws_verified s' = ws_verified s end) →
  watcher_inv s'.
Proof.
  intros [Hw Hl Hk Hs] Hn Hv s' Hr Hst Hwg Hlo Hv'. split.
  - rewrite Hr, Hwg, Hlo, total_app. change (total watched [mkWr k GStart false]) with 0. lia.
  - unfold limiter in *. rewrite Hr, total_app. destruct k.
    + rewrite Hv'. change (total activating [mkWr SpendRoutine GStart false]) with 0. lia.
    + destruct Hv' as [n ->], (Hv eq_refl) as [m Hm]. rewrite Hm in Hl.
      change (total activating [mkWr ActivateRoutine GStart false]) with 1. lia.
  - rewrite Hr. intros i g [Hg|[_ Hg]]%lookup_app_Some; [eauto|].
    by apply list_lookup_singleton_Some in Hg as [_ <-].
  - rewrite Hst, Hlo. done.
Qed.
Lemma blocks_step_inv s s' : watcher_inv s → blocks_step s s' → watcher_inv s'.
Proof.
  intros Hi Hst. pose proof Hi as [Hw Hl Hk Hs]. destruct s as [st wg h b f c v gs cr].
  destruct Hst as [n E|n E|n E|E Hq].
  2: { eapply (spawn_inv _ SpendRoutine Hi); ws_solve.
       pose proof (b2z_nonneg h). destruct f, c, v; lia. }
  all: split; ws_solve; intros Hx; specialize (Hs Hx); pose proof (b2z_nonneg h); destruct f, c, v; lia.
Qed.
(** The loops after [Stop] has returned. *)
Ltac ws_returned h :=
  intros Hx; match goal with Hs : _ → _ = 0 |- _ => specialize (Hs Hx) end; pose proof (b2z_nonneg h);
  repeat match goal with
  | b : blocks_pc |- _ => destruct b | f : fetch_pc |- _ => destruct f
  | c : comet_pc |- _ => destruct c | v : verified_pc |- _ => destruct v
  end; cbn in *; lia.
Lemma fetch_step_inv s s' : watcher_inv s → fetch_step s s' → watcher_inv s'.
Proof.
  intros [Hw Hl Hk Hs] Hst. destruct s as [st wg h b f c v gs cr].
  destruct Hst; split; ws_solve; ws_returned h.
Qed.
Lemma comet_step_inv s s' : watcher_inv s → comet_step s s' → watcher_inv s'.
Proof.
  intros [Hw Hl Hk Hs] Hst. destruct s as [st wg h b f c v gs cr].
  destruct Hst; split; ws_solve; ws_returned h.
Qed.
Lemma verified_step_inv s s' : watcher_inv s → verified_step s s' → watcher_inv s'.
Proof.
  intros Hi Hst. pose proof Hi as [Hw Hl Hk Hs]. destruct s as [st wg h b f c v gs cr].
  destruct Hst as [n E|n E|n E Hlt|n E|n E|E|E Hq].
  5: { eapply (spawn_inv _ ActivateRoutine Hi); ws_solve; eauto.
       pose proof (b2z_nonneg h). destruct b, f, c; lia. }
  all: split; ws_solve; ws_returned h.
Qed.
Lemma unbonded_step_inv s s' : watcher_inv s → unbonded_step s s' → watcher_inv s'.
Proof.
  intros [Hw Hl Hk Hs] Hst. destruct s as [st wg h b f c v gs cr].
  destruct Hst as [? ? ->]; split; ws_solve; ws_returned true.
Qed.
Lemma wstop_step_inv s s' : watcher_inv s → wstop_step s s' → watcher_inv s'.
Proof.
  intros [Hw Hl Hk Hs] Hst. pose proof (loops_nonneg s) as Hn.
  pose proof (total_nonneg watched (ws_routines s) watched_nonneg) as Ht.
  destruct s as [st wg h b f c v gs cr]. destruct Hst; split; ws_solve.
Qed.
(** A goroutine that moves from [g] to [g']. *)
Lemma move_inv s d i g g' :
  watcher_inv s → ws_routines s !! i = Some g → d = watched g' - watched g →
  activating g' ≤ activating g → wr_ok g' → watcher_inv (add_wg d (move i g' s)).
Proof.
  intros [Hw Hl Hk Hs] Hi -> Ha Hg'. split; cbn.
  - rewrite (total_insert _ _ _ _ _ Hi). unfold loops_counted in *. cbn. lia.
  - unfold limiter in *. cbn. rewrite (total_insert _ _ _ _ _ Hi). lia.
  - intros j h. rewrite list_lookup_insert_Some. intros [(-> & <- & _)|[_ Hj]]; eauto.
  - exact Hs.
Qed.
Lemma move_inv0 s i g g' :
  watcher_inv s → ws_routines s !! i = Some g → watched g' = watched g →
  activating g' ≤ activating g → wr_ok g' → watcher_inv (move i g' s).
Proof.
  intros Hi Hg Hw Ha Hok.
  assert (move i g' s = add_wg 0 (move i g' s)) as -> by (unfold add_wg, move; cbn; by rewrite Z.add_0_r).
  eapply move_inv; eauto. lia.
Qed.
Lemma wroutine_step_inv s s' : watcher_inv s → wroutine_step s s' → watcher_inv s'.
Proof.
  intros Hi Hst. pose proof (wi_ok _ Hi) as Hk.
  destruct Hst as [i k w E Hn|i k w E Hq Hz|i w E|i w E Hp|i k E|i k pc E Hq]; pose proof (Hk _ _ E) as Hg.
  - eapply move_inv; [done|exact E|by rewrite (Hg : w = false)|by destruct k|done].
  - destruct Hi as [Hw Hl Hok Hs]. by split.
  - eapply move_inv0; [done|exact E|done..].
  - eapply move_inv0; [done|exact E|done..].
  - eapply move_inv0; [done|exact E|done|by destruct k|done].
  - eapply move_inv; [done|exact E|done|by destruct k, pc|by destruct pc].
Qed.
Lemma work_step_inv s s' : watcher_inv s → work_step s s' → watcher_inv s'.
Proof.
  intros Hi Hst. pose proof Hi as [Hw Hl Hk Hs]. destruct Hst as [n E|n E|n E|n E|i k w E].
  5: eapply move_inv0; [done|exact E|done|by destruct k|done].
  all: destruct s as [st wg h b f c v gs cr]; split; ws_solve; ws_returned h.
Qed.
Lemma own_step_inv s s' : watcher_inv s → own_step s s' → watcher_inv s'.
Proof.
  intros Hi [_ H|_ H|_ H|_ H|_ H|_ H|_ H];
    eauto using blocks_step_inv, fetch_step_inv, comet_step_inv, verified_step_inv, unbonded_step_inv,
      wroutine_step_inv, wstop_step_inv.
Qed.
Lemma sew_steps_inv s s' : sew_steps s s' → watcher_inv s → watcher_inv s'.
Proof. induction 1 as [|s s1 s' [H|[_ H]] _ IH]; eauto using own_step_inv, work_step_inv. Qed.

(** ** Shutdown *)
(** The steps each goroutine can still take without new work. *)
Definition wr_work (g : watch_routine) : Z :=
  match wr_at g with GStart => 4 | GRun => 2 | GPush => 1 | GDone => 0 end + watched g.
Definition blocks_work (pc : blocks_pc) : Z :=
  match pc with BkSelect => 1 | BkCheck n => 5 * Z.of_nat n + 2 | BkDone => 0 end.
Definition fetch_work (pc : fetch_pc) : Z :=
  match pc with FtPage n => 2 * Z.of_nat n + 1 | FtPush n => 2 * Z.of_nat n + 2 | FtDone => 0 end.
Definition comet_work (pc : comet_pc) : Z :=
  match pc with
  | CmSelect => 1 | CmIter n => 2 * Z.of_nat n + 2 | CmPush n => 2 * Z.of_nat n + 3 | CmDone => 0
  end.
Definition verified_work (pc : verified_pc) : Z :=
  match pc with
  | VfSelect => 1 | VfIter n => 7 * Z.of_nat n + 2 | VfWant n => 7 * Z.of_nat n + 8
  | VfAcquired n => 7 * Z.of_nat n + 7 | VfDone => 0
  end.
Definition stop_work (s : watcher_state) : Z :=
  match ws_stop s with WsRunning => 3 | WsClosed => 2 | WsWaiting => 1 | WsReturned => 0 end
  + (if ws_crashed s then 0 else 1).
Definition watcher_work (s : watcher_state) : Z :=
  stop_work s + Z.b2z (ws_handler s) + blocks_work (ws_blocks s) + fetch_work (ws_fetch s)
  + comet_work (ws_comet s) + verified_work (ws_verified s) + total wr_work (ws_routines s).
Lemma wr_work_nonneg g : 0 ≤ wr_work g.
Proof. unfold wr_work. pose proof (watched_nonneg g). destruct (wr_at g); lia. Qed.
Lemma watcher_work_nonneg s : 0 ≤ watcher_work s.
Proof.
  pose proof (total_nonneg wr_work (ws_routines s) wr_work_nonneg). pose proof (b2z_nonneg (ws_handler s)).
  unfold watcher_work, stop_work, blocks_work, fetch_work, comet_work, verified_work.
  destruct (ws_stop s), (ws_crashed s), (ws_blocks s), (ws_fetch s), (ws_comet s), (ws_verified s); lia.
Qed.
Lemma move_work s d i g g' :
  ws_routines s !! i = Some g → wr_work g' < wr_work g → watcher_work (add_wg d (move i g' s)) < watcher_work s.
Proof. intros Hi Hlt. unfold watcher_work, stop_work. cbn. rewrite (total_insert _ _ _ _ _ Hi). lia. Qed.
Lemma move_work0 s i g g' :
  ws_routines s !! i = Some g → wr_work g' < wr_work g → watcher_work (move i g' s) < watcher_work s.
Proof. exact (move_work s 0 i g g'). Qed.
Lemma wr_work_start k : total wr_work [mkWr k GStart false] = 4.
Proof. done. Qed.
(** Every step that takes no new work uses work up. *)
Lemma own_step_work s s' : watcher_inv s → own_step s s' → watcher_work s' < watcher_work s.
Proof.
  intros Hi Hst. pose proof (wi_ok _ Hi) as Hk.
  destruct Hst as [Hcr H|Hcr H|Hcr H|Hcr H|Hcr H|Hcr H|Hcr H].
  6: { destruct H as [i k w E Hn|i k w E Hq Hz|i w E|i w E Hp|i k E|i k pc E Hq].
       - eapply move_work; [exact E|]. unfold wr_work, watched. cbn. pose proof (b2z_nonneg w). lia.
       - unfold watcher_work, stop_work. cbn. rewrite Hcr. lia.
       - eapply move_work0; [exact E|]. unfold wr_work, watched. cbn. lia.
       - eapply move_work0; [exact E|]. unfold wr_work, watched. cbn. lia.
       - eapply move_work0; [exact E|]. unfold wr_work, watched. cbn. lia.
       - eapply move_work; [exact E|]. unfold wr_work, watched. cbn. lia. }
  all: destruct s as [st wg h b f c v gs cr]; cbn in Hcr; destruct H; try subst s';
    unfold watcher_work, stop_work, spawn in *; cbn in *;
    repeat match goal with H : ?x = _ |- _ => is_var x; subst x end;
    rewrite ?total_app, ?wr_work_start; cbn [blocks_work fetch_work comet_work verified_work Z.b2z]; lia.
Qed.

(** Each kind of goroutine can move once [quit] is closed. *)
Lemma blocks_move s : quit_closed s → ws_blocks s ≠ BkDone → ∃ s', blocks_step s s'.
Proof.
  intros Hq Hn. destruct (ws_blocks s) as [|n|] eqn:E; [..|done]; eexists; [by apply B_quit|by eapply B_end].
Qed.
Lemma fetch_move s : quit_closed s → ws_fetch s ≠ FtDone → ∃ s', fetch_step s s'.
Proof.
  intros Hq Hn. destruct (ws_fetch s) as [[|n]|n|] eqn:E; [..|done]; eexists.
  - by apply F_end.
  - by eapply F_want.
  - eapply F_push; [done|by right].
Qed.
Lemma comet_move s : quit_closed s → ws_comet s ≠ CmDone → ∃ s', comet_step s s'.
Proof.
  intros Hq Hn. destruct (ws_comet s) as [|n|n|] eqn:E; [..|done]; eexists.
  - by apply C_quit.
  - by eapply C_end.
  - eapply C_push; [done|by right].
Qed.
Lemma routine_move s i g :
  quit_closed s → ws_routines s !! i = Some g → wr_ok g → wr_at g ≠ GDone ∨ wr_watched g = true →
  ∃ s', wroutine_step s s'.
Proof.
  intros Hq Hi Hok Hg. destruct g as [k pc [|]]; [eexists; apply (G_watch s i k pc); auto|].
  destruct pc; [| | |by destruct Hg].
  - destruct (decide (ws_stop s = WsWaiting ∧ ws_wg s = 0)) as [[H1 H2]|Hn]; eexists.
    + by eapply G_misuse.
    + by eapply G_context.
  - eexists. by eapply G_cancelled.
  - rewrite (Hok : k = SpendRoutine) in Hi. eexists. eapply G_push; [done|by right].
Qed.
(** The loop of the verified delegations waits for the limiter only while an
    activation has it, and that activation moves. *)
Lemma verified_move s :
  watcher_inv s → quit_closed s → ws_verified s ≠ VfDone →
  (∃ s', verified_step s s') ∨ (∃ s', wroutine_step s s').
Proof.
  intros Hi Hq Hn. destruct (ws_verified s) as [|[|n]|n|n|] eqn:E; [left; eexists..| | |done].
  - by apply V_quit.
  - by apply V_end.
  - by eapply V_want.
  - destruct (decide (limiter s < activation_limit)) as [Hlt|Hge]; [left; eexists; by eapply V_acquire|].
    right. unfold limiter, activation_limit in Hge. rewrite E in Hge.
    destruct (total_pos activating (ws_routines s)) as (i & g & Hg & Ha); [lia|].
    eapply (routine_move s i g); [done..|by eapply wi_ok|]. left. intros Hd. unfold activating in Ha.
    rewrite Hd in Ha. by destruct (wr_kind g).
  - left. eexists. by eapply V_release.
Qed.
(** [Stop] is never stuck. *)
Lemma watcher_stop_moves s :
  watcher_inv s → ws_crashed s = false → quit_closed s → ws_stop s ≠ WsReturned → ∃ s', own_step s s'.
Proof.
  intros Hi Hcr Hq Hr.
  assert (∀ s', wroutine_step s s' → ∃ s', own_step s s') as Hro by (intros s' H; exists s'; by apply O_routine).
  destruct (decide (ws_wg s = 0)) as [Hz|Hz].
  { exists (set_wstop WsReturned s). apply O_stop; [done|].
    destruct (ws_stop s) eqn:E; [done|by apply T_zero|by apply T_woken|done]. }
  destruct (ws_handler s) eqn:Hh; [eexists; by apply O_handler, H_quit|].
  assert (ws_blocks s = BkDone ∨ ws_blocks s ≠ BkDone) as [Hb|Hb] by (destruct (ws_blocks s); auto).
  2: { destruct (blocks_move s Hq Hb) as [s' ?]. exists s'. by apply O_blocks. }
  assert (ws_fetch s = FtDone ∨ ws_fetch s ≠ FtDone) as [Hf|Hf] by (destruct (ws_fetch s); auto).
  2: { destruct (fetch_move s Hq Hf) as [s' ?]. exists s'. by apply O_fetch. }
  assert (ws_comet s = CmDone ∨ ws_comet s ≠ CmDone) as [Hc|Hc] by (destruct (ws_comet s); auto).
  2: { destruct (comet_move s Hq Hc) as [s' ?]. exists s'. by apply O_comet. }
  assert (ws_verified s = VfDone ∨ ws_verified s ≠ VfDone) as [Hv|Hv] by (destruct (ws_verified s); auto).
  2: { destruct (verified_move s Hi Hq Hv) as [[s' ?]|[s' ?]]; [exists s'; by apply O_verified|by eapply Hro]. }
  pose proof (wi_wg _ Hi) as Hw. unfold loops_counted in Hw. rewrite Hh, Hb, Hf, Hc, Hv in Hw. cbn in Hw.
  pose proof (total_nonneg watched (ws_routines s) watched_nonneg).
  destruct (total_pos watched (ws_routines s)) as (i & g & Hg & Ha); [lia|].
  destruct (routine_move s i g Hq Hg) as [s' ?]; [by eapply wi_ok| |by eapply Hro].
  right. unfold watched in Ha. by destruct (wr_watched g).
Qed.
Lemma own_step_closed s s' : own_step s s' → quit_closed s → quit_closed s'.
Proof. unfold quit_closed. intros [_ []|_ []|_ []|_ []|_ []|_ []|_ []] Hq; subst; cbn; congruence. Qed.
Lemma own_steps_bound n s s' :
  nsteps own_step n s s' → watcher_inv s → quit_closed s →
  watcher_inv s' ∧ quit_closed s' ∧ Z.of_nat n ≤ watcher_work s - watcher_work s'.
Proof.
  induction 1 as [|n s s1 s' Hst _ IH]; intros Hi Hq; [split_and!; first [done | lia]|].
  destruct (IH (own_step_inv _ _ Hi Hst) (own_step_closed _ _ Hst Hq)) as (? & ? & Hb).
  pose proof (own_step_work _ _ Hi Hst). split_and!; first [done | lia].
Qed.
