(* ===== verification/WatcherShutdownTheorems.v ===== *)
(** * Theorems about the goroutines of the staking event watcher *)

From S2P Require Import Prelude WatcherShutdown.

(** C35: the staking event watcher shuts down.  Take any state its goroutines can reach
    after [Stop] has closed [quit].  Every execution from it that takes no new work (no
    further Bitcoin block, tick or page) has at most [watcher_work] steps and cannot
    get stuck before [Stop] returns, unless the wait group panics: also with the
    activation limiter exhausted, where the loop of the verified delegations waits
    without watching [quit], and with nobody left to receive on the unbuffered
    channels.  Once [Stop] has returned the five loops have ended.  At most
    [activation_limit] activations have the limiter at any time. *)
Theorem watcher_stops (s : watcher_state) :
  sew_steps sew_started s → quit_closed s →
  ∀ n s', nsteps own_step n s s' →
    Z.of_nat n ≤ watcher_work s ∧ limiter s' ≤ activation_limit ∧
    (ws_crashed s' = true ∨
     ws_stop s' ≠ WsReturned ∧ (∃ s'', own_step s' s'') ∨
     ws_stop s' = WsReturned ∧ ws_handler s' = false ∧ ws_blocks s' = BkDone ∧ ws_fetch s' = FtDone ∧
       ws_comet s' = CmDone ∧ ws_verified s' = VfDone).
Proof.
  intros Hst Hq n s' Hn. pose proof (sew_steps_inv _ _ Hst sew_started_inv) as Hi.
  destruct (own_steps_bound _ _ _ Hn Hi Hq) as (Hi' & Hq' & Hb).
  pose proof (watcher_work_nonneg s'). split_and!; [lia|by apply wi_limiter|].
  destruct (ws_crashed s') eqn:Hcr; [by left|right].
  destruct (decide (ws_stop s' = WsReturned)) as [Hr|Hr]; [right|left].
  - pose proof (wi_stop _ Hi' Hr) as Hz. unfold loops_counted in Hz.
    destruct (ws_handler s'), (ws_blocks s'), (ws_fetch s'), (ws_comet s'), (ws_verified s'); cbn in Hz; by try lia.
  - split; [done|]. by apply watcher_stop_moves.
Qed.

(** ** A spend found just before [Stop] *)
(** The loops have ended; the goroutine of the spend has not made its context. *)
Definition late_spend (stop : wstop_pc) : watcher_state :=
  mkWs stop 0 false BkDone FtDone CmDone VfDone [mkWr SpendRoutine GStart false] false.
Ltac own H := eapply rtc_l; [left; H|cbn].
Lemma late_spend_reached : sew_steps sew_started (late_spend WsWaiting).
Proof.
  eapply rtc_l; [right; split; [done|by apply (W_block _ 1)]|]. cbn.
  own ltac:(apply O_blocks; [done|by apply (B_spawn _ 0)]).
  own ltac:(apply O_blocks; [done|by apply (B_end _ 0)]).
  own ltac:(apply O_stop; [done|by apply T_close]).
  own ltac:(apply O_stop; [done|by apply T_wait]).
  own ltac:(apply O_blocks; [done|by apply B_quit]).
  own ltac:(apply O_fetch; [done|by apply F_end]).
  own ltac:(apply O_comet; [done|by apply C_quit]).
  own ltac:(apply O_verified; [done|by apply V_quit]).
  own ltac:(apply O_handler; [done|by apply H_quit]).
  apply rtc_refl.
Qed.
(** The watcher's [Stop] is not clean.  The goroutines of spends are not counted by
    the wait group, so there are executions in which [Stop] has returned and such a
    goroutine only then makes its context and goes on to report to Babylon, and others
    in which it adds to the wait group while [Stop] is being woken, which panics. *)
Theorem watcher_stop_is_not_clean :
  (∃ s w, sew_steps sew_started s ∧ ws_stop s = WsReturned ∧
     ws_routines s = [mkWr SpendRoutine GStart false] ∧
     ∃ s', sew_steps s s' ∧ ws_routines s' = [mkWr SpendRoutine GPush w]) ∧
  (∃ s, sew_steps sew_started s ∧ ws_stop s = WsWaiting ∧ ws_crashed s = true).
Proof.
  split.
  - exists (late_spend WsReturned), true. split_and!; [|done..|].
    + eapply rtc_r; [apply late_spend_reached|]. left. apply O_stop; [done|by apply T_woken].
    + eexists. split.
      * own ltac:(apply O_routine; [done|apply (G_context _ 0 SpendRoutine false); [done|naive_solver]]).
        own ltac:(apply O_routine; [done|by apply (G_report _ 0 true)]). apply rtc_refl.
      * done.
  - eexists. split_and!; [eapply rtc_r; [apply late_spend_reached|]|..].
    + left. apply O_routine; [done|]. by apply (G_misuse _ 0 SpendRoutine false).
    + done.
    + done.
Qed.

(** An activation and a push in progress when [Stop] is called. *)
Definition stopping_watcher : watcher_state :=
  mkWs WsClosed 5 true BkSelect (FtPush 0) CmSelect (VfIter 1) [mkWr ActivateRoutine GStart false] false.
Lemma stopping_watcher_reached : sew_steps sew_started stopping_watcher.
Proof.
  eapply rtc_l; [right; split; [done|by apply (W_verified _ 2)]|]. cbn.
  own ltac:(apply O_verified; [done|by apply (V_want _ 1)]).
  own ltac:(apply O_verified; [done|by apply (V_acquire _ 1)]).
  own ltac:(apply O_verified; [done|by apply (V_spawn _ 1)]).
  eapply rtc_l; [right; split; [done|by apply (W_page _ 1)]|]. cbn.
  own ltac:(apply O_fetch; [done|by apply (F_want _ 0)]).
  own ltac:(apply O_stop; [done|by apply T_close]). apply rtc_refl.
Qed.
Lemma watcher_stops_witness :
  watcher_work stopping_watcher = 21 ∧
  ∀ n s', nsteps own_step n stopping_watcher s' →
    Z.of_nat n ≤ 21 ∧ limiter s' ≤ activation_limit ∧
    (ws_crashed s' = true ∨
     ws_stop s' ≠ WsReturned ∧ (∃ s'', own_step s' s'') ∨
     ws_stop s' = WsReturned ∧ ws_handler s' = false ∧ ws_blocks s' = BkDone ∧ ws_fetch s' = FtDone ∧
       ws_comet s' = CmDone ∧ ws_verified s' = VfDone).
Proof.
  split; [reflexivity|]. apply (watcher_stops stopping_watcher stopping_watcher_reached). discriminate.
Defined.
