(* ===== verification/ReporterStart.v ===== *)
(** * The reporter from its construction on ([reporter/reporter.go])

    What [Start] does once it may (Lifecycle.v): it bootstraps, starts the notifier,
    registers for Bitcoin blocks and starts the goroutines, the block handler, the
    cleanup of the checkpoint cache and the tickers of the metrics
    ([metrics/reporter.go], [metrics/submitter.go]).  The notifier is an interface. *)

From S2P Require Import Prelude Blocks BTCCache CkptCache CkptCacheProps Retry BTCClient Window.
From S2P Require Import Reporter ReporterProps ReporterBootstrap ReporterBootstrapProps.

(** ** Gauges *)
(** The value of a gauge after its updates, from 0. *)
Definition gauge_update (name : string) (v : Z) (e : metric_event) : Z :=
  match e with
  | MInc n => if bool_decide (n = name) then v + 1 else v
  | MDec n => if bool_decide (n = name) then v - 1 else v
  | MAdd n d => if bool_decide (n = name) then v + d else v
  | MSet n d => if bool_decide (n = name) then d else v
  | MIncLabels _ _ | MTouch _ _ => v
  end.
Definition gauge_value (name : string) (ms : list metric_event) : Z := foldl (gauge_update name) 0 ms.

(** What a ticker of [RecordMetrics] does every second.  Nothing stops a ticker. *)
Definition ReporterMetrics_RecordMetrics : list metric_event :=
  [MInc "SecondsSinceLastHeaderGauge"; MInc "SecondsSinceLastCheckpointGauge"].
Definition SubmitterMetrics_RecordMetrics : list metric_event :=
  [MInc "SecondsSinceLastCheckpointGauge"].

Section start.
Context {BL : BTCLib} {BF : BabylonFormatter} {RT : Retry} {GS : GoSort}.
Context {W : Type} {BC : BabylonClient W} {CK : Clock W} {BTC : BTCClient W}.
Context (notifier_Start notifier_Register : M W unit).
Context (NewBTCHeaderHashBytesFromHex : string → result Hash).
Context (r : ReporterParams).
Context (ord0 : gmap Hash CkptSegment → list (Hash * CkptSegment)).
Context (ord1 : Hash → gmap Hash CkptSegment → list (Hash * CkptSegment)).
Notation RM A := (M (Reporter * W) A).

(** [Start]; [true] when it reached the goroutines. *)
Definition Start (pollFuel fuel : nat) : RM bool :=
  bootstrapWithRetries NewBTCHeaderHashBytesFromHex r ord0 ord1 pollFuel fuel ;;
  err ← try (world notifier_Start);
  match err with
  | Err _ => mret false
  | Ok _ =>
      err ← try (world notifier_Register);
      match err with
      | Err _ => mret false
      | Ok _ => mret true
      end
  end.

(** [24*time.Hour] *)
Definition segmentTTL : Z := 24 * 3600 * 10 ^ 9.

(** What the goroutines receive, in the order they receive it. *)
Inductive run_event :=
| GBlock (ev : block_event)       (** the block handler, or the checkpoint goroutine *)
| GCleanup (ev : cleanup_event)   (** the cleanup of the checkpoint cache *)
| GSecond.                        (** the tickers of the metrics *)
Definition ends_handler (ev : block_event) : bool :=
  match ev with EpochsClosed | QuitChan => true | _ => false end.
Definition ends_cleanup (ev : cleanup_event) : bool :=
  match ev with StopChan => true | Tick _ => false end.

(** The goroutines: [handling] and [cleaning] tell which loops still run, [tickers] how
    often [RecordMetrics] was called so far. *)
Fixpoint goroutines (pollFuel fuel : nat) (handling cleaning : bool) (tickers : nat)
    (evs : list run_event) : RM unit :=
  match evs with
  | [] => mret tt
  | GBlock AsyncTurn :: evs =>
      run_async ord0 ord1 ;; goroutines pollFuel fuel handling cleaning tickers evs
  | GBlock ev :: evs =>
      (if handling then blockEventHandler NewBTCHeaderHashBytesFromHex r ord0 ord1 pollFuel fuel [ev]
       else mret tt) ;;
      goroutines pollFuel fuel (handling && negb (ends_handler ev)) cleaning tickers evs
  | GCleanup ev :: evs =>
      (if cleaning : bool then with_ckptCache (modify (StartCleanupRoutine segmentTTL [ev])) else mret tt) ;;
      goroutines pollFuel fuel handling (cleaning && negb (ends_cleanup ev)) tickers evs
  | GSecond :: evs =>
      for_each (concat (replicate tickers ReporterMetrics_RecordMetrics)) emit ;;
      goroutines pollFuel fuel handling cleaning tickers evs
  end.
(** A start and what follows it; [tickers] were started before. *)
Definition reporter_run (pollFuel fuel : nat) (tickers : nat) (evs : list run_event) : RM nat :=
  started ← Start pollFuel fuel;
  let tickers := if started : bool then S tickers else tickers in
  goroutines pollFuel fuel started started tickers evs ;; mret tickers.
(** The reporter through its restarts, of which Lifecycle.v shows that each waits for
    the goroutines of the one before. *)
Fixpoint reporter_life (pollFuel fuel : nat) (tickers : nat) (runs : list (list run_event)) : RM unit :=
  match runs with
  | [] => mret tt
  | evs :: runs => tickers ← reporter_run pollFuel fuel tickers evs; reporter_life pollFuel fuel tickers runs
  end.

(** ** What the goroutines keep *)
Context (known : Hash → MsgBlock → Z → Prop) {LAWS : BTCClientLaws W known}.
Context (Hpar : params_ok r) (Hbase : base_u32).
Definition run_event_ok (e : run_event) : Prop :=
  match e with GBlock ev => event_ok known ev | _ => True end.
Notation inv := (reporter_inv known).

Lemma preserves_Start pollFuel fuel : preserves inv (Start pollFuel fuel).
Proof.
  unfold Start. apply preserves_bind; [by apply (preserves_bootstrapWithRetries _ _ _ _ known)|intros _].
  apply preserves_bind; [apply preserves_try, preserves_world|]. intros [[]|]; [|apply preserves_ret].
  apply preserves_bind; [apply preserves_try, preserves_world|]. intros [[]|]; apply preserves_ret.
Qed.
Lemma preserves_goroutines pollFuel fuel handling cleaning tickers evs :
  Forall run_event_ok evs → preserves inv (goroutines pollFuel fuel handling cleaning tickers evs).
Proof.
  intros Hevs. revert handling cleaning tickers.
  induction Hevs as [|[ev|ev|] evs He _ IH]; intros handling cleaning tickers; cbn [goroutines];
    [apply preserves_ret| | |].
  - assert (preserves inv (blockEventHandler NewBTCHeaderHashBytesFromHex r ord0 ord1 pollFuel fuel [ev])) as Hh.
    { apply (preserves_blockEventHandler _ _ _ _ known Hpar Hbase). by constructor. }
    destruct ev; (apply preserves_bind; [|done]); try apply preserves_run_async;
      destruct handling; try apply preserves_ret; exact Hh.
  - apply preserves_bind; [|done]. destruct cleaning; [apply preserves_with_ckptCache|apply preserves_ret].
  - apply preserves_bind; [|done]. apply preserves_for_each. intros e. apply preserves_emit.
Qed.
Lemma preserves_reporter_run pollFuel fuel tickers evs :
  Forall run_event_ok evs → preserves inv (reporter_run pollFuel fuel tickers evs).
Proof.
  intros He. apply preserves_bind; [apply preserves_Start|]. intros started.
  apply preserves_bind; [by apply preserves_goroutines|]. intros _. apply preserves_ret.
Qed.
Lemma preserves_reporter_life pollFuel fuel tickers runs :
  Forall (Forall run_event_ok) runs → preserves inv (reporter_life pollFuel fuel tickers runs).
Proof.
  intros Hr. revert tickers. induction Hr as [|evs runs He _ IH]; intros tickers; [apply preserves_ret|].
  cbn [reporter_life]. apply preserves_bind; [by apply preserves_reporter_run|done].
Qed.

(** ** The gauges of the seconds *)
Lemma gauge_value_app name ms ms' : gauge_value name (ms ++ ms') = foldl (gauge_update name) (gauge_value name ms) ms'.
Proof. apply foldl_app. Qed.
Lemma emit_all es (s : Reporter) (w : W) :
  (for_each es emit : M (Reporter * W) unit) (s, w) =
    (Val tt, (mkReporter (checkpointCache s) (btcCache s) (bootstrapInProgress s) (asyncCheckpoints s) (metrics s ++ es), w)).
Proof.
  revert s. induction es as [|e es IH]; intros s; [by rewrite app_nil_r; destruct s|].
  change (for_each (e :: es) emit (s, w)) with (for_each es emit (add_metric e s, w)).
  rewrite IH. cbn. by rewrite <-app_assoc.
Qed.
(** A second adds the number of the tickers to a gauge that a tick increments. *)
Lemma gauge_ticks name tick n v :
  (∀ v, foldl (gauge_update name) v tick = v + 1) →
  foldl (gauge_update name) v (concat (replicate n tick)) = v + Z.of_nat n.
Proof.
  intros Ht. revert v. induction n as [|n IH]; intros v; cbn [replicate concat].
  - cbn. lia.
  - rewrite foldl_app, Ht, IH. lia.
Qed.
Lemma reporter_tick name v :
  name = "SecondsSinceLastHeaderGauge" ∨ name = "SecondsSinceLastCheckpointGauge" →
  foldl (gauge_update name) v ReporterMetrics_RecordMetrics = v + 1.
Proof. by intros [-> | ->]. Qed.
Lemma submitter_tick v : foldl (gauge_update "SecondsSinceLastCheckpointGauge") v SubmitterMetrics_RecordMetrics = v + 1.
Proof. done. Qed.
End start.
