(* ===== verification/ReporterStartTheorems.v ===== *)
(** * Theorems about the life of the reporter *)

From S2P Require Import Prelude Blocks BTCCache CkptCache CkptCacheProps Retry BTCClient Window.
From S2P Require Import Reporter ReporterProps ReporterCkpt ReporterBootstrap.
From S2P Require Import ReporterBootstrapProps EpochInfo Stores Scanner Monitor Instances ReporterTheorems.
From S2P Require Import ReporterStart.

(** [New] gives a reporter without a cache and without a bootstrap. *)
Lemma New_inv {BL : BTCLib} {BF : BabylonFormatter} {RT : Retry} {W : Type} {BC : BabylonClient W}
    (known : Hash → MsgBlock → Z → Prop) cfg maxRetry w r s0 w0 :
  ReporterBootstrap.New cfg maxRetry w = (Val (r, s0), w0) → reporter_inv known (s0, w0).
Proof.
  unfold ReporterBootstrap.New. intros (res & w1 & _ & H)%bind_Val_inv.
  destruct res as [p|]; [|done]. apply bind_Val_inv in H as (tag & w2 & _ & H).
  injection H as <- <- <-. split; [done|]. cbn. split; [done|by intros []].
Qed.

(** C12: the reporter's block cache is a window of one chain from its construction on.
    Take a reporter that [New] made, any number of starts, whether or not the notifier
    starts and accepts the registration, and in each any interleaving of block
    notifications, of the checkpoint goroutine, of the cleanup of the checkpoint cache
    and of the tickers of the metrics, with any answers of the node and of Babylon.
    Then, on every exit, the cache holds at most its bound of blocks, they are
    consecutive blocks of one chain that the node accepted, and a bootstrap is marked
    in progress exactly while its goroutine is pending. *)
Theorem reporter_life_is_chain {BL : BTCLib} {BF : BabylonFormatter} {RT : Retry} {GS : GoSort}
    {W : Type} {BC : BabylonClient W} {CK : Clock W} {BTC : BTCClient W}
    (notifier_Start notifier_Register : M W unit) (hexToHash : string → result Hash)
    (ord0 : gmap Hash CkptSegment → list (Hash * CkptSegment))
    (ord1 : Hash → gmap Hash CkptSegment → list (Hash * CkptSegment))
    (known : Hash → MsgBlock → Z → Prop) {LAWS : BTCClientLaws W known}
    (cfg : Z * Z) (maxRetry : Z) (w w0 : W) (r : ReporterParams) (s0 : Reporter)
    (pollFuel fuel tickers : nat) (runs : list (list run_event)) :
  ReporterBootstrap.New cfg maxRetry w = (Val (r, s0), w0) → params_ok r → base_u32 →
  Forall (Forall (run_event_ok known)) runs →
  reporter_inv known
    (snd (reporter_life notifier_Start notifier_Register hexToHash r ord0 ord1 pollFuel fuel tickers runs (s0, w0))).
Proof. intros Hn Hp Hb He. apply preserves_reporter_life; [done..|]. by eapply New_inv. Qed.

(** The reporter is started on blocks 100 to 103, submits the checkpoint in them,
    cleans its cache, counts a second, is stopped and is started again. *)
Definition life_params : ReporterParams := mkReporterParams 10 2 3 2 3.
Definition small_runs : list (list run_event) :=
  [ [GBlock AsyncTurn; GCleanup (Tick 0); GSecond; GBlock QuitChan; GCleanup StopChan]; [GBlock AsyncTurn] ].
Lemma reporter_life_is_chain_witness :
  let BC := babylon [1100; 1101; 1102; 1103] (Some 0) (mkTipHeader 103 "") 100 in
  let s' := snd (reporter_life (mret tt) (mret tt) (λ _, Ok 1101) life_params in_order (λ _, in_order) 5 5 0
                   small_runs (fresh_reporter, tt)) in
  (λ c, Height <$> blocks c) <$> btcCache (fst s') = Some [100; 101; 102; 103] ∧
  reporter_inv small_known s'.
Proof.
  cbn zeta. split; [vm_compute; reflexivity|].
  apply (reporter_life_is_chain (BC := babylon [1100; 1101; 1102; 1103] (Some 0) (mkTipHeader 103 "") 100)
    (mret tt) (mret tt) (λ _, Ok 1101) in_order (λ _, in_order) small_known (10, 2) 3 tt tt life_params
    fresh_reporter 5 5 0 small_runs).
  - reflexivity.
  - split; vm_compute; try done; split; (discriminate || reflexivity).
  - intros [] B w' [= <- _]. zrange.
  - repeat constructor.
Defined.

(** The gauges of the seconds run as many times too fast as the reporter was started:
    with [starts] tickers, [k] seconds without a successful report add [starts * k] to
    the gauge that is described as the seconds since the last one. *)
Theorem seconds_gauge_runs_fast {BL : BTCLib} {BF : BabylonFormatter} {RT : Retry} {GS : GoSort}
    {W : Type} {BC : BabylonClient W} {CK : Clock W} {BTC : BTCClient W}
    (hexToHash : string → result Hash) (r : ReporterParams)
    (ord0 : gmap Hash CkptSegment → list (Hash * CkptSegment))
    (ord1 : Hash → gmap Hash CkptSegment → list (Hash * CkptSegment))
    (pollFuel fuel starts k : nat) (handling cleaning : bool) (name : string) (s : Reporter) (w : W) :
  name = "SecondsSinceLastHeaderGauge" ∨ name = "SecondsSinceLastCheckpointGauge" →
  ∃ s', goroutines hexToHash r ord0 ord1 pollFuel fuel handling cleaning starts (replicate k GSecond) (s, w)
          = (Val tt, (s', w)) ∧
        gauge_value name (metrics s') = gauge_value name (metrics s) + Z.of_nat starts * Z.of_nat k.
Proof.
  intros Hn. revert s. induction k as [|k IH]; intros s.
  - exists s. split; [done|lia].
  - cbn [replicate goroutines]. rewrite bind_unfold, emit_all.
    set (s1 := mkReporter _ _ _ _ _). destruct (IH s1) as (s' & Hs' & Hv). exists s'. split; [exact Hs'|].
    rewrite Hv. unfold s1. cbn [metrics]. rewrite gauge_value_app, gauge_ticks by eauto using reporter_tick. lia.
Qed.
(** The submitter's gauge likewise: the events of [k] seconds with [starts] tickers. *)
Lemma submitter_gauge_runs_fast (starts k : nat) (ms : list metric_event) :
  gauge_value "SecondsSinceLastCheckpointGauge"
    (ms ++ concat (replicate k (concat (replicate starts SubmitterMetrics_RecordMetrics))))
  = gauge_value "SecondsSinceLastCheckpointGauge" ms + Z.of_nat starts * Z.of_nat k.
Proof.
  rewrite gauge_value_app. generalize (gauge_value "SecondsSinceLastCheckpointGauge" ms) as v. clear ms.
  induction k as [|k IH]; intros v; cbn [replicate concat]; [cbn; lia|].
  rewrite foldl_app, (gauge_ticks _ _ starts v submitter_tick), IH. lia.
Qed.
