(* ===== verification/Datagen.v ===== *)
(** * Random blocks and chains ([testutil/datagen/reporter.go])

    The generator of the chains that the reporter and the caches are exercised on.
    The random source is a state; the generators of Babylon, the script builder, the
    Merkle tree and the check of a header are the interface [DatagenLib].  The search
    for a header that satisfies the difficulty has no bound in the code, so it takes
    fuel. *)

From Stdlib Require Import Floats.SpecFloat.
From S2P Require Import Prelude Blocks.

(** [float32] *)
Definition float32 : Type := spec_float.
Definition f32_add (x y : float32) : float32 := SFadd 24 128 x y.
Definition f32_ltb (x y : float32) : bool := SFltb x y.

(** [btctxformatter.RawBtcCheckpoint] *)
Record RawBtcCheckpoint := mkRawBtcCkpt {
  rb_Epoch : Z;
  rb_BlockHash : bytes;
  rb_BitMap : bytes;
  rb_SubmitterAddress : bytes;
  rb_BlsSig : bytes;
}.

(** [math/rand.Rand] *)
Class Rand (R : Type) := {
  rand_Uint64 : R → Z * R;
  rand_Uint32 : R → Z * R;
  rand_Int63 : R → Z * R;
  rand_Intn : Z → R → Z * R;
  rand_Int31n : Z → R → Z * R;
  rand_Float32 : R → float32 * R;
}.
Class DatagenLib (R : Type) := {
  GenRandomByteArray : Z → R → bytes * R;
  GenRandomBtcdHeader : R → BlockHeader * R;
  HashH : bytes → Hash;
  DoubleHashH : bytes → Hash;
  (** The last entry of [BuildMerkleTreeStore], which exists for a transaction. *)
  MerkleTreeRoot : list MsgTx → Hash;
  BigToCompact : Z → Z;
  (** [ValidateBTCHeader(header, SimNetParams.PowLimit) == nil] *)
  ValidateBTCHeader : BlockHeader → bool;
  gen_EncodeCheckpointData : bytes → RawBtcCheckpoint → result (bytes * bytes);
  (** [NewScriptBuilder().AddOp(OP_RETURN).AddData(data).Script()] *)
  OpReturnScript : bytes → result bytes;
  BlockHashLength : Z;
  BitMapLength : Z;
  AddressLength : Z;
  BlsSigLength : Z;
}.

Section datagen.
Context {BL : BTCLib} {R : Type} {RN : Rand R} {DL : DatagenLib R}.

Definition draw {A} (f : R → A * R) : M R A := λ r, let '(a, r') := f r in (Val a, r').
(** [r.Int31n], which panics for an argument that is not positive. *)
Definition Int31n (n : Z) : M R Z :=
  if n <=? 0 then panic "invalid argument to Int31n" else draw (rand_Int31n n).
(** [if err != nil { panic(err) }] *)
Definition or_panic {A} (r : result A) : M R A :=
  match r with Ok a => mret a | Err _ => panic "err" end.
(** The conversions [int32(x)] and [uint32(x)]. *)
Definition i32 (z : Z) : Z := (z + 2 ^ 31) mod 2 ^ 32 - 2 ^ 31.
Definition MaxInt32 : Z := 2 ^ 31 - 1.

Definition calcMerkleRoot (txns : list MsgTx) : Hash :=
  match txns with [] => 0 | _ => MerkleTreeRoot txns end.

Definition GetRandomRawBtcCheckpoint : M R RawBtcCheckpoint :=
  epoch ← draw rand_Uint64;
  blockHash ← draw (GenRandomByteArray BlockHashLength);
  bitMap ← draw (GenRandomByteArray BitMapLength);
  submitter ← draw (GenRandomByteArray AddressLength);
  blsSig ← draw (GenRandomByteArray BlsSigLength);
  mret (mkRawBtcCkpt epoch blockHash bitMap submitter blsSig).

Definition GenRandomTx : M R MsgTx :=
  prev ← draw (GenRandomByteArray 10);
  index ← draw rand_Uint32;
  script ← draw (GenRandomByteArray 10);
  sequence ← draw rand_Uint32;
  value ← draw rand_Int63;
  pkScript ← draw (GenRandomByteArray 80);
  mret (mkMsgTx 1 [mkTxIn (mkOutPoint (HashH prev) index) script [] sequence] [mkTxOut value pkScript] 0).

(** [tx.TxOut[0] = wire.NewTxOut(0, script)] *)
Definition set_first_out (script : bytes) (tx : MsgTx) : MsgTx :=
  mkMsgTx (tx_Version tx) (TxIn tx) (<[0%nat := mkTxOut 0 script]> (TxOut tx)) (LockTime tx).

Definition GenRandomBabylonTxPair : M R (list MsgTx * RawBtcCheckpoint) :=
  tx0 ← GenRandomTx;
  tx1 ← GenRandomTx;
  rawBTCCkpt ← GetRandomRawBtcCheckpoint;
  halves ← or_panic (gen_EncodeCheckpointData [1; 2; 3; 4] rawBTCCkpt);
  dataScript1 ← or_panic (OpReturnScript (fst halves));
  dataScript2 ← or_panic (OpReturnScript (snd halves));
  mret ([set_first_out dataScript1 tx0; set_first_out dataScript2 tx1], rawBTCCkpt).

Definition GenRandomBabylonTx : M R MsgTx :=
  tx ← GenRandomTx;
  rawBTCCkpt ← GetRandomRawBtcCheckpoint;
  halves ← or_panic (gen_EncodeCheckpointData [1; 2; 3; 4] rawBTCCkpt);
  idx ← draw (rand_Intn 2);
  dataScript ← or_panic (OpReturnScript (if idx =? 0 then fst halves else snd halves));
  mret (set_first_out dataScript tx).

(** The loop that finds a header. *)
Definition set_header (prev merkleRoot bits : Z) (h : BlockHeader) : BlockHeader :=
  mkHeader (hdr_Version h) prev merkleRoot (hdr_Timestamp h) bits (hdr_Nonce h).
Fixpoint find_header (fuel : nat) (merkleRoot workBits : Z) (prevHash : option Hash) : M R BlockHeader :=
  match fuel with
  | O => diverge
  | S fuel =>
      header ← draw GenRandomBtcdHeader;
      prev ← (match prevHash with
              | None => b ← draw (GenRandomByteArray 10); mret (DoubleHashH b)
              | Some h => mret h
              end);
      let header := set_header prev merkleRoot workBits header in
      if ValidateBTCHeader header then mret header else find_header fuel merkleRoot workBits prevHash
  end.
(** 7fff...ff *)
Definition difficulty : Z := 2 ^ 255 - 1.

Definition GenRandomBlock (fuel : nat) (numBabylonTxs : Z) (prevHash : option Hash)
  : M R (MsgBlock * option RawBtcCheckpoint) :=
  txs ← (if numBabylonTxs =? 1 then
           pair ← GenRandomBabylonTxPair;
           tx ← GenRandomTx;
           mret (<[1%nat := tx]> (fst pair), None)
         else if numBabylonTxs =? 2 then
           pair ← GenRandomBabylonTxPair;
           mret (fst pair, Some (snd pair))
         else
           tx0 ← GenRandomTx;
           tx1 ← GenRandomTx;
           mret ([tx0; tx1], None));
  coinbaseTx ← GenRandomTx;
  let msgTxs := coinbaseTx :: fst txs in
  header ← find_header fuel (calcMerkleRoot msgTxs) (BigToCompact difficulty) prevHash;
  mret (mkMsgBlock header msgTxs, snd txs).

(** The loop of [GetRandomIndexedBlocksFromHeight]. *)
Fixpoint indexed_loop (fuel n : nat) (prevHeight : Z) (prevHash : Hash) (ibs : list IndexedBlock)
  : M R (list IndexedBlock) :=
  match n with
  | O => mret ibs
  | S n =>
      res ← GenRandomBlock fuel 1 (Some prevHash);
      let newIb := NewIndexedBlockFromMsgBlock (u32 (prevHeight + 1)) (fst res) in
      indexed_loop fuel n (Height newIb) (HeaderHash (Header newIb)) (ibs ++ [newIb])
  end.
Definition GetRandomIndexedBlocksFromHeight (fuel : nat) (numBlocks rootHeight : Z) (rootHash : Hash)
  : M R (list IndexedBlock) :=
  indexed_loop fuel (Z.to_nat (i64 numBlocks)) (u32 rootHeight) rootHash [].
Definition GetRandomIndexedBlocks (fuel : nat) (numBlocks : Z) : M R (list IndexedBlock) :=
  if numBlocks =? 0 then mret []
  else
    res ← GenRandomBlock fuel 1 None;
    prevHeight ← Int31n (i32 (MaxInt32 - i32 numBlocks));
    let ib := NewIndexedBlockFromMsgBlock (u32 prevHeight) (fst res) in
    ibs ← GetRandomIndexedBlocksFromHeight fuel (u64 (numBlocks - 1)) prevHeight (HeaderHash (Header ib));
    mret (ib :: ibs).

(** The loop of [GenRandomBlockchainWithBabylonTx]; a [switch] draws a number for each
    case it tries. *)
Fixpoint chain_gen (fuel n : nat) (partialPercentage fullPercentage : float32)
    (acc : list MsgBlock * Z * list (option RawBtcCheckpoint))
  : M R (list MsgBlock * Z * list (option RawBtcCheckpoint)) :=
  match n with
  | O => mret acc
  | S n =>
      let '(blocks, numCkptSegs, rawCkpts) := acc in
      match last blocks with
      | None => panic "index out of range"
      | Some tip =>
          let prevHash := HeaderHash (blk_Header tip) in
          x ← draw rand_Float32;
          segs ← (if f32_ltb x partialPercentage then mret 1
                  else
                    y ← draw rand_Float32;
                    mret (if f32_ltb y (f32_add partialPercentage fullPercentage) then 2 else 0));
          res ← GenRandomBlock fuel segs (Some prevHash);
          chain_gen fuel n partialPercentage fullPercentage
            (blocks ++ [fst res], numCkptSegs + segs, rawCkpts ++ [snd res])
      end
  end.
Definition out_of_range (p : float32) : bool := f32_ltb p (S754_zero false) || f32_ltb (S754_finite false 8388608 (-23)) p.
Definition GenRandomBlockchainWithBabylonTx (fuel : nat) (n : Z) (partialPercentage fullPercentage : float32)
  : M R (list MsgBlock * Z * list (option RawBtcCheckpoint)) :=
  if out_of_range partialPercentage || out_of_range fullPercentage || (n =? 0) then mret ([], 0, [])
  else
    genesis ← GenRandomBlock fuel 0 None;
    chain_gen fuel (Z.to_nat (n - 1)) partialPercentage fullPercentage ([fst genesis], 0, [snd genesis]).
End datagen.
