(* ===== verification/DatagenTheorems.v ===== *)
(** * The generated chains are valid inputs *)

From Stdlib Require Import Floats.SpecFloat.
From S2P Require Import Prelude Blocks Datagen.

Section gen.
Context {BL : BTCLib} {R : Type} {RN : Rand R} {DL : DatagenLib R}.

(** Encoding a checkpoint and building its scripts succeed, and [Int31n] is in range. *)
Record gen_lib_ok : Prop := {
  encode_ok : ∀ ck, ∃ d1 d2 s1 s2, gen_EncodeCheckpointData [1; 2; 3; 4] ck = Ok (d1, d2) ∧
    OpReturnScript d1 = Ok s1 ∧ OpReturnScript d2 = Ok s2;
  int31n_range : ∀ n r, 0 < n → 0 ≤ fst (rand_Int31n n r) < n;
}.
(** The search for a header ends within the fuel, from every state of the source. *)
Definition search_ends (fuel : nat) : Prop :=
  ∀ merkleRoot bits prevHash r, ∃ h r', find_header fuel merkleRoot bits prevHash r = (Val h, r').

(** The first output of a transaction carries the data. *)
Definition carries (tx : MsgTx) (data : bytes) : Prop :=
  ∃ script, OpReturnScript data = Ok script ∧ TxOut tx !! 0%nat = Some (mkTxOut 0 script).
(** A block with [k] segments of checkpoints, and the checkpoint that is returned
    with it: two segments are the two halves of that checkpoint. *)
Definition has_segments (k : Z) (res : MsgBlock * option RawBtcCheckpoint) : Prop :=
  match Transactions (fst res) with
  | [_; tx1; tx2] =>
      (k = 0 ∧ snd res = None) ∨
      (k = 1 ∧ snd res = None ∧
         ∃ ck d1 d2, gen_EncodeCheckpointData [1; 2; 3; 4] ck = Ok (d1, d2) ∧ carries tx1 d1) ∨
      (k = 2 ∧ ∃ ck d1 d2, snd res = Some ck ∧
         gen_EncodeCheckpointData [1; 2; 3; 4] ck = Ok (d1, d2) ∧ carries tx1 d1 ∧ carries tx2 d2)
  | _ => False
  end.
(** A valid block on top of [prevHash]. *)
Definition block_valid (prevHash : option Hash) (b : MsgBlock) : Prop :=
  ValidateBTCHeader (blk_Header b) = true ∧
  MerkleRoot (blk_Header b) = MerkleTreeRoot (Transactions b) ∧
  (∀ h, prevHash = Some h → PrevBlock (blk_Header b) = h).

Context (Hlib : gen_lib_ok).

(** ** Runs of the generators *)
Lemma bind_runs {A B} (m : M R A) (k : A → M R B) (P : B → Prop) r :
  (∃ a r1, m r = (Val a, r1) ∧ ∃ b r2, k a r1 = (Val b, r2) ∧ P b) → ∃ b r2, (m ≫= k) r = (Val b, r2) ∧ P b.
Proof. intros (a & r1 & H1 & b & r2 & H2 & HP). exists b, r2. by rewrite bind_unfold, H1. Qed.
Lemma ret_runs {A} (a : A) (P : A → Prop) r : P a → ∃ b r2, (mret a : M R A) r = (Val b, r2) ∧ P b.
Proof. intros HP. by exists a, r. Qed.
(** [runs m P]: the generator returns a value with [P], from every state. *)
Definition runs {A} (m : M R A) (P : A → Prop) : Prop := ∀ r, ∃ a r', m r = (Val a, r') ∧ P a.
Lemma runs_bind {A B} (m : M R A) (k : A → M R B) (Q : A → Prop) (P : B → Prop) :
  runs m Q → (∀ a, Q a → runs (k a) P) → runs (m ≫= k) P.
Proof.
  intros Hm Hk r. apply bind_runs. destruct (Hm r) as (a & r1 & E & HQ). exists a, r1. split; [done|].
  by apply Hk.
Qed.
Lemma runs_ret {A} (a : A) (P : A → Prop) : P a → runs (mret a) P.
Proof. intros HP r. by apply ret_runs. Qed.
Lemma runs_draw {A} (f : R → A * R) : runs (draw f) (λ _, True).
Proof. intros r. unfold draw. destruct (f r) as [a r']. by exists a, r'. Qed.
Lemma runs_weaken {A} (m : M R A) (P Q : A → Prop) : runs m P → (∀ a, P a → Q a) → runs m Q.
Proof. intros Hm HPQ r. destruct (Hm r) as (a & r' & E & HP). exists a, r'. auto. Qed.
Lemma runs_or_panic {A} (x : result A) a : x = Ok a → runs (or_panic x) (λ b, b = a).
Proof. intros ->. by apply runs_ret. Qed.
Ltac gen := repeat (eapply runs_bind; [apply runs_draw|intros ? _]).

Lemma runs_GenRandomTx : runs GenRandomTx (λ tx, ∃ o, TxOut tx = [o]).
Proof. unfold GenRandomTx. gen. apply runs_ret. by eexists. Qed.
Lemma runs_GetRandomRawBtcCheckpoint : runs GetRandomRawBtcCheckpoint (λ _, True).
Proof. unfold GetRandomRawBtcCheckpoint. gen. by apply runs_ret. Qed.
Lemma set_first_out_carries tx o d s : TxOut tx = [o] → OpReturnScript d = Ok s → carries (set_first_out s tx) d.
Proof. intros Ho Hs. exists s. split; [done|]. unfold set_first_out. cbn. by rewrite Ho. Qed.
Lemma runs_pair :
  runs GenRandomBabylonTxPair (λ '(txs, ck), ∃ tx0 tx1 d1 d2, txs = [tx0; tx1] ∧
    gen_EncodeCheckpointData [1; 2; 3; 4] ck = Ok (d1, d2) ∧ carries tx0 d1 ∧ carries tx1 d2).
Proof.
  unfold GenRandomBabylonTxPair.
  eapply runs_bind; [apply runs_GenRandomTx|intros tx0 [o0 H0]].
  eapply runs_bind; [apply runs_GenRandomTx|intros tx1 [o1 H1]].
  eapply runs_bind; [apply runs_GetRandomRawBtcCheckpoint|intros ck _].
  destruct (encode_ok Hlib ck) as (d1 & d2 & s1 & s2 & He & Hs1 & Hs2).
  eapply runs_bind; [by apply (runs_or_panic _ _ He)|intros ? ->].
  eapply runs_bind; [by apply (runs_or_panic _ _ Hs1)|intros ? ->].
  eapply runs_bind; [by apply (runs_or_panic _ _ Hs2)|intros ? ->].
  apply runs_ret. eexists _, _, d1, d2. split_and!; [done..| |]; by eapply set_first_out_carries.
Qed.
(** A transaction with one segment is one half of a checkpoint. *)
Lemma runs_GenRandomBabylonTx :
  runs GenRandomBabylonTx (λ tx, ∃ ck d1 d2, gen_EncodeCheckpointData [1; 2; 3; 4] ck = Ok (d1, d2) ∧
    (carries tx d1 ∨ carries tx d2)).
Proof.
  unfold GenRandomBabylonTx. eapply runs_bind; [apply runs_GenRandomTx|intros tx [o Ho]].
  eapply runs_bind; [apply runs_GetRandomRawBtcCheckpoint|intros ck _].
  destruct (encode_ok Hlib ck) as (d1 & d2 & s1 & s2 & He & Hs1 & Hs2).
  eapply runs_bind; [by apply (runs_or_panic _ _ He)|intros ? ->].
  eapply runs_bind; [apply runs_draw|intros idx _]. destruct (idx =? 0).
  - eapply runs_bind; [apply (runs_or_panic _ _ Hs1)|intros ? ->]. apply runs_ret. exists ck, d1, d2.
    split; [done|]. left. by eapply set_first_out_carries.
  - eapply runs_bind; [apply (runs_or_panic _ _ Hs2)|intros ? ->]. apply runs_ret. exists ck, d1, d2.
    split; [done|]. right. by eapply set_first_out_carries.
Qed.
Lemma find_header_valid fuel merkleRoot bits prevHash r h r' :
  find_header fuel merkleRoot bits prevHash r = (Val h, r') →
  ValidateBTCHeader h = true ∧ MerkleRoot h = merkleRoot ∧ ∀ p, prevHash = Some p → PrevBlock h = p.
Proof.
  revert r. induction fuel as [|fuel IH]; intros r; cbn [find_header]; [done|].
  intros (h0 & r1 & _ & H)%bind_Val_inv. apply bind_Val_inv in H as (p & r2 & Hp & H).
  cbn zeta in H. destruct (ValidateBTCHeader (set_header _ _ _ _)) eqn:E; [|by eapply IH].
  injection H as <- <-. split_and!; [done..|]. intros p' ->. by injection Hp as <- _.
Qed.
Context (fuel : nat) (Hend : search_ends fuel).
Lemma runs_GenRandomBlock k prevHash : k = 0 ∨ k = 1 ∨ k = 2 →
  runs (GenRandomBlock fuel k prevHash) (λ res, block_valid prevHash (fst res) ∧ has_segments k res).
Proof.
  intros Hk. unfold GenRandomBlock.
  eapply (runs_bind _ _ (λ txs, ∃ tx1 tx2, fst txs = [tx1; tx2] ∧
    ∀ c h, has_segments k (mkMsgBlock h (c :: fst txs), snd txs))).
  - destruct Hk as [->|[->| ->]]; cbn [Z.eqb Pos.eqb].
    + do 2 (eapply runs_bind; [apply runs_GenRandomTx|intros ? _]). apply runs_ret.
      eexists _, _. split; [done|]. intros c h. by left.
    + eapply runs_bind; [apply runs_pair|]. intros [txs ck] (tx0 & tx1 & d1 & d2 & -> & He & H1 & _).
      eapply runs_bind; [apply runs_GenRandomTx|intros tx _]. apply runs_ret.
      exists tx0, tx. split; [done|]. intros c h. right. left. split_and!; [done..|]. by exists ck, d1, d2.
    + eapply runs_bind; [apply runs_pair|]. intros [txs ck] (tx0 & tx1 & d1 & d2 & -> & He & H1 & H2).
      apply runs_ret. exists tx0, tx1. split; [done|]. intros c h. right. right. split; [done|]. by exists ck, d1, d2.
  - intros [txs raw] (tx1 & tx2 & E & Hseg). cbn in E. subst txs.
    eapply runs_bind; [apply runs_GenRandomTx|intros c _]. intros r.
    destruct (Hend (calcMerkleRoot (c :: [tx1; tx2])) (BigToCompact difficulty) prevHash r) as (h & r' & Hh).
    apply bind_runs. exists h, r'. split; [exact Hh|]. apply ret_runs.
    destruct (find_header_valid _ _ _ _ _ _ _ Hh) as (Hv & Hm & Hp). split; [done|]. apply Hseg.
Qed.

(** ** Chains *)
Definition linked (bs : list MsgBlock) : Prop :=
  ∀ i b c, bs !! i = Some b → bs !! S i = Some c → PrevBlock (blk_Header c) = HeaderHash (blk_Header b).
Lemma linked_snoc bs tip b :
  linked bs → last bs = Some tip → PrevBlock (blk_Header b) = HeaderHash (blk_Header tip) → linked (bs ++ [b]).
Proof.
  intros Hl Ht Hb i x c Hx Hc. rewrite last_lookup in Ht.
  apply lookup_app_Some in Hc as [Hc|[Hge Hc]].
  - rewrite lookup_app_l in Hx by (apply lookup_lt_Some in Hc; lia). eauto.
  - apply list_lookup_singleton_Some in Hc as [Hi <-].
    rewrite lookup_app_l in Hx by lia. replace (pred (length bs)) with i in Ht by lia. congruence.
Qed.
(** [n] linked valid blocks, the checkpoints of those with both halves, and the number
    of all segments. *)
Definition chain_ok (n : nat) (acc : list MsgBlock * Z * list (option RawBtcCheckpoint)) : Prop :=
  let '(blocks, numCkptSegs, rawCkpts) := acc in
  length blocks = n ∧ length rawCkpts = n ∧ linked blocks ∧ Forall (block_valid None) blocks ∧
  ∃ ks, Forall2 has_segments ks (zip blocks rawCkpts) ∧ numCkptSegs = total id ks.
Lemma chain_ok_snoc n blocks segs raws tip k res :
  chain_ok n (blocks, segs, raws) → last blocks = Some tip →
  block_valid (Some (HeaderHash (blk_Header tip))) (fst res) → has_segments k res →
  chain_ok (S n) (blocks ++ [fst res], segs + k, raws ++ [snd res]).
Proof.
  intros (Hb & Hr & Hl & Hv & ks & Hks & ->) Ht (Hval & Hm & Hp) Hk. split_and!.
  - rewrite length_app. cbn. lia.
  - rewrite length_app. cbn. lia.
  - eapply linked_snoc; eauto.
  - apply Forall_app. split; [done|]. by repeat constructor.
  - exists (ks ++ [k]). rewrite zip_with_app by lia. split.
    + apply Forall2_app; [done|]. constructor; [|constructor]. by destruct res.
    + rewrite total_app. unfold total at 3. cbn. unfold id. lia.
Qed.
Lemma runs_chain_gen n m p q acc :
  (0 < m)%nat → chain_ok m acc → runs (chain_gen fuel n p q acc) (chain_ok (m + n)).
Proof.
  revert m acc. induction n as [|n IH]; intros m [[blocks segs] raws] Hm Hok; cbn [chain_gen].
  { apply runs_ret. by rewrite Nat.add_0_r. }
  destruct (last blocks) as [tip|] eqn:Ht.
  2: { apply last_None in Ht. destruct Hok as (Hb & _). rewrite Ht in Hb. cbn in Hb. lia. }
  eapply runs_bind; [apply runs_draw|intros x _].
  eapply (runs_bind _ _ (λ k, k = 0 ∨ k = 1 ∨ k = 2)).
  { destruct (f32_ltb x p); [apply runs_ret; auto|]. eapply runs_bind; [apply runs_draw|intros y _].
    apply runs_ret. destruct (f32_ltb y _); auto. }
  intros k Hk. eapply runs_bind; [by apply runs_GenRandomBlock|]. intros res [Hv Hs].
  replace (m + S n)%nat with (S m + n)%nat by lia. apply IH; [lia|]. by eapply chain_ok_snoc.
Qed.
Lemma runs_chain n p q :
  0 < n → out_of_range p = false → out_of_range q = false →
  runs (GenRandomBlockchainWithBabylonTx fuel n p q) (chain_ok (Z.to_nat n)).
Proof.
  intros Hn Hp Hq. unfold GenRandomBlockchainWithBabylonTx.
  rewrite Hp, Hq, (proj2 (Z.eqb_neq n 0)) by lia. cbn [orb].
  eapply runs_bind; [apply (runs_GenRandomBlock 0 None); auto|]. intros res [Hv Hs].
  replace (Z.to_nat n) with (1 + Z.to_nat (n - 1))%nat by lia. apply runs_chain_gen; [lia|].
  split_and!; [done|done| |by constructor|].
  - intros i b c _ Hc. by destruct i.
  - exists [0]. split; [|done]. constructor; [by destruct res|constructor].
Qed.

(** ** Indexed blocks *)
(** [n] blocks on top of a block of the given height and hash. *)
Definition extends (height : Z) (hash : Hash) (n : nat) (new : list IndexedBlock) : Prop :=
  length new = n ∧ ∀ root, Height root = height → BlockHash root = hash → chained (root :: new).
Lemma runs_indexed_loop n height hash ibs :
  0 ≤ height → height + Z.of_nat n < 2 ^ 32 →
  runs (indexed_loop fuel n height hash ibs) (λ ibs', ∃ new, ibs' = ibs ++ new ∧ extends height hash n new).
Proof.
  revert height hash ibs. induction n as [|n IH]; intros height hash ibs Hh Hn; cbn [indexed_loop].
  { apply runs_ret. exists []. rewrite app_nil_r. split; [done|]. split; [done|]. by intros. }
  eapply runs_bind; [apply (runs_GenRandomBlock 1); auto|]. intros res [(_ & _ & Hp) _].
  rewrite (u32_id (height + 1)) by (unfold is_u32; lia). set (ib := NewIndexedBlockFromMsgBlock _ _).
  eapply runs_weaken; [apply (IH (height + 1) (HeaderHash (Header ib)) (ibs ++ [ib])); lia|].
  intros ibs' (new & -> & Hlen & Hch). exists (ib :: new). rewrite <-app_assoc. split; [done|]. split; [cbn; lia|].
  intros root Hr Hbh. cbn [chained]. split; [|by apply (Hch ib)].
  split; [cbn; lia|]. cbn. rewrite Hbh. by apply Hp.
Qed.
Lemma runs_indexed numBlocks :
  0 ≤ numBlocks < MaxInt32 →
  runs (GetRandomIndexedBlocks fuel numBlocks) (λ ibs, len ibs = numBlocks ∧ chained ibs ∧
    Forall (λ ib, 0 ≤ Height ib < 2 ^ 31) ibs).
Proof.
  intros Hn. unfold MaxInt32 in Hn. unfold GetRandomIndexedBlocks.
  destruct (numBlocks =? 0) eqn:E0; [apply runs_ret; split_and!; [unfold len; cbn; lia|done|constructor]|].
  assert (i32 numBlocks = numBlocks) as E1 by (unfold i32; rewrite Z.mod_small; lia).
  assert (i32 (MaxInt32 - numBlocks) = MaxInt32 - numBlocks) as E2
    by (unfold i32, MaxInt32; rewrite Z.mod_small; lia).
  eapply runs_bind; [apply (runs_GenRandomBlock 1); auto|]. intros res _. rewrite E1, E2.
  eapply (runs_bind _ _ (λ h, 0 ≤ h < MaxInt32 - numBlocks)).
  { unfold Int31n. destruct (_ <=? 0) eqn:E; [unfold MaxInt32 in E; lia|]. intros r. unfold draw.
    pose proof (int31n_range Hlib (MaxInt32 - numBlocks) r) as Hr. destruct (rand_Int31n _ r) as [h r'].
    exists h, r'. split; [done|]. apply Hr. unfold MaxInt32. lia. }
  intros h Hh. unfold MaxInt32 in Hh. cbn zeta. rewrite (u32_id h) by (unfold is_u32; lia).
  unfold GetRandomIndexedBlocksFromHeight. rewrite (u32_id h) by (unfold is_u32; lia).
  rewrite u64_id by (unfold is_u64; lia). rewrite i64_id by (unfold is_i64; lia).
  set (ib := NewIndexedBlockFromMsgBlock h (fst res)).
  eapply runs_bind; [apply (runs_indexed_loop _ h (HeaderHash (Header ib)) []); lia|].
  intros ibs (new & -> & Hlen & Hch). apply runs_ret. specialize (Hch ib eq_refl eq_refl).
  split_and!; [unfold len; cbn; lia|exact Hch|].
  apply Forall_lookup. intros i x Hx. pose proof (chained_height _ ib i x Hch Hx) as Hhx.
  apply lookup_lt_Some in Hx. cbn in Hx. rewrite Hhx. cbn. lia.
Qed.
End gen.

(** The chains the tests of the reporter run on are what they claim to be.  For a
    positive number of blocks and percentages within 0 and 1, and when every search for
    a header ends, the generator returns (it does not panic) that many blocks; every
    header passes validation, has the Merkle root of its transactions and names the
    block before it; the number of segments returned is that of the halves of
    checkpoints in the blocks, and the checkpoint returned for a block is the one whose
    two halves are in it. *)
Theorem generated_chain_is_valid {BL : BTCLib} {R : Type} {RN : Rand R} {DL : DatagenLib R}
    (fuel : nat) (n : Z) (partialPercentage fullPercentage : float32) (r : R) :
  gen_lib_ok → search_ends fuel → 0 < n →
  out_of_range partialPercentage = false → out_of_range fullPercentage = false →
  ∃ blocks numCkptSegs rawCkpts r',
    GenRandomBlockchainWithBabylonTx fuel n partialPercentage fullPercentage r
      = (Val (blocks, numCkptSegs, rawCkpts), r') ∧
    len blocks = n ∧ len rawCkpts = n ∧ linked blocks ∧ Forall (block_valid None) blocks ∧
    ∃ ks, Forall2 has_segments ks (zip blocks rawCkpts) ∧ numCkptSegs = total id ks.
Proof.
  intros Hlib Hend Hn Hp Hq.
  destruct (runs_chain Hlib fuel Hend n _ _ Hn Hp Hq r) as ([[blocks segs] raws] & r' & E & Hb & Hr & Hrest).
  exists blocks, segs, raws, r'. split; [done|]. split; [unfold len; lia|]. split; [unfold len; lia|]. exact Hrest.
Qed.

(** And the indexed blocks are consecutive blocks of one chain, at heights below
    [2^31], for every number of blocks that leaves room for a root height. *)
Theorem generated_blocks_are_chained {BL : BTCLib} {R : Type} {RN : Rand R} {DL : DatagenLib R}
    (fuel : nat) (numBlocks : Z) (r : R) :
  gen_lib_ok → search_ends fuel → 0 ≤ numBlocks < MaxInt32 →
  ∃ ibs r', GetRandomIndexedBlocks fuel numBlocks r = (Val ibs, r') ∧
    len ibs = numBlocks ∧ chained ibs ∧ Forall (λ ib, 0 ≤ Height ib < 2 ^ 31) ibs.
Proof. intros Hlib Hend Hn. exact (runs_indexed Hlib fuel Hend numBlocks Hn r). Qed.

(** With no room left the generator panics. *)
Lemma generated_blocks_panic {BL : BTCLib} {R : Type} {RN : Rand R} {DL : DatagenLib R} (fuel : nat) (r : R) :
  gen_lib_ok → search_ends fuel → ∃ p r', GetRandomIndexedBlocks fuel MaxInt32 r = (Panic p, r').
Proof.
  intros Hlib Hend. destruct (runs_GenRandomBlock Hlib fuel Hend 1 None (or_intror (or_introl eq_refl)) r) as (res & r' & E & _).
  exists "invalid argument to Int31n", r'. unfold GetRandomIndexedBlocks.
  replace (MaxInt32 =? 0) with false by done. by rewrite bind_unfold, E.
Qed.

(** ** A source that counts *)
#[local] Instance count_rand : Rand Z := {|
  rand_Uint64 r := (r, r + 1);
  rand_Uint32 r := (r, r + 1);
  rand_Int63 r := (r, r + 1);
  rand_Intn n r := (r mod n, r + 1);
  rand_Int31n n r := (r mod n, r + 1);
  rand_Float32 r := (S754_zero false, r + 1);
|}.
#[local] Instance count_blocks : BTCLib := {|
  HeaderHash h := 1000 + hdr_Nonce h;
  TxHash tx := LockTime tx;
  NewBTCHeaderBytesFromBlockHeader h := [hdr_Nonce h];
  Serialize tx := Ok [];
  BTCSpvProof := unit;
  SpvProofFromHeaderAndTransactions _ _ _ := Ok tt;
|}.
(** Every third header is accepted. *)
#[local] Instance count_datagen : DatagenLib Z := {|
  GenRandomByteArray n r := ([r], r + 1);
  GenRandomBtcdHeader r := (mkHeader 1 0 0 0 0 r, r + 1);
  HashH b := len b;
  DoubleHashH b := len b;
  MerkleTreeRoot txs := len txs;
  BigToCompact z := 1;
  ValidateBTCHeader h := hdr_Nonce h mod 3 =? 0;
  gen_EncodeCheckpointData tag ck := Ok (tag ++ [0; rb_Epoch ck], tag ++ [1; rb_Epoch ck]);
  OpReturnScript d := Ok (106 :: d);
  BlockHashLength := 32;
  BitMapLength := 13;
  AddressLength := 20;
  BlsSigLength := 48;
|}.
Lemma count_lib_ok : gen_lib_ok.
Proof.
  split; [intros ck; by eexists _, _, _, _|]. intros n r Hn. cbn. by apply Z.mod_pos_bound.
Qed.
(** One try, which draws one number, or two when the parent is random too. *)
Lemma count_try fuel m b (p : option Z) (r : Z) :
  let prev := default 1 p in
  let r' := match p with Some _ => r + 1 | None => r + 1 + 1 end in
  find_header (S fuel) m b p r =
    if r mod 3 =? 0 then (Val (mkHeader 1 prev m 0 b r), r') else find_header fuel m b p r'.
Proof. destruct p; cbn; unfold mbind, M_bind; cbn; by destruct (r mod 3 =? 0). Qed.
Lemma count_search : search_ends 3.
Proof.
  intros m b p r. rewrite !count_try. cbn zeta. destruct p;
    repeat (case_match; [by eexists _, _|]); exfalso; Z.to_euclidean_division_equations; lia.
Qed.
(** Half of the blocks have one segment at most. *)
Definition half : float32 := S754_finite false 8388608 (-24).
Lemma generated_chain_is_valid_witness :
  ∃ blocks numCkptSegs rawCkpts r',
    GenRandomBlockchainWithBabylonTx 3 4 half half 0 = (Val (blocks, numCkptSegs, rawCkpts), r') ∧
    len blocks = 4 ∧ len rawCkpts = 4 ∧ linked blocks ∧ Forall (block_valid None) blocks ∧
    ∃ ks, Forall2 has_segments ks (zip blocks rawCkpts) ∧ numCkptSegs = total id ks.
Proof.
  apply (generated_chain_is_valid 3 4 half half 0 count_lib_ok count_search); [lia|reflexivity..].
Defined.
Lemma generated_blocks_are_chained_witness :
  ∃ ibs r', GetRandomIndexedBlocks 3 5 0 = (Val ibs, r') ∧
    len ibs = 5 ∧ chained ibs ∧ Forall (λ ib, 0 ≤ Height ib < 2 ^ 31) ibs.
Proof. apply (generated_blocks_are_chained 3 5 0 count_lib_ok count_search). unfold MaxInt32. lia. Defined.
