(* ===== verification/CommandLine.v ===== *)
(** * The command line ([cmd/vigilante])

    The root command, its subcommands with their flags, the text of the version
    command and [main].  A command is the record cobra is given; which subcommand an
    argument selects is cobra's rule, the first word of [Use] or an alias.  What the
    commands run is in Commands.v and ConfigDump.v. *)

From S2P Require Import Prelude ChangeAddress.

Inductive flag_kind := FlagString | FlagUint64.
Record Flag := mkFlag { flag_Name : string; flag_Kind : flag_kind; flag_Default : string; flag_Usage : string }.
#[global] Instance flag_kind_dec : EqDecision flag_kind.
Proof. solve_decision. Defined.
#[global] Instance Flag_dec : EqDecision Flag.
Proof. solve_decision. Defined.
(** [cobra.Command]; [cmd_NoArgs] when [Args] is [cobra.NoArgs]. *)
Record Command := mkCommand {
  cmd_Use : string;
  cmd_Short : string;
  cmd_Aliases : list string;
  cmd_NoArgs : bool;
  cmd_Flags : list Flag;
}.

Section commands.
(** [config.DefaultConfigFile()] *)
Context (DefaultConfigFile : string).
Definition config_flag : Flag := mkFlag "config" FlagString DefaultConfigFile "config file".

Definition reporter_flags : list Flag :=
  [mkFlag "babylon-key-dir" FlagString "" "Directory of the Babylon key"; config_flag].
Definition GetReporterCmd : Command := mkCommand "reporter" "Vigilant reporter" [] false reporter_flags.
Definition submitter_flags : list Flag := [config_flag].
Definition GetSubmitterCmd : Command := mkCommand "submitter" "Vigilant submitter" [] false submitter_flags.
Definition genesisFileNameFlag : string := "genesis".
Definition GenesisFileNameDefault : string := "genesis.json".
Definition monitor_flags : list Flag :=
  [mkFlag genesisFileNameFlag FlagString GenesisFileNameDefault "genesis file"; config_flag].
Definition GetMonitorCmd : Command :=
  mkCommand "monitor"
    "Vigilante monitor constantly checks the consistency between the Babylon node and BTC and detects censorship of BTC checkpoints"
    [] false monitor_flags.
Definition tracker_flags : list Flag :=
  [mkFlag "babylon-key" FlagString "" "Directory of the Babylon key"; config_flag;
   mkFlag "start-height" FlagUint64 "0" "height that the BTC slasher starts scanning for evidences"].
Definition GetBTCStakingTracker : Command := mkCommand "bstracker" "BTC staking tracker" [] false tracker_flags.
Definition configFileDirFlag : string := "config-file-dir".
Definition CommandDumpConfig : Command :=
  mkCommand "dump-cfg" "Dumps the default vigilante at the specified path" ["dc"] true
    [mkFlag configFileDirFlag FlagString "" "Path to where the default config file will be dumped"].
Definition CommandVersion : Command :=
  mkCommand "version" "Prints version of this binary." ["v"] true [].
(** The root command: its [Use], its [Short] and its subcommands. *)
Definition NewRootCmd : string * string * list Command :=
  ("vigilante", "Babylon vigilante",
   [GetReporterCmd; GetSubmitterCmd; GetMonitorCmd; GetBTCStakingTracker; CommandDumpConfig; CommandVersion]).

(** The subcommands an argument names. *)
Definition answers (arg : string) (c : Command) : bool := bool_decide (arg = cmd_Use c ∨ arg ∈ cmd_Aliases c).
Definition selected (arg : string) : list Command := List.filter (answers arg) (snd NewRootCmd).
End commands.

(** What the version command prints, for the version of the build and its settings. *)
Definition newline : string := String (Ascii.ascii_of_nat 10) EmptyString.
Definition version_text (version : string) (info : option (list BuildSetting)) : string :=
  let '(commit, ts) := CommitInfo info in
  let v := if bool_decide (version = "") then "main" else version in
  "Version:       " +:+ v +:+ newline +:+ "Git Commit:    " +:+ commit +:+ newline
    +:+ "Git Timestamp: " +:+ ts +:+ newline.

(** [main]: the error of [Execute] is printed and the process exits with 1. *)
Definition main {W} (SetAddressPrefixes : M W unit) (Execute : M W (option gerror)) (Print : gerror → M W unit)
  : M W Z :=
  SetAddressPrefixes ;;
  err ← Execute;
  match err with
  | Some err => Print err ;; mret 1
  | None => mret 0
  end.

(** ** An argument selects at most one command *)
Definition all_names (d : string) : list string :=
  concat ((λ c, cmd_Use c :: cmd_Aliases c) <$> snd (NewRootCmd d)).
Lemma names_distinct d : NoDup (all_names d).
Proof.
  change (NoDup ["reporter"; "submitter"; "monitor"; "bstracker"; "dump-cfg"; "dc"; "version"; "v"]).
  apply (bool_decide_unpack _). vm_compute. done.
Qed.
(** A name or an alias selects exactly one command, and nothing else selects any. *)
Lemma selects_one arg cs : NoDup (concat ((λ c, cmd_Use c :: cmd_Aliases c) <$> cs)) →
  length (List.filter (answers arg) cs) =
    if bool_decide (arg ∈ concat ((λ c, cmd_Use c :: cmd_Aliases c) <$> cs)) then 1%nat else 0%nat.
Proof.
  induction cs as [|c cs IH]; [done|]. change (concat _) with
    ((cmd_Use c :: cmd_Aliases c) ++ concat ((λ c, cmd_Use c :: cmd_Aliases c) <$> cs)).
  intros (_ & Hd & Hn)%NoDup_app. specialize (IH Hn). cbn [List.filter]. unfold answers at 1.
  destruct (decide (arg = cmd_Use c ∨ arg ∈ cmd_Aliases c)) as [Ha|Ha];
    [rewrite (bool_decide_eq_true_2 _ Ha)|rewrite (bool_decide_eq_false_2 _ Ha)].
  - assert (arg ∈ cmd_Use c :: cmd_Aliases c) as He by (by apply elem_of_cons).
    cbn [length]. rewrite IH, bool_decide_eq_false_2 by (by apply Hd). rewrite bool_decide_eq_true_2; [done|].
    apply elem_of_app. by left.
  - rewrite IH. apply (f_equal (λ b : bool, if b then 1%nat else 0%nat)), bool_decide_ext.
    rewrite elem_of_app, elem_of_cons. tauto.
Qed.
Theorem command_is_selected d arg :
  length (selected d arg) = if bool_decide (arg ∈ all_names d) then 1%nat else 0%nat.
Proof. apply selects_one, names_distinct. Qed.
